(** * Chat Organizer: the classification pipeline and its hierarchy store

    A shallow embedding of [similarity.ts], [hash.ts], [tree.ts],
    [pipeline.ts] and the queue processor of [content.ts], followed by the
    properties of the engine that the specification states.

    Conventions.
    - A JavaScript [number] holding a similarity score, a threshold or a
      vector component is an IEEE 754 binary64 value, i.e. a primitive
      [float]; [>=], [>] and [===] on numbers are [leb], [ltb] and [eqb]
      with their arguments in the order of the source.
    - A [number] holding a position, a timestamp or a count is an integer
      ([Z] or [nat]).
    - A JavaScript string is a [string]; every character stands for one
      code unit in the Latin-1 range.
    - [Record<string, V>] and [Map<string, V>] are insertion-ordered
      dictionaries ([Dict V]) of their own entries: the order is observable
      through [Object.values] and [Map.entries]. The keys that the program
      adds to [index.nodes] all start with [node_], so that the rule that
      lists integer-like keys first does not apply to them; [index.cache]
      is read by key only.
    - A read [obj[k]] on a plain object finds the own entry under [k] or,
      failing that, the member of [Object.prototype] of that name
      ([lookup]). A [Map] has no such second source.
    - The store is mutated in place by the source; here it is threaded
      through the computation, and the suspending calls ([sendToBackground],
      [Date.now], [Math.random]) are events of a small interaction monad. *)

From Stdlib Require Import ZArith List Bool Lia String Ascii.
From Stdlib Require Import Floats DecimalString.
Import ListNotations.

Set Implicit Arguments.

Local Open Scope string_scope.
Local Open Scope list_scope.
Local Open Scope nat_scope.

(* ================================================================== *)
(** * Part I. The program *)
(* ================================================================== *)

(** ** Strings *)

(** [text.slice(0, n)] *)
Definition slice0 (n : nat) (s : string) : string := substring 0 n s.

(** The white space and line terminator code units below 256. *)
Definition isWhiteSpace (c : ascii) : bool :=
  let n := nat_of_ascii c in
  ((9 <=? n) && (n <=? 13)) || (n =? 32) || (n =? 160).

Fixpoint trimStart (s : string) : string :=
  match s with
  | EmptyString => EmptyString
  | String c r => if isWhiteSpace c then trimStart r else s
  end.

Fixpoint trimEnd (s : string) : string :=
  match s with
  | EmptyString => EmptyString
  | String c r =>
      match trimEnd r with
      | EmptyString => if isWhiteSpace c then EmptyString else String c EmptyString
      | r' => String c r'
      end
  end.

(** [s.trim()] *)
Definition trim (s : string) : string := trimEnd (trimStart s).

(** Decimal rendering of an integer, as in a template literal. *)
Definition showZ (n : Z) : string := NilZero.string_of_int (Z.to_int n).

(** ** Insertion-ordered dictionaries *)

Definition Dict (V : Type) : Type := list (string * V).

Section Dict.
Variable V : Type.

(** [d[k]], [m.get(k)] *)
Fixpoint dict_get (k : string) (d : Dict V) : option V :=
  match d with
  | [] => None
  | (k', v) :: r => if String.eqb k k' then Some v else dict_get k r
  end.

(** [k in d], [m.has(k)] *)
Definition dict_has (k : string) (d : Dict V) : bool :=
  match dict_get k d with Some _ => true | None => false end.

(** [d[k] = v], [m.set(k, v)]: an existing key keeps its position. *)
Fixpoint dict_set (k : string) (v : V) (d : Dict V) : Dict V :=
  match d with
  | [] => [(k, v)]
  | (k', v') :: r =>
      if String.eqb k k' then (k, v) :: r else (k', v') :: dict_set k v r
  end.

(** A field assignment on the object stored under [k]. *)
Fixpoint dict_update (k : string) (f : V -> V) (d : Dict V) : Dict V :=
  match d with
  | [] => []
  | (k', v) :: r =>
      if String.eqb k k' then (k', f v) :: r else (k', v) :: dict_update k f r
  end.

Definition dict_keys (d : Dict V) : list string := map fst d.
Definition dict_values (d : Dict V) : list V := map snd d.
End Dict.

(** ** Reads on a plain object

    [index.nodes] is an object literal, so [index.nodes[k]] also finds what
    [Object.prototype] holds under [k]: a function, or under [__proto__]
    the prototype itself. Such a value is truthy and has none of the
    fields of a node. *)

Definition inheritedNames : list string :=
  ["constructor"; "hasOwnProperty"; "isPrototypeOf"; "propertyIsEnumerable";
   "toLocaleString"; "toString"; "valueOf"; "__proto__";
   "__defineGetter__"; "__defineSetter__"; "__lookupGetter__";
   "__lookupSetter__"].

Definition isInherited (k : string) : bool :=
  existsb (String.eqb k) inheritedNames.

(** What [obj[k]] evaluates to: the own entry, an inherited member, or
    [undefined]. *)
Inductive Lookup (V : Type) : Type :=
| Own (v : V)
| Inherited
| Missing.

Arguments Own {V} v.
Arguments Inherited {V}.
Arguments Missing {V}.

Definition lookup {V : Type} (k : string) (d : Dict V) : Lookup V :=
  match dict_get k d with
  | Some v => Own v
  | None => if isInherited k then Inherited else Missing
  end.

(** ** similarity.ts *)

Definition Vector : Type := list float.

Fixpoint cosineLoop (a b : Vector) (acc : float * float * float)
  : float * float * float :=
  match a, b with
  | x :: a', y :: b' =>
      let '(dot, magA, magB) := acc in
      cosineLoop a' b' (dot + x * y, magA + x * x, magB + y * y)%float
  | _, _ => acc
  end.

Definition cosineSimilarity (a b : Vector) : float :=
  if negb (List.length a =? List.length b) || (List.length a =? 0) then 0%float
  else
    let '(dot, magA, magB) := cosineLoop a b (0, 0, 0)%float in
    let denom := (sqrt magA * sqrt magB)%float in
    if (denom =? 0)%float then 0%float else (dot / denom)%float.

Record Match : Type := mkMatch { match_id : string; score : float }.

Definition Candidate : Type := (string * Vector)%type.

(** One iteration of the [for ... of candidates] loop of [bestMatch]. *)
Definition bestMatch_step (queryEmbedding : Vector) (threshold : float)
    (best : option Match) (c : Candidate) : option Match :=
  let '(id, embedding) := c in
  if List.length embedding =? 0 then best
  else
    let score := cosineSimilarity queryEmbedding embedding in
    if (threshold <=? score)%float
       && match best with
          | None => true
          | Some (mkMatch _ best_score) => (best_score <? score)%float
          end
    then Some (mkMatch id score)
    else best.

Definition bestMatch (queryEmbedding : Vector) (candidates : list Candidate)
    (threshold : float) : option Match :=
  fold_left (bestMatch_step queryEmbedding threshold) candidates None.

(** ** hash.ts *)

(** [ToInt32]: the signed 32-bit integer congruent to [n]. *)
Definition toInt32 (n : Z) : Z :=
  let m := (n mod 2 ^ 32)%Z in
  if (m <? 2 ^ 31)%Z then m else (m - 2 ^ 32)%Z.

(** [Math.imul(a, b)] *)
Definition imul (a b : Z) : Z := toInt32 (a * b).

(** [text.charCodeAt(i)] *)
Definition charCode (c : ascii) : Z := Z.of_nat (nat_of_ascii c).

Fixpoint hashLoop (h : Z) (text : string) : Z :=
  match text with
  | EmptyString => h
  | String c r => hashLoop (toInt32 (imul h 31 + charCode c)) r
  end.

Definition hexDigit (n : Z) : ascii :=
  match n with
  | 0 => "0" | 1 => "1" | 2 => "2" | 3 => "3" | 4 => "4" | 5 => "5"
  | 6 => "6" | 7 => "7" | 8 => "8" | 9 => "9" | 10 => "a" | 11 => "b"
  | 12 => "c" | 13 => "d" | 14 => "e" | _ => "f"
  end%Z%char.

Fixpoint hexDigits (width : nat) (n : Z) (acc : string) : string :=
  match width with
  | O => acc
  | S w => hexDigits w (n / 16)%Z (String (hexDigit (n mod 16)%Z) acc)
  end.

(** [(h >>> 0).toString(16).padStart(8, '0')]: a value below [2^32] has at
    most eight hexadecimal digits. *)
Definition hashPrompt (text : string) : string :=
  hexDigits 8 (hashLoop 5381 text mod 2 ^ 32)%Z EmptyString.

(** ** tree.ts: types *)

Inductive NodeRank : Type := Rank0 | Rank1 | Rank2 | Rank3.

Definition rank_nat (r : NodeRank) : nat :=
  match r with Rank0 => 0 | Rank1 => 1 | Rank2 => 2 | Rank3 => 3 end.

Definition rank_eqb (a b : NodeRank) : bool := rank_nat a =? rank_nat b.

Record OutlineNode : Type := mkNode {
  node_id : string;
  label : string;
  rank : NodeRank;
  children : list string;
  promptIndices : list Z;
  promptCount : nat;
  createdAt : Z;
  updatedAt : Z
}.

Record PromptRecord : Type := mkPromptRecord {
  rec_index : Z;
  rec_fullText : string;
  rec_firstSentence : string;
  rec_hash : string
}.

Record CacheEntry : Type := mkCacheEntry {
  cache_nodeId : string;
  cache_confidence : float
}.

Record ConversationIndex : Type := mkIndex {
  conversationId : string;
  prompts : list PromptRecord;
  nodes : Dict OutlineNode;
  embeddings : Dict Vector;
  cache : Dict CacheEntry
}.

(** Field assignments. *)
Definition set_children (cs : list string) (n : OutlineNode) : OutlineNode :=
  mkNode n.(node_id) n.(label) n.(rank) cs n.(promptIndices) n.(promptCount)
         n.(createdAt) n.(updatedAt).
Definition set_promptIndices (ps : list Z) (n : OutlineNode) : OutlineNode :=
  mkNode n.(node_id) n.(label) n.(rank) n.(children) ps n.(promptCount)
         n.(createdAt) n.(updatedAt).
Definition set_promptCount (c : nat) (n : OutlineNode) : OutlineNode :=
  mkNode n.(node_id) n.(label) n.(rank) n.(children) n.(promptIndices) c
         n.(createdAt) n.(updatedAt).
Definition set_updatedAt (t : Z) (n : OutlineNode) : OutlineNode :=
  mkNode n.(node_id) n.(label) n.(rank) n.(children) n.(promptIndices)
         n.(promptCount) n.(createdAt) t.

Definition set_prompts (ps : list PromptRecord) (i : ConversationIndex) :=
  mkIndex i.(conversationId) ps i.(nodes) i.(embeddings) i.(cache).
Definition set_nodes (ns : Dict OutlineNode) (i : ConversationIndex) :=
  mkIndex i.(conversationId) i.(prompts) ns i.(embeddings) i.(cache).
Definition set_embeddings (es : Dict Vector) (i : ConversationIndex) :=
  mkIndex i.(conversationId) i.(prompts) i.(nodes) es i.(cache).
Definition set_cache (c : Dict CacheEntry) (i : ConversationIndex) :=
  mkIndex i.(conversationId) i.(prompts) i.(nodes) i.(embeddings) c.

(** ** storage.ts: types *)

Record StoredConversation : Type := mkStored {
  stored_conversationId : string;
  stored_prompts : list PromptRecord;
  stored_nodes : Dict OutlineNode;
  stored_cache : Dict CacheEntry
}.

Record Settings : Type := mkSettings {
  geminiApiKey : string;
  thresholdHigh : float;
  thresholdLow : float
}.

(** ** The outside world

    [sendToBackground] answers a [GEMINI_EMBED] request with an embedding or
    an error and a [GEMINI_LABEL] request with a label or an error (the
    dispatch of [handleMessage] in background.ts). [RandomSuffix] stands
    for [Math.random().toString(36).slice(2, 7)]. [SaveConversation]
    answers [true] when the promise resolves and [false] when it rejects. *)

Inductive EmbedResponse : Type :=
| EmbedOk (embedding : Vector)
| EmbedErr (error : string).

Inductive LabelResponse : Type :=
| LabelOk (label : string)
| LabelErr (error : string).

Inductive Event : Type -> Type :=
| GEMINI_EMBED (text : string) : Event EmbedResponse
| GEMINI_LABEL (context : string) (existingLabels : list string)
    : Event LabelResponse
| DateNow : Event Z
| RandomSuffix : Event string
| SaveConversation (stored : StoredConversation) : Event bool.

(** A computation that suspends on events: the inductive, finite
    interaction trees. *)
Inductive Prog (A : Type) : Type :=
| Ret (a : A)
| Vis (X : Type) (e : Event X) (k : X -> Prog A).

Arguments Ret {A} a.
Arguments Vis {A X} e k.

Fixpoint pbind {A B : Type} (p : Prog A) (f : A -> Prog B) : Prog B :=
  match p with
  | Ret a => f a
  | Vis e k => Vis e (fun x => pbind (k x) f)
  end.

(** What an observer records of one event and its answer. *)
Inductive Obs : Type :=
| ObsEmbed (text : string) (r : EmbedResponse)
| ObsLabel (context : string) (existingLabels : list string) (r : LabelResponse)
| ObsNow (t : Z)
| ObsRandom (s : string)
| ObsSave (stored : StoredConversation) (ok : bool).

Definition observe {X : Type} (e : Event X) : X -> Obs :=
  match e in Event T return T -> Obs with
  | GEMINI_EMBED text => ObsEmbed text
  | GEMINI_LABEL context existingLabels => ObsLabel context existingLabels
  | DateNow => ObsNow
  | RandomSuffix => ObsRandom
  | SaveConversation stored => ObsSave stored
  end.

(** [Runs p tr a]: under the answers recorded in [tr], [p] performs exactly
    the events of [tr], in that order, and ends with [a]. *)
Fixpoint Runs {A : Type} (p : Prog A) (tr : list Obs) (a : A) : Prop :=
  match p with
  | Ret a' => tr = [] /\ a = a'
  | Vis e k => exists x tr', tr = observe e x :: tr' /\ Runs (k x) tr' a
  end.

(** An environment that answers every event from its arguments alone. *)
Definition Oracle : Type := forall X : Type, Event X -> X.

Fixpoint runWith {A : Type} (o : Oracle) (p : Prog A) : list Obs * A :=
  match p with
  | Ret a => ([], a)
  | Vis e k =>
      let x := o _ e in
      let '(tr, a) := runWith o (k x) in
      (observe e x :: tr, a)
  end.

(** The calls to the embedding and label capabilities in a trace. *)
Definition isCapabilityCall (o : Obs) : bool :=
  match o with
  | ObsEmbed _ _ | ObsLabel _ _ _ => true
  | _ => false
  end.

Definition capabilityCalls (tr : list Obs) : nat :=
  List.length (filter isCapabilityCall tr).

(** ** Computations over the index

    Every function of tree.ts and pipeline.ts receives the one
    [ConversationIndex] object and mutates it in place; [M] threads it. A
    thrown exception leaves the mutations made so far in the index. *)

(** [Error(message)], the [RangeError] of an exhausted call stack, and the
    [TypeError] of a read or a call on [undefined]. *)
Inductive JsError : Type :=
| Error (message : string)
| RangeError
| TypeError.

Inductive Outcome (A : Type) : Type :=
| Returned (a : A)
| Thrown (e : JsError).

Arguments Returned {A} a.
Arguments Thrown {A} e.

Definition M (A : Type) : Type :=
  ConversationIndex -> Prog (Outcome A * ConversationIndex).

Definition ret {A : Type} (a : A) : M A := fun i => Ret (Returned a, i).

Definition throw {A : Type} (e : JsError) : M A := fun i => Ret (Thrown e, i).

Definition bind {A B : Type} (m : M A) (f : A -> M B) : M B :=
  fun i =>
    pbind (m i) (fun r =>
      match r with
      | (Returned a, i') => f a i'
      | (Thrown e, i') => Ret (Thrown e, i')
      end).

Definition get : M ConversationIndex := fun i => Ret (Returned i, i).

Definition modify (f : ConversationIndex -> ConversationIndex) : M unit :=
  fun i => Ret (Returned tt, f i).

Definition await {X : Type} (e : Event X) : M X :=
  fun i => Vis e (fun x => Ret (Returned x, i)).

(** The outcome of a call that does not touch the index. *)
Definition outcome {A : Type} (o : Outcome A) : M A := fun i => Ret (o, i).

Notation "x <- m ;; k" := (bind m (fun x => k))
  (at level 61, m at next level, right associativity).
Notation "m ;; k" := (bind m (fun _ => k))
  (at level 61, right associativity).

Fixpoint forEach {A : Type} (l : list A) (body : A -> M unit) : M unit :=
  match l with
  | [] => ret tt
  | a :: r => body a ;; forEach r body
  end.

(** ** tree.ts: operations *)

Definition createIndex (conversationId : string) : Prog ConversationIndex :=
  Vis DateNow (fun createdAt =>
  Vis DateNow (fun updatedAt =>
    let root := mkNode "root" "root" Rank0 [] [] 0 createdAt updatedAt in
    Ret (mkIndex conversationId [] [("root", root)] [] []))).

Definition pushChild (id : string) (parent : OutlineNode) : OutlineNode :=
  set_children (parent.(children) ++ [id]) parent.

Definition pushPrompt (promptIndex : Z) (node : OutlineNode) : OutlineNode :=
  set_promptIndices (node.(promptIndices) ++ [promptIndex]) node.

(** [node_${Date.now()}_${Math.random().toString(36).slice(2, 7)}] *)
Definition makeId (now : Z) (suffix : string) : string :=
  ("node_" ++ showZ now ++ "_" ++ suffix)%string.

(** [index.nodes[id] = node] *)
Definition storeNode (node : OutlineNode) (index : ConversationIndex)
  : ConversationIndex :=
  set_nodes (dict_set node.(node_id) node index.(nodes)) index.

(** [parent.children.push(id)] on the node stored under [parentId] *)
Definition linkChild (parentId id : string) (index : ConversationIndex)
  : ConversationIndex :=
  set_nodes (dict_update parentId (pushChild id) index.(nodes)) index.

(** [index.embeddings.set(id, embedding)] *)
Definition storeEmbedding (id : string) (embedding : Vector)
    (index : ConversationIndex) : ConversationIndex :=
  set_embeddings (dict_set id embedding index.(embeddings)) index.

(** The parent is read after the node is stored. Under an inherited name
    [parent] is truthy and [parent.children] is undefined: the push throws
    with the node stored and the embedding not yet. An array is truthy, so
    a given embedding is always stored. The returned record is the node as
    created; the callers read only its identifier. *)
Definition spawnNode (parentId label : string) (rank : NodeRank)
    (embedding : option Vector) : M OutlineNode :=
  now <- await DateNow ;;
  suffix <- await RandomSuffix ;;
  let id := makeId now suffix in
  createdAt <- await DateNow ;;
  updatedAt <- await DateNow ;;
  let node := mkNode id label rank [] [] 0 createdAt updatedAt in
  modify (storeNode node) ;;
  index <- get ;;
  match lookup parentId index.(nodes) with
  | Own _ => modify (linkChild parentId id)
  | Inherited => throw TypeError
  | Missing => ret tt
  end ;;
  match embedding with
  | Some e => modify (storeEmbedding id e)
  | None => ret tt
  end ;;
  ret node.

(** The statements of [insertPromptIntoNode] before and after it reads the
    clock, on a node that exists. *)
Definition attachPrompt (nodeId : string) (promptIndex : Z)
    (index : ConversationIndex) : ConversationIndex :=
  set_nodes
    (dict_update nodeId
       (fun node =>
          if existsb (Z.eqb promptIndex) node.(promptIndices)
          then node
          else pushPrompt promptIndex node)
       index.(nodes))
    index.

Definition touchNode (nodeId : string) (now : Z) (index : ConversationIndex)
  : ConversationIndex :=
  set_nodes (dict_update nodeId (set_updatedAt now) index.(nodes)) index.

(** Under an inherited name [node] is truthy and [node.promptIndices] is
    undefined: the call of [includes] on it throws. *)
Definition insertPromptIntoNode (nodeId : string) (promptIndex : Z)
  : M unit :=
  index <- get ;;
  match lookup nodeId index.(nodes) with
  | Missing => ret tt
  | Inherited => throw TypeError
  | Own _ =>
      modify (attachPrompt nodeId promptIndex) ;;
      now <- await DateNow ;;
      modify (touchNode nodeId now)
  end.

(** The [for ... of node.children] loop of [recountSubtree]; an exception
    of a recursive call propagates upwards. *)
Fixpoint recountChildren
    (recur : Dict OutlineNode -> string -> Dict OutlineNode * Outcome nat)
    (childIds : list string) (ns : Dict OutlineNode) (total : nat)
  : Dict OutlineNode * Outcome nat :=
  match childIds with
  | [] => (ns, Returned total)
  | childId :: rest =>
      match recur ns childId with
      | (ns', Returned n) => recountChildren recur rest ns' (total + n)
      | (ns', Thrown e) => (ns', Thrown e)
      end
  end.

(** [stack] is the number of frames the call stack still has room for: the
    recursion of the source has no other bound. Under an inherited name
    [node] is truthy and [node.promptIndices] is undefined: the read of its
    [length] throws. *)
Fixpoint recountSubtree (stack : nat) (ns : Dict OutlineNode)
    (nodeId : string) : Dict OutlineNode * Outcome nat :=
  match stack with
  | O => (ns, Thrown RangeError)
  | S stack' =>
      match lookup nodeId ns with
      | Missing => (ns, Returned 0)
      | Inherited => (ns, Thrown TypeError)
      | Own node =>
          match recountChildren (recountSubtree stack') node.(children) ns
                  (List.length node.(promptIndices)) with
          | (ns', Returned total) =>
              (dict_update nodeId (set_promptCount total) ns', Returned total)
          | (ns', Thrown e) => (ns', Thrown e)
          end
      end
  end.

(** The store after the recount, complete or cut short. *)
Definition recounted (stack : nat) (index : ConversationIndex)
  : ConversationIndex :=
  set_nodes (fst (recountSubtree stack index.(nodes) "root")) index.

Definition updatePromptCounts (stack : nat) : M unit :=
  fun index =>
    Ret (match snd (recountSubtree stack index.(nodes) "root") with
         | Returned _ => Returned tt
         | Thrown e => Thrown e
         end,
         recounted stack index).

(** The test of the [filter] of [getChildCandidates]. On an inherited
    member [n] is truthy and [n.rank] is undefined, which equals no rank
    that is asked for. *)
Definition isCandidate (index : ConversationIndex) (rankOpt : option NodeRank)
    (id : string) : bool :=
  match lookup id index.(nodes) with
  | Missing => false
  | Inherited =>
      match rankOpt with
      | None => true
      | Some _ => false
      end
      && dict_has id index.(embeddings)
  | Own n =>
      match rankOpt with
      | None => true
      | Some r => rank_eqb n.(rank) r
      end
      && dict_has id index.(embeddings)
  end.

(** [index.embeddings.get(id)!] is applied to identifiers that passed the
    test [index.embeddings.has(id)] only. Under an inherited name [parent]
    is truthy and [parent.children] is undefined: the call of [filter] on
    it throws. *)
Definition getChildCandidates (index : ConversationIndex) (parentId : string)
    (rankOpt : option NodeRank) : Outcome (list Candidate) :=
  match lookup parentId index.(nodes) with
  | Missing => Returned []
  | Inherited => Thrown TypeError
  | Own parent =>
      Returned
        (map (fun id =>
                (id, match dict_get id index.(embeddings) with
                     | Some e => e
                     | None => []
                     end))
             (filter (isCandidate index rankOpt) parent.(children)))
  end.

Definition getAllEmbeddedCandidates (index : ConversationIndex)
  : list Candidate :=
  index.(embeddings).

(** ** pipeline.ts *)

Record ClassifyResult : Type := mkResult {
  nodeId : string;
  confidence : float;
  isNewNode : bool
}.

Record PromptInput : Type := mkPromptInput {
  prompt_index : Z;
  fullText : string;
  firstSentence : string
}.

(** [index.cache[hash] = { nodeId, confidence }] *)
Definition remember (hash nodeId : string) (confidence : float)
    (index : ConversationIndex) : ConversationIndex :=
  set_cache (dict_set hash (mkCacheEntry nodeId confidence) index.(cache)) index.

Definition commit (stack : nat) (hash nodeId : string) (confidence : float)
    (isNewNode : bool) (promptIndex : Z) : M ClassifyResult :=
  insertPromptIntoNode nodeId promptIndex ;;
  updatePromptCounts stack ;;
  modify (remember hash nodeId confidence) ;;
  ret (mkResult nodeId confidence isNewNode).

Definition existingLabelsOf (index : ConversationIndex) : list string :=
  map label
      (filter (fun n => 0 <? rank_nat n.(rank)) (dict_values index.(nodes))).

Definition fallbackLabel (text : string) : string := trim (slice0 40 text).

(** [res.ok ? res.label : text.slice(0, 40).trim()] *)
Definition labelOf (res : LabelResponse) (text : string) : string :=
  match res with
  | LabelOk l => l
  | LabelErr _ => fallbackLabel text
  end.

Definition fetchLabel (text : string) (settings : Settings) : M string :=
  index <- get ;;
  let existingLabels := existingLabelsOf index in
  res <- await (GEMINI_LABEL text existingLabels) ;;
  ret (labelOf res text).

(** [stack] bounds the recursion of the recounts, as in [recountSubtree].
    [step6] is the code after the [if] of step 5, which three of its
    branches fall through to. The hash is eight hexadecimal digits, the
    name of no member of [Object.prototype], so that [index.cache[hash]]
    finds own entries only. In step 5, [hitNode && hitNode.rank === 1]
    holds of an own node of rank 1 only: an inherited member has no
    [rank]. *)
Definition classifyPrompt (stack : nat) (prompt : PromptInput)
    (settings : Settings) : M ClassifyResult :=
  (* Step 1: cache check *)
  let hash := hashPrompt prompt.(fullText) in
  index <- get ;;
  match dict_get hash index.(cache) with
  | Some cached =>
      insertPromptIntoNode cached.(cache_nodeId) prompt.(prompt_index) ;;
      updatePromptCounts stack ;;
      ret (mkResult cached.(cache_nodeId) cached.(cache_confidence) false)
  | None =>
      (* Step 2: embed first sentence *)
      embedRes <- await (GEMINI_EMBED prompt.(firstSentence)) ;;
      match embedRes with
      | EmbedErr error =>
          throw (Error ("[pipeline] Embed failed: " ++ error)%string)
      | EmbedOk sentenceEmbedding =>
          (* Step 6: spawn a new rank-1 header *)
          let step6 : M ClassifyResult :=
            label <- fetchLabel prompt.(firstSentence) settings ;;
            header <- spawnNode "root" label Rank1 (Some sentenceEmbedding) ;;
            commit stack hash header.(node_id) 0%float true prompt.(prompt_index)
          in
          (* Step 3: walk rank-1 headers *)
          index <- get ;;
          rank1Candidates <-
            outcome (getChildCandidates index "root" (Some Rank1)) ;;
          match bestMatch sentenceEmbedding rank1Candidates
                          settings.(thresholdHigh) with
          | Some rank1Hit =>
              (* Step 4: drill into rank-2 subheaders *)
              rank2Candidates <-
                outcome (getChildCandidates index rank1Hit.(match_id)
                                            (Some Rank2)) ;;
              match bestMatch sentenceEmbedding rank2Candidates
                              settings.(thresholdHigh) with
              | Some rank2Hit =>
                  commit stack hash rank2Hit.(match_id) rank2Hit.(score) false
                         prompt.(prompt_index)
              | None =>
                  label <- fetchLabel prompt.(firstSentence) settings ;;
                  sub <- spawnNode rank1Hit.(match_id) label Rank2
                                   (Some sentenceEmbedding) ;;
                  commit stack hash sub.(node_id) rank1Hit.(score) true
                         prompt.(prompt_index)
              end
          | None =>
              (* Step 5: escalate, re-embed full text, scan all nodes *)
              if 1 <? List.length (dict_keys index.(nodes)) then
                fullEmbedRes <- await (GEMINI_EMBED prompt.(fullText)) ;;
                match fullEmbedRes with
                | EmbedOk fullEmbedding =>
                    index <- get ;;
                    let allCandidates := getAllEmbeddedCandidates index in
                    match bestMatch fullEmbedding allCandidates
                                    settings.(thresholdLow) with
                    | Some fullHit =>
                        match lookup fullHit.(match_id) index.(nodes) with
                        | Own (mkNode _ _ Rank1 _ _ _ _ _) =>
                            label <- fetchLabel prompt.(firstSentence) settings ;;
                            sub <- spawnNode fullHit.(match_id) label Rank2
                                             (Some fullEmbedding) ;;
                            commit stack hash sub.(node_id) fullHit.(score) true
                                   prompt.(prompt_index)
                        | _ =>
                            commit stack hash fullHit.(match_id) fullHit.(score)
                                   false prompt.(prompt_index)
                        end
                    | None => step6
                    end
                | EmbedErr _ => step6
                end
              else step6
          end
      end
  end.

Definition initializeEmbeddings (settings : Settings) : M unit :=
  if String.eqb settings.(geminiApiKey) "" then ret tt
  else
    index <- get ;;
    let needsEmbed :=
      filter (fun n => (0 <? rank_nat n.(rank))
                       && negb (dict_has n.(node_id) index.(embeddings)))
             (dict_values index.(nodes)) in
    forEach needsEmbed (fun node =>
      res <- await (GEMINI_EMBED node.(label)) ;;
      match res with
      | EmbedOk e =>
          modify (fun i =>
                    set_embeddings (dict_set node.(node_id) e i.(embeddings)) i)
      | EmbedErr _ => ret tt
      end).

(** ** content.ts: the queue processor *)

(** A message as [parseMessages] delivers it, without its [role] (always
    ['assistant']) and its DOM [element], which the queue processor does
    not read. *)
Record ParsedMessage : Type := mkMessage {
  msg_index : Z;
  headingText : string;
  msg_fullText : string
}.

(** [processedHashes.add(hash)] on a [Set] kept in insertion order. *)
Definition set_add (h : string) (s : list string) : list string :=
  if existsb (String.eqb h) s then s else s ++ [h].

(** [index.prompts.pop()] *)
Definition popPrompt (i : ConversationIndex) : ConversationIndex :=
  set_prompts (removelast i.(prompts)) i.

(** The [while (processingQueue.length > 0)] loop of [drainQueue], on the
    messages queued when it starts. [renderTree] and the console are not
    modelled: they read the index and write to the page only. The
    [conversationId] that is saved is the one [createIndex] stored in the
    index. A rejected [saveConversation] lands in the [catch] like a failed
    classification. *)
Fixpoint drainLoop (stack : nat) (settings : Settings)
    (queue : list ParsedMessage) (index : ConversationIndex)
    (processedHashes : list string)
  : Prog (ConversationIndex * list string) :=
  match queue with
  | [] => Ret (index, processedHashes)
  | msg :: queue' =>
      let hash := hashPrompt msg.(msg_fullText) in
      if existsb (String.eqb hash) processedHashes
      then drainLoop stack settings queue' index processedHashes
      else
        let promptRecord :=
          mkPromptInput msg.(msg_index) msg.(msg_fullText) msg.(headingText) in
        let pushed :=
          set_prompts
            (index.(prompts)
             ++ [mkPromptRecord msg.(msg_index) msg.(msg_fullText)
                                msg.(headingText) hash])
            index in
        pbind (classifyPrompt stack promptRecord settings pushed) (fun r =>
          match r with
          | (Returned result, index') =>
              let processed' := set_add hash processedHashes in
              Vis (SaveConversation
                     (mkStored index'.(conversationId) index'.(prompts)
                               index'.(nodes) index'.(cache)))
                  (fun saved =>
                     if saved : bool
                     then drainLoop stack settings queue' index' processed'
                     else drainLoop stack settings queue' (popPrompt index')
                                    processed')
          | (Thrown _, index') =>
              drainLoop stack settings queue' (popPrompt index') processedHashes
          end)
  end.

Record ContentState : Type := mkContent {
  st_index : ConversationIndex;
  processedHashes : list string;
  processingQueue : list ParsedMessage;
  isProcessing : bool
}.

(** [isProcessing] is raised for the duration of the loop; nothing else
    runs in between here, so only its final value shows. *)
Definition drainQueue (stack : nat) (settings : Settings) (st : ContentState)
  : Prog ContentState :=
  if st.(isProcessing) || (List.length st.(processingQueue) =? 0) then Ret st
  else
    pbind (drainLoop stack settings st.(processingQueue) st.(st_index)
                     st.(processedHashes))
          (fun r => Ret (mkContent (fst r) (snd r) [] false)).

(** ** hash.ts: the rendering of the hash, call by call *)

(** [n.toString(16)] for an integer [n >= 0]: the hexadecimal digits of [n]
    without a leading zero, ["0"] for zero. [fuel] bounds the number of
    digits. *)
Fixpoint toHexDigits (fuel : nat) (n : Z) (acc : string) : string :=
  match fuel with
  | O => acc
  | S fuel' =>
      let acc' := String (hexDigit (n mod 16)%Z) acc in
      if (n <? 16)%Z then acc' else toHexDigits fuel' (n / 16)%Z acc'
  end.

Definition toString16 (n : Z) : string :=
  toHexDigits (S (Z.to_nat (Z.log2 n))) n EmptyString.

Fixpoint repeatChar (c : ascii) (n : nat) : string :=
  match n with
  | O => EmptyString
  | S n' => String c (repeatChar c n')
  end.

(** [s.padStart(targetLength, pad)] with a pad of one character. *)
Definition padStart (targetLength : nat) (pad : ascii) (s : string) : string :=
  (repeatChar pad (targetLength - String.length s) ++ s)%string.

(** [h >>> 0] *)
Definition toUint32 (h : Z) : Z := (h mod 2 ^ 32)%Z.

(** ** content.ts: the conversation identifier *)

(** The class [[^/?#]]. *)
Definition isIdChar (c : ascii) : bool :=
  negb (Ascii.eqb c "/" || Ascii.eqb c "?" || Ascii.eqb c "#").

(** The longest run of [[^/?#]] at the head of [s]: what the greedy
    [[^/?#]+] takes. *)
Fixpoint takeIdChars (s : string) : string :=
  match s with
  | EmptyString => EmptyString
  | String c r => if isIdChar c then String c (takeIdChars r) else EmptyString
  end.

(** [pathname.match(/\/chat\/([^/?#]+)/)?.[1]]: the first position at which
    ["/chat/"] is followed by at least one character of the class, and the
    group there. *)
Fixpoint matchChat (pathname : string) : option string :=
  match pathname with
  | EmptyString => None
  | String _ rest =>
      if String.prefix "/chat/" pathname then
        match takeIdChars (substring 6 (String.length pathname - 6) pathname)
        with
        | EmptyString => matchChat rest
        | id => Some id
        end
      else matchChat rest
  end.

(** [extractConversationId], on [window.location.pathname]. *)
Definition extractConversationId (pathname : string) : string :=
  match matchChat pathname with
  | Some id => id
  | None => "home"
  end.

(** ** content.ts: the saved conversation *)

(** The object literal that [drainQueue] hands to [saveConversation]. *)
Definition snapshot (index : ConversationIndex) : StoredConversation :=
  mkStored index.(conversationId) index.(prompts) index.(nodes) index.(cache).

(** ** content.ts: the target of a click on a node *)

(** The loop [for ... of node.children] of [findFirstPromptIndex]. An
    inherited member is truthy, so the recursive call is made on it, with
    the outcome [onInherited]. *)
Fixpoint firstInChildren
    (recur : OutlineNode -> Outcome (option Z))
    (onInherited : Outcome (option Z))
    (ns : Dict OutlineNode) (childIds : list string)
  : Outcome (option Z) :=
  match childIds with
  | [] => Returned None
  | childId :: rest =>
      match lookup childId ns with
      | Own child =>
          match recur child with
          | Returned (Some idx) => Returned (Some idx)
          | Returned None => firstInChildren recur onInherited ns rest
          | Thrown e => Thrown e
          end
      | Inherited =>
          match onInherited with
          | Returned (Some idx) => Returned (Some idx)
          | Returned None => firstInChildren recur onInherited ns rest
          | Thrown e => Thrown e
          end
      | Missing => firstInChildren recur onInherited ns rest
      end
  end.

(** [findFirstPromptIndex] on an inherited member: [node.promptIndices] is
    undefined there, and the read of its [length] throws. *)
Definition findOnInherited (stack : nat) : Outcome (option Z) :=
  match stack with
  | O => Thrown RangeError
  | S _ => Thrown TypeError
  end.

(** [stack] bounds the recursion, as in [recountSubtree]. *)
Fixpoint findFirstPromptIndex (stack : nat) (ns : Dict OutlineNode)
    (node : OutlineNode) : Outcome (option Z) :=
  match stack with
  | O => Thrown RangeError
  | S stack' =>
      match node.(promptIndices) with
      | idx :: _ => Returned (Some idx)
      | [] => firstInChildren (findFirstPromptIndex stack' ns)
                              (findOnInherited stack') ns node.(children)
      end
  end.

(* ================================================================== *)
(** * Part II. Vocabulary of the specification *)
(* ================================================================== *)

(** ** Numbers *)

(** A value that is not NaN. *)
Definition ordered (a : float) : Prop := Prim2SF a <> S754_nan.

(** ** Best match *)

(** A candidate that [bestMatch] may return: a non-empty vector whose
    similarity to the query reaches the threshold. *)
Definition eligible (q : Vector) (t : float) (c : Candidate) : Prop :=
  snd c <> [] /\ (t <=? cosineSimilarity q (snd c))%float = true.

(** [m] is the first of the highest-scoring eligible candidates. *)
Definition is_best_match (q : Vector) (cands : list Candidate) (t : float)
    (m : Match) : Prop :=
  exists i emb,
    nth_error cands i = Some (m.(match_id), emb) /\
    eligible q t (m.(match_id), emb) /\
    m.(score) = cosineSimilarity q emb /\
    forall j c, nth_error cands j = Some c -> eligible q t c ->
      (cosineSimilarity q (snd c) <=? m.(score))%float = true /\
      (j < i -> (cosineSimilarity q (snd c) <? m.(score))%float = true).

Definition best_match_spec (q : Vector) (cands : list Candidate) (t : float)
    (r : option Match) : Prop :=
  match r with
  | Some m => is_best_match q cands t m
  | None => forall c, In c cands -> ~ eligible q t c
  end.

(** Two runs of the loop at thresholds [t' <= t], side by side. *)
Definition threshold_sim (t t' : float) (b b' : option Match) : Prop :=
  match b with
  | Some m => b' = Some m /\ (t <=? m.(score))%float = true
  | None =>
      match b' with
      | None => True
      | Some m' => (t' <=? m'.(score))%float = true
                   /\ (t <=? m'.(score))%float = false
      end
  end.

(** ** The hierarchy *)

(** A store with every [promptCount] blanked: what a recount leaves
    untouched. *)
Definition erase (ns : Dict OutlineNode) : Dict OutlineNode :=
  map (fun kv => (fst kv, set_promptCount 0 (snd kv))) ns.

(** [child.promptCount], read through the store; an identifier under which
    nothing is found counts for nothing, as in [recountSubtree]. *)
Definition countOf (ns : Dict OutlineNode) (childId : string) : nat :=
  match dict_get childId ns with
  | Some n => n.(promptCount)
  | None => 0
  end.

(** [promptCount == len(promptIndices) + sum(child.promptCount)] at the node
    stored under [k]. *)
Definition count_invariant_at (ns : Dict OutlineNode) (k : string) : Prop :=
  forall n, dict_get k ns = Some n ->
    n.(promptCount)
    = List.length n.(promptIndices) + list_sum (map (countOf ns) n.(children)).

(** [Reach ns a b]: the node [b] is in the subtree of the node [a]. *)
Inductive Reach (ns : Dict OutlineNode) : string -> string -> Prop :=
| Reach_here : forall k n, dict_get k ns = Some n -> Reach ns k k
| Reach_child : forall k n c k',
    dict_get k ns = Some n -> In c n.(children) -> Reach ns c k' ->
    Reach ns k k'.

(** The number of passages in the subtree of [k], by the shape of the store
    alone. *)
Inductive Total (ns : Dict OutlineNode) : string -> nat -> Prop :=
| Total_missing : forall k, dict_get k ns = None -> Total ns k 0
| Total_node : forall k n s,
    dict_get k ns = Some n -> TotalList ns n.(children) s ->
    Total ns k (List.length n.(promptIndices) + s)
with TotalList (ns : Dict OutlineNode) : list string -> nat -> Prop :=
| TotalList_nil : TotalList ns [] 0
| TotalList_cons : forall c cs n s,
    Total ns c n -> TotalList ns cs s -> TotalList ns (c :: cs) (n + s).

Scheme Total_mut := Induction for Total Sort Prop
  with TotalList_mut := Induction for TotalList Sort Prop.

(** The node under [k] carries the count of its subtree. *)
Definition counted (ns0 ns : Dict OutlineNode) (k : string) : Prop :=
  exists n, dict_get k ns = Some n /\ Total ns0 k n.(promptCount).

(** [terminates stack ns k]: the recursion of [recountSubtree] from [k]
    comes to its end: it fits in [stack] frames, i.e. the subtree of [k] is
    less than [stack] deep, and it meets no name that the store only
    inherits. *)
Fixpoint terminates (stack : nat) (ns : Dict OutlineNode) (k : string)
  : bool :=
  match stack with
  | O => false
  | S stack' =>
      match lookup k ns with
      | Missing => true
      | Inherited => false
      | Own n => forallb (terminates stack' ns) n.(children)
      end
  end.

(** [no_inherited stack ns k]: as far as [stack] frames reach, the
    recursion of [recountSubtree] from [k] meets no name that the store
    only inherits. *)
Fixpoint no_inherited (stack : nat) (ns : Dict OutlineNode) (k : string)
  : bool :=
  match stack with
  | O => true
  | S stack' =>
      match lookup k ns with
      | Missing => true
      | Inherited => false
      | Own n => forallb (no_inherited stack' ns) n.(children)
      end
  end.

(** What a call that returns leaves behind. *)
Definition recount_post (ns : Dict OutlineNode) (k : string)
    (ns' : Dict OutlineNode) (t : nat) : Prop :=
  erase ns' = erase ns
  /\ Total ns k t
  /\ (forall x n', dict_get x ns' = Some n' ->
        dict_get x ns = Some n' \/ Total ns x n'.(promptCount))
  /\ (forall x, Reach ns k x -> counted ns ns' x).

Definition recountChildren_post (ns : Dict OutlineNode) (cs : list string)
    (tot : nat) (ns' : Dict OutlineNode) (t : nat) : Prop :=
  erase ns' = erase ns
  /\ (exists s, TotalList ns cs s /\ t = tot + s)
  /\ (forall x n', dict_get x ns' = Some n' ->
        dict_get x ns = Some n' \/ Total ns x n'.(promptCount))
  /\ (forall c x, In c cs -> Reach ns c x -> counted ns ns' x).

(** ** A scripted environment, for the examples *)

Definition demoOracle : Oracle :=
  fun X e =>
    match e in Event T return T with
    | GEMINI_EMBED _ => EmbedOk [1; 0]%float
    | GEMINI_LABEL _ _ => LabelErr "offline"
    | DateNow => 17%Z
    | RandomSuffix => "abcde"
    | SaveConversation _ => true
    end.

(** The store after [createIndex], a [spawnNode] under a parent that does
    not exist, an [insertPromptIntoNode] into the node so created, and
    [updatePromptCounts]. *)
Definition orphanRun : list Obs * (Outcome unit * ConversationIndex) :=
  Eval vm_compute in
  runWith demoOracle
    (pbind (createIndex "c")
       (spawnNode "ghost" "Orphan" Rank1 None ;;
        insertPromptIntoNode "node_17_abcde" 7%Z ;;
        updatePromptCounts 3)).

(** ** Runs of the pipeline, step by step *)

(** The store after a [spawnNode] that returns: the node stored, pushed
    onto the children of the parent when the parent is a node of the store,
    and the embedding registered when one is given. *)
Definition spawnInto (node : OutlineNode) (parentId : string)
    (embedding : option Vector) (index : ConversationIndex)
  : ConversationIndex :=
  let id := node.(node_id) in
  let index1 := set_nodes (dict_set id node index.(nodes)) index in
  let index2 :=
    if dict_has parentId index1.(nodes)
    then set_nodes (dict_update parentId (pushChild id) index1.(nodes)) index1
    else index1 in
  match embedding with
  | Some e => set_embeddings (dict_set id e index2.(embeddings)) index2
  | None => index2
  end.

(** The array that a call of [getChildCandidates] returns; a call that
    throws returns none. *)
Definition childCandidates (i : ConversationIndex) (parentId : string)
    (rankOpt : option NodeRank) : list Candidate :=
  match getChildCandidates i parentId rankOpt with
  | Returned candidates => candidates
  | Thrown _ => []
  end.

(** The trace and the store after an [insertPromptIntoNode] that
    returns. *)
Definition insert_post (nodeId : string) (promptIndex : Z)
    (i : ConversationIndex) (tr : list Obs) (i' : ConversationIndex) : Prop :=
  match lookup nodeId i.(nodes) with
  | Missing => tr = [] /\ i' = i
  | Inherited => False
  | Own _ =>
      exists now,
        tr = [ObsNow now]
        /\ i' = touchNode nodeId now (attachPrompt nodeId promptIndex i)
  end.

(** The trace, the outcome and the store after a [commit] whose
    [insertPromptIntoNode] returns. *)
Definition commit_post (stack : nat) (hash nodeId : string) (conf : float)
    (isNew : bool) (promptIndex : Z) (i : ConversationIndex)
    (tr : list Obs) (o : Outcome ClassifyResult) (i' : ConversationIndex)
  : Prop :=
  exists i1,
    insert_post nodeId promptIndex i tr i1
    /\ match snd (recountSubtree stack i1.(nodes) "root") with
       | Returned _ =>
           o = Returned (mkResult nodeId conf isNew)
           /\ i' = remember hash nodeId conf (recounted stack i1)
       | Thrown e => o = Thrown e /\ i' = recounted stack i1
       end.

(** The events of one [spawnNode]. *)
Definition spawnTrace (now : Z) (suffix : string) (createdAt updatedAt : Z)
  : list Obs :=
  [ObsNow now; ObsRandom suffix; ObsNow createdAt; ObsNow updatedAt].

(** How step 5 can fail to place the passage: skipped on a store with the
    root alone, a failed embedding of the full text, or no candidate above
    [thresholdLow]. *)
Definition escalation_missed (p : PromptInput) (s : Settings)
    (i : ConversationIndex) (tr : list Obs) : Prop :=
  (List.length (dict_keys i.(nodes)) <= 1 /\ tr = [])
  \/ (1 < List.length (dict_keys i.(nodes))
      /\ exists e, tr = [ObsEmbed p.(fullText) (EmbedErr e)])
  \/ (1 < List.length (dict_keys i.(nodes))
      /\ exists fv,
           tr = [ObsEmbed p.(fullText) (EmbedOk fv)]
           /\ bestMatch fv (getAllEmbeddedCandidates i) s.(thresholdLow) = None).

(** [Placement p s v i tr i1 nodeId conf isNew]: with the sentence vector
    [v], steps 3 to 6 perform the events [tr], leave the store [i1] and hand
    [nodeId], [conf] and [isNew] to [commit]. *)
Inductive Placement (p : PromptInput) (s : Settings) (v : Vector)
    (i : ConversationIndex)
  : list Obs -> ConversationIndex -> string -> float -> bool -> Prop :=
| Place_rank2 : forall hit1 hit2,
    bestMatch v (childCandidates i "root" (Some Rank1)) s.(thresholdHigh)
      = Some hit1 ->
    bestMatch v (childCandidates i hit1.(match_id) (Some Rank2))
              s.(thresholdHigh) = Some hit2 ->
    Placement p s v i [] i hit2.(match_id) hit2.(score) false
| Place_new_rank2 : forall hit1 lr now suffix c u,
    bestMatch v (childCandidates i "root" (Some Rank1)) s.(thresholdHigh)
      = Some hit1 ->
    bestMatch v (childCandidates i hit1.(match_id) (Some Rank2))
              s.(thresholdHigh) = None ->
    Placement p s v i
      (ObsLabel p.(firstSentence) (existingLabelsOf i) lr
       :: spawnTrace now suffix c u)
      (spawnInto (mkNode (makeId now suffix) (labelOf lr p.(firstSentence))
                         Rank2 [] [] 0 c u)
                 hit1.(match_id) (Some v) i)
      (makeId now suffix) hit1.(score) true
| Place_escalate_spawn : forall fv fullHit hitNode lr now suffix c u,
    bestMatch v (childCandidates i "root" (Some Rank1)) s.(thresholdHigh)
      = None ->
    1 < List.length (dict_keys i.(nodes)) ->
    bestMatch fv (getAllEmbeddedCandidates i) s.(thresholdLow) = Some fullHit ->
    dict_get fullHit.(match_id) i.(nodes) = Some hitNode ->
    hitNode.(rank) = Rank1 ->
    Placement p s v i
      (ObsEmbed p.(fullText) (EmbedOk fv)
       :: ObsLabel p.(firstSentence) (existingLabelsOf i) lr
       :: spawnTrace now suffix c u)
      (spawnInto (mkNode (makeId now suffix) (labelOf lr p.(firstSentence))
                         Rank2 [] [] 0 c u)
                 fullHit.(match_id) (Some fv) i)
      (makeId now suffix) fullHit.(score) true
| Place_escalate_attach : forall fv fullHit,
    bestMatch v (childCandidates i "root" (Some Rank1)) s.(thresholdHigh)
      = None ->
    1 < List.length (dict_keys i.(nodes)) ->
    bestMatch fv (getAllEmbeddedCandidates i) s.(thresholdLow) = Some fullHit ->
    (forall n, dict_get fullHit.(match_id) i.(nodes) = Some n ->
               n.(rank) <> Rank1) ->
    Placement p s v i [ObsEmbed p.(fullText) (EmbedOk fv)] i
              fullHit.(match_id) fullHit.(score) false
| Place_new_header : forall pre lr now suffix c u,
    bestMatch v (childCandidates i "root" (Some Rank1)) s.(thresholdHigh)
      = None ->
    escalation_missed p s i pre ->
    Placement p s v i
      (pre ++ ObsLabel p.(firstSentence) (existingLabelsOf i) lr
           :: spawnTrace now suffix c u)
      (spawnInto (mkNode (makeId now suffix) (labelOf lr p.(firstSentence))
                         Rank1 [] [] 0 c u)
                 "root" (Some v) i)
      (makeId now suffix) 0%float true.

(** The runs of [classifyPrompt] in which the node to attach to is not a
    name that the store only inherits: a cache hit, a failed sentence
    embedding, or a placement followed by [commit]. *)
Definition classify_post (stack : nat) (p : PromptInput) (s : Settings)
    (i : ConversationIndex) (tr : list Obs) (o : Outcome ClassifyResult)
    (i' : ConversationIndex) : Prop :=
  match dict_get (hashPrompt p.(fullText)) i.(cache) with
  | Some cached =>
      exists i1,
        insert_post cached.(cache_nodeId) p.(prompt_index) i tr i1
        /\ i' = recounted stack i1
        /\ o = match snd (recountSubtree stack i1.(nodes) "root") with
               | Returned _ => Returned (mkResult cached.(cache_nodeId)
                                                  cached.(cache_confidence)
                                                  false)
               | Thrown e => Thrown e
               end
  | None =>
      (exists e,
          tr = [ObsEmbed p.(firstSentence) (EmbedErr e)]
          /\ o = Thrown (Error ("[pipeline] Embed failed: " ++ e)%string)
          /\ i' = i)
      \/ (exists v trp i1 nodeId conf isNew trc,
             Placement p s v i trp i1 nodeId conf isNew
             /\ commit_post stack (hashPrompt p.(fullText)) nodeId conf isNew
                            p.(prompt_index) i1 trc o i'
             /\ tr = ObsEmbed p.(firstSentence) (EmbedOk v) :: trp ++ trc)
  end.

(** The other runs of [classifyPrompt]: the cached node, or the match of
    the scan of step 5, is a name that the store only inherits, and
    [insertPromptIntoNode] throws before anything is written. *)
Definition attach_failed (p : PromptInput) (s : Settings)
    (i : ConversationIndex) (tr : list Obs) (o : Outcome ClassifyResult)
    (i' : ConversationIndex) : Prop :=
  o = Thrown TypeError /\ i' = i
  /\ match dict_get (hashPrompt p.(fullText)) i.(cache) with
     | Some cached =>
         lookup cached.(cache_nodeId) i.(nodes) = Inherited /\ tr = []
     | None =>
         exists v fv fullHit,
           bestMatch v (childCandidates i "root" (Some Rank1))
                     s.(thresholdHigh) = None
           /\ 1 < List.length (dict_keys i.(nodes))
           /\ bestMatch fv (getAllEmbeddedCandidates i) s.(thresholdLow)
              = Some fullHit
           /\ lookup fullHit.(match_id) i.(nodes) = Inherited
           /\ tr = [ObsEmbed p.(firstSentence) (EmbedOk v);
                    ObsEmbed p.(fullText) (EmbedOk fv)]
     end.

(** ** States of the engine *)

(** The parent-child links of a store. *)
Definition kids (ns : Dict OutlineNode) : Dict (list string) :=
  map (fun kv => (fst kv, (snd kv).(children))) ns.

(** The root is as [createIndex] made it, apart from its children and its
    count: no passage attached, no vector registered, never the target of a
    cache entry; and no other node carries its identifier with a rank. *)
Definition root_clean (i : ConversationIndex) : Prop :=
  (exists r, dict_get "root" i.(nodes) = Some r
             /\ r.(promptIndices) = [] /\ r.(rank) = Rank0)
  /\ dict_get "root" i.(embeddings) = None
  /\ (forall h e, dict_get h i.(cache) = Some e -> e.(cache_nodeId) <> "root")
  /\ (forall k n, In (k, n) i.(nodes) -> n.(node_id) = "root" -> n.(rank) = Rank0).

(** The identifier that a [spawnNode] in the trace generates is not yet a
    key of the store. *)
Definition fresh_ids (tr : list Obs) (ns : Dict OutlineNode) : Prop :=
  forall pre post now suffix,
    tr = pre ++ ObsNow now :: ObsRandom suffix :: post ->
    dict_get (makeId now suffix) ns = None.

(** The states that calls of [classifyPrompt] and [initializeEmbeddings],
    with any arguments, answers and outcomes, lead to from [createIndex]. *)
Inductive reachable : ConversationIndex -> Prop :=
| reach_createIndex : forall cid tr i,
    Runs (createIndex cid) tr i -> reachable i
| reach_classifyPrompt : forall stack p s i tr o i',
    reachable i -> Runs (classifyPrompt stack p s i) tr (o, i') ->
    reachable i'
| reach_initializeEmbeddings : forall s i tr o i',
    reachable i -> Runs (initializeEmbeddings s i) tr (o, i') ->
    reachable i'.

(** [later stack i i']: from [i], calls of [classifyPrompt] that return or
    fail at the sentence embedding (any call that does not exhaust the call
    stack) and calls of [initializeEmbeddings] lead to [i']. *)
Inductive later (stack : nat) : ConversationIndex -> ConversationIndex -> Prop :=
| later_now : forall i, later stack i i
| later_classifyPrompt : forall i p s tr o i' i'',
    Runs (classifyPrompt stack p s i) tr (o, i') ->
    o <> Thrown RangeError ->
    later stack i' i'' -> later stack i i''
| later_initializeEmbeddings : forall i s tr o i' i'',
    Runs (initializeEmbeddings s i) tr (o, i') ->
    later stack i' i'' -> later stack i i''.

(** Every node is in the tree: the root exists and every key of the store
    is reachable from it. *)
Definition tree_ok (ns : Dict OutlineNode) : Prop :=
  (exists r, dict_get "root" ns = Some r)
  /\ forall k n, dict_get k ns = Some n -> Reach ns "root" k.

(** The stores that the engine builds: as [reachable], with every
    identifier generated on the way a new one. *)
Inductive built : ConversationIndex -> Prop :=
| built_createIndex : forall cid tr i,
    Runs (createIndex cid) tr i -> built i
| built_classifyPrompt : forall stack p s i tr o i',
    built i -> fresh_ids tr i.(nodes) ->
    Runs (classifyPrompt stack p s i) tr (o, i') ->
    built i'
| built_initializeEmbeddings : forall s i tr o i',
    built i -> Runs (initializeEmbeddings s i) tr (o, i') ->
    built i'.

(** The layers of the hierarchy: the root has rank 0, a child has the rank
    of its parent plus one and is a node of the store, and no rank exceeds
    2. *)
Definition ranked (ns : Dict OutlineNode) : Prop :=
  (exists r, dict_get "root" ns = Some r /\ r.(rank) = Rank0)
  /\ (forall k n c, dict_get k ns = Some n -> In c n.(children) ->
         exists cn, dict_get c ns = Some cn
                    /\ rank_nat cn.(rank) = S (rank_nat n.(rank)))
  /\ (forall k n, dict_get k ns = Some n -> rank_nat n.(rank) <= 2).

(** ** Labels *)

Definition firstChar (s : string) : option ascii :=
  match s with
  | EmptyString => None
  | String c _ => Some c
  end.

Fixpoint lastChar (s : string) : option ascii :=
  match s with
  | EmptyString => None
  | String c EmptyString => Some c
  | String _ r => lastChar r
  end.

(** No white space at either end. *)
Definition trimmed (s : string) : Prop :=
  (forall c, firstChar s = Some c -> isWhiteSpace c = false)
  /\ (forall c, lastChar s = Some c -> isWhiteSpace c = false).

(** A decision procedure for [fresh_ids]. *)
Fixpoint fresh_idsb (tr : list Obs) (ns : Dict OutlineNode) : bool :=
  match tr with
  | [] => true
  | x :: rest =>
      match x, rest with
      | ObsNow now, ObsRandom suffix :: _ =>
          negb (dict_has (makeId now suffix) ns)
      | _, _ => true
      end
      && fresh_idsb rest ns
  end.

(** ** A worked example: two passages on a new conversation *)

Definition demoSettings : Settings := mkSettings "key" 0.75 0.5.

Definition demoIndex0 : ConversationIndex :=
  Eval vm_compute in snd (runWith demoOracle (createIndex "c")).

Definition demoPrompt : PromptInput :=
  mkPromptInput 0 "Normal forms remove redundancy. They also cost joins."
                "   Normal forms remove redundancy from a relational schema  ".

Definition demoRun1
  : list Obs * (Outcome ClassifyResult * ConversationIndex) :=
  Eval vm_compute in
  runWith demoOracle (classifyPrompt 3 demoPrompt demoSettings demoIndex0).

Definition demoIndex1 : ConversationIndex :=
  Eval vm_compute in snd (snd demoRun1).

(** A later moment: another clock reading and another random suffix. *)
Definition demoOracle2 : Oracle :=
  fun X e =>
    match e in Event T return T with
    | GEMINI_EMBED _ => EmbedOk [1; 0]%float
    | GEMINI_LABEL _ _ => LabelOk "Indexes"
    | DateNow => 18%Z
    | RandomSuffix => "fghij"
    | SaveConversation _ => true
    end.

Definition demoPrompt2 : PromptInput :=
  mkPromptInput 1 "An index speeds up lookups." "An index speeds up lookups.".

Definition demoRun2
  : list Obs * (Outcome ClassifyResult * ConversationIndex) :=
  Eval vm_compute in
  runWith demoOracle2 (classifyPrompt 3 demoPrompt2 demoSettings demoIndex1).

Definition demoIndex2 : ConversationIndex :=
  Eval vm_compute in snd (snd demoRun2).

(** The first passage again, on the store after the second. *)
Definition demoRun3
  : list Obs * (Outcome ClassifyResult * ConversationIndex) :=
  Eval vm_compute in
  runWith demoOracle2 (classifyPrompt 3 demoPrompt demoSettings demoIndex2).

Definition demoMessage : ParsedMessage :=
  mkMessage 0 demoPrompt.(firstSentence) demoPrompt.(fullText).

(** ** Vectors *)

(** Every component is a zero, of either sign ([x === 0]). *)
Definition all_zero (v : Vector) : Prop :=
  forall x, In x v -> (x =? 0)%float = true.

(** A zero of either sign, or not a number. *)
Definition zero_or_nan (x : float) : Prop :=
  (exists s, Prim2SF x = S754_zero s) \/ Prim2SF x = S754_nan.

(** ** Hexadecimal strings *)

(** A character of [0-9a-f]. *)
Definition isHexDigit (c : ascii) : bool :=
  let n := nat_of_ascii c in
  ((48 <=? n) && (n <=? 57)) || ((97 <=? n) && (n <=? 102)).

Fixpoint allChars (p : ascii -> bool) (s : string) : bool :=
  match s with
  | EmptyString => true
  | String c r => p c && allChars p r
  end.

(** ** Two passages with one hash *)

Definition collidingPrompt1 : PromptInput :=
  mkPromptInput 0 "Aa is the first of two texts with one hash."
                "Aa is the first of two texts".

Definition collidingPrompt2 : PromptInput :=
  mkPromptInput 1 "BB is the first of two texts with one hash."
                "BB is the first of two texts".

Definition collidingRun1
  : list Obs * (Outcome ClassifyResult * ConversationIndex) :=
  Eval vm_compute in
  runWith demoOracle (classifyPrompt 3 collidingPrompt1 demoSettings demoIndex0).

Definition collidingRun2
  : list Obs * (Outcome ClassifyResult * ConversationIndex) :=
  Eval vm_compute in
  runWith demoOracle2
    (classifyPrompt 3 collidingPrompt2 demoSettings (snd (snd collidingRun1))).

(** ** Counting the events of a run *)

Definition isEmbedCall (o : Obs) : bool :=
  match o with ObsEmbed _ _ => true | _ => false end.

Definition isLabelCall (o : Obs) : bool :=
  match o with ObsLabel _ _ _ => true | _ => false end.

(** One [Math.random] per [spawnNode]. *)
Definition isSpawn (o : Obs) : bool :=
  match o with ObsRandom _ => true | _ => false end.

Definition countObs (p : Obs -> bool) (tr : list Obs) : nat :=
  List.length (filter p tr).

(** ** Stores whose references resolve *)

(** Every node is stored under its own identifier, every vector belongs
    to a node and every cache entry points to a node. *)
Definition linked (i : ConversationIndex) : Prop :=
  (forall k n, In (k, n) i.(nodes) -> n.(node_id) = k)
  /\ (forall id v, dict_get id i.(embeddings) = Some v ->
        dict_has id i.(nodes) = true)
  /\ (forall h e, dict_get h i.(cache) = Some e ->
        dict_has e.(cache_nodeId) i.(nodes) = true).

(** [n'] is [n] with children or passages pushed at the end, or a later
    count or time stamp. *)
Definition node_extends (n n' : OutlineNode) : Prop :=
  n'.(node_id) = n.(node_id) /\ n'.(label) = n.(label)
  /\ n'.(rank) = n.(rank) /\ n'.(createdAt) = n.(createdAt)
  /\ (exists cs, n'.(children) = n.(children) ++ cs)
  /\ (exists ps, n'.(promptIndices) = n.(promptIndices) ++ ps).

(** Nothing of [i] is lost or rewritten in [i']. *)
Definition grows (i i' : ConversationIndex) : Prop :=
  (forall k n, dict_get k i.(nodes) = Some n ->
     exists n', dict_get k i'.(nodes) = Some n' /\ node_extends n n')
  /\ (exists ks, dict_keys i'.(nodes) = dict_keys i.(nodes) ++ ks)
  /\ (forall id v, dict_get id i.(embeddings) = Some v ->
        dict_get id i'.(embeddings) = Some v)
  /\ (forall h e, dict_get h i.(cache) = Some e ->
        dict_get h i'.(cache) = Some e)
  /\ i'.(prompts) = i.(prompts)
  /\ i'.(conversationId) = i.(conversationId).

(** ** Re-embedding on page load *)

(** The [needsEmbed] of [initializeEmbeddings]: the nodes of a rank above
    zero without a vector, in the order of the store. *)
Definition needsEmbed (i : ConversationIndex) : list OutlineNode :=
  filter (fun n => (0 <? rank_nat n.(rank))
                   && negb (dict_has n.(node_id) i.(embeddings)))
         (dict_values i.(nodes)).

(** The vector association after the answers to the requests for the
    nodes of [answers]: a vector is stored for each answer that is not an
    error. *)
Fixpoint storeEmbeddings (answers : list (OutlineNode * EmbedResponse))
    (es : Dict Vector) : Dict Vector :=
  match answers with
  | [] => es
  | (n, EmbedOk e) :: rest => storeEmbeddings rest (dict_set n.(node_id) e es)
  | (_, EmbedErr _) :: rest => storeEmbeddings rest es
  end.

(** The requests for the nodes of [answers], with their answers. *)
Definition embedRequests (answers : list (OutlineNode * EmbedResponse))
  : list Obs :=
  map (fun a => ObsEmbed (fst a).(label) (snd a)) answers.

Definition isEmbedFailure (o : Obs) : bool :=
  match o with ObsEmbed _ (EmbedErr _) => true | _ => false end.

(** ** The queue processor *)

(** The record that [drainQueue] pushes for a message. *)
Definition recordOf (msg : ParsedMessage) : PromptRecord :=
  mkPromptRecord msg.(msg_index) msg.(msg_fullText) msg.(headingText)
                 (hashPrompt msg.(msg_fullText)).

(** The passage that [drainQueue] hands to [classifyPrompt]. *)
Definition promptOf (msg : ParsedMessage) : PromptInput :=
  mkPromptInput msg.(msg_index) msg.(msg_fullText) msg.(headingText).

(** The set of processed hashes is the set of keys of the cache. *)
Definition processed_is_cached (index : ConversationIndex)
    (processed : list string) : Prop :=
  forall h, In h processed <-> dict_has h index.(cache) = true.

(** No two records of the list of prompts share a hash, every record
    carries the hash of its text, and that hash is marked as processed. *)
Definition prompts_recorded (index : ConversationIndex)
    (processed : list string) : Prop :=
  NoDup (map rec_hash index.(prompts))
  /\ forall r, In r index.(prompts) ->
       r.(rec_hash) = hashPrompt r.(rec_fullText)
       /\ In r.(rec_hash) processed.

Definition isSavedOk (o : Obs) : bool :=
  match o with ObsSave _ true => true | _ => false end.

Definition isSave (o : Obs) : bool :=
  match o with ObsSave _ _ => true | _ => false end.

(** ** More of the worked example *)

(** An environment that tells the first sentence from the full text. *)
Definition scriptedOracle (sentence : string) (sentenceAnswer : EmbedResponse)
    (fullAnswer : EmbedResponse) (labelAnswer : LabelResponse) (now : Z)
    (suffix : string) (saved : bool) : Oracle :=
  fun X e =>
    match e in Event T return T with
    | GEMINI_EMBED text =>
        if String.eqb text sentence then sentenceAnswer else fullAnswer
    | GEMINI_LABEL _ _ => labelAnswer
    | DateNow => now
    | RandomSuffix => suffix
    | SaveConversation _ => saved
    end.

(** A third passage, close to the header and to its subheader. *)
Definition demoPrompt3 : PromptInput :=
  mkPromptInput 2 "A covering index answers a query on its own."
                "A covering index answers a query on its own.".

Definition demoRun4
  : list Obs * (Outcome ClassifyResult * ConversationIndex) :=
  Eval vm_compute in
  runWith demoOracle2 (classifyPrompt 3 demoPrompt3 demoSettings demoIndex2).

(** A passage on another subject, on the store with one header. *)
Definition demoPrompt4 : PromptInput :=
  mkPromptInput 3 "Queues decouple producers from consumers. They buffer."
                "Queues decouple producers from consumers.".

(** ... when the embedding of its full text fails, *)
Definition demoOracle3 : Oracle :=
  scriptedOracle demoPrompt4.(firstSentence) (EmbedOk [0; 1]%float)
                 (EmbedErr "quota") (LabelOk "Queues") 19 "klmno" true.

Definition demoRun5
  : list Obs * (Outcome ClassifyResult * ConversationIndex) :=
  Eval vm_compute in
  runWith demoOracle3 (classifyPrompt 3 demoPrompt4 demoSettings demoIndex1).

(** ... and when the full text resembles the header. *)
Definition demoOracle4 : Oracle :=
  scriptedOracle demoPrompt4.(firstSentence) (EmbedOk [0; 1]%float)
                 (EmbedOk [1; 0]%float) (LabelOk "Queues") 19 "klmno" true.

Definition demoRun6
  : list Obs * (Outcome ClassifyResult * ConversationIndex) :=
  Eval vm_compute in
  runWith demoOracle4 (classifyPrompt 3 demoPrompt4 demoSettings demoIndex1).

(** A store in which the subheader has a vector of its own. *)
Definition demoOracle5 : Oracle :=
  scriptedOracle demoPrompt2.(firstSentence) (EmbedOk [0.75; 0.5]%float)
                 (EmbedOk [0.75; 0.5]%float) (LabelOk "Indexes") 18 "fghij"
                 true.

Definition demoRun7
  : list Obs * (Outcome ClassifyResult * ConversationIndex) :=
  Eval vm_compute in
  runWith demoOracle5 (classifyPrompt 3 demoPrompt2 demoSettings demoIndex1).

Definition demoIndex3 : ConversationIndex :=
  Eval vm_compute in snd (snd demoRun7).

(** A passage whose full text resembles the subheader. *)
Definition demoOracle6 : Oracle :=
  scriptedOracle demoPrompt4.(firstSentence) (EmbedOk [0; 1]%float)
                 (EmbedOk [0.5; 0.75]%float) (LabelOk "Queues") 19 "klmno"
                 true.

Definition demoRun8
  : list Obs * (Outcome ClassifyResult * ConversationIndex) :=
  Eval vm_compute in
  runWith demoOracle6 (classifyPrompt 3 demoPrompt4 demoSettings demoIndex3).

Definition demoFullHit : option Match :=
  Eval vm_compute in
  bestMatch [0.5; 0.75]%float (getAllEmbeddedCandidates demoIndex3)
            demoSettings.(thresholdLow).

(** Single calls of tree.ts. *)
Definition demoInsertRun : list Obs * (Outcome unit * ConversationIndex) :=
  Eval vm_compute in
  runWith demoOracle2 (insertPromptIntoNode "node_17_abcde" 5 demoIndex1).

Definition demoSpawnRun
  : list Obs * (Outcome OutlineNode * ConversationIndex) :=
  Eval vm_compute in
  runWith demoOracle
    (spawnNode "root" "Topic" Rank1 (Some [1; 0]%float) demoIndex0).

Definition demoRecounted : ConversationIndex :=
  Eval vm_compute in recounted 3 demoIndex2.

Definition demoHeader : OutlineNode :=
  Eval vm_compute in
  match dict_get "node_17_abcde" demoRecounted.(nodes) with
  | Some n => n
  | None => mkNode "" "" Rank0 [] [] 0 0 0
  end.

(** The store of the example with no vector registered, as
    [initializeEmbeddings] is written to find it. *)
Definition demoBare : ConversationIndex :=
  Eval vm_compute in set_embeddings [] demoIndex2.

Definition demoInitRun : list Obs * (Outcome unit * ConversationIndex) :=
  Eval vm_compute in
  runWith demoOracle (initializeEmbeddings demoSettings demoBare).

(** The queue processor on the first message of a conversation, with a
    save that succeeds and with one that fails. *)
Definition demoState0 : ContentState :=
  mkContent demoIndex0 [] [demoMessage] false.

Definition demoDrainRun : list Obs * ContentState :=
  Eval vm_compute in
  runWith demoOracle (drainQueue 3 demoSettings demoState0).

Definition demoOracle7 : Oracle :=
  scriptedOracle "" (EmbedOk [1; 0]%float) (EmbedOk [1; 0]%float)
                 (LabelErr "offline") 17 "abcde" false.

Definition demoDrainRun2 : list Obs * ContentState :=
  Eval vm_compute in
  runWith demoOracle7 (drainQueue 3 demoSettings demoState0).

Definition demoHeader1 : OutlineNode :=
  Eval vm_compute in
  match dict_get "node_17_abcde" demoIndex1.(nodes) with
  | Some n => n
  | None => mkNode "" "" Rank0 [] [] 0 0 0
  end.

Definition demoSubheader3 : OutlineNode :=
  Eval vm_compute in
  match dict_get "node_18_fghij" demoIndex3.(nodes) with
  | Some n => n
  | None => mkNode "" "" Rank0 [] [] 0 0 0
  end.

Definition demoFullHitMatch : Match :=
  Eval vm_compute in
  match demoFullHit with
  | Some m => m
  | None => mkMatch "" 0
  end.

(** What the queue processor tried to save in the second run. *)
Definition demoFailedSave : StoredConversation :=
  Eval vm_compute in
  match filter isSave (fst demoDrainRun2) with
  | ObsSave stored _ :: _ => stored
  | _ => mkStored "" [] [] []
  end.

(** ** tree.ts: names that [index.nodes] inherits *)

(** The store of [createIndex] with a child named [valueOf] listed under
    the root, and no node stored under that name. *)
Definition inheritedChildIndex : ConversationIndex :=
  Eval vm_compute in
  set_nodes (dict_update "root" (pushChild "valueOf") demoIndex0.(nodes))
            demoIndex0.

(** The same with a child named [constructor], and a vector registered
    under that name. *)
Definition inheritedCandidateIndex : ConversationIndex :=
  Eval vm_compute in
  set_embeddings [("constructor", [1; 0]%float)]
    (set_nodes (dict_update "root" (pushChild "constructor")
                  demoIndex0.(nodes))
               demoIndex0).

(** [spawnNode] under the parent [toString]. *)
Definition inheritedSpawnRun
  : list Obs * (Outcome OutlineNode * ConversationIndex) :=
  Eval vm_compute in
  runWith demoOracle
    (spawnNode "toString" "Topic" Rank1 (Some [1; 0]%float) demoIndex0).

(** [insertPromptIntoNode] into [constructor]. *)
Definition inheritedInsertRun
  : list Obs * (Outcome unit * ConversationIndex) :=
  Eval vm_compute in
  runWith demoOracle (insertPromptIntoNode "constructor" 5 demoIndex0).

(* ================================================================== *)
(** * Part III. Properties *)
(* ================================================================== *)

Unset Implicit Arguments.

(** ** The order of binary64 values

    [SFcompare] is a lexicographic comparison; away from NaN it is a total
    preorder, which is all the selection loop relies on. *)

Section FloatOrder.

Lemma SFcompare_antisym (x y : spec_float) :
  SFcompare y x = option_map CompOpp (SFcompare x y).
Proof.
  destruct x as [sx|sx| |sx mx ex], y as [sy|sy| |sy my ey]; simpl;
    try reflexivity;
    try (destruct sx; reflexivity); try (destruct sy; reflexivity);
    try (destruct sx, sy; reflexivity).
  change (Pos.compare_cont Eq my mx) with (Pos.compare my mx).
  change (Pos.compare_cont Eq mx my) with (Pos.compare mx my).
  rewrite (Z.compare_antisym ex ey), (Pos.compare_antisym mx my).
  destruct sx, sy; simpl; try reflexivity;
    destruct (ex ?= ey)%Z; simpl; try reflexivity;
    destruct (mx ?= my)%positive; reflexivity.
Qed.

Ltac split_compare :=
  repeat match goal with
    | H : context [Z.compare ?a ?b] |- _ => destruct (Z.compare_spec a b); subst
    | |- context [Z.compare ?a ?b] => destruct (Z.compare_spec a b); subst
    | H : context [Pos.compare ?a ?b] |- _ => destruct (Pos.compare_spec a b); subst
    | |- context [Pos.compare ?a ?b] => destruct (Pos.compare_spec a b); subst
    end.

Lemma SFcompare_trans (x y z : spec_float) (c1 c2 : comparison) :
  SFcompare x y = Some c1 -> SFcompare y z = Some c2 ->
  c1 <> Gt -> c2 <> Gt ->
  SFcompare x z = Some (match c1, c2 with Eq, Eq => Eq | _, _ => Lt end).
Proof.
  intros H1 H2 N1 N2.
  destruct x as [sx|sx| |sx mx ex], y as [sy|sy| |sy my ey],
           z as [sz|sz| |sz mz ez];
    simpl in *; try discriminate;
    try (destruct sx); try (destruct sy); try (destruct sz);
    simpl in *;
    try (injection H1 as <-); try (injection H2 as <-);
    try congruence; try reflexivity.
  all: change (Pos.compare_cont Eq) with Pos.compare in *.
  all: split_compare; simpl in *; try congruence; try reflexivity; try lia.
Qed.

Lemma SFcompare_total (x y : spec_float) :
  x <> S754_nan -> y <> S754_nan -> exists c, SFcompare x y = Some c.
Proof.
  intros Hx Hy.
  destruct x, y; simpl; try congruence; eauto.
Qed.

Lemma SFcompare_some_l (x y : spec_float) c :
  SFcompare x y = Some c -> x <> S754_nan /\ y <> S754_nan.
Proof.
  destruct x, y; simpl; intros H; try discriminate; split; congruence.
Qed.

Lemma leb_true (a b : float) :
  (a <=? b)%float = true <->
  SFcompare (Prim2SF a) (Prim2SF b) = Some Lt \/
  SFcompare (Prim2SF a) (Prim2SF b) = Some Eq.
Proof.
  rewrite leb_spec. unfold SFleb.
  destruct (SFcompare (Prim2SF a) (Prim2SF b)) as [[ | | ]|];
    intuition congruence.
Qed.

Lemma ltb_true (a b : float) :
  (a <? b)%float = true <-> SFcompare (Prim2SF a) (Prim2SF b) = Some Lt.
Proof.
  rewrite ltb_spec. unfold SFltb.
  destruct (SFcompare (Prim2SF a) (Prim2SF b)) as [[ | | ]|];
    intuition congruence.
Qed.

Lemma leb_ordered (a b : float) :
  (a <=? b)%float = true -> ordered a /\ ordered b.
Proof.
  rewrite leb_true. intros [H|H]; apply SFcompare_some_l in H; exact H.
Qed.

Lemma ltb_leb (a b : float) :
  (a <? b)%float = true -> (a <=? b)%float = true.
Proof. rewrite ltb_true, leb_true. auto. Qed.

Lemma leb_refl (a : float) : ordered a -> (a <=? a)%float = true.
Proof.
  intros Ha. rewrite leb_true.
  destruct (SFcompare_total _ _ Ha Ha) as [c Hc].
  pose proof (SFcompare_antisym (Prim2SF a) (Prim2SF a)) as E.
  rewrite Hc in E. simpl in E. destruct c; try discriminate; auto.
Qed.

Lemma leb_trans (a b c : float) :
  (a <=? b)%float = true -> (b <=? c)%float = true -> (a <=? c)%float = true.
Proof.
  rewrite !leb_true. intros [H1|H1] [H2|H2];
    rewrite (SFcompare_trans _ _ _ _ _ H1 H2); simpl; auto; congruence.
Qed.

Lemma ltb_leb_trans (a b c : float) :
  (a <? b)%float = true -> (b <=? c)%float = true -> (a <? c)%float = true.
Proof.
  rewrite !ltb_true, leb_true. intros H1 [H2|H2];
    rewrite (SFcompare_trans _ _ _ _ _ H1 H2); simpl; auto; congruence.
Qed.

Lemma leb_ltb_trans (a b c : float) :
  (a <=? b)%float = true -> (b <? c)%float = true -> (a <? c)%float = true.
Proof.
  rewrite !ltb_true, leb_true. intros [H1|H1] H2;
    rewrite (SFcompare_trans _ _ _ _ _ H1 H2); simpl; auto; congruence.
Qed.

Lemma ltb_false_leb (a b : float) :
  ordered a -> ordered b -> (a <? b)%float = false -> (b <=? a)%float = true.
Proof.
  intros Ha Hb H. rewrite leb_true.
  destruct (SFcompare_total _ _ Ha Hb) as [c Hc].
  rewrite (SFcompare_antisym (Prim2SF a) (Prim2SF b)), Hc. simpl.
  destruct c; simpl; auto.
  apply ltb_true in Hc. congruence.
Qed.

Lemma leb_false_ltb (a b : float) :
  ordered a -> ordered b -> (a <=? b)%float = false -> (b <? a)%float = true.
Proof.
  intros Ha Hb H. rewrite ltb_true.
  destruct (SFcompare_total _ _ Ha Hb) as [c Hc].
  rewrite (SFcompare_antisym (Prim2SF a) (Prim2SF b)), Hc. simpl.
  destruct c; simpl; auto;
    assert ((a <=? b)%float = true) by (apply leb_true; auto); congruence.
Qed.

Lemma ltb_leb_false (a b : float) :
  (a <? b)%float = true -> (b <=? a)%float = false.
Proof.
  intros H. destruct (b <=? a)%float eqn:E; [|reflexivity].
  apply ltb_true in H. apply leb_true in E.
  rewrite (SFcompare_antisym (Prim2SF a) (Prim2SF b)), H in E.
  simpl in E. destruct E; discriminate.
Qed.

End FloatOrder.

(** ** The model on concrete inputs *)

Example hashPrompt_hello : hashPrompt "hello" = "e4365eed".
Proof. vm_compute. reflexivity. Qed.

Example hashPrompt_empty : hashPrompt "" = "00001505".
Proof. vm_compute. reflexivity. Qed.

Example trim_both_ends : trim "  ab c  " = "ab c".
Proof. reflexivity. Qed.

Example fallbackLabel_cuts_then_trims :
  fallbackLabel "   The full text of passage one, which is long enough  "
  = "The full text of passage one, which i".
Proof. reflexivity. Qed.

Example cosineSimilarity_same_direction :
  cosineSimilarity [3; 4]%float [3; 4]%float = 1%float.
Proof. vm_compute. reflexivity. Qed.

Example cosineSimilarity_orthogonal :
  cosineSimilarity [1; 0]%float [0; 1]%float = 0%float.
Proof. vm_compute. reflexivity. Qed.

Example cosineSimilarity_zero_vector :
  cosineSimilarity [0; 0]%float [1; 2]%float = 0%float.
Proof. vm_compute. reflexivity. Qed.

Example bestMatch_tie_goes_to_first :
  bestMatch [1; 0]%float
            [("a", [0; 1]%float); ("b", [2; 0]%float); ("c", [1; 0]%float)]
            0.5%float
  = Some (mkMatch "b" 1%float).
Proof. vm_compute. reflexivity. Qed.

Example bestMatch_below_threshold :
  bestMatch [1; 0]%float [("a", [0; 1]%float)] 0.5%float = None.
Proof. vm_compute. reflexivity. Qed.

(** ** similarity.ts *)

Section BestMatch.

Variable q : Vector.

Lemma cosineSimilarity_mismatch (e : Vector) :
  List.length q <> List.length e -> cosineSimilarity q e = 0%float.
Proof.
  intros H. unfold cosineSimilarity.
  apply Nat.eqb_neq in H. rewrite H. reflexivity.
Qed.

Lemma length_zero_iff (e : Vector) : (List.length e =? 0) = true <-> e = [].
Proof.
  rewrite Nat.eqb_eq. destruct e; simpl; split; intros; congruence.
Qed.

(** What one iteration does, by cases on the candidate. *)
Lemma bestMatch_step_skip (t : float) (best : option Match) (c : Candidate) :
  ~ eligible q t c -> bestMatch_step q t best c = best.
Proof.
  destruct c as [id e]. unfold eligible, bestMatch_step. simpl. intros H.
  destruct (List.length e =? 0) eqn:El; [reflexivity|].
  destruct (t <=? cosineSimilarity q e)%float eqn:Et; [|reflexivity].
  exfalso. apply H. split; [|reflexivity].
  intros ->. discriminate.
Qed.

Lemma bestMatch_step_eligible (t : float) (best : option Match) (c : Candidate) :
  eligible q t c ->
  bestMatch_step q t best c =
    match best with
    | None => Some (mkMatch (fst c) (cosineSimilarity q (snd c)))
    | Some b =>
        if (b.(score) <? cosineSimilarity q (snd c))%float
        then Some (mkMatch (fst c) (cosineSimilarity q (snd c)))
        else Some b
    end.
Proof.
  destruct c as [id e]. unfold eligible, bestMatch_step. simpl. intros [Hne Ht].
  destruct (List.length e =? 0) eqn:El.
  - apply length_zero_iff in El. contradiction.
  - rewrite Ht. simpl. destruct best as [[bid bs]|]; reflexivity.
Qed.

Lemma eligible_dec (t : float) (c : Candidate) :
  eligible q t c \/ ~ eligible q t c.
Proof.
  unfold eligible. destruct c as [id [|x e]]; simpl.
  - right. intros [H _]. congruence.
  - destruct (t <=? cosineSimilarity q (x :: e))%float.
    + left. split; [discriminate|reflexivity].
    + right. intros [_ H]. discriminate.
Qed.

Lemma eligible_ordered (t : float) (c : Candidate) :
  eligible q t c -> ordered (cosineSimilarity q (snd c)) /\ ordered t.
Proof. intros [_ H]. apply leb_ordered in H. tauto. Qed.

(** The loop invariant: after the candidates [l], [best] is the first of
    the highest-scoring eligible ones. *)
Lemma best_match_spec_snoc (t : float) (l : list Candidate)
    (best : option Match) (c : Candidate) :
  best_match_spec q l t best ->
  best_match_spec q (l ++ [c]) t (bestMatch_step q t best c).
Proof.
  intros Inv.
  destruct (eligible_dec t c) as [Hc|Hc].
  - (* an eligible candidate *)
    rewrite (bestMatch_step_eligible _ best _ Hc).
    destruct (eligible_ordered _ _ Hc) as [Os Ot].
    assert (Hnew : (forall j c', nth_error l j = Some c' -> eligible q t c' ->
                      (cosineSimilarity q (snd c') <? cosineSimilarity q (snd c))%float = true) ->
                   is_best_match q (l ++ [c]) t
                     (mkMatch (fst c) (cosineSimilarity q (snd c)))).
    { intros Hlt. exists (List.length l), (snd c). simpl.
      rewrite nth_error_app2, Nat.sub_diag by lia. simpl.
      destruct c as [id e]. simpl in *.
      split; [reflexivity|]. split; [exact Hc|]. split; [reflexivity|].
      intros j c0 H H0. split.
      - destruct (Nat.lt_ge_cases j (List.length l)) as [Hj|Hj].
        + rewrite nth_error_app1 in H by exact Hj.
          apply ltb_leb. eauto.
        + rewrite nth_error_app2 in H by exact Hj.
          destruct (j - List.length l) as [|k] eqn:Ej; simpl in H.
          * injection H as <-. apply leb_refl. exact Os.
          * destruct k; discriminate.
      - intros Hj. rewrite nth_error_app1 in H by exact Hj. eauto. }
    destruct best as [b|].
    + destruct Inv as (i & emb & Hi & Hel & Hs & Hmax).
      destruct (b.(score) <? cosineSimilarity q (snd c))%float eqn:Hb.
      * apply Hnew. intros j c' Hj Hc'.
        apply leb_ltb_trans with (b := b.(score)); [|exact Hb].
        apply (Hmax j c' Hj Hc').
      * exists i, emb.
        assert (Hil : i < List.length l)
          by (apply nth_error_Some; congruence).
        rewrite nth_error_app1 by exact Hil.
        split; [exact Hi|]. split; [exact Hel|]. split; [exact Hs|].
        intros j c0 H H0. split.
        -- destruct (Nat.lt_ge_cases j (List.length l)) as [Hj|Hj].
           ++ rewrite nth_error_app1 in H by exact Hj. apply (Hmax j c0 H H0).
           ++ rewrite nth_error_app2 in H by exact Hj.
              destruct (j - List.length l) as [|k] eqn:Ej; simpl in H.
              ** injection H as <-. apply ltb_false_leb; auto.
                 rewrite Hs. apply (eligible_ordered _ _ Hel).
              ** destruct k; discriminate.
        -- intros Hj. assert (Hjl : j < List.length l) by lia.
           rewrite nth_error_app1 in H by exact Hjl. apply (Hmax j c0 H H0); exact Hj.
    + apply Hnew. intros j c' Hj Hc'. exfalso.
      apply (Inv c'); [|exact Hc']. eapply nth_error_In; eauto.
  - (* a skipped candidate *)
    rewrite (bestMatch_step_skip _ best _ Hc).
    destruct best as [b|]; simpl in *.
    + destruct Inv as (i & emb & Hi & Hel & Hs & Hmax).
      exists i, emb.
      assert (Hil : i < List.length l) by (apply nth_error_Some; congruence).
      rewrite nth_error_app1 by exact Hil.
      split; [exact Hi|]. split; [exact Hel|]. split; [exact Hs|].
      intros j c0 H H0. split.
      * destruct (Nat.lt_ge_cases j (List.length l)) as [Hj|Hj].
        -- rewrite nth_error_app1 in H by exact Hj. apply (Hmax j c0 H H0).
        -- rewrite nth_error_app2 in H by exact Hj.
           destruct (j - List.length l) as [|k] eqn:Ej; simpl in H.
           ++ injection H as <-. contradiction.
           ++ destruct k; discriminate.
      * intros Hj. assert (Hjl : j < List.length l) by lia.
        rewrite nth_error_app1 in H by exact Hjl. apply (Hmax j c0 H H0); exact Hj.
    + intros c' Hin. apply in_app_or in Hin. destruct Hin as [Hin|[<-|[]]].
      * apply Inv. exact Hin.
      * exact Hc.
Qed.

Lemma best_match_spec_fold (t : float) (rest l : list Candidate)
    (best : option Match) :
  best_match_spec q l t best ->
  best_match_spec q (l ++ rest) t (fold_left (bestMatch_step q t) rest best).
Proof.
  revert l best. induction rest as [|c rest IH]; intros l best Inv; simpl.
  - rewrite app_nil_r. exact Inv.
  - replace (l ++ c :: rest) with ((l ++ [c]) ++ rest)
      by (rewrite <- app_assoc; reflexivity).
    apply IH. apply best_match_spec_snoc. exact Inv.
Qed.

Lemma bestMatch_correct (cands : list Candidate) (t : float) :
  best_match_spec q cands t (bestMatch q cands t).
Proof.
  unfold bestMatch.
  apply (best_match_spec_fold t cands [] None).
  simpl. intros c [].
Qed.

(** The winner is one of the candidates, with a non-empty vector and a
    score that reaches the threshold. *)
Lemma bestMatch_winner (cands : list Candidate) (t : float) (m : Match) :
  bestMatch q cands t = Some m ->
  exists emb,
    In (m.(match_id), emb) cands /\ emb <> [] /\
    m.(score) = cosineSimilarity q emb /\
    (t <=? m.(score))%float = true.
Proof.
  intros H. pose proof (bestMatch_correct cands t) as S.
  rewrite H in S. destruct S as (i & emb & Hi & [Hne Ht] & Hs & _).
  exists emb. simpl in *. repeat split; auto.
  - eapply nth_error_In; eauto.
  - rewrite Hs. exact Ht.
Qed.

Lemma threshold_sim_step (t t' : float) (b b' : option Match) (c : Candidate) :
  (t' <=? t)%float = true ->
  threshold_sim t t' b b' ->
  threshold_sim t t' (bestMatch_step q t b c) (bestMatch_step q t' b' c).
Proof.
  intros Htt R.
  destruct (eligible_dec t c) as [Hc|Hc].
  - assert (Hc' : eligible q t' c).
    { destruct Hc as [Hne Ht]. split; [exact Hne|].
      eapply leb_trans; eauto. }
    rewrite (bestMatch_step_eligible _ b _ Hc), (bestMatch_step_eligible _ b' _ Hc').
    destruct Hc as [_ Ht].
    destruct b as [m|]; simpl in R.
    + destruct R as [-> Hm].
      destruct (m.(score) <? cosineSimilarity q (snd c))%float; simpl; auto.
    + destruct b' as [m'|]; simpl.
      * destruct R as [Hm' Hm].
        assert (Hlt : (m'.(score) <? cosineSimilarity q (snd c))%float = true).
        { apply ltb_leb_trans with (b := t); [|exact Ht].
          apply leb_false_ltb; auto.
          - apply (leb_ordered _ _ Htt).
          - apply (leb_ordered _ _ Hm'). }
        rewrite Hlt. simpl. auto.
      * auto.
  - rewrite (bestMatch_step_skip _ b _ Hc).
    destruct b as [m|]; simpl in R.
    + destruct R as [-> Hm].
      destruct (eligible_dec t' c) as [Hc'|Hc'].
      * rewrite (bestMatch_step_eligible _ (Some m) _ Hc').
        destruct (m.(score) <? cosineSimilarity q (snd c))%float eqn:E.
        -- exfalso. apply Hc. destruct Hc' as [Hne _]. split; [exact Hne|].
           apply ltb_leb. eapply leb_ltb_trans; eauto.
        -- simpl. auto.
      * rewrite (bestMatch_step_skip _ (Some m) _ Hc'). simpl. auto.
    + simpl.
      destruct (eligible_dec t' c) as [Hc'|Hc'].
      * rewrite (bestMatch_step_eligible _ b' _ Hc').
        assert (Hnt : (t <=? cosineSimilarity q (snd c))%float = false).
        { destruct (t <=? cosineSimilarity q (snd c))%float eqn:E; auto.
          exfalso. apply Hc. destruct Hc' as [Hne _]. split; auto. }
        destruct Hc' as [_ Ht'].
        destruct b' as [m'|]; simpl; auto.
        destruct (m'.(score) <? cosineSimilarity q (snd c))%float; simpl; auto.
      * rewrite (bestMatch_step_skip _ b' _ Hc'). exact R.
Qed.

Lemma threshold_sim_fold (t t' : float) (cands : list Candidate)
    (b b' : option Match) :
  (t' <=? t)%float = true ->
  threshold_sim t t' b b' ->
  threshold_sim t t' (fold_left (bestMatch_step q t) cands b)
                     (fold_left (bestMatch_step q t') cands b').
Proof.
  intros Htt. revert b b'.
  induction cands as [|c cands IH]; intros b b' R; simpl; auto.
  apply IH. apply threshold_sim_step; assumption.
Qed.

End BestMatch.

(** C3. [bestMatch] returns the first of the highest-scoring candidates
    with a non-empty vector and a similarity [>= threshold]: every other
    such candidate scores no more, every earlier one strictly less; and it
    returns nothing exactly when no candidate with a non-empty vector
    reaches the threshold. *)
Theorem bestMatch_first_highest :
  forall (q : Vector) (cands : list Candidate) (t : float),
    match bestMatch q cands t with
    | Some m => is_best_match q cands t m
    | None => forall c, In c cands -> ~ eligible q t c
    end.
Proof.
  intros q cands t. exact (bestMatch_correct q cands t).
Qed.

(** C8. Lowering the threshold keeps a match, and keeps it on the same
    candidate with the same score. *)
Theorem bestMatch_threshold_monotone :
  forall (q : Vector) (cands : list Candidate) (t t' : float) (m : Match),
    (t' <=? t)%float = true ->
    bestMatch q cands t = Some m ->
    bestMatch q cands t' = Some m.
Proof.
  intros q cands t t' m Htt H.
  pose proof (threshold_sim_fold q t t' cands None None Htt I) as R.
  unfold bestMatch in *. rewrite H in R. simpl in R. tauto.
Qed.

(** C7, as the code has it. The winner never has an empty vector; for a
    threshold above zero its vector also has the length of the query; and a
    lone candidate with an empty vector never matches. *)
Theorem bestMatch_never_degenerate :
  forall (q : Vector) (cands : list Candidate) (t : float) (m : Match),
    bestMatch q cands t = Some m ->
    (exists i emb,
        nth_error cands i = Some (m.(match_id), emb) /\
        m.(score) = cosineSimilarity q emb /\
        emb <> [] /\
        ((0 <? t)%float = true -> List.length emb = List.length q))
    /\ (forall id t', bestMatch q [(id, [])] t' = None).
Proof.
  intros q cands t m H. split; [|reflexivity].
  pose proof (bestMatch_correct q cands t) as S.
  rewrite H in S. destruct S as (i & emb & Hi & [Hne Ht] & Hs & _).
  exists i, emb. simpl in *. repeat split; auto.
  intros Hpos.
  destruct (Nat.eq_dec (List.length q) (List.length emb)) as [E|E]; [auto|].
  rewrite (cosineSimilarity_mismatch q emb E) in Ht.
  apply ltb_leb_false in Hpos. congruence.
Qed.

Lemma bestMatch_never_degenerate_witness :
  (exists i emb,
      nth_error [("a", [1; 0]%float)] i = Some ("a", emb) /\
      1%float = cosineSimilarity [1; 0]%float emb /\
      emb <> [] /\
      ((0 <? 0.5)%float = true -> List.length emb = 2))
  /\ (forall id t', bestMatch [1; 0]%float [(id, [])] t' = None).
Proof.
  apply (bestMatch_never_degenerate [1; 0]%float [("a", [1; 0]%float)]
           0.5%float (mkMatch "a" 1%float)).
  vm_compute. reflexivity.
Defined.

(** C7, as the specification has it, fails: at threshold zero a candidate
    whose vector has another length than the query scores 0 and wins. *)
Lemma bestMatch_mismatch_wins :
  List.length [1; 2]%float <> List.length [1]%float /\
  bestMatch [1]%float [("x", [1; 2]%float)] 0%float
    = Some (mkMatch "x" 0%float).
Proof.
  split; [discriminate|]. vm_compute. reflexivity.
Qed.

Lemma bestMatch_threshold_monotone_witness :
  bestMatch [1; 0]%float [("a", [1; 0]%float); ("b", [0; 1]%float)] 0.5%float
    = Some (mkMatch "a" 1%float).
Proof.
  apply (bestMatch_threshold_monotone [1; 0]%float
           [("a", [1; 0]%float); ("b", [0; 1]%float)] 0.75%float 0.5%float
           (mkMatch "a" 1%float)).
  - vm_compute. reflexivity.
  - vm_compute. reflexivity.
Defined.

(** ** Dictionaries *)

Section DictFacts.

Context {V : Type}.

Lemma dict_get_set_eq (k : string) (v : V) (d : Dict V) :
  dict_get k (dict_set k v d) = Some v.
Proof.
  induction d as [|[k' v'] d IH]; simpl.
  - rewrite String.eqb_refl. reflexivity.
  - destruct (String.eqb k k') eqn:E; simpl.
    + rewrite String.eqb_refl. reflexivity.
    + rewrite E. exact IH.
Qed.

Lemma dict_get_set_neq (k k' : string) (v : V) (d : Dict V) :
  k' <> k -> dict_get k' (dict_set k v d) = dict_get k' d.
Proof.
  intros N. induction d as [|[k0 v0] d IH]; simpl.
  - apply String.eqb_neq in N. rewrite N. reflexivity.
  - destruct (String.eqb k k0) eqn:E; simpl.
    + apply String.eqb_eq in E. subst k0.
      apply String.eqb_neq in N. rewrite N. reflexivity.
    + destruct (String.eqb k' k0); [reflexivity|exact IH].
Qed.

Lemma dict_get_update (k k' : string) (f : V -> V) (d : Dict V) :
  dict_get k' (dict_update k f d)
  = if String.eqb k' k then option_map f (dict_get k d) else dict_get k' d.
Proof.
  induction d as [|[k0 v0] d IH]; simpl.
  - destruct (String.eqb k' k); reflexivity.
  - destruct (String.eqb k k0) eqn:E; simpl.
    + apply String.eqb_eq in E. subst k0.
      destruct (String.eqb k' k); reflexivity.
    + destruct (String.eqb k' k0) eqn:E'.
      * apply String.eqb_eq in E'. subst k0.
        rewrite String.eqb_sym, E. reflexivity.
      * exact IH.
Qed.

Lemma dict_get_update_eq (k : string) (f : V -> V) (d : Dict V) :
  dict_get k (dict_update k f d) = option_map f (dict_get k d).
Proof. rewrite dict_get_update, String.eqb_refl. reflexivity. Qed.

Lemma dict_get_update_neq (k k' : string) (f : V -> V) (d : Dict V) :
  k' <> k -> dict_get k' (dict_update k f d) = dict_get k' d.
Proof.
  intros N. rewrite dict_get_update.
  apply String.eqb_neq in N. rewrite N. reflexivity.
Qed.

Lemma dict_get_In (k : string) (v : V) (d : Dict V) :
  dict_get k d = Some v -> In (k, v) d.
Proof.
  induction d as [|[k' v'] d IH]; simpl; [discriminate|].
  destruct (String.eqb k k') eqn:E.
  - apply String.eqb_eq in E. subst. intros [= ->]. auto.
  - auto.
Qed.

Lemma dict_In_get (k : string) (v : V) (d : Dict V) :
  In (k, v) d -> exists v', dict_get k d = Some v'.
Proof.
  induction d as [|[k' v'] d IH]; simpl; [tauto|].
  intros [E|H].
  - injection E as -> ->. rewrite String.eqb_refl. eauto.
  - destruct (String.eqb k k'); eauto.
Qed.

Lemma dict_has_true (k : string) (d : Dict V) :
  dict_has k d = true <-> exists v, dict_get k d = Some v.
Proof.
  unfold dict_has. destruct (dict_get k d).
  - split; eauto.
  - split; [discriminate|]. intros [v H]. discriminate.
Qed.

Lemma lookup_own (k : string) (d : Dict V) (v : V) :
  lookup k d = Own v <-> dict_get k d = Some v.
Proof.
  unfold lookup. destruct (dict_get k d).
  - split; intros [= ->]; reflexivity.
  - destruct (isInherited k); split; discriminate.
Qed.

Lemma lookup_inherited (k : string) (d : Dict V) :
  lookup k d = Inherited <-> dict_get k d = None /\ isInherited k = true.
Proof.
  unfold lookup. destruct (dict_get k d).
  - split; [discriminate|]. intros [H _]. discriminate.
  - destruct (isInherited k); split; auto; try discriminate.
    intros [_ H]. discriminate.
Qed.

Lemma lookup_missing (k : string) (d : Dict V) :
  lookup k d = Missing <-> dict_get k d = None /\ isInherited k = false.
Proof.
  unfold lookup. destruct (dict_get k d).
  - split; [discriminate|]. intros [H _]. discriminate.
  - destruct (isInherited k); split; auto; try discriminate.
    intros [_ H]. discriminate.
Qed.

(** A read finds an own entry, or what the name alone decides. *)
Lemma lookup_get (k : string) (d : Dict V) :
  lookup k d
  = match dict_get k d with
    | Some v => Own v
    | None => if isInherited k then Inherited else Missing
    end.
Proof. reflexivity. Qed.

End DictFacts.

(** ** tree.ts: the recount *)

Lemma dict_get_erase (k : string) (ns : Dict OutlineNode) :
  dict_get k (erase ns) = option_map (set_promptCount 0) (dict_get k ns).
Proof.
  induction ns as [|[k' n] ns IH]; simpl; [reflexivity|].
  destruct (String.eqb k k'); [reflexivity|exact IH].
Qed.

Lemma erase_update_count (k : string) (c : nat) (ns : Dict OutlineNode) :
  erase (dict_update k (set_promptCount c) ns) = erase ns.
Proof.
  induction ns as [|[k' n] ns IH]; simpl; [reflexivity|].
  destruct (String.eqb k k'); simpl.
  - reflexivity.
  - rewrite IH. reflexivity.
Qed.

(** Two stores with the same shape hold, under every key, nodes that
    differ in their count only. *)
Lemma erase_get (ns ns' : Dict OutlineNode) (k : string) (n : OutlineNode) :
  erase ns = erase ns' -> dict_get k ns = Some n ->
  exists n', dict_get k ns' = Some n'
             /\ n'.(children) = n.(children)
             /\ n'.(promptIndices) = n.(promptIndices)
             /\ n' = set_promptCount n'.(promptCount) n.
Proof.
  intros E H.
  pose proof (dict_get_erase k ns) as G. pose proof (dict_get_erase k ns') as G'.
  rewrite E, G', H in G. simpl in G.
  destruct (dict_get k ns') as [n'|]; simpl in G; [|discriminate].
  injection G as G1 G2 G3 G4 G5 G6 G7.
  exists n'. split; [reflexivity|]. split; [exact G4|]. split; [exact G5|].
  destruct n, n'; unfold set_promptCount; simpl in *. congruence.
Qed.

Lemma erase_get_none (ns ns' : Dict OutlineNode) (k : string) :
  erase ns = erase ns' -> dict_get k ns = None -> dict_get k ns' = None.
Proof.
  intros E H.
  pose proof (dict_get_erase k ns) as G. pose proof (dict_get_erase k ns') as G'.
  rewrite E, G', H in G. destruct (dict_get k ns'); [discriminate|reflexivity].
Qed.

Lemma Total_erase (ns ns' : Dict OutlineNode) :
  erase ns = erase ns' ->
  forall k t, Total ns k t -> Total ns' k t.
Proof.
  intros E k t H.
  induction H using Total_mut
    with (P0 := fun cs s _ => TotalList ns' cs s).
  - apply Total_missing. eapply erase_get_none; eauto.
  - destruct (erase_get _ _ _ _ E e) as (n' & G & Hc & Hp & _).
    rewrite <- Hp, <- Hc in *. apply Total_node with (n := n'); assumption.
  - constructor.
  - constructor; assumption.
Qed.

Lemma Total_functional (ns : Dict OutlineNode) :
  forall k a, Total ns k a -> forall b, Total ns k b -> a = b.
Proof.
  intros k a H.
  induction H using Total_mut
    with (P0 := fun cs s _ => forall s', TotalList ns cs s' -> s = s').
  - intros b Hb. inversion Hb; subst; [reflexivity|congruence].
  - intros b Hb. inversion Hb; subst; [congruence|].
    assert (n0 = n) by congruence. subst n0.
    f_equal. apply IHTotal. assumption.
  - intros s' Hs. inversion Hs. reflexivity.
  - intros s' Hs. inversion Hs; subst.
    f_equal; [apply IHTotal|apply IHTotal0]; assumption.
Qed.

Lemma Reach_erase (ns ns' : Dict OutlineNode) :
  erase ns = erase ns' -> forall a b, Reach ns a b -> Reach ns' a b.
Proof.
  intros E a b H. induction H.
  - destruct (erase_get _ _ _ _ E H) as (n' & G & _). eapply Reach_here; eauto.
  - destruct (erase_get _ _ _ _ E H) as (n' & G & Hc & _).
    eapply Reach_child; eauto. rewrite Hc. assumption.
Qed.

Lemma recountChildren_spec
    (recur : Dict OutlineNode -> string -> Dict OutlineNode * Outcome nat) :
  (forall ns k ns' t,
      recur ns k = (ns', Returned t) -> recount_post ns k ns' t) ->
  forall cs ns tot ns' t,
    recountChildren recur cs ns tot = (ns', Returned t) ->
    recountChildren_post ns cs tot ns' t.
Proof.
  intros Hrec. induction cs as [|c cs IH]; intros ns tot ns' t H; simpl in H.
  - injection H as <- <-. repeat split.
    + exists 0. split; [constructor|lia].
    + auto.
    + intros c x [].
  - destruct (recur ns c) as [ns1 [n|e]] eqn:Ec; [|discriminate].
    destruct (Hrec _ _ _ _ Ec) as (E1 & T1 & U1 & C1).
    destruct (IH _ _ _ _ H) as (E2 & (s & T2 & ->) & U2 & C2).
    assert (E21 : erase ns1 = erase ns) by exact E1.
    repeat split.
    + congruence.
    + exists (n + s). split; [|lia]. constructor; [exact T1|].
      clear - T2 E21. induction T2.
      * constructor.
      * constructor; [|assumption]. eapply Total_erase; eauto.
    + intros x n' G. destruct (U2 x n' G) as [G1|G1].
      * apply U1. exact G1.
      * right. eapply Total_erase; eauto.
    + intros c' x [<-|Hin] R.
      * destruct (C1 x R) as (n1 & G1 & Tn1).
        destruct (erase_get _ _ _ _ (eq_sym E2) G1) as (n2 & G2 & _).
        destruct (U2 x n2 G2) as [G|G].
        -- exists n2. split; [exact G2|]. congruence.
        -- exists n2. split; [exact G2|]. eapply Total_erase; eauto.
      * assert (R1 : Reach ns1 c' x)
          by (apply (Reach_erase ns ns1 (eq_sym E1)); exact R).
        destruct (C2 c' x Hin R1) as (n2 & G2 & Tn2).
        exists n2. split; [exact G2|]. eapply Total_erase; eauto.
Qed.

Lemma recountSubtree_spec (stack : nat) :
  forall ns k ns' t,
    recountSubtree stack ns k = (ns', Returned t) -> recount_post ns k ns' t.
Proof.
  induction stack as [|stack IH]; intros ns k ns' t H; simpl in H.
  - discriminate.
  - rewrite lookup_get in H.
    destruct (dict_get k ns) as [node|] eqn:G.
    + destruct (recountChildren (recountSubtree stack) node.(children) ns
                  (List.length node.(promptIndices))) as [ns1 [tot|e]] eqn:L;
        [|discriminate].
      injection H as <- <-.
      destruct (recountChildren_spec _ IH _ _ _ _ _ L) as (E & (s & TL & ->) & U & C).
      assert (Tk : Total ns k (List.length node.(promptIndices) + s))
        by (apply Total_node; assumption).
      destruct (erase_get _ _ _ _ (eq_sym E) G) as (n1 & G1 & _).
      repeat split.
      * rewrite erase_update_count. exact E.
      * exact Tk.
      * intros x n' Gx. rewrite dict_get_update in Gx.
        destruct (String.eqb x k) eqn:Ex.
        -- apply String.eqb_eq in Ex. subst x. rewrite G1 in Gx.
           injection Gx as <-. right. exact Tk.
        -- apply U. exact Gx.
      * intros x R. unfold counted. rewrite dict_get_update.
        destruct (String.eqb x k) eqn:Ex.
        -- apply String.eqb_eq in Ex. subst x. rewrite G1. simpl.
           eexists. split; [reflexivity|]. exact Tk.
        -- inversion R; subst.
           ++ rewrite String.eqb_refl in Ex. discriminate.
           ++ assert (n = node) by congruence. subst n. eapply C; eauto.
    + destruct (isInherited k); [discriminate|].
      injection H as <- <-. repeat split.
      * apply Total_missing. exact G.
      * auto.
      * intros x R. inversion R; congruence.
Qed.

(** The shape of the store survives every call, returning or not. *)
Lemma recountSubtree_erase (stack : nat) :
  forall ns k, erase (fst (recountSubtree stack ns k)) = erase ns.
Proof.
  induction stack as [|stack IH]; intros ns k; simpl; [reflexivity|].
  destruct (lookup k ns) as [node| |]; [|reflexivity|reflexivity].
  assert (L : forall cs ns0 tot,
             erase (fst (recountChildren (recountSubtree stack) cs ns0 tot))
             = erase ns0).
  { induction cs as [|c cs IHc]; intros ns0 tot; simpl; [reflexivity|].
    pose proof (IH ns0 c) as E.
    destruct (recountSubtree stack ns0 c) as [ns1 [n|e]]; simpl in *.
    - rewrite IHc. exact E.
    - exact E. }
  specialize (L node.(children) ns (List.length node.(promptIndices))).
  destruct (recountChildren (recountSubtree stack) node.(children) ns
              (List.length node.(promptIndices))) as [ns1 [tot|e]]; simpl in *.
  - rewrite erase_update_count. exact L.
  - exact L.
Qed.

(** Two stores with the same shape answer every read alike, the count of
    the node apart. *)
Lemma lookup_erase (ns ns' : Dict OutlineNode) (k : string) :
  erase ns = erase ns' ->
  match lookup k ns with
  | Own n =>
      exists n', lookup k ns' = Own n'
                 /\ n'.(children) = n.(children)
                 /\ n'.(promptIndices) = n.(promptIndices)
  | Inherited => lookup k ns' = Inherited
  | Missing => lookup k ns' = Missing
  end.
Proof.
  intros E. rewrite !lookup_get.
  destruct (dict_get k ns) as [n|] eqn:G.
  - destruct (erase_get _ _ _ _ E G) as (n' & G' & Hc & Hp & _).
    exists n'. rewrite G'. auto.
  - rewrite (erase_get_none _ _ _ E G).
    destruct (isInherited k); reflexivity.
Qed.

Lemma terminates_erase (stack : nat) :
  forall ns ns' k,
    erase ns = erase ns' -> terminates stack ns k = terminates stack ns' k.
Proof.
  induction stack as [|stack IH]; intros ns ns' k E; simpl; [reflexivity|].
  pose proof (lookup_erase ns ns' k E) as L.
  destruct (lookup k ns) as [n| |].
  - destruct L as (n' & -> & Hc & _). rewrite Hc. clear - IH E.
    induction n.(children) as [|c cs IHc]; simpl; [reflexivity|].
    rewrite (IH ns ns' c E), IHc. reflexivity.
  - rewrite L. reflexivity.
  - rewrite L. reflexivity.
Qed.

Lemma no_inherited_erase (stack : nat) :
  forall ns ns' k,
    erase ns = erase ns' -> no_inherited stack ns k = no_inherited stack ns' k.
Proof.
  induction stack as [|stack IH]; intros ns ns' k E; simpl; [reflexivity|].
  pose proof (lookup_erase ns ns' k E) as L.
  destruct (lookup k ns) as [n| |].
  - destruct L as (n' & -> & Hc & _). rewrite Hc. clear - IH E.
    induction n.(children) as [|c cs IHc]; simpl; [reflexivity|].
    rewrite (IH ns ns' c E), IHc. reflexivity.
  - rewrite L. reflexivity.
  - rewrite L. reflexivity.
Qed.

(** A recursion that comes to its end recounts the subtree ... *)
Lemma recountSubtree_returns (stack : nat) :
  forall ns k,
    terminates stack ns k = true ->
    exists ns' t, recountSubtree stack ns k = (ns', Returned t).
Proof.
  induction stack as [|stack IH]; intros ns k T; simpl in *; [discriminate|].
  destruct (lookup k ns) as [node| |]; [|discriminate|eauto].
  assert (L : forall cs ns0 tot,
             erase ns0 = erase ns ->
             forallb (terminates stack ns) cs = true ->
             exists ns1 t,
               recountChildren (recountSubtree stack) cs ns0 tot
               = (ns1, Returned t)).
  { induction cs as [|c cs IHc]; intros ns0 tot E F; simpl in *; [eauto|].
    apply andb_prop in F. destruct F as [Fc Fcs].
    rewrite (terminates_erase stack ns ns0 c (eq_sym E)) in Fc.
    destruct (IH ns0 c Fc) as (ns1 & n & R).
    pose proof (recountSubtree_erase stack ns0 c) as E1.
    rewrite R in *. simpl in E1.
    apply IHc; [congruence|exact Fcs]. }
  destruct (L node.(children) ns (List.length node.(promptIndices))
              eq_refl T) as (ns1 & t & R).
  rewrite R. eauto.
Qed.

(** ... and no other does. *)
Lemma recountSubtree_terminates (stack : nat) :
  forall ns k ns' t,
    recountSubtree stack ns k = (ns', Returned t) ->
    terminates stack ns k = true.
Proof.
  induction stack as [|stack IH]; intros ns k ns' t H; simpl in *;
    [discriminate|].
  destruct (lookup k ns) as [node| |]; [|discriminate|reflexivity].
  assert (L : forall cs ns0 tot ns1 t1,
             erase ns0 = erase ns ->
             recountChildren (recountSubtree stack) cs ns0 tot
             = (ns1, Returned t1) ->
             forallb (terminates stack ns) cs = true).
  { induction cs as [|c cs IHc]; intros ns0 tot ns1 t1 E R; simpl in *;
      [reflexivity|].
    pose proof (recountSubtree_erase stack ns0 c) as E1.
    destruct (recountSubtree stack ns0 c) as [ns2 [n|e]] eqn:Rc;
      [|discriminate].
    simpl in E1.
    rewrite (terminates_erase stack ns ns0 c (eq_sym E)), (IH _ _ _ _ Rc).
    simpl. eapply IHc; [|exact R]. congruence. }
  destruct (recountChildren (recountSubtree stack) node.(children) ns
              (List.length node.(promptIndices))) as [ns1 [tot|e]] eqn:R;
    [|discriminate].
  eapply L; [reflexivity|exact R].
Qed.

(** The recount throws the error of the exhausted stack or that of the
    inherited name, and the latter only where it meets such a name. *)
Lemma recountSubtree_thrown (stack : nat) :
  forall ns k ns' e,
    recountSubtree stack ns k = (ns', Thrown e) ->
    e = RangeError \/ (e = TypeError /\ no_inherited stack ns k = false).
Proof.
  induction stack as [|stack IH]; intros ns k ns' e H; simpl in *.
  - injection H as _ <-. auto.
  - destruct (lookup k ns) as [node| |]; [|injection H as _ <-; auto|
                                          discriminate].
    assert (L : forall cs ns0 tot ns1 e1,
               erase ns0 = erase ns ->
               recountChildren (recountSubtree stack) cs ns0 tot
               = (ns1, Thrown e1) ->
               e1 = RangeError
               \/ (e1 = TypeError
                   /\ forallb (no_inherited stack ns) cs = false)).
    { induction cs as [|c cs IHc]; intros ns0 tot ns1 e1 E R; simpl in *;
        [discriminate|].
      pose proof (recountSubtree_erase stack ns0 c) as E1.
      destruct (recountSubtree stack ns0 c) as [ns2 [n|e2]] eqn:Rc.
      - simpl in E1.
        destruct (IHc ns2 (tot + n) ns1 e1) as [->|[-> F]];
          [congruence|exact R|auto|].
        right. split; [reflexivity|]. rewrite F. apply andb_false_r.
      - injection R as _ <-.
        destruct (IH _ _ _ _ Rc) as [->|[-> F]]; [auto|].
        right. split; [reflexivity|].
        rewrite (no_inherited_erase stack ns ns0 c (eq_sym E)), F.
        reflexivity. }
    destruct (recountChildren (recountSubtree stack) node.(children) ns
                (List.length node.(promptIndices))) as [ns1 [tot|e1]] eqn:R;
      [discriminate|].
    injection H as _ <-. eapply L; [reflexivity|exact R].
Qed.

Lemma terminates_no_inherited (stack : nat) :
  forall ns k, terminates stack ns k = true -> no_inherited stack ns k = true.
Proof.
  induction stack as [|stack IH]; intros ns k T; simpl in *; [reflexivity|].
  destruct (lookup k ns) as [n| |]; [|discriminate|reflexivity].
  induction n.(children) as [|c cs IHc]; simpl in *; [reflexivity|].
  apply andb_prop in T. destruct T as [Tc Tcs].
  rewrite (IH ns c Tc). simpl. apply IHc. exact Tcs.
Qed.

Lemma TotalList_sum (ns ns' : Dict OutlineNode) (cs : list string) (s : nat) :
  (forall c nc, In c cs -> Total ns c nc -> countOf ns' c = nc) ->
  TotalList ns cs s -> s = list_sum (map (countOf ns') cs).
Proof.
  intros Hc T. induction T; simpl; [reflexivity|].
  rewrite (Hc c n) by (simpl; auto || assumption).
  f_equal. apply IHT. intros c' nc Hin. apply Hc. simpl. auto.
Qed.

Lemma recount_post_invariant (ns ns' : Dict OutlineNode) (t : nat) :
  recount_post ns "root" ns' t ->
  forall k, Reach ns' "root" k -> count_invariant_at ns' k.
Proof.
  intros (E & _ & _ & C) k R n' Gk.
  assert (R0 : Reach ns "root" k) by (apply (Reach_erase ns' ns E); exact R).
  destruct (C k R0) as (n1 & G1 & T1).
  assert (n1 = n') by congruence. subst n1.
  inversion T1 as [k0 G0 | k0 n0 s G0 TL]; subst.
  - destruct (erase_get _ _ _ _ E Gk) as (n0 & G0' & _). congruence.
  - destruct (erase_get _ _ _ _ (eq_sym E) G0) as (n2 & G2 & Hc & Hp & _).
    assert (n2 = n') by congruence. subst n2.
    rewrite Hc, Hp. f_equal.
    apply TotalList_sum with (ns := ns); [|exact TL].
    intros c nc Hin Tc. unfold countOf.
    destruct (dict_get c ns') as [cn|] eqn:Gc.
    + destruct (erase_get _ _ _ _ E Gc) as (c0 & Gc0 & _).
      assert (Rc : Reach ns "root" c).
      { clear - R0 G0 Hin Gc0.
        induction R0.
        - eapply Reach_child; eauto.
          assert (n = n0) by congruence. subst. eapply Reach_here; eauto.
        - eapply Reach_child; eauto. }
      destruct (C c Rc) as (cn' & Gc' & Tc').
      assert (cn' = cn) by congruence. subst cn'.
      eapply Total_functional; eauto.
    + assert (Gc0 : dict_get c ns = None)
        by (apply (erase_get_none ns' ns c E Gc)).
      eapply Total_functional; [apply Total_missing; exact Gc0|exact Tc].
Qed.

(** ** Runs *)

Section RunsFacts.

Context {A B : Type}.

Lemma Runs_pbind_inv (p : Prog A) (f : A -> Prog B) (tr : list Obs) (b : B) :
  Runs (pbind p f) tr b ->
  exists tr1 tr2 a, Runs p tr1 a /\ Runs (f a) tr2 b /\ tr = tr1 ++ tr2.
Proof.
  revert tr. induction p as [a|X e k IH]; intros tr H; simpl in *.
  - exists [], tr, a. auto.
  - destruct H as (x & tr' & -> & H).
    destruct (IH x tr' H) as (tr1 & tr2 & a & H1 & H2 & ->).
    exists (observe e x :: tr1), tr2, a. simpl. eauto 6.
Qed.

Lemma Runs_pbind_intro (p : Prog A) (f : A -> Prog B) (tr1 tr2 : list Obs)
    (a : A) (b : B) :
  Runs p tr1 a -> Runs (f a) tr2 b -> Runs (pbind p f) (tr1 ++ tr2) b.
Proof.
  revert tr1. induction p as [a'|X e k IH]; intros tr1 H1 H2; simpl in *.
  - destruct H1 as [-> ->]. exact H2.
  - destruct H1 as (x & tr' & -> & H1). exists x, (tr' ++ tr2). eauto.
Qed.

End RunsFacts.

Lemma Runs_bind_inv {A B : Type} (m : M A) (f : A -> M B) (i : ConversationIndex)
    (tr : list Obs) (out : Outcome B * ConversationIndex) :
  Runs (bind m f i) tr out ->
  exists tr1 tr2 o i1,
    Runs (m i) tr1 (o, i1) /\ tr = tr1 ++ tr2
    /\ match o with
       | Returned a => Runs (f a i1) tr2 out
       | Thrown e => tr2 = [] /\ out = (Thrown e, i1)
       end.
Proof.
  unfold bind. intros H. apply Runs_pbind_inv in H.
  destruct H as (tr1 & tr2 & [o i1] & H1 & H2 & ->).
  exists tr1, tr2, o, i1. split; [exact H1|]. split; [reflexivity|].
  destruct o; simpl in H2; [exact H2|]. destruct H2 as [-> ->]. auto.
Qed.

(** Every program has a run under every environment. *)
Lemma Runs_runWith {A : Type} (o : Oracle) (p : Prog A) :
  Runs p (fst (runWith o p)) (snd (runWith o p)).
Proof.
  induction p as [a|X e k IH]; simpl.
  - auto.
  - specialize (IH (o X e)). destruct (runWith o (k (o X e))) as [tr a].
    simpl in *. eauto.
Qed.

Lemma Runs_exists {A : Type} (p : Prog A) : exists tr a, Runs p tr a.
Proof.
  exists (fst (runWith demoOracle p)), (snd (runWith demoOracle p)).
  apply Runs_runWith.
Qed.

(** A run determines its result. *)
Lemma Runs_deterministic {A : Type} (p : Prog A) :
  forall tr a b, Runs p tr a -> Runs p tr b -> a = b.
Proof.
  induction p as [a'|X e k IH]; intros tr a b Ha Hb; simpl in *.
  - destruct Ha as [_ ->], Hb as [_ ->]. reflexivity.
  - destruct Ha as (x & tr1 & E1 & Ha), Hb as (y & tr2 & E2 & Hb).
    rewrite E1 in E2. injection E2 as Ex Et. subst tr2.
    assert (x = y).
    { clear - Ex. destruct e; simpl in Ex; congruence. }
    subst y. eapply IH; eauto.
Qed.

(** ** pipeline.ts: the runs of each function *)

Ltac runs_simpl H :=
  cbn [bind get await modify ret throw pbind Runs fst snd observe] in H.

Lemma insertPromptIntoNode_runs (nodeId : string) (promptIndex : Z)
    (i : ConversationIndex) (tr : list Obs)
    (out : Outcome unit * ConversationIndex) :
  Runs (insertPromptIntoNode nodeId promptIndex i) tr out ->
  (lookup nodeId i.(nodes) = Inherited
   /\ tr = [] /\ out = (Thrown TypeError, i))
  \/ (lookup nodeId i.(nodes) <> Inherited
      /\ exists i', out = (Returned tt, i')
                    /\ insert_post nodeId promptIndex i tr i').
Proof.
  unfold insertPromptIntoNode, insert_post. intros H. runs_simpl H.
  destruct (lookup nodeId i.(nodes)) as [node| |]; runs_simpl H.
  - right. split; [discriminate|].
    destruct H as (now & tr' & -> & -> & ->). eauto.
  - left. destruct H as [-> ->]. auto.
  - right. split; [discriminate|]. destruct H as [-> ->]. eauto.
Qed.

Lemma updatePromptCounts_runs (stack : nat) (i : ConversationIndex)
    (tr : list Obs) (out : Outcome unit * ConversationIndex) :
  Runs (updatePromptCounts stack i) tr out ->
  tr = []
  /\ out = (match snd (recountSubtree stack i.(nodes) "root") with
            | Returned _ => Returned tt
            | Thrown e => Thrown e
            end, recounted stack i).
Proof. unfold updatePromptCounts. simpl. auto. Qed.

Lemma commit_runs (stack : nat) (hash nodeId : string) (conf : float)
    (isNew : bool) (promptIndex : Z) (i : ConversationIndex) (tr : list Obs)
    (o : Outcome ClassifyResult) (i' : ConversationIndex) :
  Runs (commit stack hash nodeId conf isNew promptIndex i) tr (o, i') ->
  (lookup nodeId i.(nodes) = Inherited
   /\ tr = [] /\ o = Thrown TypeError /\ i' = i)
  \/ (lookup nodeId i.(nodes) <> Inherited
      /\ commit_post stack hash nodeId conf isNew promptIndex i tr o i').
Proof.
  unfold commit, commit_post. intros H.
  apply Runs_bind_inv in H. destruct H as (tr1 & tr2 & o1 & i1 & H1 & -> & H).
  apply insertPromptIntoNode_runs in H1.
  destruct H1 as [(Hl & -> & [= -> ->])|(Hl & i1' & [= -> <-] & Hins)].
  { left. destruct H as [-> [= -> ->]]. auto. }
  right. split; [exact Hl|].
  apply Runs_bind_inv in H. destruct H as (tr3 & tr4 & o2 & i2 & H2 & -> & H).
  apply updatePromptCounts_runs in H2. destruct H2 as [-> [= -> ->]].
  exists i1. simpl.
  destruct (snd (recountSubtree stack i1.(nodes) "root")).
  - runs_simpl H. destruct H as [-> [= -> ->]].
    rewrite app_nil_r. auto.
  - destruct H as [-> [= -> ->]]. rewrite app_nil_r. auto.
Qed.

Lemma fetchLabel_runs (text : string) (s : Settings) (i : ConversationIndex)
    (tr : list Obs) (out : Outcome string * ConversationIndex) :
  Runs (fetchLabel text s i) tr out ->
  exists lr,
    tr = [ObsLabel text (existingLabelsOf i) lr]
    /\ out = (Returned (labelOf lr text), i).
Proof.
  unfold fetchLabel. intros H. runs_simpl H.
  destruct H as (lr & tr' & -> & -> & ->). eauto.
Qed.

(** Every run of [spawnNode]: under a parent that is a name the store only
    inherits it throws with the node stored, and otherwise it returns. *)
Lemma spawnNode_runs (parentId lbl : string) (rk : NodeRank)
    (emb : option Vector) (i : ConversationIndex) (tr : list Obs)
    (out : Outcome OutlineNode * ConversationIndex) :
  Runs (spawnNode parentId lbl rk emb i) tr out ->
  exists now suffix c u,
    tr = spawnTrace now suffix c u
    /\ out
       = match lookup parentId
                      (storeNode (mkNode (makeId now suffix) lbl rk [] [] 0
                                         c u) i).(nodes) with
         | Inherited =>
             (Thrown TypeError,
              storeNode (mkNode (makeId now suffix) lbl rk [] [] 0 c u) i)
         | _ =>
             (Returned (mkNode (makeId now suffix) lbl rk [] [] 0 c u),
              spawnInto (mkNode (makeId now suffix) lbl rk [] [] 0 c u)
                        parentId emb i)
         end.
Proof.
  unfold spawnNode. intros H.
  cbn [bind get await modify ret throw pbind Runs fst snd observe] in H.
  destruct H as (now & tr1 & -> & suffix & tr2 & -> & c & tr3 & -> & u & tr4
                 & -> & H).
  exists now, suffix, c, u.
  set (node := mkNode (makeId now suffix) lbl rk [] [] 0 c u) in *.
  assert (K : tr4 = []
              /\ out = match lookup parentId (storeNode node i).(nodes) with
                       | Inherited => (Thrown TypeError, storeNode node i)
                       | _ => (Returned node, spawnInto node parentId emb i)
                       end);
    [|destruct K as [-> ->]; split; reflexivity].
  unfold spawnInto. cbv zeta. fold (storeNode node i).
  unfold dict_has. rewrite lookup_get in *.
  destruct (dict_get parentId (storeNode node i).(nodes)) as [pn|].
  - runs_simpl H. destruct emb; runs_simpl H; exact H.
  - destruct (isInherited parentId); runs_simpl H.
    + exact H.
    + destruct emb; runs_simpl H; exact H.
Qed.

Lemma storeNode_lookup (node : OutlineNode) (parentId : string)
    (i : ConversationIndex) :
  lookup parentId i.(nodes) <> Inherited ->
  lookup parentId (storeNode node i).(nodes) <> Inherited.
Proof.
  unfold storeNode. cbn [nodes set_nodes]. rewrite !lookup_get.
  destruct (String.eqb parentId node.(node_id)) eqn:E.
  - apply String.eqb_eq in E. subst parentId.
    rewrite dict_get_set_eq. discriminate.
  - apply String.eqb_neq in E. rewrite dict_get_set_neq by exact E. auto.
Qed.

(** A spawn under the root, or under a node of the store, returns. *)
Lemma spawnNode_returns (parentId lbl : string) (rk : NodeRank)
    (emb : option Vector) (i : ConversationIndex) (tr : list Obs)
    (out : Outcome OutlineNode * ConversationIndex) :
  lookup parentId i.(nodes) <> Inherited ->
  Runs (spawnNode parentId lbl rk emb i) tr out ->
  exists now suffix c u,
    tr = spawnTrace now suffix c u
    /\ out = (Returned (mkNode (makeId now suffix) lbl rk [] [] 0 c u),
              spawnInto (mkNode (makeId now suffix) lbl rk [] [] 0 c u)
                        parentId emb i).
Proof.
  intros Hl H. apply spawnNode_runs in H.
  destruct H as (now & suffix & c & u & -> & ->).
  exists now, suffix, c, u. split; [reflexivity|].
  pose proof (storeNode_lookup
                (mkNode (makeId now suffix) lbl rk [] [] 0 c u) parentId i Hl)
    as Hl'.
  destruct (lookup parentId
              (storeNode (mkNode (makeId now suffix) lbl rk [] [] 0 c u)
                         i).(nodes));
    [reflexivity|congruence|reflexivity].
Qed.

Lemma spawnInto_has_new (node : OutlineNode) (parentId : string)
    (emb : option Vector) (i : ConversationIndex) :
  dict_has node.(node_id) (spawnInto node parentId emb i).(nodes) = true.
Proof.
  assert (H : forall f k,
             dict_has node.(node_id)
               (dict_update k f (dict_set node.(node_id) node i.(nodes)))
             = true).
  { intros f k. unfold dict_has. rewrite dict_get_update.
    destruct (String.eqb node.(node_id) k) eqn:E.
    - apply String.eqb_eq in E. subst k. rewrite dict_get_set_eq.
      reflexivity.
    - rewrite dict_get_set_eq. reflexivity. }
  assert (H0 : dict_has node.(node_id)
                 (dict_set node.(node_id) node i.(nodes)) = true).
  { unfold dict_has. rewrite dict_get_set_eq. reflexivity. }
  unfold spawnInto. cbv zeta. cbn [nodes set_nodes].
  destruct (dict_has parentId (dict_set node.(node_id) node i.(nodes)));
    destruct emb; cbn [nodes set_nodes set_embeddings]; auto.
Qed.

(** A label, a spawn and a commit in a row: the three spawning branches. *)
Lemma spawn_commit_runs (stack : nat) (p : PromptInput) (s : Settings)
    (parentId : string) (rk : NodeRank) (v : Vector) (conf : float)
    (i : ConversationIndex) (tr : list Obs) (o : Outcome ClassifyResult)
    (i' : ConversationIndex) :
  lookup parentId i.(nodes) <> Inherited ->
  Runs ((label <- fetchLabel p.(firstSentence) s ;;
         sub <- spawnNode parentId label rk (Some v) ;;
         commit stack (hashPrompt p.(fullText)) sub.(node_id) conf true
                p.(prompt_index)) i) tr (o, i') ->
  exists lr now suffix c u trc,
    tr = (ObsLabel p.(firstSentence) (existingLabelsOf i) lr
          :: spawnTrace now suffix c u) ++ trc
    /\ commit_post stack (hashPrompt p.(fullText)) (makeId now suffix) conf
         true p.(prompt_index)
         (spawnInto (mkNode (makeId now suffix) (labelOf lr p.(firstSentence))
                            rk [] [] 0 c u)
                    parentId (Some v) i)
         trc o i'.
Proof.
  intros Hl H.
  apply Runs_bind_inv in H. destruct H as (tr1 & tr2 & o1 & i1 & H1 & -> & H).
  apply fetchLabel_runs in H1. destruct H1 as (lr & -> & [= -> ->]).
  apply Runs_bind_inv in H. destruct H as (tr3 & tr4 & o2 & i2 & H2 & -> & H).
  apply (spawnNode_returns _ _ _ _ _ _ _ Hl) in H2.
  destruct H2 as (now & suffix & c & u & -> & [= -> ->]).
  apply commit_runs in H. simpl in H.
  exists lr, now, suffix, c, u, tr4. split; [reflexivity|].
  destruct H as [(Hi & _)|(_ & H)]; [|exact H].
  apply lookup_inherited in Hi. destruct Hi as [Hi _].
  pose proof (spawnInto_has_new
                (mkNode (makeId now suffix) (labelOf lr p.(firstSentence))
                        rk [] [] 0 c u) parentId (Some v) i) as Hn.
  unfold dict_has in Hn. simpl in Hn, Hi. rewrite Hi in Hn. discriminate.
Qed.

(** ** tree.ts: the candidates *)

Lemma getChildCandidates_returns (i : ConversationIndex) (parentId : string)
    (rk : option NodeRank) :
  lookup parentId i.(nodes) <> Inherited ->
  getChildCandidates i parentId rk
  = Returned (childCandidates i parentId rk).
Proof.
  unfold childCandidates, getChildCandidates.
  destruct (lookup parentId i.(nodes)); [reflexivity|congruence|reflexivity].
Qed.

Lemma root_not_inherited (ns : Dict OutlineNode) :
  lookup "root" ns <> Inherited.
Proof.
  rewrite lookup_get. destruct (dict_get "root" ns); discriminate.
Qed.

(** A candidate is a child of the parent with a vector; when a rank is
    asked for, it is a node of the store, of that rank. *)
Lemma childCandidates_In (i : ConversationIndex) (parentId : string)
    (rk : option NodeRank) (id : string) (e : Vector) :
  In (id, e) (childCandidates i parentId rk) ->
  dict_get id i.(embeddings) = Some e
  /\ (exists parent,
         dict_get parentId i.(nodes) = Some parent
         /\ In id parent.(children))
  /\ match rk with
     | Some r => exists n, dict_get id i.(nodes) = Some n /\ n.(rank) = r
     | None => lookup id i.(nodes) <> Missing
     end.
Proof.
  unfold childCandidates, getChildCandidates. rewrite lookup_get.
  destruct (dict_get parentId i.(nodes)) as [parent|];
    [|destruct (isInherited parentId); intros []].
  intros H. apply in_map_iff in H. destruct H as (id' & [= -> <-] & H).
  apply filter_In in H. destruct H as [Hin H].
  unfold isCandidate in H. rewrite lookup_get in *.
  assert (He : dict_has id i.(embeddings) = true).
  { destruct (dict_get id i.(nodes)); [|destruct (isInherited id)];
      try discriminate; apply andb_prop in H; tauto. }
  split.
  { unfold dict_has in He.
    destruct (dict_get id i.(embeddings)); [reflexivity|discriminate]. }
  split; [eauto|].
  destruct (dict_get id i.(nodes)) as [n|].
  - apply andb_prop in H. destruct H as [Hr _].
    destruct rk as [r|]; [|discriminate].
    exists n. split; [reflexivity|].
    unfold rank_eqb in Hr. apply Nat.eqb_eq in Hr.
    destruct n.(rank), r; simpl in Hr; congruence.
  - destruct (isInherited id); [|discriminate].
    apply andb_prop in H. destruct H as [Hr _].
    destruct rk; discriminate.
Qed.

(** The match of a scan for a rank is a node of the store. *)
Lemma bestMatch_candidate_own (i : ConversationIndex) (parentId : string)
    (r : NodeRank) (v : Vector) (t : float) (hit : Match) :
  bestMatch v (childCandidates i parentId (Some r)) t = Some hit ->
  exists n, dict_get hit.(match_id) i.(nodes) = Some n /\ n.(rank) = r.
Proof.
  intros B. apply bestMatch_winner in B. destruct B as (emb & Hin & _).
  apply childCandidates_In in Hin. tauto.
Qed.

Lemma own_not_inherited {V : Type} (k : string) (d : Dict V) (v : V) :
  dict_get k d = Some v -> lookup k d <> Inherited.
Proof. intros G. rewrite lookup_get, G. discriminate. Qed.

(** Every run of [classifyPrompt] is one of the runs of [classify_post] or
    of [attach_failed]. *)
Lemma classifyPrompt_runs (stack : nat) (p : PromptInput) (s : Settings)
    (i : ConversationIndex) (tr : list Obs) (o : Outcome ClassifyResult)
    (i' : ConversationIndex) :
  Runs (classifyPrompt stack p s i) tr (o, i') ->
  classify_post stack p s i tr o i' \/ attach_failed p s i tr o i'.
Proof.
  unfold classifyPrompt, classify_post, attach_failed. intros H. runs_simpl H.
  destruct (dict_get (hashPrompt p.(fullText)) i.(cache)) as [cached|].
  - (* step 1: cache hit *)
    apply Runs_bind_inv in H. destruct H as (tr1 & tr2 & o1 & i1 & H1 & -> & H).
    apply insertPromptIntoNode_runs in H1.
    destruct H1 as [(Hl & -> & [= -> ->])|(Hl & i1' & [= -> <-] & Hins)].
    { right. destruct H as [-> [= -> ->]]. auto. }
    left.
    apply Runs_bind_inv in H. destruct H as (tr3 & tr4 & o2 & i2 & H2 & -> & H).
    apply updatePromptCounts_runs in H2. destruct H2 as [-> [= -> ->]].
    exists i1. simpl.
    destruct (snd (recountSubtree stack i1.(nodes) "root")).
    + runs_simpl H. destruct H as [-> [= -> ->]]. rewrite app_nil_r. auto.
    + destruct H as [-> [= -> ->]]. rewrite app_nil_r. auto.
  - (* step 2 *)
    runs_simpl H. destruct H as (embedRes & tr' & -> & H).
    destruct embedRes as [v|e]; runs_simpl H.
    2:{ left. left. destruct H as [-> [= -> ->]]. eauto. }
    assert (Step6 :
      forall pre tr6,
        bestMatch v (childCandidates i "root" (Some Rank1)) s.(thresholdHigh)
          = None ->
        escalation_missed p s i pre ->
        Runs ((label <- fetchLabel p.(firstSentence) s ;;
               header <- spawnNode "root" label Rank1 (Some v) ;;
               commit stack (hashPrompt p.(fullText)) header.(node_id) 0%float
                      true p.(prompt_index)) i) tr6 (o, i') ->
        exists trp i1 nodeId conf isNew trc,
          Placement p s v i trp i1 nodeId conf isNew
          /\ commit_post stack (hashPrompt p.(fullText)) nodeId conf isNew
                         p.(prompt_index) i1 trc o i'
          /\ ObsEmbed p.(firstSentence) (EmbedOk v) :: pre ++ tr6
             = ObsEmbed p.(firstSentence) (EmbedOk v) :: trp ++ trc).
    { intros pre tr6 Hb Hm H6.
      apply spawn_commit_runs in H6; [|apply root_not_inherited].
      destruct H6 as (lr & now & suffix & c & u & trc & -> & Hc).
      eexists _, _, _, _, _, trc.
      split; [apply Place_new_header with (pre := pre); eassumption|].
      split; [exact Hc|]. rewrite app_assoc. reflexivity. }
    rewrite (getChildCandidates_returns i "root" (Some Rank1)
               (root_not_inherited _)) in H.
    cbn [outcome bind pbind] in H.
    destruct (bestMatch v (childCandidates i "root" (Some Rank1))
                        s.(thresholdHigh)) as [hit1|] eqn:B1.
    + (* step 4 *)
      destruct (bestMatch_candidate_own _ _ _ _ _ _ B1) as (n1 & G1 & _).
      rewrite (getChildCandidates_returns i hit1.(match_id) (Some Rank2)
                 (own_not_inherited _ _ _ G1)) in H.
      cbn [outcome bind pbind] in H.
      left. right. exists v.
      destruct (bestMatch v (childCandidates i hit1.(match_id) (Some Rank2))
                          s.(thresholdHigh)) as [hit2|] eqn:B2.
      * destruct (bestMatch_candidate_own _ _ _ _ _ _ B2) as (n2 & G2 & _).
        apply commit_runs in H.
        destruct H as [(Hi & _)|(_ & H)].
        { exfalso. exact (own_not_inherited _ _ _ G2 Hi). }
        exists [], i, hit2.(match_id), hit2.(score), false, tr'.
        split; [|split; [exact H|reflexivity]].
        apply Place_rank2 with (hit1 := hit1); assumption.
      * apply spawn_commit_runs in H; [|exact (own_not_inherited _ _ _ G1)].
        destruct H as (lr & now & suffix & c & u & trc & -> & Hc).
        eexists _, _, _, _, _, trc.
        split; [eapply Place_new_rank2; eassumption|].
        split; [exact Hc|reflexivity].
    + (* step 5 *)
      destruct (1 <? List.length (dict_keys i.(nodes))) eqn:Hlen.
      * apply Nat.ltb_lt in Hlen.
        runs_simpl H. destruct H as (fullRes & tr'' & -> & H).
        destruct fullRes as [fv|e]; runs_simpl H.
        -- destruct (bestMatch fv (getAllEmbeddedCandidates i) s.(thresholdLow))
             as [fullHit|] eqn:B3.
           ++ enough (HH :
                (exists trp i1 nodeId conf isNew trc,
                    Placement p s v i trp i1 nodeId conf isNew
                    /\ commit_post stack (hashPrompt p.(fullText)) nodeId conf
                                   isNew p.(prompt_index) i1 trc o i'
                    /\ ObsEmbed p.(firstSentence) (EmbedOk v)
                       :: ObsEmbed p.(fullText) (EmbedOk fv) :: tr''
                       = ObsEmbed p.(firstSentence) (EmbedOk v) :: trp ++ trc)
                \/ (lookup fullHit.(match_id) i.(nodes) = Inherited
                    /\ tr'' = [] /\ o = Thrown TypeError /\ i' = i)).
              { destruct HH as [HH|(Hi & -> & -> & ->)].
                - left. right. exists v. exact HH.
                - right. split; [reflexivity|]. split; [reflexivity|].
                  exists v, fv, fullHit. auto 6. }
              rewrite lookup_get in H.
              destruct (dict_get fullHit.(match_id) i.(nodes)) as [hitNode|] eqn:G.
              ** destruct hitNode as [hid hl hr hc hp hn hca hu].
                 destruct hr.
                 2:{ left.
                     apply spawn_commit_runs in H;
                       [|exact (own_not_inherited _ _ _ G)].
                     destruct H as (lr & now & suffix & c & u & trc & -> & Hc).
                     eexists _, _, _, _, _, trc.
                     split; [eapply Place_escalate_spawn; eauto|].
                     split; [exact Hc|reflexivity]. }
                 all: apply commit_runs in H;
                   destruct H as [(Hi & _)|(_ & H)];
                   [exfalso; exact (own_not_inherited _ _ _ G Hi)|];
                   left;
                   exists [ObsEmbed p.(fullText) (EmbedOk fv)], i,
                          fullHit.(match_id), fullHit.(score), false, tr'';
                   (split; [|split; [exact H|reflexivity]]);
                   apply Place_escalate_attach; auto;
                   intros n Gn; rewrite G in Gn; injection Gn as <-;
                   simpl; discriminate.
              ** assert (H' : Runs (commit stack (hashPrompt p.(fullText))
                                          fullHit.(match_id) fullHit.(score)
                                          false p.(prompt_index) i)
                                  tr'' (o, i'))
                   by (destruct (isInherited fullHit.(match_id)); exact H).
                 apply commit_runs in H'.
                 destruct H' as [HI|(_ & H')]; [right; exact HI|].
                 left.
                 exists [ObsEmbed p.(fullText) (EmbedOk fv)], i,
                        fullHit.(match_id), fullHit.(score), false, tr''.
                 split; [|split; [exact H'|reflexivity]].
                 apply Place_escalate_attach; auto.
                 intros n Gn. congruence.
           ++ left. right. exists v.
              apply (Step6 [ObsEmbed p.(fullText) (EmbedOk fv)] tr'' eq_refl)
                in H; [exact H|].
              right. right. eauto.
        -- left. right. exists v.
           apply (Step6 [ObsEmbed p.(fullText) (EmbedErr e)] tr'' eq_refl)
             in H; [exact H|].
           right. left. eauto.
      * apply Nat.ltb_ge in Hlen.
        left. right. exists v.
        apply (Step6 [] tr' eq_refl) in H; [exact H|].
        left. auto.
Qed.

(** ** The shape of the store under the mutations of the pipeline *)

Lemma dict_get_kids (k : string) (ns : Dict OutlineNode) :
  dict_get k (kids ns) = option_map children (dict_get k ns).
Proof.
  induction ns as [|[k' n] ns IH]; simpl; [reflexivity|].
  destruct (String.eqb k k'); [reflexivity|exact IH].
Qed.

Lemma terminates_ext (stack : nat) :
  forall ns ns' : Dict OutlineNode,
    (forall k, option_map children (dict_get k ns)
               = option_map children (dict_get k ns')) ->
    forall k, terminates stack ns k = terminates stack ns' k.
Proof.
  induction stack as [|stack IH]; intros ns ns' E k; simpl; [reflexivity|].
  specialize (E k) as Ek. rewrite !lookup_get.
  destruct (dict_get k ns) as [n|], (dict_get k ns') as [n'|];
    simpl in Ek; try discriminate;
    [|destruct (isInherited k); reflexivity].
  injection Ek as ->.
  induction n'.(children) as [|c cs IHc]; simpl; [reflexivity|].
  rewrite (IH ns ns' E c), IHc. reflexivity.
Qed.

Lemma no_inherited_ext (stack : nat) :
  forall ns ns' : Dict OutlineNode,
    (forall k, option_map children (dict_get k ns)
               = option_map children (dict_get k ns')) ->
    forall k, no_inherited stack ns k = no_inherited stack ns' k.
Proof.
  induction stack as [|stack IH]; intros ns ns' E k; simpl; [reflexivity|].
  specialize (E k) as Ek. rewrite !lookup_get.
  destruct (dict_get k ns) as [n|], (dict_get k ns') as [n'|];
    simpl in Ek; try discriminate;
    [|destruct (isInherited k); reflexivity].
  injection Ek as ->.
  induction n'.(children) as [|c cs IHc]; simpl; [reflexivity|].
  rewrite (IH ns ns' E c), IHc. reflexivity.
Qed.

Lemma no_inherited_kids (stack : nat) (ns ns' : Dict OutlineNode) (k : string) :
  kids ns = kids ns' -> no_inherited stack ns k = no_inherited stack ns' k.
Proof.
  intros E. apply no_inherited_ext. intros k'.
  rewrite <- !dict_get_kids, E. reflexivity.
Qed.

Lemma terminates_kids (stack : nat) (ns ns' : Dict OutlineNode) (k : string) :
  kids ns = kids ns' -> terminates stack ns k = terminates stack ns' k.
Proof.
  intros E. apply terminates_ext. intros k'.
  rewrite <- !dict_get_kids, E. reflexivity.
Qed.

Lemma terminates_mono (stack : nat) :
  forall (ns : Dict OutlineNode) k stack',
    terminates stack ns k = true -> stack <= stack' ->
    terminates stack' ns k = true.
Proof.
  induction stack as [|stack IH]; intros ns k stack' T Hle; [discriminate|].
  destruct stack' as [|stack']; [lia|]. simpl in *.
  destruct (lookup k ns) as [n| |]; [|discriminate|reflexivity].
  apply forallb_forall. intros c Hin. rewrite forallb_forall in T.
  apply IH with (stack' := stack'); [auto|lia].
Qed.

Lemma terminates_reach (stack : nat) (ns : Dict OutlineNode) :
  forall a b, Reach ns a b ->
    terminates stack ns a = true -> terminates stack ns b = true.
Proof.
  intros a b H. revert stack.
  induction H as [k n G|k n c k' G Hin _ IH]; intros stack T; [exact T|].
  destruct stack as [|stack]; [discriminate|]. simpl in T.
  rewrite lookup_get, G in T. rewrite forallb_forall in T.
  apply terminates_mono with (stack := stack); [|lia].
  apply IH. apply T. exact Hin.
Qed.

(** Where the recursion comes to its end, every child identifier is a node
    of the store or is found nowhere. *)
Lemma terminates_children (stack : nat) (ns : Dict OutlineNode)
    (k c : string) (n : OutlineNode) :
  terminates stack ns "root" = true ->
  Reach ns "root" k -> dict_get k ns = Some n -> In c n.(children) ->
  lookup c ns <> Inherited.
Proof.
  intros T R G Hin. apply (terminates_reach stack ns _ _ R) in T.
  destruct stack as [|stack]; [discriminate|]. simpl in T.
  rewrite lookup_get, G in T. rewrite forallb_forall in T.
  specialize (T c Hin). destruct stack as [|stack]; [discriminate|].
  simpl in T. destruct (lookup c ns); discriminate.
Qed.

Lemma kids_update (k : string) (f : OutlineNode -> OutlineNode)
    (ns : Dict OutlineNode) :
  (forall n, (f n).(children) = n.(children)) ->
  kids (dict_update k f ns) = kids ns.
Proof.
  intros Hf. induction ns as [|[k' n] ns IH]; simpl; [reflexivity|].
  destruct (String.eqb k k'); simpl.
  - rewrite Hf. reflexivity.
  - rewrite IH. reflexivity.
Qed.

Lemma kids_erase (ns ns' : Dict OutlineNode) :
  erase ns = erase ns' -> kids ns = kids ns'.
Proof.
  intros E.
  assert (K : forall d, kids d = kids (erase d)).
  { induction d as [|[k n] d IH]; simpl; [reflexivity|].
    rewrite IH. reflexivity. }
  rewrite (K ns), (K ns'), E. reflexivity.
Qed.

Lemma kids_attachPrompt (nodeId : string) (promptIndex : Z)
    (i : ConversationIndex) :
  kids (attachPrompt nodeId promptIndex i).(nodes) = kids i.(nodes).
Proof.
  unfold attachPrompt. simpl. apply kids_update. intros n.
  destruct (existsb (Z.eqb promptIndex) n.(promptIndices)); reflexivity.
Qed.

Lemma kids_touchNode (nodeId : string) (now : Z) (i : ConversationIndex) :
  kids (touchNode nodeId now i).(nodes) = kids i.(nodes).
Proof. unfold touchNode. simpl. apply kids_update. reflexivity. Qed.

Lemma kids_recounted (stack : nat) (i : ConversationIndex) :
  kids (recounted stack i).(nodes) = kids i.(nodes).
Proof.
  unfold recounted. simpl. apply kids_erase. apply recountSubtree_erase.
Qed.

Lemma insert_post_kids (nodeId : string) (promptIndex : Z)
    (i : ConversationIndex) (tr : list Obs) (i' : ConversationIndex) :
  insert_post nodeId promptIndex i tr i' -> kids i'.(nodes) = kids i.(nodes).
Proof.
  unfold insert_post. destruct (lookup nodeId i.(nodes)).
  - intros (now & _ & ->). rewrite kids_touchNode. apply kids_attachPrompt.
  - intros [].
  - intros [_ ->]. reflexivity.
Qed.

(** What a read finds, an own entry or not, depends on the keys of the
    store and on the name. *)
Lemma lookup_kids (ns ns' : Dict OutlineNode) (k : string) :
  kids ns = kids ns' ->
  lookup k ns = Inherited <-> lookup k ns' = Inherited.
Proof.
  intros E. rewrite !lookup_inherited.
  pose proof (dict_get_kids k ns) as G. pose proof (dict_get_kids k ns') as G'.
  rewrite E, G' in G.
  destruct (dict_get k ns), (dict_get k ns'); simpl in G; try discriminate;
    split; intros [H1 H2]; try discriminate; auto.
Qed.

Lemma insert_post_lookup (nodeId : string) (promptIndex : Z)
    (i : ConversationIndex) (tr : list Obs) (i' : ConversationIndex) :
  insert_post nodeId promptIndex i tr i' ->
  lookup nodeId i.(nodes) <> Inherited.
Proof.
  unfold insert_post. destruct (lookup nodeId i.(nodes));
    [discriminate|intros []|discriminate].
Qed.

Lemma insert_post_cache (nodeId : string) (promptIndex : Z)
    (i : ConversationIndex) (tr : list Obs) (i' : ConversationIndex) :
  insert_post nodeId promptIndex i tr i' ->
  i'.(cache) = i.(cache) /\ i'.(embeddings) = i.(embeddings)
  /\ i'.(prompts) = i.(prompts).
Proof.
  unfold insert_post. destruct (lookup nodeId i.(nodes)).
  - intros (now & _ & ->). auto.
  - intros [].
  - intros [_ ->]. auto.
Qed.

Lemma insert_post_quiet (nodeId : string) (promptIndex : Z)
    (i : ConversationIndex) (tr : list Obs) (i' : ConversationIndex) :
  insert_post nodeId promptIndex i tr i' -> capabilityCalls tr = 0.
Proof.
  unfold insert_post. destruct (lookup nodeId i.(nodes)).
  - intros (now & -> & _). reflexivity.
  - intros [].
  - intros [-> _]. reflexivity.
Qed.

(** The recount returns exactly when its recursion comes to its end. *)
Lemma recount_returns_iff (stack : nat) (ns : Dict OutlineNode) :
  (exists t, snd (recountSubtree stack ns "root") = Returned t)
  <-> terminates stack ns "root" = true.
Proof.
  split.
  - destruct (recountSubtree stack ns "root") as [ns' [t|e]] eqn:R; simpl.
    + intros _. eapply recountSubtree_terminates; eauto.
    + intros [t H]. discriminate.
  - intros T. destruct (recountSubtree_returns stack ns "root" T)
      as (ns' & t & ->). simpl. eauto.
Qed.

(** The error of the recount, when there is one. *)
Lemma recount_thrown (stack : nat) (ns : Dict OutlineNode) (e : JsError) :
  snd (recountSubtree stack ns "root") = Thrown e ->
  terminates stack ns "root" = false
  /\ (e = RangeError
      \/ (e = TypeError /\ no_inherited stack ns "root" = false)).
Proof.
  intros H. split.
  - destruct (terminates stack ns "root") eqn:T; [|reflexivity].
    apply recount_returns_iff in T. destruct T as [t T]. congruence.
  - destruct (recountSubtree stack ns "root") as [ns' o] eqn:R.
    simpl in H. subst o. eapply recountSubtree_thrown; eauto.
Qed.

Lemma spawnInto_nodes (node : OutlineNode) (parentId : string)
    (emb : option Vector) (i : ConversationIndex) :
  (spawnInto node parentId emb i).(nodes)
  = (if dict_has parentId (dict_set node.(node_id) node i.(nodes))
     then dict_update parentId (pushChild node.(node_id))
            (dict_set node.(node_id) node i.(nodes))
     else dict_set node.(node_id) node i.(nodes))
  /\ (spawnInto node parentId emb i).(embeddings)
     = match emb with
       | Some v => dict_set node.(node_id) v i.(embeddings)
       | None => i.(embeddings)
       end.
Proof.
  unfold spawnInto. cbn [nodes set_nodes].
  destruct (dict_has parentId (dict_set node.(node_id) node i.(nodes)));
    destruct emb; split; reflexivity.
Qed.

(** The store after a spawn, key by key, whatever the parent and whether
    or not the identifier is a new one. *)
Lemma spawnInto_get (node : OutlineNode) (parentId : string)
    (emb : option Vector) (i : ConversationIndex) (k : string) :
  dict_get k (spawnInto node parentId emb i).(nodes)
  = option_map (fun n => if String.eqb k parentId
                         then pushChild node.(node_id) n else n)
      (if String.eqb k node.(node_id) then Some node
       else dict_get k i.(nodes)).
Proof.
  destruct (spawnInto_nodes node parentId emb i) as [-> _].
  set (id := node.(node_id)).
  assert (G : dict_get k (dict_set id node i.(nodes))
              = if String.eqb k id then Some node else dict_get k i.(nodes)).
  { destruct (String.eqb k id) eqn:E.
    - apply String.eqb_eq in E. subst k. apply dict_get_set_eq.
    - apply String.eqb_neq in E. apply dict_get_set_neq. exact E. }
  unfold dict_has.
  destruct (dict_get parentId (dict_set id node i.(nodes))) as [pn|] eqn:Gp.
  - rewrite dict_get_update.
    destruct (String.eqb k parentId) eqn:E.
    + apply String.eqb_eq in E. subst k. rewrite <- G, Gp. reflexivity.
    + rewrite G. destruct (if String.eqb k id then Some node
                           else dict_get k i.(nodes)); reflexivity.
  - rewrite G. destruct (String.eqb k parentId) eqn:E.
    + apply String.eqb_eq in E. subst k. rewrite <- G, Gp. reflexivity.
    + destruct (if String.eqb k id then Some node
                else dict_get k i.(nodes)); reflexivity.
Qed.

(** A spawn brings no inherited name into the tree: the child it links is
    a node of the store. *)
Lemma no_inherited_spawnInto (node : OutlineNode) (parentId : string)
    (emb : option Vector) (i : ConversationIndex) :
  node.(children) = [] ->
  forall stack k,
    k = node.(node_id) \/ no_inherited stack i.(nodes) k = true ->
    no_inherited stack (spawnInto node parentId emb i).(nodes) k = true.
Proof.
  intros Hleaf. induction stack as [|stack IH]; intros k Hk; [reflexivity|].
  simpl in *. rewrite lookup_get, spawnInto_get.
  assert (Push : forall n,
             forallb (no_inherited stack
                        (spawnInto node parentId emb i).(nodes))
                     n.(children) = true ->
             forallb (no_inherited stack
                        (spawnInto node parentId emb i).(nodes))
                     (if String.eqb k parentId
                      then pushChild node.(node_id) n else n).(children)
             = true).
  { intros n F. destruct (String.eqb k parentId); [|exact F].
    simpl. rewrite forallb_app, F. simpl. rewrite IH by auto. reflexivity. }
  destruct (String.eqb k node.(node_id)) eqn:E.
  - simpl. apply Push. rewrite Hleaf. reflexivity.
  - apply String.eqb_neq in E. destruct Hk as [Hk|Hk]; [contradiction|].
    rewrite lookup_get in Hk.
    destruct (dict_get k i.(nodes)) as [n|]; simpl.
    + apply Push. apply forallb_forall. intros c Hc. apply IH. right.
      rewrite forallb_forall in Hk. auto.
    + destruct (isInherited k); [discriminate|reflexivity].
Qed.

Lemma spawnInto_cache (node : OutlineNode) (parentId : string)
    (emb : option Vector) (i : ConversationIndex) :
  (spawnInto node parentId emb i).(cache) = i.(cache)
  /\ (spawnInto node parentId emb i).(prompts) = i.(prompts).
Proof.
  unfold spawnInto. simpl.
  destruct (dict_has parentId (dict_set node.(node_id) node i.(nodes)));
    destruct emb; simpl; auto.
Qed.

Lemma Placement_cache (p : PromptInput) (s : Settings) (v : Vector)
    (i : ConversationIndex) (tr : list Obs) (i1 : ConversationIndex)
    (nodeId : string) (conf : float) (isNew : bool) :
  Placement p s v i tr i1 nodeId conf isNew ->
  i1.(cache) = i.(cache) /\ i1.(prompts) = i.(prompts).
Proof. intros H. destruct H; auto using spawnInto_cache. Qed.

Lemma forEach_invariant {A : Type} (body : A -> M unit)
    (Inv : ConversationIndex -> Prop) (l : list A) :
  (forall a i tr o i',
      In a l -> Inv i -> Runs (body a i) tr (o, i') -> Inv i') ->
  forall i tr o i',
    Inv i -> Runs (forEach l body i) tr (o, i') -> Inv i'.
Proof.
  induction l as [|a l IH]; intros Hbody i tr o i' Hi H; simpl in H.
  - destruct H as [_ [= _ <-]]. exact Hi.
  - apply Runs_bind_inv in H.
    destruct H as (tr1 & tr2 & o1 & i1 & H1 & -> & H).
    assert (Hi1 : Inv i1) by (eapply Hbody; eauto; simpl; auto).
    destruct o1 as [[]|e].
    + eapply IH; eauto. intros. eapply Hbody; eauto. simpl. auto.
    + destruct H as [_ [= _ <-]]. exact Hi1.
Qed.

(** [initializeEmbeddings] writes to the vector association only, and only
    under identifiers of nodes with a rank above zero. *)
Lemma initializeEmbeddings_runs (s : Settings) (i : ConversationIndex)
    (tr : list Obs) (o : Outcome unit) (i' : ConversationIndex) :
  Runs (initializeEmbeddings s i) tr (o, i') ->
  i'.(nodes) = i.(nodes) /\ i'.(cache) = i.(cache)
  /\ i'.(prompts) = i.(prompts)
  /\ forall k, dict_get k i'.(embeddings) <> dict_get k i.(embeddings) ->
               exists n, In n (dict_values i.(nodes)) /\ n.(node_id) = k
                         /\ rank_nat n.(rank) > 0.
Proof.
  unfold initializeEmbeddings. intros H.
  destruct (String.eqb s.(geminiApiKey) "").
  - destruct H as [_ [= _ <-]]. repeat split; auto. intros k N. congruence.
  - cbn [bind get pbind] in H.
    set (needs := filter _ _) in H.
    assert (Hneeds : forall n, In n needs ->
                       In n (dict_values i.(nodes)) /\ rank_nat n.(rank) > 0).
    { intros n Hn. apply filter_In in Hn. destruct Hn as [Hin Hr].
      apply andb_prop in Hr. destruct Hr as [Hr _].
      apply Nat.ltb_lt in Hr. auto. }
    clearbody needs.
    revert H.
    apply (forEach_invariant _
             (fun j => j.(nodes) = i.(nodes) /\ j.(cache) = i.(cache)
                       /\ j.(prompts) = i.(prompts)
                       /\ forall k, dict_get k j.(embeddings)
                                    <> dict_get k i.(embeddings) ->
                            exists n, In n (dict_values i.(nodes))
                                      /\ n.(node_id) = k
                                      /\ rank_nat n.(rank) > 0)
             needs).
    + intros n j tr0 o0 j' Hn (Jn & Jc & Jp & Je) Hrun.
      cbn [bind await pbind Runs] in Hrun.
      destruct Hrun as (res & tr1 & _ & Hrun).
      destruct res as [e|err]; cbn [modify ret Runs] in Hrun;
        destruct Hrun as [_ [= _ ->]]; simpl; repeat split; auto.
      intros k N.
      destruct (String.eqb k n.(node_id)) eqn:Ek.
      * apply String.eqb_eq in Ek. subst k.
        destruct (Hneeds n Hn) as [Hin Hr]. exists n. auto.
      * apply String.eqb_neq in Ek.
        rewrite dict_get_set_neq in N by exact Ek. auto.
    + repeat split; auto. intros k N. congruence.
Qed.

(** ** Idempotence through the cache *)

Lemma classifyPrompt_returned (stack : nat) (p : PromptInput) (s : Settings)
    (i : ConversationIndex) (tr : list Obs) (r : ClassifyResult)
    (i' : ConversationIndex) :
  Runs (classifyPrompt stack p s i) tr (Returned r, i') ->
  dict_get (hashPrompt p.(fullText)) i'.(cache)
    = Some (mkCacheEntry r.(nodeId) r.(confidence))
  /\ terminates stack i'.(nodes) "root" = true
  /\ (forall h e, dict_get h i.(cache) = Some e ->
                  dict_get h i'.(cache) = Some e).
Proof.
  intros H. apply classifyPrompt_runs in H.
  destruct H as [H|(F & _)]; [|discriminate].
  unfold classify_post in H.
  destruct (dict_get (hashPrompt p.(fullText)) i.(cache)) as [cached|] eqn:Hc.
  - destruct H as (i1 & Hins & -> & Ho).
    destruct (insert_post_cache _ _ _ _ _ Hins) as (Ec & _).
    destruct (snd (recountSubtree stack i1.(nodes) "root")) eqn:R;
      [|discriminate].
    injection Ho as ->. simpl. rewrite Ec.
    split; [destruct cached; exact Hc|].
    split; [|auto].
    rewrite (terminates_kids stack _ i1.(nodes)) by apply kids_recounted.
    apply recount_returns_iff. eauto.
  - destruct H as [(e & _ & Ho & _)|H]; [discriminate|].
    destruct H as (v & trp & i1 & nid & conf & isNew & trc & HP & HC & _).
    destruct HC as (i2 & Hins & HC).
    destruct (insert_post_cache _ _ _ _ _ Hins) as (Ec & _).
    destruct (Placement_cache _ _ _ _ _ _ _ _ _ HP) as (Ec1 & _).
    destruct (snd (recountSubtree stack i2.(nodes) "root")) eqn:R.
    2:{ destruct HC as [HC _]. discriminate. }
    destruct HC as [[= ->] ->]. simpl.
    split; [apply dict_get_set_eq|].
    split.
    + rewrite (terminates_kids stack _ i2.(nodes)) by apply kids_recounted.
      apply recount_returns_iff. eauto.
    + intros h e Hh. rewrite Ec, Ec1.
      rewrite dict_get_set_neq; [exact Hh|]. congruence.
Qed.

Lemma classifyPrompt_thrown (stack : nat) (p : PromptInput) (s : Settings)
    (i : ConversationIndex) (tr : list Obs) (m : string)
    (i' : ConversationIndex) :
  Runs (classifyPrompt stack p s i) tr (Thrown (Error m), i') -> i' = i.
Proof.
  intros H. apply classifyPrompt_runs in H.
  destruct H as [H|(F & _)]; [|discriminate].
  unfold classify_post in H.
  destruct (dict_get (hashPrompt p.(fullText)) i.(cache)) as [cached|].
  - destruct H as (i1 & _ & _ & Ho).
    destruct (snd (recountSubtree stack i1.(nodes) "root")) eqn:R;
      [discriminate|].
    injection Ho as <-.
    destruct (recount_thrown _ _ _ R) as (_ & [E|[E _]]); discriminate.
  - destruct H as [(e & _ & _ & ->)|H]; [reflexivity|].
    destruct H as (v & trp & i1 & nid & conf & isNew & trc & _ & HC & _).
    destruct HC as (i2 & _ & HC).
    destruct (snd (recountSubtree stack i2.(nodes) "root")) eqn:R;
      destruct HC as [HC _]; [discriminate|].
    injection HC as <-.
    destruct (recount_thrown _ _ _ R) as (_ & [E|[E _]]); discriminate.
Qed.

Lemma Placement_no_inherited (p : PromptInput) (s : Settings) (v : Vector)
    (i : ConversationIndex) (tr : list Obs) (i1 : ConversationIndex)
    (nodeId : string) (conf : float) (isNew : bool) (stack : nat) :
  Placement p s v i tr i1 nodeId conf isNew ->
  no_inherited stack i.(nodes) "root" = true ->
  no_inherited stack i1.(nodes) "root" = true.
Proof.
  intros H N.
  destruct H; auto; apply no_inherited_spawnInto; auto.
Qed.

(** On a store whose recount comes to its end, the [TypeError] of an
    inherited name can only come from the attachment, before anything is
    written. *)
Lemma classifyPrompt_type_error (stack : nat) (p : PromptInput)
    (s : Settings) (i : ConversationIndex) (tr : list Obs)
    (i' : ConversationIndex) :
  terminates stack i.(nodes) "root" = true ->
  Runs (classifyPrompt stack p s i) tr (Thrown TypeError, i') -> i' = i.
Proof.
  intros T H. apply classifyPrompt_runs in H.
  destruct H as [H|(_ & F & _)]; [|exact F].
  exfalso. unfold classify_post in H.
  destruct (dict_get (hashPrompt p.(fullText)) i.(cache)) as [cached|].
  - destruct H as (i1 & Hins & _ & Ho).
    destruct (snd (recountSubtree stack i1.(nodes) "root")) eqn:R;
      [discriminate|].
    destruct (recount_thrown _ _ _ R) as (T1 & _).
    rewrite (terminates_kids stack _ i.(nodes)) in T1
      by exact (insert_post_kids _ _ _ _ _ Hins).
    congruence.
  - destruct H as [(e & _ & Ho & _)|H]; [discriminate|].
    destruct H as (v & trp & i1 & nid & conf & isNew & trc & HP & HC & _).
    destruct HC as (i2 & Hins & HC).
    destruct (snd (recountSubtree stack i2.(nodes) "root")) eqn:R;
      destruct HC as [HC _]; [discriminate|].
    injection HC as <-.
    destruct (recount_thrown _ _ _ R) as (_ & [E|[_ N]]); [discriminate|].
    rewrite (no_inherited_kids stack _ i1.(nodes)) in N
      by exact (insert_post_kids _ _ _ _ _ Hins).
    rewrite (Placement_no_inherited _ _ _ _ _ _ _ _ _ stack HP) in N;
      [discriminate|].
    apply terminates_no_inherited. exact T.
Qed.

(** A classification that returned has attached the passage to a node of
    the store, or to nothing: not to a name that the store only
    inherits. *)
Lemma classifyPrompt_inserted (stack : nat) (p : PromptInput) (s : Settings)
    (i : ConversationIndex) (tr : list Obs) (r : ClassifyResult)
    (i' : ConversationIndex) :
  Runs (classifyPrompt stack p s i) tr (Returned r, i') ->
  lookup r.(nodeId) i'.(nodes) <> Inherited.
Proof.
  intros H. apply classifyPrompt_runs in H.
  destruct H as [H|(F & _)]; [|discriminate].
  unfold classify_post in H.
  destruct (dict_get (hashPrompt p.(fullText)) i.(cache)) as [cached|].
  - destruct H as (i1 & Hins & -> & Ho).
    destruct (snd (recountSubtree stack i1.(nodes) "root")); [|discriminate].
    injection Ho as ->. cbn [nodeId].
    rewrite (lookup_kids _ i1.(nodes)) by apply kids_recounted.
    rewrite (lookup_kids _ i.(nodes))
      by exact (insert_post_kids _ _ _ _ _ Hins).
    exact (insert_post_lookup _ _ _ _ _ Hins).
  - destruct H as [(e & _ & Ho & _)|H]; [discriminate|].
    destruct H as (v & trp & i1 & nid & conf & isNew & trc & _ & HC & _).
    destruct HC as (i2 & Hins & HC).
    destruct (snd (recountSubtree stack i2.(nodes) "root"));
      destruct HC as [HC ->]; [|discriminate].
    injection HC as ->. cbn [nodeId remember nodes set_cache].
    rewrite (lookup_kids _ i2.(nodes)) by apply kids_recounted.
    rewrite (lookup_kids _ i1.(nodes))
      by exact (insert_post_kids _ _ _ _ _ Hins).
    exact (insert_post_lookup _ _ _ _ _ Hins).
Qed.

Lemma spawnInto_lookup (node : OutlineNode) (parentId : string)
    (emb : option Vector) (i : ConversationIndex) (k : string) :
  lookup k i.(nodes) <> Inherited ->
  lookup k (spawnInto node parentId emb i).(nodes) <> Inherited.
Proof.
  rewrite !lookup_get, spawnInto_get.
  destruct (String.eqb k node.(node_id)); simpl; [discriminate|].
  destruct (dict_get k i.(nodes)); simpl; [discriminate|auto].
Qed.

(** The keys of the store stay. *)
Lemma classifyPrompt_keeps_keys (stack : nat) (p : PromptInput)
    (s : Settings) (i : ConversationIndex) (tr : list Obs)
    (o : Outcome ClassifyResult) (i' : ConversationIndex) (k : string) :
  Runs (classifyPrompt stack p s i) tr (o, i') ->
  lookup k i.(nodes) <> Inherited -> lookup k i'.(nodes) <> Inherited.
Proof.
  intros H. apply classifyPrompt_runs in H.
  destruct H as [H|(_ & -> & _)]; [|auto].
  assert (Keep : forall j j' : ConversationIndex,
             kids j'.(nodes) = kids j.(nodes) ->
             lookup k j.(nodes) <> Inherited ->
             lookup k j'.(nodes) <> Inherited).
  { intros j j' K N. rewrite (lookup_kids _ _ k K). exact N. }
  unfold classify_post in H.
  destruct (dict_get (hashPrompt p.(fullText)) i.(cache)) as [cached|].
  - destruct H as (i1 & Hins & -> & _).
    intros N. apply (Keep i1); [apply kids_recounted|].
    apply (Keep i); [exact (insert_post_kids _ _ _ _ _ Hins)|exact N].
  - destruct H as [(e & _ & _ & ->)|H]; [auto|].
    destruct H as (v & trp & i1 & nid & conf & isNew & trc & HP & HC & _).
    destruct HC as (i2 & Hins & HC).
    intros N.
    assert (N1 : lookup k i1.(nodes) <> Inherited)
      by (destruct HP; auto using spawnInto_lookup).
    assert (N2 : lookup k i2.(nodes) <> Inherited)
      by (apply (Keep i1); [exact (insert_post_kids _ _ _ _ _ Hins)|exact N1]).
    destruct (snd (recountSubtree stack i2.(nodes) "root"));
      destruct HC as [_ ->]; cbn [remember nodes set_cache];
      apply (Keep i2); auto using kids_recounted.
Qed.

Lemma later_lookup (stack : nat) (i i' : ConversationIndex) (k : string) :
  later stack i i' ->
  lookup k i.(nodes) <> Inherited -> lookup k i'.(nodes) <> Inherited.
Proof.
  intros L.
  induction L as [i|i p s tr o i' i'' Hrun Ho L IH|i s tr o i' i'' Hrun L IH];
    intros N.
  - exact N.
  - apply IH. eapply classifyPrompt_keeps_keys; eauto.
  - apply IH.
    destruct (initializeEmbeddings_runs _ _ _ _ _ Hrun) as (-> & _).
    exact N.
Qed.

Lemma later_keeps (stack : nat) (h : string) (e : CacheEntry)
    (i i' : ConversationIndex) :
  later stack i i' ->
  dict_get h i.(cache) = Some e ->
  terminates stack i.(nodes) "root" = true ->
  dict_get h i'.(cache) = Some e
  /\ terminates stack i'.(nodes) "root" = true.
Proof.
  intros L.
  induction L as [i|i p s tr o i' i'' Hrun Ho L IH|i s tr o i' i'' Hrun L IH];
    intros Hh Ht.
  - auto.
  - destruct o as [r|[m| |]]; [| |congruence|].
    + destruct (classifyPrompt_returned _ _ _ _ _ _ _ Hrun)
        as (_ & Ht' & Hmono).
      apply IH; auto.
    + apply classifyPrompt_thrown in Hrun. subst i'. apply IH; auto.
    + apply (classifyPrompt_type_error _ _ _ _ _ _ Ht) in Hrun. subst i'.
      apply IH; auto.
  - destruct (initializeEmbeddings_runs _ _ _ _ _ Hrun) as (En & Ec & _).
    apply IH; congruence.
Qed.

(** C2. Once [classifyPrompt] has returned for a text, then, after any
    further calls that do not exhaust the call stack, every run of
    [classifyPrompt] on a passage with the same text returns the same node
    identifier with [isNewNode = false] and calls neither capability. *)
Theorem classifyPrompt_idempotent :
  forall (stack : nat) (i : ConversationIndex) (p1 : PromptInput)
         (s1 : Settings) (tr1 : list Obs) (r1 : ClassifyResult)
         (i1 i2 : ConversationIndex) (p2 : PromptInput) (s2 : Settings)
         (tr2 : list Obs) (o2 : Outcome ClassifyResult)
         (i3 : ConversationIndex),
    Runs (classifyPrompt stack p1 s1 i) tr1 (Returned r1, i1) ->
    later stack i1 i2 ->
    p2.(fullText) = p1.(fullText) ->
    Runs (classifyPrompt stack p2 s2 i2) tr2 (o2, i3) ->
    o2 = Returned (mkResult r1.(nodeId) r1.(confidence) false)
    /\ capabilityCalls tr2 = 0.
Proof.
  intros stack i p1 s1 tr1 r1 i1 i2 p2 s2 tr2 o2 i3 H1 L Etext H2.
  destruct (classifyPrompt_returned _ _ _ _ _ _ _ H1) as (Hc & Ht & _).
  destruct (later_keeps _ _ _ _ _ L Hc Ht) as (Hc2 & Ht2).
  pose proof (classifyPrompt_inserted _ _ _ _ _ _ _ H1) as Hn.
  pose proof (later_lookup _ _ _ r1.(nodeId) L Hn) as Hn2.
  apply classifyPrompt_runs in H2.
  destruct H2 as [H2|(_ & _ & F)].
  2:{ rewrite Etext, Hc2 in F. destruct F as [F _]. simpl in F.
      contradiction. }
  unfold classify_post in H2.
  rewrite Etext, Hc2 in H2. simpl in H2.
  destruct H2 as (i2' & Hins & -> & ->).
  split; [|eapply insert_post_quiet; eauto].
  rewrite <- (terminates_kids stack _ _ "root" (insert_post_kids _ _ _ _ _ Hins))
    in Ht2.
  apply recount_returns_iff in Ht2. destruct Ht2 as [t ->]. reflexivity.
Qed.

(** ** The root is never a candidate and never holds a passage *)

Lemma dict_In_set {V : Type} (k k0 : string) (v v0 : V) (d : Dict V) :
  In (k, v) (dict_set k0 v0 d) -> (k = k0 /\ v = v0) \/ In (k, v) d.
Proof.
  induction d as [|[k' v'] d IH]; simpl.
  - intros [[= <- <-]|[]]. auto.
  - destruct (String.eqb k0 k'); simpl.
    + intros [[= <- <-]|H]; auto.
    + intros [E|H]; [auto|]. destruct (IH H); auto.
Qed.

Lemma dict_In_update {V : Type} (k k0 : string) (v : V) (f : V -> V)
    (d : Dict V) :
  In (k, v) (dict_update k0 f d) ->
  In (k, v) d \/ exists v0, In (k, v0) d /\ v = f v0.
Proof.
  induction d as [|[k' v'] d IH]; simpl; [tauto|].
  destruct (String.eqb k0 k'); simpl.
  - intros [[= <- <-]|H]; eauto.
  - intros [E|H]; [auto|].
    destruct (IH H) as [H'|(v0 & H' & ->)]; eauto.
Qed.

Lemma erase_In (ns ns' : Dict OutlineNode) (k : string) (n' : OutlineNode) :
  erase ns' = erase ns -> In (k, n') ns' ->
  exists n, In (k, n) ns /\ n.(node_id) = n'.(node_id)
            /\ n.(rank) = n'.(rank).
Proof.
  intros E H.
  assert (H' : In (k, set_promptCount 0 n') (erase ns)).
  { rewrite <- E. unfold erase. apply in_map_iff. exists (k, n'). auto. }
  unfold erase in H'. apply in_map_iff in H'.
  destruct H' as ([k0 n] & E0 & Hin).
  pose proof (f_equal fst E0) as Ek. pose proof (f_equal snd E0) as En.
  simpl in Ek, En. subst k0.
  exists n. split; [exact Hin|].
  pose proof (f_equal node_id En) as E1. pose proof (f_equal rank En) as E2.
  simpl in E1, E2. auto.
Qed.

Lemma makeId_not_root (now : Z) (suffix : string) : makeId now suffix <> "root".
Proof. unfold makeId. simpl. discriminate. Qed.

Section RootClean.

Variable i : ConversationIndex.
Hypothesis Hclean : root_clean i.

Lemma root_clean_spawnInto (node : OutlineNode) (parentId : string)
    (emb : option Vector) :
  node.(node_id) <> "root" -> root_clean (spawnInto node parentId emb i).
Proof.
  intros Hid. destruct Hclean as ((r & Gr & Hp & Hr) & He & Hc & Hn).
  assert (Hnodes :
    root_clean
      (if dict_has parentId (dict_set node.(node_id) node i.(nodes))
       then set_nodes (dict_update parentId (pushChild node.(node_id))
                         (dict_set node.(node_id) node i.(nodes)))
                      (set_nodes (dict_set node.(node_id) node i.(nodes)) i)
       else set_nodes (dict_set node.(node_id) node i.(nodes)) i)).
  { assert (G1 : dict_get "root" (dict_set node.(node_id) node i.(nodes))
                 = Some r)
      by (rewrite dict_get_set_neq by congruence; exact Gr).
    assert (N1 : forall k n, In (k, n) (dict_set node.(node_id) node i.(nodes)) ->
                   n.(node_id) = "root" -> n.(rank) = Rank0).
    { intros k n H. apply dict_In_set in H. destruct H as [[_ ->]|H]; eauto.
      intros E. congruence. }
    destruct (dict_has parentId (dict_set node.(node_id) node i.(nodes)));
      (split; [|split; [exact He|split; [exact Hc|]]]); simpl.
    - rewrite dict_get_update.
      destruct (String.eqb "root" parentId) eqn:Ep.
      + apply String.eqb_eq in Ep. subst parentId. rewrite G1. simpl. eauto.
      + eauto.
    - intros k n H. apply dict_In_update in H.
      destruct H as [H|(n0 & H & ->)]; simpl; eauto.
    - eauto.
    - exact N1. }
  unfold spawnInto. cbv zeta.
  destruct emb as [e|]; [|exact Hnodes].
  destruct Hnodes as (Ha & Hb & Hc' & Hd).
  split; [exact Ha|]. split; [|split; [exact Hc'|exact Hd]].
  simpl. rewrite dict_get_set_neq by congruence. exact Hb.
Qed.

Lemma root_clean_update (nodeId : string) (f : OutlineNode -> OutlineNode) :
  nodeId <> "root" ->
  (forall n, (f n).(node_id) = n.(node_id) /\ (f n).(rank) = n.(rank)) ->
  root_clean (set_nodes (dict_update nodeId f i.(nodes)) i).
Proof.
  intros Hid Hf. destruct Hclean as ((r & Gr & Hp & Hr) & He & Hc & Hn).
  split; [|split; [exact He|split; [exact Hc|]]]; simpl.
  - exists r. rewrite dict_get_update_neq by congruence. auto.
  - intros k n H. apply dict_In_update in H.
    destruct H as [H|(n0 & H & ->)]; [eauto|].
    destruct (Hf n0) as [-> ->]. eauto.
Qed.

Lemma root_clean_recounted (stack : nat) : root_clean (recounted stack i).
Proof.
  destruct Hclean as ((r & Gr & Hp & Hr) & He & Hc & Hn).
  pose proof (recountSubtree_erase stack i.(nodes) "root") as E.
  split; [|split; [exact He|split; [exact Hc|]]]; simpl.
  - destruct (erase_get _ _ _ _ (eq_sym E) Gr) as (r' & G' & _ & Hp' & Er).
    exists r'. split; [exact G'|]. rewrite Hp', Er. auto.
  - intros k n' H. destruct (erase_In _ _ _ _ E H) as (n & Hin & <- & <-).
    eauto.
Qed.

Lemma root_clean_remember (hash nodeId : string) (conf : float) :
  nodeId <> "root" -> root_clean (remember hash nodeId conf i).
Proof.
  intros Hid. destruct Hclean as (Ha & He & Hc & Hn).
  split; [exact Ha|split; [exact He|split; [|exact Hn]]]. simpl.
  intros h e. destruct (String.eqb h hash) eqn:E.
  - apply String.eqb_eq in E. subst h. rewrite dict_get_set_eq.
    intros [= <-]. exact Hid.
  - apply String.eqb_neq in E. rewrite dict_get_set_neq by exact E. apply Hc.
Qed.

End RootClean.

Lemma root_clean_insert (nodeId : string) (promptIndex : Z)
    (i : ConversationIndex) (tr : list Obs) (i' : ConversationIndex) :
  root_clean i -> nodeId <> "root" ->
  insert_post nodeId promptIndex i tr i' -> root_clean i'.
Proof.
  intros Hc Hid. unfold insert_post.
  destruct (lookup nodeId i.(nodes)).
  - intros (now & _ & ->). unfold touchNode, attachPrompt.
    apply root_clean_update; auto.
    apply root_clean_update; auto.
    intros n. destruct (existsb (Z.eqb promptIndex) n.(promptIndices)); auto.
  - intros [].
  - intros [_ ->]. exact Hc.
Qed.

Lemma root_clean_not_embedded (i : ConversationIndex) (id : string) :
  root_clean i -> dict_has id i.(embeddings) = true -> id <> "root".
Proof.
  intros (_ & He & _) H ->. unfold dict_has in H. rewrite He in H.
  discriminate.
Qed.

Lemma Placement_root_clean (p : PromptInput) (s : Settings) (v : Vector)
    (i : ConversationIndex) (tr : list Obs) (i1 : ConversationIndex)
    (nodeId : string) (conf : float) (isNew : bool) :
  root_clean i -> Placement p s v i tr i1 nodeId conf isNew ->
  root_clean i1 /\ nodeId <> "root".
Proof.
  intros Hc H.
  destruct H; try (split; [apply root_clean_spawnInto; auto|];
                   apply makeId_not_root).
  - split; [exact Hc|].
    destruct (bestMatch_winner _ _ _ _ H0) as (emb & Hin & _).
    apply childCandidates_In in Hin. destruct Hin as (He & _).
    eapply root_clean_not_embedded; [exact Hc|].
    unfold dict_has. rewrite He. reflexivity.
  - split; [exact Hc|].
    destruct (bestMatch_winner _ _ _ _ H1) as (emb & Hin & _).
    unfold getAllEmbeddedCandidates in Hin.
    apply dict_In_get in Hin. destruct Hin as (e' & Hin).
    eapply root_clean_not_embedded; [exact Hc|].
    unfold dict_has. rewrite Hin. reflexivity.
Qed.

Lemma classifyPrompt_root_clean (stack : nat) (p : PromptInput) (s : Settings)
    (i : ConversationIndex) (tr : list Obs) (o : Outcome ClassifyResult)
    (i' : ConversationIndex) :
  root_clean i -> Runs (classifyPrompt stack p s i) tr (o, i') ->
  root_clean i'.
Proof.
  intros Hc H. apply classifyPrompt_runs in H.
  destruct H as [H|(_ & -> & _)]; [|exact Hc].
  unfold classify_post in H.
  destruct (dict_get (hashPrompt p.(fullText)) i.(cache)) as [cached|] eqn:G.
  - destruct H as (i1 & Hins & -> & _).
    apply root_clean_recounted.
    eapply root_clean_insert; [exact Hc| |exact Hins].
    destruct Hc as (_ & _ & Hcache & _). eapply Hcache; eauto.
  - destruct H as [(e & _ & _ & ->)|H]; [exact Hc|].
    destruct H as (v & trp & i1 & nid & conf & isNew & trc & HP & HC & _).
    destruct (Placement_root_clean _ _ _ _ _ _ _ _ _ Hc HP) as [Hc1 Hid].
    destruct HC as (i2 & Hins & HC).
    assert (Hc2 : root_clean i2) by (eapply root_clean_insert; eauto).
    destruct (snd (recountSubtree stack i2.(nodes) "root"));
      destruct HC as [_ ->].
    + apply root_clean_remember; [|exact Hid]. apply root_clean_recounted.
      exact Hc2.
    + apply root_clean_recounted. exact Hc2.
Qed.

Lemma initializeEmbeddings_root_clean (s : Settings) (i : ConversationIndex)
    (tr : list Obs) (o : Outcome unit) (i' : ConversationIndex) :
  root_clean i -> Runs (initializeEmbeddings s i) tr (o, i') ->
  root_clean i'.
Proof.
  intros (Ha & He & Hc & Hn) H.
  destruct (initializeEmbeddings_runs _ _ _ _ _ H) as (En & Ec & _ & Hemb).
  split; [rewrite En; exact Ha|].
  split; [|split; [rewrite Ec; exact Hc|rewrite En; exact Hn]].
  destruct (dict_get "root" i'.(embeddings)) as [e|] eqn:G; [|reflexivity].
  exfalso.
  destruct (Hemb "root") as (n & Hin & Hid & Hr); [congruence|].
  unfold dict_values in Hin. apply in_map_iff in Hin.
  destruct Hin as ([k n'] & <- & Hin). simpl in *.
  rewrite (Hn k n' Hin Hid) in Hr. simpl in Hr. lia.
Qed.

Lemma reachable_root_clean (i : ConversationIndex) :
  reachable i -> root_clean i.
Proof.
  intros R. induction R as [cid tr i H|stack p s i tr o i' R IH H|s i tr o i' R IH H].
  - simpl in H. destruct H as (c & tr1 & _ & u & tr2 & _ & _ & ->).
    split; [|split; [reflexivity|split]]; simpl.
    + eexists. split; [reflexivity|]. auto.
    + intros h e [=].
    + intros k n [[= <- <-]|[]]. reflexivity.
  - eapply classifyPrompt_root_clean; eauto.
  - eapply initializeEmbeddings_root_clean; eauto.
Qed.

(** C10. In every state reachable from [createIndex] through calls of
    [classifyPrompt] and [initializeEmbeddings], the root has no registered
    embedding, is among the candidates of neither scan, and has no passage
    attached. *)
Theorem root_never_candidate :
  forall i : ConversationIndex,
    reachable i ->
    dict_get "root" i.(embeddings) = None
    /\ (forall parentId rk candidates,
           getChildCandidates i parentId rk = Returned candidates ->
           ~ In "root" (map fst candidates))
    /\ ~ In "root" (map fst (getAllEmbeddedCandidates i))
    /\ exists r, dict_get "root" i.(nodes) = Some r /\ r.(promptIndices) = [].
Proof.
  intros i R. apply reachable_root_clean in R.
  pose proof R as ((r & Gr & Hp & _) & He & _).
  split; [exact He|]. split; [|split; [|eauto]].
  - intros parentId rk candidates Hret H. apply in_map_iff in H.
    destruct H as ([id e] & E & H). simpl in E. subst id.
    assert (Hin : In ("root", e) (childCandidates i parentId rk))
      by (unfold childCandidates; rewrite Hret; exact H).
    apply childCandidates_In in Hin. destruct Hin as (Hin & _).
    congruence.
  - intros H. apply in_map_iff in H.
    destruct H as ([id e] & E & H). simpl in E. subst id.
    unfold getAllEmbeddedCandidates in H. apply dict_In_get in H.
    destruct H as (e' & H). congruence.
Qed.

(** ** content.ts: a failed embedding in the queue *)

Lemma popPrompt_pushed (i : ConversationIndex) (r : PromptRecord) :
  popPrompt (set_prompts (i.(prompts) ++ [r]) i) = i.
Proof.
  destruct i. unfold popPrompt, set_prompts. simpl.
  rewrite removelast_last. reflexivity.
Qed.

Lemma classifyPrompt_embed_failure (stack : nat) (p : PromptInput)
    (s : Settings) (i : ConversationIndex) (e : string) (tr : list Obs)
    (o : Outcome ClassifyResult) (i' : ConversationIndex) :
  dict_get (hashPrompt p.(fullText)) i.(cache) = None ->
  Runs (classifyPrompt stack p s i)
       (ObsEmbed p.(firstSentence) (EmbedErr e) :: tr) (o, i')
  <-> tr = []
      /\ o = Thrown (Error ("[pipeline] Embed failed: " ++ e)%string)
      /\ i' = i.
Proof.
  intros Hmiss. split.
  - intros H. apply classifyPrompt_runs in H.
    destruct H as [H|(_ & _ & F)].
    2:{ rewrite Hmiss in F. destruct F as (v & fv & h & _ & _ & _ & _ & [=]). }
    unfold classify_post in H. rewrite Hmiss in H.
    destruct H as [(e' & [= -> ->] & -> & ->)|H]; [auto|].
    destruct H as (v & trp & i1 & nid & conf & isNew & trc & _ & _ & [=]).
  - intros (-> & -> & ->). unfold classifyPrompt.
    cbn [bind get pbind]. rewrite Hmiss.
    cbn [bind await pbind Runs observe].
    exists (EmbedErr e), []. split; [reflexivity|].
    cbn [throw Runs]. auto.
Qed.

Lemma drainLoop_embed_failure (stack : nat) (settings : Settings)
    (msg : ParsedMessage) (rest : list ParsedMessage)
    (index : ConversationIndex) (processed : list string) (e : string)
    (tr : list Obs) (out : ConversationIndex * list string) :
  existsb (String.eqb (hashPrompt msg.(msg_fullText))) processed = false ->
  dict_get (hashPrompt msg.(msg_fullText)) index.(cache) = None ->
  Runs (drainLoop stack settings (msg :: rest) index processed)
       (ObsEmbed msg.(headingText) (EmbedErr e) :: tr) out
  <-> Runs (drainLoop stack settings rest index processed) tr out.
Proof.
  intros Hnew Hmiss. cbn [drainLoop]. rewrite Hnew.
  set (rec := mkPromptRecord _ _ _ _).
  set (pushed := set_prompts (index.(prompts) ++ [rec]) index).
  set (prompt := mkPromptInput _ _ _).
  assert (Hmiss' : dict_get (hashPrompt prompt.(fullText)) pushed.(cache)
                   = None) by exact Hmiss.
  split.
  - intros H. apply Runs_pbind_inv in H.
    destruct H as (tr1 & tr2 & [o i'] & H1 & H2 & E).
    pose proof (classifyPrompt_runs _ _ _ _ _ _ _ H1) as C.
    destruct C as [C|(_ & _ & F)].
    2:{ rewrite Hmiss' in F.
        destruct F as (v & fv & h & _ & _ & _ & _ & ->). discriminate. }
    unfold classify_post in C. rewrite Hmiss' in C.
    destruct C as [(e' & -> & -> & ->)|C].
    + injection E as _ <-. cbn beta iota in H2.
      unfold pushed in H2. rewrite popPrompt_pushed in H2. exact H2.
    + destruct C as (v & trp & i1 & nid & conf & isNew & trc & _ & _ & ->).
      discriminate.
  - intros H.
    change (ObsEmbed msg.(headingText) (EmbedErr e) :: tr)
      with ([ObsEmbed msg.(headingText) (EmbedErr e)] ++ tr).
    apply Runs_pbind_intro
      with (a := (Thrown (Error ("[pipeline] Embed failed: " ++ e)%string),
                  pushed)).
    + apply (classifyPrompt_embed_failure stack prompt settings pushed e []);
        auto.
    + cbn beta iota. unfold pushed. rewrite popPrompt_pushed. exact H.
Qed.

(** C6. When the sentence embedding of a queued passage fails, its
    classification throws and leaves the index untouched; popping the
    record that was pushed before the classification gives back the list
    of prompts as it was; and [drainQueue] goes on with the rest of the
    queue from the very index, with the very list of prompts and set of
    processed hashes, that it had before the passage arrived. *)
Theorem drainQueue_embed_failure :
  forall (stack : nat) (settings : Settings) (msg : ParsedMessage)
         (rest : list ParsedMessage) (index : ConversationIndex)
         (processed : list string) (e : string) (tr : list Obs),
    existsb (String.eqb (hashPrompt msg.(msg_fullText))) processed = false ->
    dict_get (hashPrompt msg.(msg_fullText)) index.(cache) = None ->
    (forall o i',
        Runs (classifyPrompt stack
                (mkPromptInput msg.(msg_index) msg.(msg_fullText)
                               msg.(headingText))
                settings index)
             (ObsEmbed msg.(headingText) (EmbedErr e) :: tr) (o, i')
        <-> tr = []
            /\ o = Thrown (Error ("[pipeline] Embed failed: " ++ e)%string)
            /\ i' = index)
    /\ (forall r, popPrompt (set_prompts (index.(prompts) ++ [r]) index) = index)
    /\ (forall out,
           Runs (drainLoop stack settings (msg :: rest) index processed)
                (ObsEmbed msg.(headingText) (EmbedErr e) :: tr) out
           <-> Runs (drainLoop stack settings rest index processed) tr out)
    /\ (forall st',
           Runs (drainQueue stack settings
                   (mkContent index processed (msg :: rest) false))
                (ObsEmbed msg.(headingText) (EmbedErr e) :: tr) st'
           <-> exists index' processed',
                 Runs (drainLoop stack settings rest index processed) tr
                      (index', processed')
                 /\ st' = mkContent index' processed' [] false).
Proof.
  intros stack settings msg rest index processed e tr Hnew Hmiss.
  split; [|split; [|split]].
  - intros o i'.
    apply (classifyPrompt_embed_failure stack
             (mkPromptInput msg.(msg_index) msg.(msg_fullText)
                            msg.(headingText))).
    exact Hmiss.
  - apply popPrompt_pushed.
  - intros out. apply drainLoop_embed_failure; assumption.
  - intros st'. unfold drainQueue. cbn [isProcessing processingQueue st_index
                                        processedHashes orb List.length Nat.eqb].
    split.
    + intros H. apply Runs_pbind_inv in H.
      destruct H as (tr1 & tr2 & [i' pr'] & H1 & [-> ->] & E).
      rewrite app_nil_r in E. subst tr1.
      apply drainLoop_embed_failure in H1; [|assumption|assumption].
      exists i', pr'. auto.
    + intros (i' & pr' & H & ->).
      rewrite <- (app_nil_r (ObsEmbed msg.(headingText) (EmbedErr e) :: tr)).
      apply Runs_pbind_intro with (a := (i', pr')).
      * apply drainLoop_embed_failure; assumption.
      * simpl. auto.
Qed.

(** ** A spawn followed by a commit *)

Lemma terminates_grow (ns ns' : Dict OutlineNode) (id : string) :
  (exists node, dict_get id ns' = Some node /\ node.(children) = []) ->
  (forall x, x <> id ->
     match dict_get x ns with
     | None => dict_get x ns' = None
     | Some n =>
         exists n', dict_get x ns' = Some n'
                    /\ (n'.(children) = n.(children)
                        \/ n'.(children) = n.(children) ++ [id])
     end) ->
  forall stack k,
    terminates stack ns k = true -> terminates (S stack) ns' k = true.
Proof.
  intros (node & Gid & Hleaf) Hother.
  assert (Leaf : forall st, terminates (S st) ns' id = true).
  { intros st. simpl. rewrite lookup_get, Gid, Hleaf. reflexivity. }
  induction stack as [|stack IH]; intros k T; [discriminate|].
  destruct (String.eqb k id) eqn:Ek.
  - apply String.eqb_eq in Ek. subst k. apply Leaf.
  - apply String.eqb_neq in Ek. specialize (Hother k Ek).
    simpl in T.
    change (match lookup k ns' with
            | Own n => forallb (terminates (S stack) ns') n.(children)
            | Inherited => false
            | Missing => true
            end = true).
    rewrite lookup_get in *.
    destruct (dict_get k ns) as [n|].
    + destruct Hother as (n' & -> & Hc).
      assert (F : forallb (terminates (S stack) ns') n.(children) = true).
      { apply forallb_forall. intros c Hin. apply IH.
        rewrite forallb_forall in T. auto. }
      destruct Hc as [->| ->]; [exact F|].
      rewrite forallb_app, F. simpl. rewrite lookup_get, Gid, Hleaf.
      reflexivity.
    + rewrite Hother. destruct (isInherited k); [discriminate|reflexivity].
Qed.

Section SpawnCommit.

Variables (i : ConversationIndex) (id lbl parentId : string) (rk : NodeRank)
          (c u : Z) (v : Vector).

Let node : OutlineNode := mkNode id lbl rk [] [] 0 c u.
Let i1 : ConversationIndex := spawnInto node parentId (Some v) i.

Hypothesis Hpar : parentId <> id.

Lemma spawnInto_get_new : dict_get id i1.(nodes) = Some node.
Proof.
  unfold i1, spawnInto. cbv zeta. simpl.
  destruct (dict_has parentId (dict_set id node i.(nodes))); simpl.
  - rewrite dict_get_update_neq by congruence. apply dict_get_set_eq.
  - apply dict_get_set_eq.
Qed.

Lemma spawnInto_get_old (x : string) :
  x <> id ->
  dict_get x i1.(nodes)
  = option_map (fun n => if String.eqb x parentId then pushChild id n else n)
               (dict_get x i.(nodes)).
Proof.
  intros Hx. unfold i1, spawnInto. cbv zeta. simpl.
  assert (G : dict_get x (dict_set id node i.(nodes)) = dict_get x i.(nodes))
    by (apply dict_get_set_neq; exact Hx).
  unfold dict_has. rewrite dict_get_set_neq by exact Hpar.
  destruct (dict_get parentId i.(nodes)) as [pn|] eqn:Gp; simpl.
  - rewrite dict_get_update.
    destruct (String.eqb x parentId) eqn:E.
    + apply String.eqb_eq in E. subst x. rewrite G, Gp. reflexivity.
    + rewrite G. destruct (dict_get x i.(nodes)); reflexivity.
  - rewrite G. destruct (String.eqb x parentId) eqn:E.
    + apply String.eqb_eq in E. subst x. rewrite Gp. reflexivity.
    + destruct (dict_get x i.(nodes)); reflexivity.
Qed.

Lemma spawnInto_embedding : dict_get id i1.(embeddings) = Some v.
Proof.
  unfold i1, spawnInto. cbv zeta. simpl.
  destruct (dict_has parentId (dict_set id node i.(nodes))); simpl;
    apply dict_get_set_eq.
Qed.

Lemma spawnInto_terminates (stack : nat) :
  terminates stack i.(nodes) "root" = true ->
  terminates (S stack) i1.(nodes) "root" = true.
Proof.
  apply terminates_grow with (id := id).
  - exists node. split; [apply spawnInto_get_new|reflexivity].
  - intros x Hx. rewrite (spawnInto_get_old x Hx).
    destruct (dict_get x i.(nodes)) as [n|]; simpl; [|reflexivity].
    eexists. split; [reflexivity|].
    destruct (String.eqb x parentId); simpl; auto.
Qed.

(** The commit that follows a spawn: the passage is attached to the new
    node, the recount returns, and the placement is cached. *)
Lemma spawn_commit_post (stack : nat) (hash : string) (conf : float)
    (promptIndex : Z) (trc : list Obs) (o : Outcome ClassifyResult)
    (i' : ConversationIndex) :
  terminates stack i.(nodes) "root" = true ->
  commit_post (S stack) hash id conf true promptIndex i1 trc o i' ->
  (exists t, trc = [ObsNow t])
  /\ o = Returned (mkResult id conf true)
  /\ (exists n, dict_get id i'.(nodes) = Some n
                /\ n.(label) = lbl /\ n.(rank) = rk
                /\ n.(promptIndices) = [promptIndex] /\ n.(children) = [])
  /\ (forall pn, dict_get parentId i.(nodes) = Some pn ->
        exists pn', dict_get parentId i'.(nodes) = Some pn'
                    /\ pn'.(children) = pn.(children) ++ [id])
  /\ dict_get id i'.(embeddings) = Some v
  /\ dict_get hash i'.(cache) = Some (mkCacheEntry id conf).
Proof.
  intros T (i2 & Hins & HC).
  pose proof (insert_post_kids _ _ _ _ _ Hins) as K2.
  pose proof (insert_post_cache _ _ _ _ _ Hins) as (_ & E2 & _).
  unfold insert_post in Hins. rewrite lookup_get, spawnInto_get_new in Hins.
  destruct Hins as (t & -> & Ei2).
  assert (T2 : terminates (S stack) i2.(nodes) "root" = true).
  { rewrite (terminates_kids _ _ _ "root" K2). apply spawnInto_terminates.
    exact T. }
  apply recount_returns_iff in T2. destruct T2 as [tot R].
  rewrite R in HC.
  destruct HC as [-> ->].
  split; [eauto|]. split; [reflexivity|].
  pose proof (recountSubtree_erase (S stack) i2.(nodes) "root") as E.
  assert (Gnew : dict_get id i2.(nodes)
                 = Some (set_updatedAt t (pushPrompt promptIndex node))).
  { rewrite Ei2. unfold touchNode, attachPrompt. cbn [nodes set_nodes].
    rewrite dict_get_update_eq, dict_get_update_eq, spawnInto_get_new.
    reflexivity. }
  assert (Gold : forall x, x <> id ->
                   dict_get x i2.(nodes) = dict_get x i1.(nodes)).
  { intros x Hx. rewrite Ei2. unfold touchNode, attachPrompt.
    cbn [nodes set_nodes].
    rewrite !dict_get_update_neq by exact Hx. reflexivity. }
  split; [|split; [|split]].
  - destruct (erase_get _ _ _ _ (eq_sym E) Gnew) as (n' & G' & Hc & Hp & En).
    exists n'. simpl. split; [exact G'|]. rewrite Hc, Hp, En. auto.
  - intros pn Gp.
    assert (G2 : dict_get parentId i2.(nodes) = Some (pushChild id pn)).
    { rewrite (Gold parentId Hpar), (spawnInto_get_old parentId Hpar), Gp.
      simpl. rewrite String.eqb_refl. reflexivity. }
    destruct (erase_get _ _ _ _ (eq_sym E) G2) as (pn' & G' & Hc & _).
    exists pn'. simpl. split; [exact G'|]. rewrite Hc. reflexivity.
  - simpl. rewrite E2. apply spawnInto_embedding.
  - simpl. apply dict_get_set_eq.
Qed.

End SpawnCommit.

(** ** The stores that the engine builds are trees *)

Lemma Reach_ext (ns ns' : Dict OutlineNode) :
  (forall k, option_map children (dict_get k ns)
             = option_map children (dict_get k ns')) ->
  forall a b, Reach ns a b -> Reach ns' a b.
Proof.
  intros E a b H. induction H as [k n G|k n c k' G Hin _ IH].
  - specialize (E k). rewrite G in E.
    destruct (dict_get k ns') as [n'|] eqn:G'; [|discriminate].
    eapply Reach_here; eauto.
  - specialize (E k). rewrite G in E.
    destruct (dict_get k ns') as [n'|] eqn:G'; [|discriminate].
    injection E as E. eapply Reach_child; eauto. rewrite <- E. exact Hin.
Qed.

Lemma Reach_snoc (ns : Dict OutlineNode) (a b c : string)
    (n cn : OutlineNode) :
  Reach ns a b -> dict_get b ns = Some n -> In c n.(children) ->
  dict_get c ns = Some cn -> Reach ns a c.
Proof.
  intros H G Hin Gc. induction H as [k n0 G0|k n0 c0 k' G0 Hin0 _ IH].
  - eapply Reach_child; eauto. eapply Reach_here; eauto.
  - eapply Reach_child; eauto.
Qed.

Lemma tree_ok_kids (ns ns' : Dict OutlineNode) :
  kids ns = kids ns' -> tree_ok ns -> tree_ok ns'.
Proof.
  intros K ((r & Gr) & Hall).
  assert (E : forall k, option_map children (dict_get k ns)
                        = option_map children (dict_get k ns')).
  { intros k. rewrite <- !dict_get_kids, K. reflexivity. }
  split.
  - specialize (E "root"). rewrite Gr in E.
    destruct (dict_get "root" ns') as [r'|]; [eauto|discriminate].
  - intros k n' G'. specialize (E k) as Ek. rewrite G' in Ek.
    destruct (dict_get k ns) as [n|] eqn:G; [|discriminate].
    apply (Reach_ext ns ns' E). eapply Hall; eauto.
Qed.

Lemma tree_ok_spawnInto (i : ConversationIndex) (id lbl parentId : string)
    (rk : NodeRank) (c u : Z) (v : Vector) (pn : OutlineNode) :
  tree_ok i.(nodes) ->
  dict_get id i.(nodes) = None ->
  dict_get parentId i.(nodes) = Some pn ->
  tree_ok (spawnInto (mkNode id lbl rk [] [] 0 c u) parentId (Some v) i).(nodes).
Proof.
  intros ((r & Gr) & Hall) Hnew Gp.
  assert (Hpar : parentId <> id) by congruence.
  set (ns' := (spawnInto (mkNode id lbl rk [] [] 0 c u) parentId (Some v) i).(nodes)).
  assert (Gnew : dict_get id ns' = Some (mkNode id lbl rk [] [] 0 c u))
    by (apply spawnInto_get_new; exact Hpar).
  assert (Gold : forall x n, dict_get x i.(nodes) = Some n ->
                   exists n', dict_get x ns' = Some n'
                              /\ forall y, In y n.(children) -> In y n'.(children)).
  { intros x n G. assert (Hx : x <> id) by congruence.
    unfold ns'. rewrite (spawnInto_get_old i id lbl parentId rk c u v Hpar x Hx), G.
    simpl. eexists. split; [reflexivity|].
    intros y Hy. destruct (String.eqb x parentId); simpl; auto.
    apply in_or_app. auto. }
  assert (Mono : forall a b, Reach i.(nodes) a b -> Reach ns' a b).
  { intros a b H. induction H as [k n G|k n c0 k' G Hin _ IH].
    - destruct (Gold k n G) as (n' & G' & _). eapply Reach_here; eauto.
    - destruct (Gold k n G) as (n' & G' & Hsub). eapply Reach_child; eauto. }
  split.
  - destruct (Gold "root" r Gr) as (r' & G' & _). eauto.
  - intros k n G.
    destruct (String.eqb k id) eqn:Ek.
    + apply String.eqb_eq in Ek. subst k.
      assert (Gp' : dict_get parentId ns' = Some (pushChild id pn)).
      { unfold ns'.
        rewrite (spawnInto_get_old i id lbl parentId rk c u v Hpar parentId Hpar),
          Gp.
        simpl. rewrite String.eqb_refl. reflexivity. }
      apply Reach_snoc with (b := parentId) (n := pushChild id pn)
                            (cn := mkNode id lbl rk [] [] 0 c u); auto.
      * apply Mono. eapply Hall; eauto.
      * simpl. apply in_or_app. simpl. auto.
    + apply String.eqb_neq in Ek. unfold ns' in G.
      rewrite (spawnInto_get_old i id lbl parentId rk c u v Hpar k Ek) in G.
      destruct (dict_get k i.(nodes)) as [n0|] eqn:G0; [|discriminate].
      apply Mono. eapply Hall; eauto.
Qed.

Lemma fresh_ids_at (pre post : list Obs) (now : Z) (suffix : string)
    (ns : Dict OutlineNode) :
  fresh_ids (pre ++ ObsNow now :: ObsRandom suffix :: post) ns ->
  dict_get (makeId now suffix) ns = None.
Proof. intros H. eapply H. reflexivity. Qed.

Lemma fresh_not_present (ns : Dict OutlineNode) (id k : string)
    (n : OutlineNode) :
  dict_get id ns = None -> dict_get k ns = Some n -> k <> id.
Proof. congruence. Qed.

Lemma fresh_ids_suffix (a b : list Obs) (ns : Dict OutlineNode) :
  fresh_ids (a ++ b) ns -> fresh_ids b ns.
Proof.
  intros H pre post now suffix E. apply (H (a ++ pre) post).
  rewrite E, app_assoc. reflexivity.
Qed.

Lemma fresh_ids_prefix (a b : list Obs) (ns : Dict OutlineNode) :
  fresh_ids (a ++ b) ns -> fresh_ids a ns.
Proof.
  intros H pre post now suffix E. apply (H pre (post ++ b)).
  rewrite E, <- app_assoc. reflexivity.
Qed.

Lemma Placement_tree_ok (p : PromptInput) (s : Settings) (v : Vector)
    (i : ConversationIndex) (tr : list Obs) (i1 : ConversationIndex)
    (nodeId : string) (conf : float) (isNew : bool) :
  tree_ok i.(nodes) -> fresh_ids tr i.(nodes) ->
  Placement p s v i tr i1 nodeId conf isNew -> tree_ok i1.(nodes).
Proof.
  intros Hok Hfresh H.
  destruct H as [hit1 hit2 B1 B2|hit1 lr now suffix c u B1 B2
                 |fv fullHit hitNode lr now suffix c u B1 Hlen B3 G Hr
                 |fv fullHit B1 Hlen B3 Hn|pre lr now suffix c u B1 Hm];
    try exact Hok.
  - pose proof (fresh_ids_at
                  [ObsLabel p.(firstSentence) (existingLabelsOf i) lr]
                  [ObsNow c; ObsNow u] now suffix _ Hfresh) as Hnew.
    destruct (bestMatch_candidate_own _ _ _ _ _ _ B1) as (parent & Gp & _).
    eapply tree_ok_spawnInto; eauto.
  - pose proof (fresh_ids_at
                  [ObsEmbed p.(fullText) (EmbedOk fv);
                   ObsLabel p.(firstSentence) (existingLabelsOf i) lr]
                  [ObsNow c; ObsNow u] now suffix _ Hfresh) as Hnew.
    eapply tree_ok_spawnInto; eauto.
  - apply fresh_ids_suffix in Hfresh.
    pose proof (fresh_ids_at
                  [ObsLabel p.(firstSentence) (existingLabelsOf i) lr]
                  [ObsNow c; ObsNow u] now suffix _ Hfresh) as Hnew.
    destruct Hok as ((r & Gr) & Hall).
    eapply tree_ok_spawnInto; eauto. split; eauto.
Qed.

Lemma classifyPrompt_tree_ok (stack : nat) (p : PromptInput) (s : Settings)
    (i : ConversationIndex) (tr : list Obs) (o : Outcome ClassifyResult)
    (i' : ConversationIndex) :
  tree_ok i.(nodes) -> fresh_ids tr i.(nodes) ->
  Runs (classifyPrompt stack p s i) tr (o, i') -> tree_ok i'.(nodes).
Proof.
  intros Hok Hfresh H. apply classifyPrompt_runs in H.
  destruct H as [H|(_ & -> & _)]; [|exact Hok].
  unfold classify_post in H.
  destruct (dict_get (hashPrompt p.(fullText)) i.(cache)) as [cached|].
  - destruct H as (i1 & Hins & -> & _).
    apply (tree_ok_kids i.(nodes)); [|exact Hok].
    rewrite kids_recounted. symmetry. eapply insert_post_kids; eauto.
  - destruct H as [(e & _ & _ & ->)|H]; [exact Hok|].
    destruct H as (v & trp & i1 & nid & conf & isNew & trc & HP & HC & ->).
    assert (Hok1 : tree_ok i1.(nodes)).
    { eapply Placement_tree_ok; [exact Hok| |exact HP].
      apply (fresh_ids_suffix [ObsEmbed p.(firstSentence) (EmbedOk v)]) in Hfresh.
      eapply fresh_ids_prefix; eauto. }
    destruct HC as (i2 & Hins & HC).
    apply (tree_ok_kids i1.(nodes)); [|exact Hok1].
    pose proof (insert_post_kids _ _ _ _ _ Hins) as K.
    destruct (snd (recountSubtree stack i2.(nodes) "root"));
      destruct HC as [_ ->]; simpl;
      change (fst (recountSubtree stack i2.(nodes) "root"))
        with ((recounted stack i2).(nodes));
      rewrite kids_recounted; congruence.
Qed.

Lemma built_tree_ok (i : ConversationIndex) : built i -> tree_ok i.(nodes).
Proof.
  intros B.
  induction B as [cid tr i H|stack p s i tr o i' B IH Hf H|s i tr o i' B IH H].
  - simpl in H. destruct H as (c & tr1 & _ & u & tr2 & _ & _ & ->). simpl.
    split; [eexists; reflexivity|].
    intros k n G. simpl in G. destruct (String.eqb k "root") eqn:E;
      [|discriminate].
    apply String.eqb_eq in E. subst k. eapply Reach_here. reflexivity.
  - eapply classifyPrompt_tree_ok; eauto.
  - destruct (initializeEmbeddings_runs _ _ _ _ _ H) as (-> & _). exact IH.
Qed.

(** C1, as the code has it. When the recursion of the recount comes to
    its end (the tree below the root fits the call stack, and no child
    identifier in it is a name that [index.nodes] only inherits, on which
    the code throws a [TypeError]), [updatePromptCounts] returns, and then
    every node of the tree (every node reachable from the root through
    [children]) satisfies
    [promptCount == len(promptIndices) + sum(child.promptCount)], where
    every child identifier is a node of the store or is found nowhere and
    counts for nothing; in a store that the engine has built, that is every
    node. *)
Theorem updatePromptCounts_count_invariant :
  forall (stack : nat) (index : ConversationIndex),
    terminates stack index.(nodes) "root" = true ->
    exists index',
      updatePromptCounts stack index = Ret (Returned tt, index')
      /\ (forall k, Reach index'.(nodes) "root" k ->
                    count_invariant_at index'.(nodes) k)
      /\ (forall k n c, Reach index'.(nodes) "root" k ->
                        dict_get k index'.(nodes) = Some n ->
                        In c n.(children) ->
                        lookup c index'.(nodes) <> Inherited)
      /\ (built index -> forall k, count_invariant_at index'.(nodes) k).
Proof.
  intros stack index T.
  destruct (recountSubtree_returns stack _ _ T) as (ns' & t & R).
  exists (set_nodes ns' index). unfold updatePromptCounts, recounted.
  rewrite R. split; [reflexivity|]. simpl.
  pose proof (recount_post_invariant index.(nodes) ns' t
                (recountSubtree_spec stack _ _ _ _ R)) as Inv.
  assert (K : kids index.(nodes) = kids ns').
  { pose proof (recountSubtree_erase stack index.(nodes) "root") as E.
    rewrite R in E. simpl in E. symmetry. apply kids_erase. exact E. }
  split; [exact Inv|]. split.
  - intros k n c Rk G Hin.
    apply (terminates_children stack ns' k c n); auto.
    rewrite <- (terminates_kids stack _ _ "root" K). exact T.
  - intros B k n G. apply (Inv k); [|exact G].
    destruct (tree_ok_kids _ _ K (built_tree_ok index B)) as (_ & Hall).
    eapply Hall; eauto.
Qed.

Lemma updatePromptCounts_count_invariant_witness :
  exists index',
    updatePromptCounts 3 demoIndex2 = Ret (Returned tt, index')
    /\ (forall k, Reach index'.(nodes) "root" k ->
                  count_invariant_at index'.(nodes) k)
    /\ (forall k n c, Reach index'.(nodes) "root" k ->
                      dict_get k index'.(nodes) = Some n ->
                      In c n.(children) ->
                      lookup c index'.(nodes) <> Inherited)
    /\ (built demoIndex2 -> forall k, count_invariant_at index'.(nodes) k).
Proof.
  apply (updatePromptCounts_count_invariant 3 demoIndex2).
  reflexivity.
Defined.

(** C1, as the specification has it, fails: a node spawned under a parent
    that does not exist is outside the tree, and the recount never visits
    it. *)
Lemma updatePromptCounts_orphan_not_counted :
  fst (snd orphanRun) = Returned tt /\
  ~ count_invariant_at (snd (snd orphanRun)).(nodes) "node_17_abcde".
Proof.
  split; [reflexivity|].
  intros H.
  specialize (H (mkNode "node_17_abcde" "Orphan" Rank1 [] [7%Z] 0 17 17)).
  vm_compute in H. specialize (H eq_refl). discriminate.
Qed.

(** ** The stores that the engine builds are three layers deep *)

Lemma ranked_terminates (ns : Dict OutlineNode) :
  ranked ns -> terminates 3 ns "root" = true.
Proof.
  intros ((r & Gr & Hr) & Hkids & Hmax).
  assert (D : forall d k n, dict_get k ns = Some n ->
                rank_nat n.(rank) + d = 2 -> terminates (S d) ns k = true).
  { induction d as [|d IH]; intros k n G E; simpl; rewrite lookup_get, G;
      apply forallb_forall; intros c Hin;
      destruct (Hkids k n c G Hin) as (cn & Gc & Ec).
    - pose proof (Hmax c cn Gc). lia.
    - apply (IH c cn Gc). lia. }
  apply (D 2 "root" r Gr). rewrite Hr. reflexivity.
Qed.

(** [ranked] looks at the children and the rank of each node only. *)
Lemma ranked_ext (ns ns' : Dict OutlineNode) :
  (forall k, option_map (fun n => (n.(children), n.(rank))) (dict_get k ns')
             = option_map (fun n => (n.(children), n.(rank))) (dict_get k ns)) ->
  ranked ns -> ranked ns'.
Proof.
  intros E ((r & Gr & Hr) & Hkids & Hmax).
  assert (Back : forall k n', dict_get k ns' = Some n' ->
                   exists n, dict_get k ns = Some n
                             /\ n.(children) = n'.(children)
                             /\ n.(rank) = n'.(rank)).
  { intros k n' G'. specialize (E k). rewrite G' in E.
    destruct (dict_get k ns) as [n|]; [|discriminate].
    injection E as E1 E2. eauto. }
  assert (Forth : forall k n, dict_get k ns = Some n ->
                    exists n', dict_get k ns' = Some n'
                               /\ n'.(rank) = n.(rank)).
  { intros k n G. specialize (E k). rewrite G in E.
    destruct (dict_get k ns') as [n'|]; [|discriminate].
    injection E as E1 E2. eauto. }
  split; [|split].
  - destruct (Forth "root" r Gr) as (r' & G' & Er). exists r'.
    split; [exact G'|congruence].
  - intros k n' c G' Hin. destruct (Back k n' G') as (n & G & Ec & Er).
    rewrite <- Ec in Hin. destruct (Hkids k n c G Hin) as (cn & Gc & Hc).
    destruct (Forth c cn Gc) as (cn' & Gc' & Ecr). exists cn'.
    split; [exact Gc'|]. congruence.
  - intros k n' G'. destruct (Back k n' G') as (n & G & _ & Er).
    rewrite <- Er. eauto.
Qed.

Lemma ranked_update (k : string) (f : OutlineNode -> OutlineNode)
    (ns : Dict OutlineNode) :
  (forall n, (f n).(children) = n.(children) /\ (f n).(rank) = n.(rank)) ->
  ranked ns -> ranked (dict_update k f ns).
Proof.
  intros Hf. apply ranked_ext. intros x. rewrite dict_get_update.
  destruct (String.eqb x k) eqn:E; [|reflexivity].
  apply String.eqb_eq in E. subst x.
  destruct (dict_get k ns) as [n|]; [|reflexivity]. simpl.
  destruct (Hf n) as [-> ->]. reflexivity.
Qed.

Lemma ranked_insert (nodeId : string) (promptIndex : Z)
    (i : ConversationIndex) (tr : list Obs) (i' : ConversationIndex) :
  insert_post nodeId promptIndex i tr i' ->
  ranked i.(nodes) -> ranked i'.(nodes).
Proof.
  unfold insert_post. destruct (lookup nodeId i.(nodes)).
  - intros (now & _ & ->) H. unfold touchNode, attachPrompt. simpl.
    apply ranked_update; [auto|]. apply ranked_update; [|exact H].
    intros n. destruct (existsb (Z.eqb promptIndex) n.(promptIndices)); auto.
  - intros [].
  - intros [_ ->] H. exact H.
Qed.

Lemma ranked_recounted (stack : nat) (i : ConversationIndex) :
  ranked i.(nodes) -> ranked (recounted stack i).(nodes).
Proof.
  apply ranked_ext. intros k. unfold recounted. simpl.
  pose proof (recountSubtree_erase stack i.(nodes) "root") as E.
  pose proof (dict_get_erase k i.(nodes)) as G.
  pose proof (dict_get_erase k (fst (recountSubtree stack i.(nodes) "root")))
    as G'.
  rewrite E, G in G'.
  destruct (dict_get k (fst (recountSubtree stack i.(nodes) "root"))) as [n'|],
           (dict_get k i.(nodes)) as [n|]; simpl in *; try discriminate;
    [|reflexivity].
  injection G' as _ _ Er Ec _ _ _. congruence.
Qed.

Lemma ranked_spawnInto (i : ConversationIndex) (id lbl parentId : string)
    (rk : NodeRank) (c u : Z) (v : Vector) (pn : OutlineNode) :
  ranked i.(nodes) ->
  dict_get id i.(nodes) = None ->
  dict_get parentId i.(nodes) = Some pn ->
  rank_nat rk = S (rank_nat pn.(rank)) -> rank_nat rk <= 2 ->
  ranked (spawnInto (mkNode id lbl rk [] [] 0 c u) parentId (Some v) i).(nodes).
Proof.
  intros ((r & Gr & Hr) & Hkids & Hmax) Hnew Gp Erk Hle.
  assert (Hpar : parentId <> id) by congruence.
  set (node := mkNode id lbl rk [] [] 0 c u).
  set (ns' := (spawnInto node parentId (Some v) i).(nodes)).
  assert (Gnew : dict_get id ns' = Some node)
    by (apply spawnInto_get_new; exact Hpar).
  assert (Gold : forall x, x <> id ->
            dict_get x ns'
            = option_map (fun n => if String.eqb x parentId
                                   then pushChild id n else n)
                         (dict_get x i.(nodes)))
    by (intros x Hx; apply spawnInto_get_old; assumption).
  assert (Keep : forall x n, dict_get x i.(nodes) = Some n ->
            exists n', dict_get x ns' = Some n' /\ n'.(rank) = n.(rank)).
  { intros x n G. assert (Hx : x <> id) by congruence.
    rewrite (Gold x Hx), G. simpl. eexists. split; [reflexivity|].
    destruct (String.eqb x parentId); reflexivity. }
  split; [|split].
  - destruct (Keep "root" r Gr) as (r' & G' & Er). exists r'.
    split; [exact G'|congruence].
  - intros k n' c0 G' Hin.
    destruct (String.eqb k id) eqn:Ek.
    + apply String.eqb_eq in Ek. subst k.
      rewrite Gnew in G'. injection G' as <-. destruct Hin.
    + apply String.eqb_neq in Ek. rewrite (Gold k Ek) in G'.
      destruct (dict_get k i.(nodes)) as [n|] eqn:G; [|discriminate].
      simpl in G'. injection G' as <-.
      assert (Old : In c0 n.(children) ->
                exists cn, dict_get c0 ns' = Some cn
                           /\ rank_nat cn.(rank) = S (rank_nat n.(rank))).
      { intros Hin0. destruct (Hkids k n c0 G Hin0) as (cn & Gc & Ec).
        destruct (Keep c0 cn Gc) as (cn' & Gc' & Er). exists cn'.
        split; [exact Gc'|congruence]. }
      destruct (String.eqb k parentId) eqn:Ep.
      * apply String.eqb_eq in Ep. subst k.
        assert (n = pn) by congruence. subst n. simpl in Hin.
        apply in_app_or in Hin. destruct Hin as [Hin|[<-|[]]].
        -- apply Old in Hin. exact Hin.
        -- exists node. split; [exact Gnew|exact Erk].
      * apply Old. exact Hin.
  - intros k n' G'.
    destruct (String.eqb k id) eqn:Ek.
    + apply String.eqb_eq in Ek. subst k.
      rewrite Gnew in G'. injection G' as <-. exact Hle.
    + apply String.eqb_neq in Ek. rewrite (Gold k Ek) in G'.
      destruct (dict_get k i.(nodes)) as [n|] eqn:G; [|discriminate].
      simpl in G'. injection G' as <-.
      destruct (String.eqb k parentId); simpl; eauto.
Qed.

Lemma Placement_ranked (p : PromptInput) (s : Settings) (v : Vector)
    (i : ConversationIndex) (tr : list Obs) (i1 : ConversationIndex)
    (nodeId : string) (conf : float) (isNew : bool) :
  ranked i.(nodes) -> fresh_ids tr i.(nodes) ->
  Placement p s v i tr i1 nodeId conf isNew -> ranked i1.(nodes).
Proof.
  intros Hok Hfresh H.
  destruct H as [hit1 hit2 B1 B2|hit1 lr now suffix c u B1 B2
                 |fv fullHit hitNode lr now suffix c u B1 Hlen B3 G Hr
                 |fv fullHit B1 Hlen B3 Hn|pre lr now suffix c u B1 Hm];
    try exact Hok.
  - pose proof (fresh_ids_at
                  [ObsLabel p.(firstSentence) (existingLabelsOf i) lr]
                  [ObsNow c; ObsNow u] now suffix _ Hfresh) as Hnew.
    destruct (bestMatch_candidate_own _ _ _ _ _ _ B1) as (parent & Gp & Hrk).
    eapply ranked_spawnInto; eauto. rewrite Hrk. reflexivity.
  - pose proof (fresh_ids_at
                  [ObsEmbed p.(fullText) (EmbedOk fv);
                   ObsLabel p.(firstSentence) (existingLabelsOf i) lr]
                  [ObsNow c; ObsNow u] now suffix _ Hfresh) as Hnew.
    eapply ranked_spawnInto; eauto. rewrite Hr. reflexivity.
  - apply fresh_ids_suffix in Hfresh.
    pose proof (fresh_ids_at
                  [ObsLabel p.(firstSentence) (existingLabelsOf i) lr]
                  [ObsNow c; ObsNow u] now suffix _ Hfresh) as Hnew.
    destruct Hok as ((r & Gr & Hr) & Hrest).
    apply ranked_spawnInto with (pn := r);
      [split; eauto|exact Hnew|exact Gr|rewrite Hr; reflexivity|simpl; lia].
Qed.

(** On a layered store, with room for three frames, the recount of
    [classifyPrompt] comes to its end, and it leaves a layered store. *)
Lemma classifyPrompt_ranked (stack : nat) (p : PromptInput) (s : Settings)
    (i : ConversationIndex) (tr : list Obs) (o : Outcome ClassifyResult)
    (i' : ConversationIndex) :
  ranked i.(nodes) -> fresh_ids tr i.(nodes) -> 3 <= stack ->
  Runs (classifyPrompt stack p s i) tr (o, i') ->
  ranked i'.(nodes) /\ o <> Thrown RangeError.
Proof.
  intros Hok Hfresh Hstack H. apply classifyPrompt_runs in H.
  destruct H as [H|(-> & -> & _)]; [|split; [exact Hok|discriminate]].
  unfold classify_post in H.
  assert (Fits : forall j, ranked j.(nodes) ->
                   exists t, snd (recountSubtree stack j.(nodes) "root")
                             = Returned t).
  { intros j Hj. apply recount_returns_iff.
    apply terminates_mono with (stack := 3); [|exact Hstack].
    apply ranked_terminates. exact Hj. }
  destruct (dict_get (hashPrompt p.(fullText)) i.(cache)) as [cached|].
  - destruct H as (i1 & Hins & -> & ->).
    pose proof (ranked_insert _ _ _ _ _ Hins Hok) as Hok1.
    split; [apply ranked_recounted; exact Hok1|].
    destruct (Fits i1 Hok1) as [t ->]. discriminate.
  - destruct H as [(e & _ & -> & ->)|H]; [split; [exact Hok|discriminate]|].
    destruct H as (v & trp & i1 & nid & conf & isNew & trc & HP & HC & ->).
    assert (Hok1 : ranked i1.(nodes)).
    { eapply Placement_ranked; [exact Hok| |exact HP].
      apply (fresh_ids_suffix [ObsEmbed p.(firstSentence) (EmbedOk v)]) in Hfresh.
      eapply fresh_ids_prefix; eauto. }
    destruct HC as (i2 & Hins & HC).
    pose proof (ranked_insert _ _ _ _ _ Hins Hok1) as Hok2.
    destruct (Fits i2 Hok2) as [t Ht]. rewrite Ht in HC.
    destruct HC as [-> ->].
    split; [|discriminate]. simpl.
    apply (ranked_recounted stack i2). exact Hok2.
Qed.

Lemma built_ranked (i : ConversationIndex) : built i -> ranked i.(nodes).
Proof.
  intros B.
  induction B as [cid tr i H|stack p s i tr o i' B IH Hf H|s i tr o i' B IH H].
  - simpl in H. destruct H as (c & tr1 & _ & u & tr2 & _ & _ & ->). simpl.
    split; [eexists; split; reflexivity|].
    split.
    + intros k n c0 G Hin. simpl in G.
      destruct (String.eqb k "root"); [|discriminate].
      injection G as <-. destruct Hin.
    + intros k n G. simpl in G.
      destruct (String.eqb k "root"); [|discriminate].
      injection G as <-. simpl. lia.
  - apply classifyPrompt_runs in H.
    destruct H as [H|(_ & -> & _)]; [|exact IH].
    unfold classify_post in H.
    destruct (dict_get (hashPrompt p.(fullText)) i.(cache)) as [cached|].
    + destruct H as (i1 & Hins & -> & _).
      apply ranked_recounted. eapply ranked_insert; eauto.
    + destruct H as [(e & _ & _ & ->)|H]; [exact IH|].
      destruct H as (v & trp & i1 & nid & conf & isNew & trc & HP & HC & ->).
      assert (Hok1 : ranked i1.(nodes)).
      { eapply Placement_ranked; [exact IH| |exact HP].
        apply (fresh_ids_suffix [ObsEmbed p.(firstSentence) (EmbedOk v)]) in Hf.
        eapply fresh_ids_prefix; eauto. }
      destruct HC as (i2 & Hins & HC).
      pose proof (ranked_insert _ _ _ _ _ Hins Hok1) as Hok2.
      destruct (snd (recountSubtree stack i2.(nodes) "root"));
        destruct HC as [_ ->]; simpl; apply (ranked_recounted stack i2);
        exact Hok2.
  - destruct (initializeEmbeddings_runs _ _ _ _ _ H) as (-> & _). exact IH.
Qed.

(** In the stores that the engine builds, three frames are enough: the only
    way a classification fails is a failed sentence embedding. *)
Lemma built_never_overflows (stack : nat) (p : PromptInput) (s : Settings)
    (i : ConversationIndex) (tr : list Obs) (o : Outcome ClassifyResult)
    (i' : ConversationIndex) :
  built i -> fresh_ids tr i.(nodes) -> 3 <= stack ->
  Runs (classifyPrompt stack p s i) tr (o, i') ->
  terminates stack i.(nodes) "root" = true /\ o <> Thrown RangeError.
Proof.
  intros B Hf Hstack H. pose proof (built_ranked i B) as R.
  split.
  - apply terminates_mono with (stack := 3); [|exact Hstack].
    apply ranked_terminates. exact R.
  - eapply classifyPrompt_ranked; eauto.
Qed.

(** ** The fallback label *)

Lemma length_slice0 (n : nat) (s : string) : String.length (slice0 n s) <= n.
Proof.
  unfold slice0. revert s. induction n as [|n IH]; intros s.
  - destruct s; simpl; lia.
  - destruct s as [|ch s]; simpl; [lia|]. specialize (IH s). lia.
Qed.

Lemma length_trimStart (s : string) :
  String.length (trimStart s) <= String.length s.
Proof.
  induction s as [|ch s IH]; simpl; [lia|].
  destruct (isWhiteSpace ch); simpl; lia.
Qed.

Lemma length_trimEnd (s : string) :
  String.length (trimEnd s) <= String.length s.
Proof.
  induction s as [|ch s IH]; simpl; [lia|].
  destruct (trimEnd s); simpl in *.
  - destruct (isWhiteSpace ch); simpl; lia.
  - lia.
Qed.

Lemma length_fallbackLabel (text : string) :
  String.length (fallbackLabel text) <= 40.
Proof.
  unfold fallbackLabel, trim.
  pose proof (length_trimEnd (trimStart (slice0 40 text))).
  pose proof (length_trimStart (slice0 40 text)).
  pose proof (length_slice0 40 text). lia.
Qed.

Lemma firstChar_trimStart (s : string) (ch : ascii) :
  firstChar (trimStart s) = Some ch -> isWhiteSpace ch = false.
Proof.
  induction s as [|c0 s IH]; simpl; [discriminate|].
  destruct (isWhiteSpace c0) eqn:E; [exact IH|].
  simpl. intros [= <-]. exact E.
Qed.

Lemma firstChar_trimEnd (s : string) (ch : ascii) :
  firstChar (trimEnd s) = Some ch -> firstChar s = Some ch.
Proof.
  destruct s as [|c0 s]; simpl; [discriminate|].
  destruct (trimEnd s); [destruct (isWhiteSpace c0)|]; simpl; congruence.
Qed.

Lemma lastChar_trimEnd (s : string) (ch : ascii) :
  lastChar (trimEnd s) = Some ch -> isWhiteSpace ch = false.
Proof.
  induction s as [|c0 s IH]; simpl; [discriminate|].
  destruct (trimEnd s) as [|c1 r] eqn:E.
  - destruct (isWhiteSpace c0) eqn:W; simpl; [discriminate|].
    intros [= <-]. exact W.
  - intros H. apply IH. exact H.
Qed.

Lemma trimmed_fallbackLabel (text : string) : trimmed (fallbackLabel text).
Proof.
  unfold fallbackLabel, trim. split; intros ch H.
  - apply firstChar_trimEnd in H. eapply firstChar_trimStart; eauto.
  - eapply lastChar_trimEnd; eauto.
Qed.

(** ** The spawning branches of [classifyPrompt] *)

(** C5. When the rank-1 scan matches and the rank-2 scan under the match
    does not, [classifyPrompt] asks for a label, spawns a rank-2 node under
    the rank-1 match with the sentence vector, attaches the passage to it
    and returns it as a new node with the score of the rank-1 match. *)
Theorem rank1_hit_spawns_rank2 :
  forall (stack : nat) (p : PromptInput) (s : Settings)
         (i : ConversationIndex) (v : Vector) (hit1 : Match)
         (tr : list Obs) (o : Outcome ClassifyResult)
         (i' : ConversationIndex),
    dict_get (hashPrompt p.(fullText)) i.(cache) = None ->
    terminates stack i.(nodes) "root" = true ->
    bestMatch v (childCandidates i "root" (Some Rank1)) s.(thresholdHigh)
      = Some hit1 ->
    bestMatch v (childCandidates i hit1.(match_id) (Some Rank2))
              s.(thresholdHigh) = None ->
    fresh_ids tr i.(nodes) ->
    Runs (classifyPrompt (S stack) p s i)
         (ObsEmbed p.(firstSentence) (EmbedOk v) :: tr) (o, i') ->
    exists lr now suffix c u t parent,
      tr = ObsLabel p.(firstSentence) (existingLabelsOf i) lr
           :: spawnTrace now suffix c u ++ [ObsNow t]
      /\ o = Returned (mkResult (makeId now suffix) hit1.(score) true)
      /\ dict_get (makeId now suffix) i.(nodes) = None
      /\ dict_get hit1.(match_id) i.(nodes) = Some parent
      /\ parent.(rank) = Rank1
      /\ (exists n, dict_get (makeId now suffix) i'.(nodes) = Some n
                    /\ n.(label) = labelOf lr p.(firstSentence)
                    /\ n.(rank) = Rank2
                    /\ n.(promptIndices) = [p.(prompt_index)]
                    /\ n.(children) = [])
      /\ (exists parent', dict_get hit1.(match_id) i'.(nodes) = Some parent'
                          /\ parent'.(children)
                             = parent.(children) ++ [makeId now suffix])
      /\ dict_get (makeId now suffix) i'.(embeddings) = Some v
      /\ dict_get (hashPrompt p.(fullText)) i'.(cache)
         = Some (mkCacheEntry (makeId now suffix) hit1.(score)).
Proof.
  intros stack p s i v hit1 tr o i' Hmiss T B1 B2 Hfresh H.
  apply classifyPrompt_runs in H.
  destruct H as [H|(_ & _ & F)].
  2:{ rewrite Hmiss in F. destruct F as (v0 & fv & h & B & _ & _ & _ & [= <- _]).
      congruence. }
  unfold classify_post in H.
  rewrite Hmiss in H. destruct H as [(e & [=] & _)|H].
  destruct H as (v' & trp & i1 & nid & conf & isNew & trc & HP & HC & [= <- ->]).
  destruct (bestMatch_candidate_own _ _ _ _ _ _ B1) as (parent & Gp & Hr).
  destruct HP; try congruence.
  assert (hit0 = hit1) by congruence. subst hit0.
  pose proof (fresh_ids_at
                [ObsLabel p.(firstSentence) (existingLabelsOf i) lr]
                ([ObsNow c; ObsNow u] ++ trc) now suffix _ Hfresh) as Hnew.
  assert (Hpar : hit1.(match_id) <> makeId now suffix)
    by (eapply fresh_not_present; eauto).
  destruct (spawn_commit_post i (makeId now suffix)
              (labelOf lr p.(firstSentence)) hit1.(match_id) Rank2 c u v Hpar
              stack _ _ _ _ _ _ T HC)
    as ((t & ->) & -> & Hn & Hp & He & Hc).
  exists lr, now, suffix, c, u, t, parent.
  repeat (split; [solve [auto]|]). auto.
Qed.

(** C4. On a store with the root alone and a text that is not cached,
    [classifyPrompt] embeds the first sentence and, unless that fails,
    makes no second embedding call: it asks for a label, spawns a rank-1
    node under the root with the sentence vector, attaches the passage to
    it and returns it as a new node with confidence 0. *)
Theorem cold_start_spawns_header :
  forall (stack : nat) (p : PromptInput) (s : Settings)
         (i : ConversationIndex) (r : OutlineNode) (tr : list Obs)
         (o : Outcome ClassifyResult) (i' : ConversationIndex),
    i.(nodes) = [("root", r)] ->
    r.(children) = [] ->
    dict_get (hashPrompt p.(fullText)) i.(cache) = None ->
    Runs (classifyPrompt (S (S stack)) p s i) tr (o, i') ->
    (exists e,
        tr = [ObsEmbed p.(firstSentence) (EmbedErr e)]
        /\ o = Thrown (Error ("[pipeline] Embed failed: " ++ e)%string)
        /\ i' = i)
    \/ (exists v lr now suffix c u t,
           tr = ObsEmbed p.(firstSentence) (EmbedOk v)
                :: ObsLabel p.(firstSentence) (existingLabelsOf i) lr
                :: spawnTrace now suffix c u ++ [ObsNow t]
           /\ o = Returned (mkResult (makeId now suffix) 0%float true)
           /\ (exists n, dict_get (makeId now suffix) i'.(nodes) = Some n
                         /\ n.(label) = labelOf lr p.(firstSentence)
                         /\ n.(rank) = Rank1
                         /\ n.(promptIndices) = [p.(prompt_index)]
                         /\ n.(children) = [])
           /\ (exists r', dict_get "root" i'.(nodes) = Some r'
                          /\ r'.(children) = [makeId now suffix])
           /\ dict_get (makeId now suffix) i'.(embeddings) = Some v
           /\ dict_get (hashPrompt p.(fullText)) i'.(cache)
              = Some (mkCacheEntry (makeId now suffix) 0%float)).
Proof.
  intros stack p s i r tr o i' Hn Hkids Hmiss H.
  assert (Hlen : List.length (dict_keys i.(nodes)) = 1)
    by (rewrite Hn; reflexivity).
  apply classifyPrompt_runs in H.
  destruct H as [H|(_ & _ & F)].
  2:{ rewrite Hmiss in F. destruct F as (v0 & fv & h & _ & L & _). lia. }
  unfold classify_post in H.
  rewrite Hmiss in H. destruct H as [H|H]; [left; exact H|right].
  destruct H as (v & trp & i1 & nid & conf & isNew & trc & HP & HC & ->).
  assert (B1 : bestMatch v (childCandidates i "root" (Some Rank1))
                         s.(thresholdHigh) = None).
  { unfold childCandidates, getChildCandidates. rewrite Hn. simpl.
    rewrite Hkids. reflexivity. }
  assert (T : terminates (S stack) i.(nodes) "root" = true).
  { simpl. rewrite Hn. simpl. rewrite Hkids. reflexivity. }
  destruct HP; try congruence; try lia.
  destruct H0 as [[_ ->]|[[Hl _]|[Hl _]]]; try lia.
  pose proof (makeId_not_root now suffix) as Hid.
  assert (Hpar : "root" <> makeId now suffix) by congruence.
  destruct (spawn_commit_post i (makeId now suffix)
              (labelOf lr p.(firstSentence)) "root" Rank1 c u v Hpar
              (S stack) _ _ _ _ _ _ T HC)
    as ((t & ->) & -> & Hnode & Hp & He & Hc).
  exists v, lr, now, suffix, c, u, t.
  split; [reflexivity|]. split; [reflexivity|]. split; [exact Hnode|].
  split; [|split; [exact He|exact Hc]].
  destruct (Hp r) as (r' & G' & Hc').
  - rewrite Hn. reflexivity.
  - exists r'. rewrite Hc', Hkids. auto.
Qed.

(** C9. When the label call of a classification fails, the classification
    still returns: it has spawned a node, and the label of that node is the
    first 40 characters of the sentence text, trimmed. *)
Theorem label_failure_not_fatal :
  forall (stack : nat) (p : PromptInput) (s : Settings)
         (i : ConversationIndex) (tr : list Obs)
         (o : Outcome ClassifyResult) (i' : ConversationIndex)
         (context : string) (labels : list string) (e : string),
    terminates stack i.(nodes) "root" = true ->
    fresh_ids tr i.(nodes) ->
    Runs (classifyPrompt (S stack) p s i) tr (o, i') ->
    In (ObsLabel context labels (LabelErr e)) tr ->
    exists r n,
      o = Returned r
      /\ r.(isNewNode) = true
      /\ dict_get r.(nodeId) i'.(nodes) = Some n
      /\ n.(label) = trim (slice0 40 p.(firstSentence))
      /\ String.length n.(label) <= 40
      /\ trimmed n.(label).
Proof.
  intros stack p s i tr o i' context labels e T Hfresh H Hin.
  apply classifyPrompt_runs in H.
  destruct H as [H|(_ & _ & F)].
  2:{ exfalso.
      destruct (dict_get (hashPrompt p.(fullText)) i.(cache)) as [cached|].
      - destruct F as [_ ->]. destruct Hin.
      - destruct F as (v0 & fv & h & _ & _ & _ & _ & ->).
        destruct Hin as [[=]|[[=]|[]]]. }
  unfold classify_post in H.
  assert (Quiet : forall nid pidx j trj j',
             insert_post nid pidx j trj j' ->
             ~ In (ObsLabel context labels (LabelErr e)) trj).
  { intros nid pidx j trj j'. unfold insert_post.
    destruct (lookup nid j.(nodes)).
    - intros (now & -> & _) [[=]|[]].
    - intros [].
    - intros [-> _] []. }
  destruct (dict_get (hashPrompt p.(fullText)) i.(cache)) as [cached|].
  { destruct H as (i1 & Hins & _). exfalso. eapply Quiet; eauto. }
  destruct H as [(e' & -> & _)|H].
  { destruct Hin as [[=]|[]]. }
  destruct H as (v & trp & i1 & nid & conf & isNew & trc & HP & HC & ->).
  assert (Done :
    forall parentId rk (v0 : Vector) lr now suffix c u (pre : list Obs),
      parentId <> makeId now suffix ->
      (forall x, In x pre -> x <> ObsLabel context labels (LabelErr e)) ->
      In (ObsLabel context labels (LabelErr e))
         (ObsEmbed p.(firstSentence) (EmbedOk v)
          :: (pre ++ ObsLabel p.(firstSentence) (existingLabelsOf i) lr
                  :: spawnTrace now suffix c u) ++ trc) ->
      commit_post (S stack) (hashPrompt p.(fullText)) (makeId now suffix)
        conf true p.(prompt_index)
        (spawnInto (mkNode (makeId now suffix) (labelOf lr p.(firstSentence))
                           rk [] [] 0 c u) parentId (Some v0) i)
        trc o i' ->
      exists r n,
        o = Returned r /\ r.(isNewNode) = true
        /\ dict_get r.(nodeId) i'.(nodes) = Some n
        /\ n.(label) = trim (slice0 40 p.(firstSentence))
        /\ String.length n.(label) <= 40 /\ trimmed n.(label)).
  { intros parentId rk v0 lr now suffix c u pre Hpar Hpre Hin' HC'.
    destruct (spawn_commit_post i (makeId now suffix)
                (labelOf lr p.(firstSentence)) parentId rk c u v0 Hpar
                stack _ _ _ _ _ _ T HC')
      as ((t & ->) & -> & (n & Gn & Hl & _) & _).
    assert (Elr : lr = LabelErr e).
    { destruct Hin' as [[=]|Hin']. apply in_app_or in Hin'.
      destruct Hin' as [Hin'|[[=]|[]]].
      apply in_app_or in Hin'. destruct Hin' as [Hin'|Hin'].
      - exfalso. eapply Hpre; eauto.
      - destruct Hin' as [[= _ _ ->]|Hin']; [reflexivity|].
        repeat (destruct Hin' as [[=]|Hin']). destruct Hin'. }
    subst lr. simpl in Hl.
    exists (mkResult (makeId now suffix) conf true), n. simpl.
    split; [reflexivity|]. split; [reflexivity|]. split; [exact Gn|].
    rewrite Hl. split; [reflexivity|].
    split; [apply length_fallbackLabel|apply trimmed_fallbackLabel]. }
  destruct HP.
  - exfalso. destruct HC as (i2 & Hins & _).
    destruct Hin as [[=]|Hin]. eapply Quiet; eauto.
  - pose proof (fresh_ids_at
                  [ObsEmbed p.(firstSentence) (EmbedOk v);
                   ObsLabel p.(firstSentence) (existingLabelsOf i) lr]
                  ([ObsNow c; ObsNow u] ++ trc) now suffix _ Hfresh) as Hnew.
    destruct (bestMatch_candidate_own _ _ _ _ _ _ H) as (parent & Gp & _).
    apply (Done hit1.(match_id) Rank2 v lr now suffix c u []); auto.
    eapply fresh_not_present; eauto.
  - pose proof (fresh_ids_at
                  [ObsEmbed p.(firstSentence) (EmbedOk v);
                   ObsEmbed p.(fullText) (EmbedOk fv);
                   ObsLabel p.(firstSentence) (existingLabelsOf i) lr]
                  ([ObsNow c; ObsNow u] ++ trc) now suffix _ Hfresh) as Hnew.
    apply (Done fullHit.(match_id) Rank2 fv lr now suffix c u
                [ObsEmbed p.(fullText) (EmbedOk fv)]); auto.
    + eapply fresh_not_present; eauto.
    + intros x [<-|[]]. discriminate.
  - exfalso. destruct HC as (i2 & Hins & _).
    destruct Hin as [[=]|[[=]|Hin]]. eapply Quiet; eauto.
  - apply (Done "root" Rank1 v lr now suffix c u pre); auto.
    + intros E. symmetry in E. exact (makeId_not_root now suffix E).
    + intros x Hx.
      destruct H0 as [[_ ->]|[(_ & e0 & ->)|(_ & fv & -> & _)]];
        simpl in Hx; intuition (subst; discriminate).
Qed.

(* ================================================================== *)
(** * Part IV. Further properties of the code *)
(* ================================================================== *)

(** ** similarity.ts: symmetry and zero vectors *)

Lemma float_mul_comm (x y : float) : (x * y)%float = (y * x)%float.
Proof.
  apply Prim2SF_inj. rewrite !mul_spec. unfold SF64mul, SFmul.
  destruct (Prim2SF x) as [sx|sx| |sx mx ex],
           (Prim2SF y) as [sy|sy| |sy my ey];
    try reflexivity; rewrite (xorb_comm sx sy); try reflexivity.
  rewrite (Pos.mul_comm mx my), (Z.add_comm ex ey). reflexivity.
Qed.

Lemma cosineLoop_swap (a : Vector) :
  forall (b : Vector) (dot magA magB : float),
    cosineLoop b a (dot, magB, magA)
    = let '(d, x, y) := cosineLoop a b (dot, magA, magB) in (d, y, x).
Proof.
  induction a as [|x a IH]; intros [|y b] dot magA magB; simpl;
    try reflexivity.
  rewrite (float_mul_comm y x). apply IH.
Qed.

(** The value of a zero, and what products, sums and roots make of it. *)
Lemma eqb_zero (x : float) :
  (x =? 0)%float = true <-> exists s, Prim2SF x = S754_zero s.
Proof.
  rewrite eqb_spec. unfold SFeqb.
  change (Prim2SF 0%float) with (S754_zero false).
  destruct (Prim2SF x) as [s|s| |s m e]; simpl.
  - split; eauto.
  - split; [destruct s; discriminate|intros [s' H]; discriminate].
  - split; [discriminate|intros [s' H]; discriminate].
  - split; [destruct s; discriminate|intros [s' H]; discriminate].
Qed.

Lemma square_of_zero (x : float) :
  (x =? 0)%float = true -> (x * x)%float = 0%float.
Proof.
  intros H. apply eqb_zero in H. destruct H as [s H].
  apply Prim2SF_inj. rewrite mul_spec, H. simpl.
  rewrite xorb_nilpotent. reflexivity.
Qed.

Lemma float_add_zero_zero : (0 + 0)%float = 0%float.
Proof. reflexivity. Qed.

Lemma float_sqrt_zero : sqrt 0%float = 0%float.
Proof. reflexivity. Qed.

Lemma zero_mul (y : float) : zero_or_nan (0 * y)%float.
Proof.
  unfold zero_or_nan. rewrite mul_spec.
  change (Prim2SF 0%float) with (S754_zero false).
  destruct (Prim2SF y); simpl; eauto.
Qed.

Lemma mul_zero (y : float) : zero_or_nan (y * 0)%float.
Proof. rewrite float_mul_comm. apply zero_mul. Qed.

(** The last two lines of [cosineSimilarity] on a denominator that is a
    zero or not a number. *)
Lemma quotient_zero_or_nan (dot denom : float) :
  zero_or_nan denom ->
  let r := if (denom =? 0)%float then 0%float else (dot / denom)%float in
  r = 0%float \/ Prim2SF r = S754_nan.
Proof.
  intros [[s H]|H]; simpl.
  - assert (E : (denom =? 0)%float = true) by (apply eqb_zero; eauto).
    rewrite E. auto.
  - assert (E : (denom =? 0)%float = false).
    { rewrite eqb_spec, H. reflexivity. }
    rewrite E. right. rewrite div_spec, H.
    unfold SF64div, SFdiv. destruct (Prim2SF dot); reflexivity.
Qed.

Lemma cosineLoop_zero_l (a : Vector) :
  all_zero a ->
  forall (b : Vector) (dot magB : float),
    snd (fst (cosineLoop a b (dot, 0%float, magB))) = 0%float.
Proof.
  induction a as [|x a IH]; intros Hz [|y b] dot magB; simpl;
    try reflexivity.
  rewrite (square_of_zero x) by (apply Hz; simpl; auto).
  rewrite float_add_zero_zero. apply IH.
  intros z Hin. apply Hz. simpl. auto.
Qed.

Lemma cosineLoop_zero_r (b : Vector) :
  all_zero b ->
  forall (a : Vector) (dot magA : float),
    snd (cosineLoop a b (dot, magA, 0%float)) = 0%float.
Proof.
  intros Hz a dot magA.
  pose proof (cosineLoop_swap a b dot magA 0%float) as S.
  pose proof (cosineLoop_zero_l b Hz a dot magA) as Z.
  destruct (cosineLoop a b (dot, magA, 0%float)) as [[d x] y].
  rewrite S in Z. simpl in *. exact Z.
Qed.

Lemma cosineSimilarity_zero_vector_value (a b : Vector) :
  all_zero a \/ all_zero b ->
  cosineSimilarity a b = 0%float
  \/ Prim2SF (cosineSimilarity a b) = S754_nan.
Proof.
  intros Hz. unfold cosineSimilarity.
  destruct (negb (List.length a =? List.length b) || (List.length a =? 0));
    [auto|].
  destruct Hz as [Hz|Hz].
  - pose proof (cosineLoop_zero_l a Hz b 0%float 0%float) as Z.
    destruct (cosineLoop a b (0%float, 0%float, 0%float)) as [[dot magA] magB].
    simpl in Z. subst magA. rewrite float_sqrt_zero.
    apply (quotient_zero_or_nan dot). apply zero_mul.
  - pose proof (cosineLoop_zero_r b Hz a 0%float 0%float) as Z.
    destruct (cosineLoop a b (0%float, 0%float, 0%float)) as [[dot magA] magB].
    simpl in Z. subst magB. rewrite float_sqrt_zero.
    apply (quotient_zero_or_nan dot). apply mul_zero.
Qed.

Lemma zero_vector_below (a b : Vector) (t : float) :
  all_zero a \/ all_zero b -> (0 <? t)%float = true ->
  (t <=? cosineSimilarity a b)%float = false.
Proof.
  intros Hz Ht.
  destruct (cosineSimilarity_zero_vector_value a b Hz) as [E|E].
  - rewrite E. apply ltb_leb_false. exact Ht.
  - destruct (t <=? cosineSimilarity a b)%float eqn:L; [|reflexivity].
    apply leb_ordered in L. destruct L as [_ L]. contradiction.
Qed.

(** X1. [cosineSimilarity] is symmetric, bit for bit: swapping the two
    vectors gives the same binary64 value. *)
Theorem cosineSimilarity_symmetric :
  forall a b : Vector, cosineSimilarity a b = cosineSimilarity b a.
Proof.
  intros a b. unfold cosineSimilarity.
  destruct (Nat.eqb_spec (List.length a) (List.length b)) as [E|E].
  - rewrite <- E, Nat.eqb_refl. simpl.
    destruct (List.length a =? 0); [reflexivity|].
    pose proof (cosineLoop_swap a b 0%float 0%float 0%float) as S.
    destruct (cosineLoop a b (0%float, 0%float, 0%float)) as [[dot magA] magB].
    rewrite S. rewrite (float_mul_comm (sqrt magB) (sqrt magA)). reflexivity.
  - destruct (Nat.eqb_spec (List.length b) (List.length a)) as [E'|E'];
      [congruence|reflexivity].
Qed.

(** X2. A vector of zeros never matches at a threshold above zero: with
    an all-zero query [bestMatch] returns nothing, and the vector of the
    candidate it returns is never all zeros (the similarity is then 0 or
    NaN, whatever the other vector holds). *)
Theorem bestMatch_zero_vector_never_matches :
  forall (q : Vector) (cands : list Candidate) (t : float),
    (0 <? t)%float = true ->
    (all_zero q -> bestMatch q cands t = None)
    /\ (forall m, bestMatch q cands t = Some m ->
          exists i emb,
            nth_error cands i = Some (m.(match_id), emb)
            /\ m.(score) = cosineSimilarity q emb
            /\ ~ all_zero emb).
Proof.
  intros q cands t Ht. split.
  - intros Hz. destruct (bestMatch q cands t) as [m|] eqn:B; [|reflexivity].
    destruct (bestMatch_winner q cands t m B) as (emb & _ & _ & Hs & Hle).
    rewrite Hs, (zero_vector_below q emb t) in Hle by auto. discriminate.
  - intros m B. pose proof (bestMatch_correct q cands t) as S.
    rewrite B in S. destruct S as (i & emb & Hi & [_ Hle] & Hs & _).
    exists i, emb. split; [exact Hi|]. split; [exact Hs|].
    intros Hz. simpl in Hle.
    rewrite (zero_vector_below q emb t) in Hle by auto. discriminate.
Qed.

(** X3. Not-a-number never matches: the score that [bestMatch] returns is
    a number and so is the threshold it was compared with; at a NaN
    threshold, or when every similarity is NaN, there is no match. *)
Theorem bestMatch_nan_never_matches :
  forall (q : Vector) (cands : list Candidate) (t : float),
    (Prim2SF t = S754_nan -> bestMatch q cands t = None)
    /\ ((forall c, In c cands ->
           Prim2SF (cosineSimilarity q (snd c)) = S754_nan) ->
        bestMatch q cands t = None)
    /\ (forall m, bestMatch q cands t = Some m ->
          ordered m.(score) /\ ordered t).
Proof.
  intros q cands t.
  assert (W : forall m, bestMatch q cands t = Some m ->
                exists emb, In (m.(match_id), emb) cands
                            /\ m.(score) = cosineSimilarity q emb
                            /\ ordered m.(score) /\ ordered t).
  { intros m B.
    destruct (bestMatch_winner q cands t m B) as (emb & Hin & _ & Hs & Hle).
    apply leb_ordered in Hle. exists emb. tauto. }
  split; [|split].
  - intros Hn. destruct (bestMatch q cands t) as [m|]; [|reflexivity].
    destruct (W m eq_refl) as (_ & _ & _ & _ & Ho). contradiction.
  - intros Hn. destruct (bestMatch q cands t) as [m|]; [|reflexivity].
    destruct (W m eq_refl) as (emb & Hin & Hs & Ho & _).
    specialize (Hn _ Hin). simpl in Hn. rewrite Hs in Ho. contradiction.
  - intros m B. destruct (W m B) as (_ & _ & _ & Ho). exact Ho.
Qed.

(** ** hash.ts: the shape of a hash, and texts that share one *)

Lemma length_hexDigits (w : nat) :
  forall (n : Z) (acc : string),
    String.length (hexDigits w n acc) = w + String.length acc.
Proof.
  induction w as [|w IH]; intros n acc; simpl; [reflexivity|].
  rewrite IH. simpl. lia.
Qed.

Lemma length_append (a b : string) :
  String.length (a ++ b)%string = String.length a + String.length b.
Proof. induction a as [|c a IH]; simpl; congruence. Qed.

Lemma hexDigit_isHexDigit (n : Z) : isHexDigit (hexDigit n) = true.
Proof.
  destruct n as [|p|p]; try reflexivity.
  do 4 (destruct p as [p|p|]; try reflexivity).
Qed.

Lemma allChars_hexDigits (w : nat) :
  forall (n : Z) (acc : string),
    allChars isHexDigit acc = true ->
    allChars isHexDigit (hexDigits w n acc) = true.
Proof.
  induction w as [|w IH]; intros n acc H; simpl; [exact H|].
  apply IH. simpl. rewrite hexDigit_isHexDigit. exact H.
Qed.

Lemma repeatChar_snoc (c : ascii) (n : nat) (s : string) :
  (repeatChar c n ++ String c s)%string = String c (repeatChar c n ++ s)%string.
Proof.
  induction n as [|n IH]; simpl; [reflexivity|]. rewrite IH. reflexivity.
Qed.

Lemma hexDigits_zero (w : nat) :
  forall acc : string,
    hexDigits w 0 acc = (repeatChar "0" w ++ acc)%string.
Proof.
  induction w as [|w IH]; intros acc; simpl; [reflexivity|].
  change (0 / 16)%Z with 0%Z. rewrite IH.
  change (hexDigit (0 mod 16)%Z) with "0"%char.
  apply repeatChar_snoc.
Qed.

(** The fixed-width rendering is the minimal one behind a run of zeros. *)
Lemma hexDigits_toHexDigits (w : nat) :
  forall (fuel : nat) (n : Z) (acc : string),
    (0 <= n < 16 ^ Z.of_nat (S w))%Z -> (n < 16 ^ Z.of_nat (S fuel))%Z ->
    exists z,
      hexDigits (S w) n acc
      = (repeatChar "0" z ++ toHexDigits (S fuel) n acc)%string.
Proof.
  induction w as [|w IH]; intros fuel n acc Hw Hf.
  - exists 0. simpl hexDigits. simpl repeatChar. simpl toHexDigits.
    change (16 ^ Z.of_nat 1)%Z with 16%Z in Hw.
    destruct (Z.ltb_spec n 16); [reflexivity|lia].
  - change (hexDigits (S (S w)) n acc)
      with (hexDigits (S w) (n / 16)%Z (String (hexDigit (n mod 16)%Z) acc)).
    change (toHexDigits (S fuel) n acc)
      with (if (n <? 16)%Z then String (hexDigit (n mod 16)%Z) acc
            else toHexDigits fuel (n / 16)%Z
                             (String (hexDigit (n mod 16)%Z) acc)).
    destruct (Z.ltb_spec n 16) as [Hlt|Hge].
    + rewrite (Z.div_small n 16) by lia.
      exists (S w). apply hexDigits_zero.
    + destruct fuel as [|fuel].
      { change (16 ^ Z.of_nat 1)%Z with 16%Z in Hf. lia. }
      apply IH.
      * split; [apply Z.div_pos; lia|].
        apply Z.div_lt_upper_bound; [lia|].
        rewrite <- Z.pow_succ_r by lia. rewrite <- Nat2Z.inj_succ. lia.
      * apply Z.div_lt_upper_bound; [lia|].
        rewrite <- Z.pow_succ_r by lia. rewrite <- Nat2Z.inj_succ. lia.
Qed.

Lemma toString16_fuel (n : Z) :
  (0 <= n)%Z -> (n < 16 ^ Z.of_nat (S (Z.to_nat (Z.log2 n))))%Z.
Proof.
  intros Hn. rewrite Nat2Z.inj_succ, Z2Nat.id by apply Z.log2_nonneg.
  destruct (Z.eq_dec n 0) as [->|Hz].
  - reflexivity.
  - pose proof (Z.log2_spec n ltac:(lia)) as [_ Hlt].
    eapply Z.lt_le_trans; [exact Hlt|].
    apply Z.pow_le_mono_l. lia.
Qed.

Lemma hashPrompt_padStart (text : string) :
  hashPrompt text
  = padStart 8 "0" (toString16 (toUint32 (hashLoop 5381 text))).
Proof.
  unfold hashPrompt, toString16, toUint32, padStart.
  set (n := (hashLoop 5381 text mod 2 ^ 32)%Z).
  assert (Hn : (0 <= n < 2 ^ 32)%Z) by (apply Z.mod_pos_bound; lia).
  destruct (hexDigits_toHexDigits 7 (Z.to_nat (Z.log2 n)) n EmptyString)
    as [z Hz].
  - change (16 ^ Z.of_nat 8)%Z with (2 ^ 32)%Z. exact Hn.
  - apply toString16_fuel. lia.
  - rewrite Hz.
    pose proof (length_hexDigits 8 n EmptyString) as L.
    rewrite Hz in L. rewrite length_append in L.
    assert (Lr : forall k, String.length (repeatChar "0" k) = k).
    { induction k; simpl; congruence. }
    rewrite Lr in L.
    set (s := toHexDigits (S (Z.to_nat (Z.log2 n))) n EmptyString) in *.
    change (String.length EmptyString) with 0 in L.
    replace (8 - String.length s) with z by lia.
    reflexivity.
Qed.

(** X4. The hash of every text is the eight-character rendering that the
    source computes as [(h >>> 0).toString(16).padStart(8, '0')]: exactly
    eight characters, each of [0-9a-f]. *)
Theorem hashPrompt_eight_hex_digits :
  forall text : string,
    hashPrompt text
    = padStart 8 "0" (toString16 (toUint32 (hashLoop 5381 text)))
    /\ String.length (hashPrompt text) = 8
    /\ allChars isHexDigit (hashPrompt text) = true.
Proof.
  intros text. split; [apply hashPrompt_padStart|]. split.
  - unfold hashPrompt. rewrite length_hexDigits. reflexivity.
  - unfold hashPrompt. apply allChars_hexDigits. reflexivity.
Qed.

(** A hash is the name of no member of [Object.prototype]: the read
    [index.cache[hash]] finds own entries only. *)
Lemma hashPrompt_not_inherited (text : string) :
  isInherited (hashPrompt text) = false.
Proof.
  destruct (isInherited (hashPrompt text)) eqn:E; [|reflexivity].
  exfalso. unfold isInherited in E. apply existsb_exists in E.
  destruct E as (name & Hin & E). apply String.eqb_eq in E.
  pose proof (allChars_hexDigits 8 (hashLoop 5381 text mod 2 ^ 32)%Z
                EmptyString eq_refl) as A.
  fold (hashPrompt text) in A. rewrite E in A.
  unfold inheritedNames in Hin. simpl in Hin.
  repeat (destruct Hin as [<-|Hin]; [vm_compute in A; discriminate|]).
  destruct Hin.
Qed.

Lemma hashLoop_app (a b : string) :
  forall h : Z, hashLoop h (a ++ b) = hashLoop (hashLoop h a) b.
Proof.
  induction a as [|c a IH]; intros h; simpl; [reflexivity|]. apply IH.
Qed.

Lemma toInt32_congr (x y : Z) :
  (x mod 2 ^ 32 = y mod 2 ^ 32)%Z -> toInt32 x = toInt32 y.
Proof. unfold toInt32. intros ->. reflexivity. Qed.

Lemma toInt32_mod (x : Z) : (toInt32 x mod 2 ^ 32 = x mod 2 ^ 32)%Z.
Proof.
  unfold toInt32. destruct (x mod 2 ^ 32 <? 2 ^ 31)%Z.
  - apply Z.mod_mod. lia.
  - rewrite <- (Z.mod_mod x (2 ^ 32)) at 2 by lia.
    replace (x mod 2 ^ 32 - 2 ^ 32)%Z
      with (x mod 2 ^ 32 + (-1) * 2 ^ 32)%Z by lia.
    apply Z.mod_add. lia.
Qed.

(** Two iterations of the loop of [hashPrompt], modulo [2^32]. *)
Lemma imul_add_mod (x c : Z) :
  ((imul x 31 + c) mod 2 ^ 32 = (x * 31 + c) mod 2 ^ 32)%Z.
Proof.
  unfold imul. rewrite Z.add_mod, toInt32_mod by lia.
  rewrite <- Z.add_mod by lia. reflexivity.
Qed.

Lemma hash_two_steps_mod (h c1 c2 : Z) :
  ((imul (toInt32 (imul h 31 + c1)) 31 + c2) mod 2 ^ 32
   = ((h * 31 + c1) * 31 + c2) mod 2 ^ 32)%Z.
Proof.
  rewrite imul_add_mod.
  rewrite Z.add_mod, Z.mul_mod, toInt32_mod, imul_add_mod by lia.
  rewrite <- Z.mul_mod, <- Z.add_mod by lia. reflexivity.
Qed.

Lemma hashPrompt_collision (pre suf : string) :
  hashPrompt (pre ++ "Aa" ++ suf) = hashPrompt (pre ++ "BB" ++ suf).
Proof.
  unfold hashPrompt. rewrite !hashLoop_app.
  set (h := hashLoop 5381 pre).
  replace (hashLoop h "Aa") with (hashLoop h "BB"); [reflexivity|].
  cbn [hashLoop]. apply toInt32_congr.
  rewrite !hash_two_steps_mod. f_equal.
  change (charCode "A") with 65%Z. change (charCode "a") with 97%Z.
  change (charCode "B") with 66%Z. ring.
Qed.

(** X5. The cache is keyed by the hash alone. Once a passage has been
    classified, every run of [classifyPrompt] on a passage whose text has
    the same hash, be the text another one, returns the cached node and
    confidence with [isNewNode = false] and calls neither capability. Texts
    that share a hash exist: replacing ["Aa"] by ["BB"] anywhere in a text
    keeps its hash. *)
Theorem classifyPrompt_cache_keyed_by_hash :
  forall (stack : nat) (i : ConversationIndex) (p1 : PromptInput)
         (s1 : Settings) (tr1 : list Obs) (r1 : ClassifyResult)
         (i1 i2 : ConversationIndex) (p2 : PromptInput) (s2 : Settings)
         (tr2 : list Obs) (o2 : Outcome ClassifyResult)
         (i3 : ConversationIndex),
    Runs (classifyPrompt stack p1 s1 i) tr1 (Returned r1, i1) ->
    later stack i1 i2 ->
    hashPrompt p2.(fullText) = hashPrompt p1.(fullText) ->
    Runs (classifyPrompt stack p2 s2 i2) tr2 (o2, i3) ->
    o2 = Returned (mkResult r1.(nodeId) r1.(confidence) false)
    /\ capabilityCalls tr2 = 0
    /\ (forall pre suf : string,
          hashPrompt (pre ++ "Aa" ++ suf) = hashPrompt (pre ++ "BB" ++ suf)).
Proof.
  intros stack i p1 s1 tr1 r1 i1 i2 p2 s2 tr2 o2 i3 H1 L Ehash H2.
  destruct (classifyPrompt_returned _ _ _ _ _ _ _ H1) as (Hc & Ht & _).
  destruct (later_keeps _ _ _ _ _ L Hc Ht) as (Hc2 & Ht2).
  pose proof (classifyPrompt_inserted _ _ _ _ _ _ _ H1) as Hn.
  pose proof (later_lookup _ _ _ r1.(nodeId) L Hn) as Hn2.
  apply classifyPrompt_runs in H2.
  destruct H2 as [H2|(_ & _ & F)].
  2:{ rewrite Ehash, Hc2 in F. destruct F as [F _]. simpl in F.
      contradiction. }
  unfold classify_post in H2.
  rewrite Ehash, Hc2 in H2. simpl in H2.
  destruct H2 as (i2' & Hins & -> & ->).
  rewrite <- (terminates_kids stack _ _ "root" (insert_post_kids _ _ _ _ _ Hins))
    in Ht2.
  apply recount_returns_iff in Ht2. destruct Ht2 as [t Ht2].
  split; [|split].
  - rewrite Ht2. reflexivity.
  - eapply insert_post_quiet; eauto.
  - apply hashPrompt_collision.
Qed.

(** ** tree.ts: attaching, spawning and recounting *)

Lemma dict_keys_update {V : Type} (k : string) (f : V -> V) (d : Dict V) :
  dict_keys (dict_update k f d) = dict_keys d.
Proof.
  induction d as [|[k' v] d IH]; simpl; [reflexivity|].
  destruct (String.eqb k k'); simpl; [reflexivity|].
  f_equal. exact IH.
Qed.

Lemma dict_keys_set {V : Type} (k : string) (v : V) (d : Dict V) :
  dict_keys (dict_set k v d)
  = if dict_has k d then dict_keys d else dict_keys d ++ [k].
Proof.
  unfold dict_has. induction d as [|[k' v'] d IH]; simpl; [reflexivity|].
  destruct (String.eqb k k') eqn:E; simpl.
  - apply String.eqb_eq in E. subst k'. reflexivity.
  - rewrite IH. destruct (dict_get k d); reflexivity.
Qed.

Lemma dict_update_same {V : Type} (k : string) (f : V -> V) (d : Dict V)
    (v : V) :
  dict_get k d = Some v -> f v = v -> dict_update k f d = d.
Proof.
  intros G Hf. induction d as [|[k' v'] d IH]; simpl in *; [reflexivity|].
  destruct (String.eqb k k').
  - injection G as ->. rewrite Hf. reflexivity.
  - rewrite (IH G). reflexivity.
Qed.

Lemma existsb_Zeqb (x : Z) (l : list Z) :
  existsb (Z.eqb x) l = true <-> In x l.
Proof.
  rewrite existsb_exists. split.
  - intros (y & Hin & E). apply Z.eqb_eq in E. subst. exact Hin.
  - intros H. exists x. split; [exact H|apply Z.eqb_refl].
Qed.

(** The node that [insertPromptIntoNode] leaves under [nodeId]. *)
Lemma attached_node (promptIndex now : Z) (n : OutlineNode) :
  let n' := set_updatedAt now
              (if existsb (Z.eqb promptIndex) n.(promptIndices)
               then n else pushPrompt promptIndex n) in
  In promptIndex n'.(promptIndices)
  /\ (In promptIndex n.(promptIndices) ->
      n'.(promptIndices) = n.(promptIndices))
  /\ (~ In promptIndex n.(promptIndices) ->
      n'.(promptIndices) = n.(promptIndices) ++ [promptIndex])
  /\ (NoDup n.(promptIndices) -> NoDup n'.(promptIndices))
  /\ n'.(updatedAt) = now
  /\ n'.(node_id) = n.(node_id) /\ n'.(label) = n.(label)
  /\ n'.(rank) = n.(rank) /\ n'.(children) = n.(children)
  /\ n'.(promptCount) = n.(promptCount) /\ n'.(createdAt) = n.(createdAt).
Proof.
  cbv zeta.
  destruct (existsb (Z.eqb promptIndex) n.(promptIndices)) eqn:E; simpl.
  - apply existsb_Zeqb in E. repeat split; auto. intros N. contradiction.
  - assert (N : ~ In promptIndex n.(promptIndices)).
    { intros H. apply existsb_Zeqb in H. congruence. }
    repeat split; auto.
    + apply in_or_app. right. simpl. auto.
    + intros H. contradiction.
    + intros D. apply NoDup_app; [exact D|repeat constructor; auto|].
      intros x Hx [<-|[]]. contradiction.
Qed.

(** What [insertPromptIntoNode] leaves behind. *)
Lemma insert_post_facts (nodeId : string) (promptIndex : Z)
    (i : ConversationIndex) (tr : list Obs) (i' : ConversationIndex) :
  insert_post nodeId promptIndex i tr i' ->
  (dict_get nodeId i.(nodes) = None -> tr = [] /\ i' = i)
  /\ (forall n, dict_get nodeId i.(nodes) = Some n ->
        exists now n',
          tr = [ObsNow now]
          /\ dict_get nodeId i'.(nodes) = Some n'
          /\ In promptIndex n'.(promptIndices)
          /\ (In promptIndex n.(promptIndices) ->
              n'.(promptIndices) = n.(promptIndices))
          /\ (~ In promptIndex n.(promptIndices) ->
              n'.(promptIndices) = n.(promptIndices) ++ [promptIndex])
          /\ (NoDup n.(promptIndices) -> NoDup n'.(promptIndices))
          /\ n'.(updatedAt) = now
          /\ n'.(node_id) = n.(node_id) /\ n'.(label) = n.(label)
          /\ n'.(rank) = n.(rank) /\ n'.(children) = n.(children)
          /\ n'.(promptCount) = n.(promptCount)
          /\ n'.(createdAt) = n.(createdAt))
  /\ (forall k, k <> nodeId ->
        dict_get k i'.(nodes) = dict_get k i.(nodes))
  /\ dict_keys i'.(nodes) = dict_keys i.(nodes)
  /\ i'.(prompts) = i.(prompts)
  /\ i'.(embeddings) = i.(embeddings)
  /\ i'.(cache) = i.(cache)
  /\ i'.(conversationId) = i.(conversationId).
Proof.
  unfold insert_post. intros H. rewrite lookup_get in H.
  destruct (dict_get nodeId i.(nodes)) as [n|] eqn:G.
  2:{ destruct (isInherited nodeId); [destruct H|].
      destruct H as [-> ->]. split; [auto|].
      split; [discriminate|]. repeat split; reflexivity. }
  - destruct H as (now & -> & ->).
    split; [discriminate|]. split.
    + intros n0 [= <-]. exists now. eexists.
      split; [reflexivity|]. split.
      * unfold touchNode, attachPrompt. cbn [nodes set_nodes].
        rewrite !dict_get_update_eq, G. reflexivity.
      * apply (attached_node promptIndex now n).
    + unfold touchNode, attachPrompt. cbn [nodes set_nodes].
      split.
      * intros k Hk. rewrite !dict_get_update_neq by exact Hk. reflexivity.
      * rewrite !dict_keys_update. repeat split; reflexivity.
Qed.

(** X6. [insertPromptIntoNode] by what [index.nodes[nodeId]] finds. When
    it finds nothing, the call does nothing and does not read the clock.
    When it finds a member of [Object.prototype] ([nodeId] is such a name
    and no node is stored under it), the call throws a [TypeError] and
    leaves the store as it was. On a node of the store it returns: it
    reads the clock once and stamps [updatedAt]; the prompt index is in
    the list of the node afterwards, appended at the end when it was not
    there and not added a second time when it was, so a list without
    duplicates stays one; the count and the children are left as they
    were. In every case every other node, the order of the keys, the
    vectors, the cache and the prompts are untouched. *)
Theorem insertPromptIntoNode_attaches_once :
  forall (nodeId : string) (promptIndex : Z) (i : ConversationIndex)
         (tr : list Obs) (o : Outcome unit) (i' : ConversationIndex),
    Runs (insertPromptIntoNode nodeId promptIndex i) tr (o, i') ->
    match lookup nodeId i.(nodes) with
    | Missing => o = Returned tt /\ tr = [] /\ i' = i
    | Inherited => o = Thrown TypeError /\ tr = [] /\ i' = i
    | Own n =>
        o = Returned tt
        /\ exists now n',
             tr = [ObsNow now]
             /\ dict_get nodeId i'.(nodes) = Some n'
             /\ In promptIndex n'.(promptIndices)
             /\ (In promptIndex n.(promptIndices) ->
                 n'.(promptIndices) = n.(promptIndices))
             /\ (~ In promptIndex n.(promptIndices) ->
                 n'.(promptIndices) = n.(promptIndices) ++ [promptIndex])
             /\ (NoDup n.(promptIndices) -> NoDup n'.(promptIndices))
             /\ n'.(updatedAt) = now
             /\ n'.(node_id) = n.(node_id) /\ n'.(label) = n.(label)
             /\ n'.(rank) = n.(rank) /\ n'.(children) = n.(children)
             /\ n'.(promptCount) = n.(promptCount)
             /\ n'.(createdAt) = n.(createdAt)
    end
    /\ (lookup nodeId i.(nodes) = Inherited
        <-> dict_get nodeId i.(nodes) = None /\ isInherited nodeId = true)
    /\ (forall k, k <> nodeId ->
          dict_get k i'.(nodes) = dict_get k i.(nodes))
    /\ dict_keys i'.(nodes) = dict_keys i.(nodes)
    /\ i'.(prompts) = i.(prompts)
    /\ i'.(embeddings) = i.(embeddings)
    /\ i'.(cache) = i.(cache)
    /\ i'.(conversationId) = i.(conversationId).
Proof.
  intros nodeId promptIndex i tr o i' H.
  apply insertPromptIntoNode_runs in H.
  destruct H as [(Hl & -> & [= -> ->])|(Hl & i0 & [= -> <-] & H)].
  - split; [rewrite Hl; auto|]. split; [apply lookup_inherited|].
    repeat split; reflexivity.
  - destruct (insert_post_facts _ _ _ _ _ H) as (Hnone & Hsome & Hrest).
    split; [|split; [apply lookup_inherited|exact Hrest]].
    destruct (lookup nodeId i.(nodes)) as [n| |] eqn:L.
    + split; [reflexivity|]. apply Hsome. apply lookup_own. exact L.
    + contradiction.
    + split; [reflexivity|]. apply Hnone. apply lookup_missing in L. tauto.
Qed.

Lemma makeId_not_inherited (now : Z) (suffix : string) :
  isInherited (makeId now suffix) = false.
Proof. reflexivity. Qed.

(** X7. [spawnNode] reads the clock, draws the suffix and reads the clock
    twice more. The new node is stored under the generated identifier with
    the label and the rank given, no passage and a count of zero. When
    [index.nodes[parentId]] then finds a member of [Object.prototype]
    ([parentId] is such a name and no node is stored under it), the call
    throws a [TypeError] with the node stored, linked from nowhere and
    without its vector. Otherwise it returns: the node is pushed at the
    end of the children of the parent when the parent is a node of the
    store, and linked from nowhere when nothing is found; it comes last in
    the order of the store unless the identifier was taken; the vector,
    when one is given, is stored under the same identifier. Nothing else
    changes. *)
Theorem spawnNode_registers_node :
  forall (parentId lbl : string) (rk : NodeRank) (emb : option Vector)
         (i : ConversationIndex) (tr : list Obs) (o : Outcome OutlineNode)
         (i' : ConversationIndex),
    Runs (spawnNode parentId lbl rk emb i) tr (o, i') ->
    exists now suffix c u,
      tr = [ObsNow now; ObsRandom suffix; ObsNow c; ObsNow u]
      /\ (lookup parentId i.(nodes) = Inherited ->
          o = Thrown TypeError
          /\ i' = storeNode (mkNode (makeId now suffix) lbl rk [] [] 0 c u) i)
      /\ (lookup parentId i.(nodes) <> Inherited ->
          (exists n, o = Returned n /\ n.(node_id) = makeId now suffix)
          /\ dict_get (makeId now suffix) i'.(nodes)
             = Some (mkNode (makeId now suffix) lbl rk
                       (if String.eqb parentId (makeId now suffix)
                        then [makeId now suffix] else [])
                       [] 0 c u)
          /\ (forall k, k <> makeId now suffix ->
                dict_get k i'.(nodes)
                = option_map
                    (fun n => if String.eqb k parentId
                              then set_children
                                     (n.(children) ++ [makeId now suffix]) n
                              else n)
                    (dict_get k i.(nodes)))
          /\ dict_get (makeId now suffix) i'.(embeddings)
             = match emb with
               | Some v => Some v
               | None => dict_get (makeId now suffix) i.(embeddings)
               end
          /\ (forall k, k <> makeId now suffix ->
                dict_get k i'.(embeddings) = dict_get k i.(embeddings)))
      /\ dict_keys i'.(nodes)
         = (if dict_has (makeId now suffix) i.(nodes)
            then dict_keys i.(nodes)
            else dict_keys i.(nodes) ++ [makeId now suffix])
      /\ i'.(cache) = i.(cache)
      /\ i'.(prompts) = i.(prompts)
      /\ i'.(conversationId) = i.(conversationId).
Proof.
  intros parentId lbl rk emb i tr o i' H.
  apply spawnNode_runs in H.
  destruct H as (now & suffix & c & u & -> & H).
  exists now, suffix, c, u.
  set (id := makeId now suffix) in *.
  set (node := mkNode id lbl rk [] [] 0 c u) in *.
  split; [reflexivity|].
  assert (Stored : lookup parentId (storeNode node i).(nodes) = Inherited
                   <-> lookup parentId i.(nodes) = Inherited).
  { unfold storeNode. cbn [nodes set_nodes node_id node].
    rewrite !lookup_inherited.
    destruct (String.eqb parentId id) eqn:E.
    - apply String.eqb_eq in E. rewrite E, dict_get_set_eq.
      split; [intros [[=] _]|]. intros [_ F].
      unfold id in F. rewrite (makeId_not_inherited now suffix) in F.
      discriminate.
    - apply String.eqb_neq in E. rewrite dict_get_set_neq by exact E.
      tauto. }
  assert (Nodes : (spawnInto node parentId emb i).(nodes)
                  = if dict_has parentId (dict_set id node i.(nodes))
                    then dict_update parentId (pushChild id)
                           (dict_set id node i.(nodes))
                    else dict_set id node i.(nodes))
    by apply (spawnInto_nodes node parentId emb i).
  assert (Embs : (spawnInto node parentId emb i).(embeddings)
                 = match emb with
                   | Some v => dict_set id v i.(embeddings)
                   | None => i.(embeddings)
                   end)
    by apply (spawnInto_nodes node parentId emb i).
  assert (Keys : dict_keys (spawnInto node parentId emb i).(nodes)
                 = if dict_has id i.(nodes) then dict_keys i.(nodes)
                   else dict_keys i.(nodes) ++ [id]).
  { rewrite Nodes.
    destruct (dict_has parentId (dict_set id node i.(nodes)));
      [rewrite dict_keys_update|]; apply dict_keys_set. }
  assert (Rest : forall j, j = storeNode node i
                           \/ j = spawnInto node parentId emb i ->
                   dict_keys j.(nodes)
                   = (if dict_has id i.(nodes) then dict_keys i.(nodes)
                      else dict_keys i.(nodes) ++ [id])
                   /\ j.(cache) = i.(cache) /\ j.(prompts) = i.(prompts)
                   /\ j.(conversationId) = i.(conversationId)).
  { intros j [->| ->].
    - unfold storeNode. cbn [nodes set_nodes cache prompts conversationId].
      split; [apply dict_keys_set|auto].
    - split; [exact Keys|].
      pose proof (spawnInto_cache node parentId emb i) as [Ec Ep].
      split; [exact Ec|]. split; [exact Ep|].
      unfold spawnInto. cbn [node_id node nodes set_nodes].
      destruct (dict_has parentId (dict_set id node i.(nodes)));
        destruct emb; reflexivity. }
  assert (Ok : lookup parentId i.(nodes) <> Inherited ->
               dict_get id (spawnInto node parentId emb i).(nodes)
               = Some (mkNode id lbl rk
                         (if String.eqb parentId id then [id] else [])
                         [] 0 c u)
               /\ (forall k, k <> id ->
                     dict_get k (spawnInto node parentId emb i).(nodes)
                     = option_map
                         (fun n => if String.eqb k parentId
                                   then set_children (n.(children) ++ [id]) n
                                   else n)
                         (dict_get k i.(nodes)))
               /\ dict_get id (spawnInto node parentId emb i).(embeddings)
                  = match emb with
                    | Some v => Some v
                    | None => dict_get id i.(embeddings)
                    end
               /\ (forall k, k <> id ->
                     dict_get k (spawnInto node parentId emb i).(embeddings)
                     = dict_get k i.(embeddings))).
  { intros _. split; [|split; [|split]].
    - rewrite spawnInto_get. cbn [node_id node].
      rewrite String.eqb_refl. cbn [option_map].
      rewrite String.eqb_sym.
      destruct (String.eqb parentId id); reflexivity.
    - intros k Hk. rewrite spawnInto_get. cbn [node_id node].
      apply String.eqb_neq in Hk. rewrite Hk. reflexivity.
    - rewrite Embs. destruct emb; [apply dict_get_set_eq|reflexivity].
    - intros k Hk. rewrite Embs.
      destruct emb; [apply dict_get_set_neq; exact Hk|reflexivity]. }
  destruct (lookup parentId (storeNode node i).(nodes)) eqn:L;
    injection H as -> ->.
  2:{ split; [auto|]. split; [|apply Rest; auto].
      intros N. exfalso. apply N. apply Stored. reflexivity. }
  all: split; [intros F; apply Stored in F; discriminate|];
    split; [|apply Rest; auto]; intros N;
    (split; [exists node; auto|]); apply Ok; exact N.
Qed.

Lemma dict_keys_erase (ns ns' : Dict OutlineNode) :
  erase ns' = erase ns -> dict_keys ns' = dict_keys ns.
Proof.
  intros E. apply (f_equal (@dict_keys OutlineNode)) in E.
  unfold erase, dict_keys in E. rewrite !map_map in E. exact E.
Qed.

(** X8. [updatePromptCounts] writes [promptCount] and nothing else, also
    when it throws half way: the keys of the store and their order, and
    every other field of every node, are as before, and so are the
    prompts, the vectors and the cache. It makes no call. It returns
    exactly when its recursion comes to its end: the tree below the root
    fits the call stack and holds no child identifier that [index.nodes]
    only inherits. Otherwise it throws the [RangeError] of the exhausted
    stack or, only where such a name is in the tree, a [TypeError]. *)
Theorem updatePromptCounts_writes_counts_only :
  forall (stack : nat) (index : ConversationIndex),
    exists o index',
      updatePromptCounts stack index = Ret (o, index')
      /\ (o = Returned tt <-> terminates stack index.(nodes) "root" = true)
      /\ (o = Returned tt \/ o = Thrown RangeError \/ o = Thrown TypeError)
      /\ (o = Thrown TypeError ->
          no_inherited stack index.(nodes) "root" = false)
      /\ erase index'.(nodes) = erase index.(nodes)
      /\ dict_keys index'.(nodes) = dict_keys index.(nodes)
      /\ (forall k n', dict_get k index'.(nodes) = Some n' ->
            exists n, dict_get k index.(nodes) = Some n
                      /\ n' = set_promptCount n'.(promptCount) n)
      /\ (forall k, dict_get k index.(nodes) = None ->
            dict_get k index'.(nodes) = None)
      /\ index'.(prompts) = index.(prompts)
      /\ index'.(embeddings) = index.(embeddings)
      /\ index'.(cache) = index.(cache)
      /\ index'.(conversationId) = index.(conversationId).
Proof.
  intros stack index. eexists. eexists. split; [reflexivity|].
  pose proof (recountSubtree_erase stack index.(nodes) "root") as E.
  split; [|split; [|split; [|split; [exact E|split; [|split; [|split]]]]]].
  - rewrite <- recount_returns_iff.
    destruct (snd (recountSubtree stack index.(nodes) "root")) as [t|e];
      split; eauto; try discriminate. intros [t' H]. discriminate.
  - destruct (snd (recountSubtree stack index.(nodes) "root")) as [t|e] eqn:R;
      [auto|].
    destruct (recount_thrown _ _ _ R) as (_ & [->|[-> _]]); auto.
  - destruct (snd (recountSubtree stack index.(nodes) "root")) as [t|e] eqn:R;
      [discriminate|].
    intros [= ->].
    destruct (recount_thrown _ _ _ R) as (_ & [F|[_ N]]);
      [discriminate|exact N].
  - apply dict_keys_erase. exact E.
  - intros k n' G.
    destruct (erase_get _ _ k n' E G) as (n & Gn & _ & _ & En).
    exists n. split; [exact Gn|].
    destruct n, n'; unfold set_promptCount in *; simpl in *. congruence.
  - intros k G. apply (erase_get_none _ _ k (eq_sym E) G).
  - repeat split; reflexivity.
Qed.

(** A store in which every node below [k] already carries the count of its
    subtree is left as it is by the recount from [k]. *)
Lemma recountSubtree_fixed (stack : nat) :
  forall (ns : Dict OutlineNode) (k : string),
    (forall x, Reach ns k x -> counted ns ns x) ->
    terminates stack ns k = true ->
    exists t, recountSubtree stack ns k = (ns, Returned t) /\ Total ns k t.
Proof.
  induction stack as [|stack IH]; intros ns k Hc T; simpl in T;
    [discriminate|].
  simpl. rewrite lookup_get in *. destruct (dict_get k ns) as [node|] eqn:G.
  2:{ destruct (isInherited k); [discriminate|].
      exists 0. split; [reflexivity|]. constructor. exact G. }
  - assert (L : forall cs tot,
               (forall c, In c cs -> In c node.(children)) ->
               forallb (terminates stack ns) cs = true ->
               exists s,
                 recountChildren (recountSubtree stack) cs ns tot
                 = (ns, Returned (tot + s))
                 /\ TotalList ns cs s).
    { induction cs as [|c cs IHc]; intros tot Hsub F; simpl in *.
      - exists 0. rewrite Nat.add_0_r. split; [reflexivity|constructor].
      - apply andb_prop in F. destruct F as [Fc Fcs].
        destruct (IH ns c) as (t & R & Ht); [|exact Fc|].
        { intros x Hx. apply Hc. eapply Reach_child; eauto. }
        rewrite R.
        destruct (IHc (tot + t)) as (s & Rs & Hs); [auto|exact Fcs|].
        exists (t + s). rewrite Rs, Nat.add_assoc.
        split; [reflexivity|]. constructor; assumption. }
    destruct (L node.(children) (List.length node.(promptIndices)))
      as (s & R & Hs); [auto|exact T|].
    rewrite R.
    assert (Ht : Total ns k (List.length node.(promptIndices) + s))
      by (eapply Total_node; eauto).
    destruct (Hc k) as (n & Gn & Hn); [eapply Reach_here; eauto|].
    assert (n = node) by congruence. subst n.
    pose proof (Total_functional ns k _ Hn _ Ht) as Ecount.
    exists (List.length node.(promptIndices) + s). split; [|exact Ht].
    f_equal. apply dict_update_same with (v := node); [exact G|].
    destruct node. unfold set_promptCount. simpl in *. congruence.
Qed.

(** X9. Recounting twice is recounting once: on the store that an
    [updatePromptCounts] that returned has left, a second
    [updatePromptCounts] returns and changes nothing. *)
Theorem updatePromptCounts_idempotent :
  forall (stack : nat) (index index' : ConversationIndex),
    updatePromptCounts stack index = Ret (Returned tt, index') ->
    updatePromptCounts stack index' = Ret (Returned tt, index').
Proof.
  intros stack index index' H. unfold updatePromptCounts in *.
  injection H as Ho Hi.
  destruct (recountSubtree stack index.(nodes) "root") as [ns1 [t|e]] eqn:R;
    simpl in Ho; [clear Ho|discriminate].
  pose proof (recountSubtree_spec stack _ _ _ _ R) as (E & Ht & _ & Hcounted).
  pose proof (recountSubtree_terminates stack _ _ _ _ R) as T.
  assert (Nodes : index'.(nodes) = ns1).
  { rewrite <- Hi. unfold recounted. rewrite R. reflexivity. }
  destruct (recountSubtree_fixed stack ns1 "root") as (t' & R' & _).
  - intros x Hx. apply (Reach_erase _ _ E) in Hx.
    destruct (Hcounted x Hx) as (n & Gn & Hn).
    exists n. split; [exact Gn|]. apply (Total_erase _ _ (eq_sym E)). exact Hn.
  - rewrite (terminates_erase stack ns1 index.(nodes) "root" E). exact T.
  - unfold recounted. rewrite Nodes, R'. simpl.
    f_equal. f_equal. rewrite <- Nodes. destruct index'. reflexivity.
Qed.

(** ** The candidates of a node (tree.ts) *)

Lemma rank_eqb_eq (a b : NodeRank) : rank_eqb a b = true <-> a = b.
Proof.
  unfold rank_eqb. rewrite Nat.eqb_eq.
  split; [|intros ->; reflexivity].
  destruct a, b; simpl; intros H; congruence.
Qed.

(** X28. [getChildCandidates] by what [index.nodes[parentId]] finds. When
    it finds nothing, there are no candidates. When it finds a member of
    [Object.prototype] ([parentId] is such a name and no node is stored
    under it), the call throws a [TypeError]. On a node of the store, the
    candidates are the children of that node that have a stored vector
    and, when a rank is asked for, are nodes of the store of that rank;
    when no rank is asked for, a child is also kept when nothing but its
    name, inherited from [Object.prototype], is found under it. Each
    candidate carries the stored vector, so the source's non-null
    assertion on [embeddings.get] never meets a missing entry, and there
    are never more candidates than children. *)
Theorem getChildCandidates_are_embedded_children :
  forall (index : ConversationIndex) (parentId : string)
         (rk : option NodeRank),
    match lookup parentId index.(nodes) with
    | Missing => getChildCandidates index parentId rk = Returned []
    | Inherited => getChildCandidates index parentId rk = Thrown TypeError
    | Own parent =>
        exists candidates,
          getChildCandidates index parentId rk = Returned candidates
          /\ (forall id v,
                In (id, v) candidates
                <-> In id parent.(children)
                    /\ dict_get id index.(embeddings) = Some v
                    /\ match rk with
                       | Some r =>
                           exists n, dict_get id index.(nodes) = Some n
                                     /\ n.(rank) = r
                       | None => lookup id index.(nodes) <> Missing
                       end)
          /\ List.length candidates <= List.length parent.(children)
    end.
Proof.
  intros index parentId rk. unfold getChildCandidates.
  destruct (lookup parentId index.(nodes)) as [parent| |] eqn:L;
    [|reflexivity|reflexivity].
  eexists. split; [reflexivity|]. split.
  - intros id v. rewrite in_map_iff. split.
    + intros (id' & [= -> <-] & H).
      apply filter_In in H. destruct H as [Hin H].
      split; [exact Hin|].
      unfold isCandidate in H.
      assert (He : dict_has id index.(embeddings) = true).
      { destruct (lookup id index.(nodes)); try discriminate;
          apply andb_prop in H; tauto. }
      split.
      { unfold dict_has in He.
        destruct (dict_get id index.(embeddings)); [reflexivity|discriminate]. }
      destruct (lookup id index.(nodes)) as [n| |] eqn:Ln; try discriminate;
        apply andb_prop in H; destruct H as [Hr _];
        destruct rk as [r|]; try discriminate.
      * exists n. split; [apply lookup_own; exact Ln|].
        apply rank_eqb_eq. exact Hr.
    + intros (Hin & Ge & Hr).
      exists id. split; [rewrite Ge; reflexivity|].
      apply filter_In. split; [exact Hin|].
      unfold isCandidate, dict_has. rewrite Ge.
      destruct rk as [r|].
      * destruct Hr as (n & Gn & Hr). apply lookup_own in Gn. rewrite Gn.
        apply andb_true_intro. split; [|reflexivity].
        apply rank_eqb_eq. exact Hr.
      * destruct (lookup id index.(nodes)); [reflexivity|reflexivity|].
        contradiction.
  - rewrite length_map. apply filter_length_le.
Qed.

(** The four reads of [index.nodes] under a name of [Object.prototype]
    with no node stored under it. [insertPromptIntoNode] throws before it
    writes or reads the clock. [spawnNode] throws with the new node stored
    and its vector not registered. [updatePromptCounts] throws when such a
    name is a child in the tree. [getChildCandidates] throws on such a
    parent; as a child, such a name is a candidate when it has a vector
    and no rank is asked for, and none when a rank is asked for. The search
    of [findFirstPromptIndex] throws on such a child. *)
Lemma inherited_names_throw :
  inheritedInsertRun = ([], (Thrown TypeError, demoIndex0))
  /\ fst (snd inheritedSpawnRun) = Thrown TypeError
  /\ dict_keys (snd (snd inheritedSpawnRun)).(nodes)
     = ["root"; "node_17_abcde"]
  /\ (snd (snd inheritedSpawnRun)).(embeddings) = []
  /\ terminates 3 inheritedChildIndex.(nodes) "root" = false
  /\ updatePromptCounts 3 inheritedChildIndex
     = Ret (Thrown TypeError, inheritedChildIndex)
  /\ getChildCandidates demoIndex0 "__proto__" None = Thrown TypeError
  /\ getChildCandidates inheritedCandidateIndex "root" None
     = Returned [("constructor", [1; 0]%float)]
  /\ getChildCandidates inheritedCandidateIndex "root" (Some Rank1)
     = Returned []
  /\ (forall root,
         dict_get "root" inheritedChildIndex.(nodes) = Some root ->
         findFirstPromptIndex 3 inheritedChildIndex.(nodes) root
         = Thrown TypeError).
Proof.
  repeat (split; [vm_compute; reflexivity|]).
  intros root [= <-]. vm_compute. reflexivity.
Qed.

(** ** pipeline.ts: the layers of the hierarchy and the cost of a call *)

Lemma Reach_rank (ns : Dict OutlineNode) :
  ranked ns ->
  forall a b, Reach ns a b ->
    forall na, dict_get a ns = Some na ->
      exists nb, dict_get b ns = Some nb
                 /\ (a = b \/ rank_nat na.(rank) < rank_nat nb.(rank)).
Proof.
  intros (_ & Hkids & _) a b H.
  induction H as [k n G|k n c k' G Hin _ IH]; intros na Ga.
  - exists na. auto.
  - assert (n = na) by congruence. subst n.
    destruct (Hkids k na c Ga Hin) as (cn & Gc & Hc).
    destruct (IH cn Gc) as (nb & Gb & [->|Hlt]).
    + exists cn. split; [exact Gc|]. right. lia.
    + exists nb. split; [exact Gb|]. right. lia.
Qed.

(** X10. The stores that the engine builds have three layers. The root has
    rank 0 and is the only node of rank 0; every node is in the tree below
    the root; the children of a node are nodes of the next rank; a node of
    rank 2 has no children; and no node of rank 3 is ever made. *)
Theorem built_three_layers :
  forall i : ConversationIndex,
    built i ->
    (exists r, dict_get "root" i.(nodes) = Some r /\ r.(rank) = Rank0)
    /\ (forall k n, dict_get k i.(nodes) = Some n ->
          Reach i.(nodes) "root" k
          /\ (n.(rank) = Rank0 -> k = "root")
          /\ n.(rank) <> Rank3
          /\ (n.(rank) = Rank2 -> n.(children) = [])
          /\ (forall c, In c n.(children) ->
                exists cn, dict_get c i.(nodes) = Some cn
                           /\ rank_nat cn.(rank) = S (rank_nat n.(rank)))).
Proof.
  intros i B.
  pose proof (built_ranked i B) as R.
  pose proof (built_tree_ok i B) as (_ & Hall).
  pose proof R as ((r & Gr & Hr) & Hkids & Hmax).
  split; [eauto|].
  intros k n G. pose proof (Hall k n G) as Hreach.
  split; [exact Hreach|]. split; [|split; [|split]].
  - intros Hz.
    destruct (Reach_rank _ R _ _ Hreach r Gr) as (nb & Gb & [E|Hlt]);
      [auto|].
    assert (nb = n) by congruence. subst nb.
    rewrite Hr, Hz in Hlt. simpl in Hlt. lia.
  - intros H3. pose proof (Hmax k n G) as Hle. rewrite H3 in Hle.
    simpl in Hle. lia.
  - intros H2. destruct n.(children) as [|c cs] eqn:Ec; [reflexivity|].
    destruct (Hkids k n c G) as (cn & Gc & Hc); [rewrite Ec; simpl; auto|].
    pose proof (Hmax c cn Gc) as Hle. rewrite H2 in Hc. simpl in Hc. lia.
  - intros c Hin. exact (Hkids k n c G Hin).
Qed.

Lemma insert_post_trace (nodeId : string) (promptIndex : Z)
    (i : ConversationIndex) (tr : list Obs) (i' : ConversationIndex) :
  insert_post nodeId promptIndex i tr i' ->
  tr = [] \/ exists now, tr = [ObsNow now].
Proof.
  unfold insert_post. destruct (lookup nodeId i.(nodes)).
  - intros (now & -> & _). eauto.
  - intros [].
  - intros [-> _]. auto.
Qed.

Lemma countObs_app (f : Obs -> bool) (a b : list Obs) :
  countObs f (a ++ b) = countObs f a + countObs f b.
Proof. unfold countObs. rewrite filter_app, length_app. reflexivity. Qed.

Lemma insert_post_counts (nodeId : string) (promptIndex : Z)
    (i : ConversationIndex) (tr : list Obs) (i' : ConversationIndex) :
  insert_post nodeId promptIndex i tr i' ->
  capabilityCalls tr = 0 /\ countObs isEmbedCall tr = 0
  /\ countObs isLabelCall tr = 0 /\ countObs isSpawn tr = 0.
Proof.
  intros H. apply insert_post_trace in H.
  destruct H as [->|[now ->]]; repeat split; reflexivity.
Qed.

(** Past the cache, the first event is the embedding of the first
    sentence. *)
Lemma classifyPrompt_call_budget_first (stack : nat) (p : PromptInput)
    (s : Settings) (i : ConversationIndex) (tr : list Obs)
    (o : Outcome ClassifyResult) (i' : ConversationIndex) :
  Runs (classifyPrompt stack p s i) tr (o, i') ->
  dict_has (hashPrompt p.(fullText)) i.(cache) = false ->
  exists r rest, tr = ObsEmbed p.(firstSentence) r :: rest.
Proof.
  intros H Hmiss. apply classifyPrompt_runs in H.
  unfold dict_has in Hmiss.
  destruct H as [H|(_ & _ & F)].
  2:{ destruct (dict_get (hashPrompt p.(fullText)) i.(cache));
        [discriminate|].
      destruct F as (v & fv & fullHit & _ & _ & _ & _ & ->). eauto. }
  unfold classify_post in H.
  destruct (dict_get (hashPrompt p.(fullText)) i.(cache)); [discriminate|].
  destruct H as [(e & -> & _)|H]; [eauto|].
  destruct H as (v & trp & i1 & nid & conf & isNew & trc & _ & _ & ->).
  eauto.
Qed.

(** X12. One classification costs at most three capability calls: none on
    a cache hit, and otherwise the embedding of the first sentence first,
    then at most one embedding of the full text and at most one label
    request; it spawns at most one node. *)
Theorem classifyPrompt_call_budget :
  forall (stack : nat) (p : PromptInput) (s : Settings)
         (i : ConversationIndex) (tr : list Obs)
         (o : Outcome ClassifyResult) (i' : ConversationIndex),
    Runs (classifyPrompt stack p s i) tr (o, i') ->
    capabilityCalls tr <= 3
    /\ countObs isEmbedCall tr <= 2
    /\ countObs isLabelCall tr <= 1
    /\ countObs isSpawn tr <= 1
    /\ (dict_has (hashPrompt p.(fullText)) i.(cache) = true ->
        capabilityCalls tr = 0)
    /\ (dict_has (hashPrompt p.(fullText)) i.(cache) = false ->
        exists r rest,
          tr = ObsEmbed p.(firstSentence) r :: rest
          /\ (forall text r', In (ObsEmbed text r') rest ->
                text = p.(fullText))
          /\ (forall context labels r', In (ObsLabel context labels r') rest ->
                context = p.(firstSentence)
                /\ labels = existingLabelsOf i)).
Proof.
  intros stack p s i tr o i' H.
  apply classifyPrompt_runs in H. unfold dict_has.
  destruct H as [H|(_ & _ & F)].
  2:{ destruct (dict_get (hashPrompt p.(fullText)) i.(cache)) as [cached|].
      - destruct F as [_ ->].
        split; [cbv; lia|]. split; [cbv; lia|]. split; [cbv; lia|].
        split; [cbv; lia|]. split; [reflexivity|discriminate].
      - destruct F as (v & fv & fullHit & _ & _ & _ & _ & ->).
        split; [cbv; lia|]. split; [cbv; lia|]. split; [cbv; lia|].
        split; [cbv; lia|]. split; [discriminate|].
        intros _.
        exists (EmbedOk v), [ObsEmbed p.(fullText) (EmbedOk fv)].
        split; [reflexivity|]. split.
        + intros text r' [[= <- _]|[]]. reflexivity.
        + intros context labels r' [[=]|[]]. }
  unfold classify_post in H.
  destruct (dict_get (hashPrompt p.(fullText)) i.(cache)) as [cached|].
  - destruct H as (i1 & Hins & _).
    destruct (insert_post_counts _ _ _ _ _ Hins) as (Cc & Ce & Cl & Cs).
    rewrite Cc, Ce, Cl, Cs.
    split; [lia|]. split; [lia|]. split; [lia|]. split; [lia|].
    split; [reflexivity|discriminate].
  - destruct H as [(e & -> & _)|H].
    { split; [cbv; lia|]. split; [cbv; lia|]. split; [cbv; lia|].
      split; [cbv; lia|]. split; [discriminate|].
      intros _. exists (EmbedErr e), []. split; [reflexivity|].
      split; intros; contradiction. }
    destruct H as (v & trp & i1 & nid & conf & isNew & trc & HP & HC & ->).
    destruct HC as (i2 & Hins & _).
    pose proof (insert_post_trace _ _ _ _ _ Hins) as Htrc.
    assert (Shape :
      exists mid,
        trp ++ trc = mid
        /\ capabilityCalls mid <= 2 /\ countObs isEmbedCall mid <= 1
        /\ countObs isLabelCall mid <= 1 /\ countObs isSpawn mid <= 1
        /\ (forall text r', In (ObsEmbed text r') mid -> text = p.(fullText))
        /\ (forall context labels r',
               In (ObsLabel context labels r') mid ->
               context = p.(firstSentence) /\ labels = existingLabelsOf i)).
    { eexists. split; [reflexivity|].
      destruct HP as [hit1 hit2 B1 B2|hit1 lr now suffix c u B1 B2
                      |fv fullHit hitNode lr now suffix c u B1 Hlen B3 G Hr
                      |fv fullHit B1 Hlen B3 Hn|pre lr now suffix c u B1 Hm].
      1-4: destruct Htrc as [->|[t ->]]; cbv [app spawnTrace];
        (repeat split; try (cbv; lia));
        intros; simpl in *;
        repeat match goal with
               | H : _ \/ _ |- _ => destruct H
               | H : False |- _ => destruct H
               | H : _ = _ |- _ => solve [inversion H; subst; auto]
               end.
      destruct Hm as [[_ ->]|[(_ & e0 & ->)|(_ & fv & -> & _)]];
        destruct Htrc as [->|[t ->]]; cbv [app spawnTrace];
        (repeat split; try (cbv; lia));
        intros; simpl in *;
        repeat match goal with
               | H : _ \/ _ |- _ => destruct H
               | H : False |- _ => destruct H
               | H : _ = _ |- _ => solve [inversion H; subst; auto]
               end. }
    destruct Shape as (mid & -> & Cc & Ce & Cl & Cs & He & Hl).
    change (ObsEmbed p.(firstSentence) (EmbedOk v) :: mid)
      with ([ObsEmbed p.(firstSentence) (EmbedOk v)] ++ mid).
    unfold capabilityCalls in *.
    rewrite !countObs_app.
    change (List.length (filter isCapabilityCall
                           ([ObsEmbed p.(firstSentence) (EmbedOk v)] ++ mid)))
      with (S (List.length (filter isCapabilityCall mid))).
    cbv [countObs filter isEmbedCall isLabelCall isSpawn List.length] in *.
    split; [lia|]. split; [lia|]. split; [lia|]. split; [lia|].
    split; [discriminate|].
    intros _. exists (EmbedOk v), mid. auto.
Qed.

(** ** pipeline.ts: the branches of [classifyPrompt] that attach or
    escalate *)

(** A commit on a store that fits the stack: the passage is attached when
    the node exists, the counts are redone and the placement is cached. *)
Lemma commit_post_attach (stack : nat) (hash nodeId : string) (conf : float)
    (isNew : bool) (promptIndex : Z) (i : ConversationIndex)
    (trc : list Obs) (o : Outcome ClassifyResult) (i' : ConversationIndex) :
  terminates stack i.(nodes) "root" = true ->
  commit_post stack hash nodeId conf isNew promptIndex i trc o i' ->
  o = Returned (mkResult nodeId conf isNew)
  /\ (dict_get nodeId i.(nodes) = None ->
      trc = [] /\ dict_get nodeId i'.(nodes) = None)
  /\ (forall n, dict_get nodeId i.(nodes) = Some n ->
        exists t n',
          trc = [ObsNow t]
          /\ dict_get nodeId i'.(nodes) = Some n'
          /\ In promptIndex n'.(promptIndices)
          /\ n'.(label) = n.(label) /\ n'.(rank) = n.(rank)
          /\ n'.(children) = n.(children))
  /\ dict_keys i'.(nodes) = dict_keys i.(nodes)
  /\ i'.(embeddings) = i.(embeddings)
  /\ dict_get hash i'.(cache) = Some (mkCacheEntry nodeId conf)
  /\ (forall h, h <> hash -> dict_get h i'.(cache) = dict_get h i.(cache))
  /\ i'.(prompts) = i.(prompts).
Proof.
  intros T (i2 & Hins & HC).
  pose proof (insert_post_kids _ _ _ _ _ Hins) as K.
  destruct (insert_post_facts _ _ _ _ _ Hins)
    as (Hnone & Hsome & _ & Hkeys & Hp & He & Hc & _).
  rewrite <- (terminates_kids stack _ _ "root" K) in T.
  apply recount_returns_iff in T. destruct T as [tot T]. rewrite T in HC.
  destruct HC as [-> ->].
  pose proof (recountSubtree_erase stack i2.(nodes) "root") as E.
  split; [reflexivity|]. split; [|split; [|split; [|split; [|split; [|split]]]]].
  - intros G. destruct (Hnone G) as [-> ->]. split; [reflexivity|].
    cbn [remember nodes set_cache recounted set_nodes].
    apply (erase_get_none _ _ nodeId (eq_sym E) G).
  - intros n G.
    destruct (Hsome n G) as (t & n2 & -> & G2 & Hin & _ & _ & _ & _ & _
                             & Hl & Hr & Hk & _).
    destruct (erase_get _ _ nodeId n2 (eq_sym E) G2)
      as (n' & G' & Hk' & Hp' & En').
    exists t, n'. split; [reflexivity|]. split; [exact G'|].
    rewrite Hp'. split; [exact Hin|].
    rewrite En'. simpl. auto.
  - cbn [remember nodes set_cache recounted set_nodes].
    rewrite (dict_keys_erase _ _ E). exact Hkeys.
  - exact He.
  - cbn [remember cache set_cache]. apply dict_get_set_eq.
  - intros h Hh. cbn [remember cache set_cache recounted set_nodes].
    rewrite dict_get_set_neq by exact Hh. rewrite Hc. reflexivity.
  - exact Hp.
Qed.

Lemma insert_post_not_embed (nodeId : string) (promptIndex : Z)
    (i : ConversationIndex) (x : Obs) (tr : list Obs)
    (i' : ConversationIndex) :
  insert_post nodeId promptIndex i (x :: tr) i' -> isEmbedCall x = false.
Proof.
  intros H. apply insert_post_trace in H.
  destruct H as [H|[now H]]; [discriminate|]. injection H as -> _.
  reflexivity.
Qed.

(** The runs of [classifyPrompt] that start with a successful embedding of
    the first sentence: a placement and its commit, or a scan of step 5
    that ends on a name that the store only inherits. *)
Lemma classifyPrompt_after_embedding (stack : nat) (p : PromptInput)
    (s : Settings) (i : ConversationIndex) (v : Vector) (tr : list Obs)
    (o : Outcome ClassifyResult) (i' : ConversationIndex) :
  Runs (classifyPrompt stack p s i)
       (ObsEmbed p.(firstSentence) (EmbedOk v) :: tr) (o, i') ->
  dict_get (hashPrompt p.(fullText)) i.(cache) = None
  /\ ((exists trp i1 nodeId conf isNew trc,
         Placement p s v i trp i1 nodeId conf isNew
         /\ commit_post stack (hashPrompt p.(fullText)) nodeId conf isNew
                        p.(prompt_index) i1 trc o i'
         /\ tr = trp ++ trc)
      \/ (exists fv fullHit,
            bestMatch v (childCandidates i "root" (Some Rank1))
                      s.(thresholdHigh) = None
            /\ 1 < List.length (dict_keys i.(nodes))
            /\ bestMatch fv (getAllEmbeddedCandidates i) s.(thresholdLow)
               = Some fullHit
            /\ lookup fullHit.(match_id) i.(nodes) = Inherited
            /\ tr = [ObsEmbed p.(fullText) (EmbedOk fv)])).
Proof.
  intros H. apply classifyPrompt_runs in H.
  destruct H as [H|(_ & _ & F)].
  2:{ destruct (dict_get (hashPrompt p.(fullText)) i.(cache)) as [cached|].
      - destruct F as [_ [=]].
      - split; [reflexivity|]. right.
        destruct F as (v' & fv & fullHit & B1 & Hlen & B3 & L & [= <- ->]).
        eauto 10. }
  unfold classify_post in H.
  destruct (dict_get (hashPrompt p.(fullText)) i.(cache)) as [cached|].
  - destruct H as (i1 & Hins & _).
    apply insert_post_not_embed in Hins. discriminate.
  - split; [reflexivity|]. left.
    destruct H as [(e & [=] & _)|H].
    destruct H as (v' & trp & i1 & nid & conf & isNew & trc & HP & HC
                   & [= <- ->]).
    eauto 10.
Qed.

(** X13. A confident match at both levels: when the rank-1 scan and the
    rank-2 scan under its match both reach [thresholdHigh],
    [classifyPrompt] makes no further call and spawns nothing; it attaches
    the passage to the rank-2 match, which is a node of rank 2 among the
    children of the rank-1 match, and returns it with the score of the
    rank-2 match and [isNewNode = false]. *)
Theorem rank2_hit_attaches :
  forall (stack : nat) (p : PromptInput) (s : Settings)
         (i : ConversationIndex) (v : Vector) (hit1 hit2 : Match)
         (tr : list Obs) (o : Outcome ClassifyResult)
         (i' : ConversationIndex),
    terminates stack i.(nodes) "root" = true ->
    bestMatch v (childCandidates i "root" (Some Rank1)) s.(thresholdHigh)
      = Some hit1 ->
    bestMatch v (childCandidates i hit1.(match_id) (Some Rank2))
              s.(thresholdHigh) = Some hit2 ->
    Runs (classifyPrompt stack p s i)
         (ObsEmbed p.(firstSentence) (EmbedOk v) :: tr) (o, i') ->
    o = Returned (mkResult hit2.(match_id) hit2.(score) false)
    /\ (exists t, tr = [ObsNow t])
    /\ (exists parent n n',
          dict_get hit1.(match_id) i.(nodes) = Some parent
          /\ In hit2.(match_id) parent.(children)
          /\ dict_get hit2.(match_id) i.(nodes) = Some n
          /\ n.(rank) = Rank2
          /\ dict_get hit2.(match_id) i'.(nodes) = Some n'
          /\ In p.(prompt_index) n'.(promptIndices)
          /\ n'.(label) = n.(label) /\ n'.(children) = n.(children))
    /\ dict_keys i'.(nodes) = dict_keys i.(nodes)
    /\ i'.(embeddings) = i.(embeddings)
    /\ dict_get (hashPrompt p.(fullText)) i'.(cache)
       = Some (mkCacheEntry hit2.(match_id) hit2.(score)).
Proof.
  intros stack p s i v hit1 hit2 tr o i' T B1 B2 H.
  apply classifyPrompt_after_embedding in H.
  destruct H as (_ & [H|(fv0 & fh0 & B1f & _)]); [|congruence].
  destruct H as (trp & i1 & nid & conf & isNew & trc & HP & HC & ->).
  destruct HP; try congruence.
  assert (hit0 = hit1) by congruence. subst hit0.
  assert (hit3 = hit2) by congruence. subst hit3.
  destruct (commit_post_attach _ _ _ _ _ _ _ _ _ _ T HC)
    as (-> & _ & Hsome & Hkeys & He & Hc & _).
  destruct (bestMatch_winner _ _ _ _ B2) as (emb & Hin & _).
  apply childCandidates_In in Hin.
  destruct Hin as (_ & (parent & Gp & Hchild) & n & Gn & Hr).
  destruct (Hsome n Gn) as (t & n' & -> & G' & Hidx & Hl & _ & Hk).
  split; [reflexivity|]. split; [exists t; reflexivity|].
  split; [exists parent, n, n'; tauto|].
  auto.
Qed.

(** X14. No match anywhere: when the rank-1 scan misses and step 5 does
    not place the passage (the store holds the root alone, or the
    embedding of the full text fails, or no vector of the store reaches
    [thresholdLow]), [classifyPrompt] asks for a label and spawns a rank-1
    node under the root, with the vector of the first sentence, attaches
    the passage to it and returns it as a new node with confidence 0. A
    failed embedding of the full text is not an error. *)
Theorem no_match_spawns_header :
  forall (stack : nat) (p : PromptInput) (s : Settings)
         (i : ConversationIndex) (v : Vector) (pre tr : list Obs)
         (o : Outcome ClassifyResult) (i' : ConversationIndex),
    terminates stack i.(nodes) "root" = true ->
    fresh_ids tr i.(nodes) ->
    bestMatch v (childCandidates i "root" (Some Rank1)) s.(thresholdHigh)
      = None ->
    escalation_missed p s i pre ->
    Runs (classifyPrompt (S stack) p s i)
         (ObsEmbed p.(firstSentence) (EmbedOk v) :: pre ++ tr) (o, i') ->
    exists lr now suffix c u t,
      tr = ObsLabel p.(firstSentence) (existingLabelsOf i) lr
           :: [ObsNow now; ObsRandom suffix; ObsNow c; ObsNow u; ObsNow t]
      /\ o = Returned (mkResult (makeId now suffix) 0%float true)
      /\ (exists n, dict_get (makeId now suffix) i'.(nodes) = Some n
                    /\ n.(label) = labelOf lr p.(firstSentence)
                    /\ n.(rank) = Rank1
                    /\ n.(promptIndices) = [p.(prompt_index)]
                    /\ n.(children) = [])
      /\ (forall r, dict_get "root" i.(nodes) = Some r ->
            exists r', dict_get "root" i'.(nodes) = Some r'
                       /\ r'.(children) = r.(children) ++ [makeId now suffix])
      /\ dict_get (makeId now suffix) i'.(embeddings) = Some v
      /\ dict_get (hashPrompt p.(fullText)) i'.(cache)
         = Some (mkCacheEntry (makeId now suffix) 0%float).
Proof.
  intros stack p s i v pre tr o i' T Hfresh B1 Hm H.
  apply classifyPrompt_after_embedding in H.
  destruct H as (_ & [H|(fv0 & fh0 & _ & Hlenf & B3f & _ & Ef)]).
  2:{ exfalso.
      destruct Hm as [[Hl _]|[(_ & e & ->)|(_ & fv' & -> & B)]];
        [lia|discriminate|].
      injection Ef as <- _. congruence. }
  destruct H as (trp & i1 & nid & conf & isNew & trc & HP & HC & E).
  destruct HP as [hit1 hit2 B1' B2|hit1 lr now suffix c u B1' B2
                  |fv fullHit hitNode lr now suffix c u B1' Hlen B3 G Hr
                  |fv fullHit B1' Hlen B3 Hn|pre' lr now suffix c u B1' Hm'];
    try congruence.
  - exfalso.
    destruct Hm as [[Hl _]|[(_ & e & ->)|(_ & fv' & -> & B)]];
      [lia|discriminate|].
    injection E as <- _. congruence.
  - exfalso.
    destruct Hm as [[Hl _]|[(_ & e & ->)|(_ & fv' & -> & B)]];
      [lia|discriminate|].
    injection E as <- _. congruence.
  - assert (pre' = pre /\ tr = ObsLabel p.(firstSentence) (existingLabelsOf i) lr
                               :: spawnTrace now suffix c u ++ trc).
    { destruct Hm as [[Hl ->]|[(Hl & e & ->)|(Hl & fv & -> & B)]];
        destruct Hm' as [[Hl' ->]|[(Hl' & e' & ->)|(Hl' & fv' & -> & B')]];
        try lia; simpl in E.
      - split; [reflexivity|exact E].
      - injection E as <- ->. auto.
      - discriminate.
      - discriminate.
      - injection E as <- ->. auto. }
    destruct H as [-> ->].
    pose proof (fresh_ids_at
                  [ObsLabel p.(firstSentence) (existingLabelsOf i) lr]
                  ([ObsNow c; ObsNow u] ++ trc) now suffix _ Hfresh) as Hnew.
    assert (Hpar : "root" <> makeId now suffix).
    { intros Eid. symmetry in Eid. exact (makeId_not_root now suffix Eid). }
    destruct (spawn_commit_post i (makeId now suffix)
                (labelOf lr p.(firstSentence)) "root" Rank1 c u v Hpar
                stack _ _ _ _ _ _ T HC)
      as ((t & ->) & -> & Hnode & Hp & He & Hc).
    exists lr, now, suffix, c, u, t.
    split; [reflexivity|]. split; [reflexivity|]. auto.
Qed.

(** X15. Escalation onto a header: when the rank-1 scan misses and the
    scan of all vectors with the embedding of the full text finds, at
    [thresholdLow], a node of rank 1, [classifyPrompt] asks for a label and
    spawns a rank-2 node under that node, carrying the vector of the full
    text (not that of the first sentence), attaches the passage to it and
    returns it as a new node with the score of the scan. *)
Theorem escalation_on_header_spawns_subheader :
  forall (stack : nat) (p : PromptInput) (s : Settings)
         (i : ConversationIndex) (v fv : Vector) (fullHit : Match)
         (hitNode : OutlineNode) (tr : list Obs)
         (o : Outcome ClassifyResult) (i' : ConversationIndex),
    terminates stack i.(nodes) "root" = true ->
    fresh_ids tr i.(nodes) ->
    bestMatch fv (getAllEmbeddedCandidates i) s.(thresholdLow)
      = Some fullHit ->
    dict_get fullHit.(match_id) i.(nodes) = Some hitNode ->
    hitNode.(rank) = Rank1 ->
    Runs (classifyPrompt (S stack) p s i)
         (ObsEmbed p.(firstSentence) (EmbedOk v)
          :: ObsEmbed p.(fullText) (EmbedOk fv) :: tr) (o, i') ->
    bestMatch v (childCandidates i "root" (Some Rank1)) s.(thresholdHigh)
      = None
    /\ exists lr now suffix c u t,
         tr = ObsLabel p.(firstSentence) (existingLabelsOf i) lr
              :: [ObsNow now; ObsRandom suffix; ObsNow c; ObsNow u; ObsNow t]
         /\ o = Returned (mkResult (makeId now suffix) fullHit.(score) true)
         /\ (exists n, dict_get (makeId now suffix) i'.(nodes) = Some n
                       /\ n.(label) = labelOf lr p.(firstSentence)
                       /\ n.(rank) = Rank2
                       /\ n.(promptIndices) = [p.(prompt_index)]
                       /\ n.(children) = [])
         /\ (exists hitNode',
               dict_get fullHit.(match_id) i'.(nodes) = Some hitNode'
               /\ hitNode'.(children)
                  = hitNode.(children) ++ [makeId now suffix])
         /\ dict_get (makeId now suffix) i'.(embeddings) = Some fv
         /\ dict_get (hashPrompt p.(fullText)) i'.(cache)
            = Some (mkCacheEntry (makeId now suffix) fullHit.(score)).
Proof.
  intros stack p s i v fv fullHit hitNode tr o i' T Hfresh B3 G Hr H.
  apply classifyPrompt_after_embedding in H.
  destruct H as (_ & [H|(fv0 & fh0 & _ & _ & B3f & Lf & Ef)]).
  2:{ exfalso. injection Ef as <- _.
      assert (fh0 = fullHit) by congruence. subst fh0.
      exact (own_not_inherited _ _ _ G Lf). }
  destruct H as (trp & i1 & nid & conf & isNew & trc & HP & HC & E).
  destruct HP as [hit1 hit2 B1' B2|hit1 lr now suffix c u B1' B2
                  |fv' fullHit' hitNode' lr now suffix c u B1' Hlen B3' G' Hr'
                  |fv' fullHit' B1' Hlen B3' Hn|pre' lr now suffix c u B1' Hm'].
  - exfalso. simpl in E. subst trc. destruct HC as (i2 & Hins & _).
    apply insert_post_not_embed in Hins. discriminate.
  - discriminate.
  - simpl in E. injection E as <- ->.
    assert (fullHit' = fullHit) by congruence. subst fullHit'.
    assert (hitNode' = hitNode) by congruence. subst hitNode'.
    split; [exact B1'|].
    pose proof (fresh_ids_at
                  [ObsLabel p.(firstSentence) (existingLabelsOf i) lr]
                  ([ObsNow c; ObsNow u] ++ trc) now suffix _ Hfresh) as Hnew.
    assert (Hpar : fullHit.(match_id) <> makeId now suffix)
      by (eapply fresh_not_present; eauto).
    destruct (spawn_commit_post i (makeId now suffix)
                (labelOf lr p.(firstSentence)) fullHit.(match_id) Rank2 c u fv
                Hpar stack _ _ _ _ _ _ T HC)
      as ((t & ->) & -> & Hnode & Hp & He & Hc).
    exists lr, now, suffix, c, u, t.
    split; [reflexivity|]. split; [reflexivity|]. auto.
  - exfalso. simpl in E. injection E as <- _.
    assert (fullHit' = fullHit) by congruence. subst fullHit'.
    exact (Hn hitNode G Hr).
  - exfalso.
    destruct Hm' as [[Hl' ->]|[(Hl' & e' & ->)|(Hl' & fv' & -> & B')]];
      simpl in E; try discriminate.
    injection E as <- _. congruence.
Qed.

(** X16. Escalation onto any other node: when the rank-1 scan misses and
    the scan of all vectors with the embedding of the full text finds, at
    [thresholdLow], a node that is not of rank 1, [classifyPrompt] asks for
    no label and spawns nothing; it attaches the passage to that very node
    and returns it with the score of the scan and [isNewNode = false]. *)
Theorem escalation_on_subheader_attaches :
  forall (stack : nat) (p : PromptInput) (s : Settings)
         (i : ConversationIndex) (v fv : Vector) (fullHit : Match)
         (hitNode : OutlineNode) (tr : list Obs)
         (o : Outcome ClassifyResult) (i' : ConversationIndex),
    terminates stack i.(nodes) "root" = true ->
    bestMatch fv (getAllEmbeddedCandidates i) s.(thresholdLow)
      = Some fullHit ->
    dict_get fullHit.(match_id) i.(nodes) = Some hitNode ->
    hitNode.(rank) <> Rank1 ->
    Runs (classifyPrompt stack p s i)
         (ObsEmbed p.(firstSentence) (EmbedOk v)
          :: ObsEmbed p.(fullText) (EmbedOk fv) :: tr) (o, i') ->
    bestMatch v (childCandidates i "root" (Some Rank1)) s.(thresholdHigh)
      = None
    /\ o = Returned (mkResult fullHit.(match_id) fullHit.(score) false)
    /\ (exists t, tr = [ObsNow t])
    /\ (exists hitNode',
          dict_get fullHit.(match_id) i'.(nodes) = Some hitNode'
          /\ In p.(prompt_index) hitNode'.(promptIndices)
          /\ hitNode'.(label) = hitNode.(label)
          /\ hitNode'.(children) = hitNode.(children))
    /\ dict_keys i'.(nodes) = dict_keys i.(nodes)
    /\ i'.(embeddings) = i.(embeddings)
    /\ dict_get (hashPrompt p.(fullText)) i'.(cache)
       = Some (mkCacheEntry fullHit.(match_id) fullHit.(score)).
Proof.
  intros stack p s i v fv fullHit hitNode tr o i' T B3 G Hr H.
  apply classifyPrompt_after_embedding in H.
  destruct H as (_ & [H|(fv0 & fh0 & _ & _ & B3f & Lf & Ef)]).
  2:{ exfalso. injection Ef as <- _.
      assert (fh0 = fullHit) by congruence. subst fh0.
      exact (own_not_inherited _ _ _ G Lf). }
  destruct H as (trp & i1 & nid & conf & isNew & trc & HP & HC & E).
  destruct HP as [hit1 hit2 B1' B2|hit1 lr now suffix c u B1' B2
                  |fv' fullHit' hitNode' lr now suffix c u B1' Hlen B3' G' Hr'
                  |fv' fullHit' B1' Hlen B3' Hn|pre' lr now suffix c u B1' Hm'].
  - exfalso. simpl in E. subst trc. destruct HC as (i2 & Hins & _).
    apply insert_post_not_embed in Hins. discriminate.
  - discriminate.
  - exfalso. simpl in E. injection E as <- _.
    assert (fullHit' = fullHit) by congruence. subst fullHit'.
    congruence.
  - simpl in E. injection E as <- ->.
    assert (fullHit' = fullHit) by congruence. subst fullHit'.
    destruct (commit_post_attach _ _ _ _ _ _ _ _ _ _ T HC)
      as (-> & _ & Hsome & Hkeys & He & Hc & _).
    destruct (Hsome hitNode G) as (t & n' & -> & G' & Hidx & Hl & _ & Hk).
    split; [exact B1'|]. split; [reflexivity|].
    split; [exists t; reflexivity|].
    split; [exists n'; auto|]. auto.
  - exfalso.
    destruct Hm' as [[Hl' ->]|[(Hl' & e' & ->)|(Hl' & fv' & -> & B')]];
      simpl in E; try discriminate.
    injection E as <- _. congruence.
Qed.

(** ** pipeline.ts: what a classification keeps *)

Lemma dict_get_update_proj {V W : Type} (g : V -> W) (k k' : string)
    (f : V -> V) (d : Dict V) :
  (forall v, g (f v) = g v) ->
  option_map g (dict_get k' (dict_update k f d)) = option_map g (dict_get k' d).
Proof.
  intros Hg. rewrite dict_get_update.
  destruct (String.eqb k' k) eqn:E; [|reflexivity].
  apply String.eqb_eq in E. subst k'.
  destruct (dict_get k d); simpl; [rewrite Hg|]; reflexivity.
Qed.

Lemma erase_proj {W : Type} (g : OutlineNode -> W)
    (ns ns' : Dict OutlineNode) :
  (forall n c, g (set_promptCount c n) = g n) ->
  erase ns' = erase ns ->
  forall k, option_map g (dict_get k ns') = option_map g (dict_get k ns).
Proof.
  intros Hg E k.
  pose proof (dict_get_erase k ns) as G. pose proof (dict_get_erase k ns') as G'.
  rewrite E, G in G'.
  destruct (dict_get k ns') as [n'|], (dict_get k ns) as [n|];
    simpl in *; try discriminate; [|reflexivity].
  assert (E0 : set_promptCount 0 n' = set_promptCount 0 n) by congruence.
  rewrite <- (Hg n 0), <- (Hg n' 0), E0. reflexivity.
Qed.

Lemma insert_post_proj {W : Type} (g : OutlineNode -> W)
    (nodeId : string) (promptIndex : Z) (i : ConversationIndex)
    (tr : list Obs) (i' : ConversationIndex) :
  (forall n t, g (set_updatedAt t n) = g n) ->
  (forall n x, g (pushPrompt x n) = g n) ->
  insert_post nodeId promptIndex i tr i' ->
  forall k, option_map g (dict_get k i'.(nodes))
            = option_map g (dict_get k i.(nodes)).
Proof.
  intros H1 H2 H k. unfold insert_post in H.
  destruct (lookup nodeId i.(nodes)); [|destruct H|].
  - destruct H as (now & _ & ->). unfold touchNode, attachPrompt.
    cbn [nodes set_nodes].
    rewrite dict_get_update_proj by (intros; apply H1).
    apply dict_get_update_proj. intros n.
    destruct (existsb (Z.eqb promptIndex) n.(promptIndices)); [reflexivity|].
    apply H2.
  - destruct H as [_ ->]. reflexivity.
Qed.

Lemma dict_has_proj {W : Type} (g : OutlineNode -> W)
    (ns ns' : Dict OutlineNode) (k : string) :
  option_map g (dict_get k ns') = option_map g (dict_get k ns) ->
  dict_has k ns' = dict_has k ns.
Proof.
  unfold dict_has.
  destruct (dict_get k ns'), (dict_get k ns); simpl; congruence.
Qed.

Lemma keyed_update (k : string) (f : OutlineNode -> OutlineNode)
    (ns : Dict OutlineNode) :
  (forall n, (f n).(node_id) = n.(node_id)) ->
  (forall x n, In (x, n) ns -> n.(node_id) = x) ->
  forall x n, In (x, n) (dict_update k f ns) -> n.(node_id) = x.
Proof.
  intros Hf Hk x n H. apply dict_In_update in H.
  destruct H as [H|(n0 & H & ->)]; [eauto|]. rewrite Hf. eauto.
Qed.

Lemma linked_same_nodes (i i' : ConversationIndex) :
  (forall x n, In (x, n) i'.(nodes) -> n.(node_id) = x) ->
  (forall k, dict_has k i'.(nodes) = dict_has k i.(nodes)) ->
  i'.(embeddings) = i.(embeddings) -> i'.(cache) = i.(cache) ->
  linked i -> linked i'.
Proof.
  intros K Has Ee Ec (Hid & Hemb & Hcache).
  split; [exact K|split].
  - intros id v G. rewrite Has. rewrite Ee in G. eauto.
  - intros h e G. rewrite Has. rewrite Ec in G. eauto.
Qed.

Lemma linked_insert (nodeId : string) (promptIndex : Z)
    (i : ConversationIndex) (tr : list Obs) (i' : ConversationIndex) :
  insert_post nodeId promptIndex i tr i' -> linked i -> linked i'.
Proof.
  intros H L.
  destruct (insert_post_cache _ _ _ _ _ H) as (Ec & Ee & _).
  apply (linked_same_nodes i); auto.
  - destruct L as (Hid & _). unfold insert_post in H.
    destruct (lookup nodeId i.(nodes)); [|destruct H|].
    + destruct H as (now & _ & ->). unfold touchNode, attachPrompt.
      cbn [nodes set_nodes].
      apply keyed_update; [reflexivity|].
      apply keyed_update; [|exact Hid].
      intros n. destruct (existsb (Z.eqb promptIndex) n.(promptIndices));
        reflexivity.
    + destruct H as [_ ->]. exact Hid.
  - intros k. apply (dict_has_proj node_id).
    apply (insert_post_proj node_id _ _ _ _ _ ltac:(reflexivity)
             ltac:(reflexivity) H).
Qed.

Lemma linked_recounted (stack : nat) (i : ConversationIndex) :
  linked i -> linked (recounted stack i).
Proof.
  intros L. pose proof (recountSubtree_erase stack i.(nodes) "root") as E.
  apply (linked_same_nodes i); [| |reflexivity|reflexivity|exact L].
  - destruct L as (Hid & _). intros x n' H.
    destruct (erase_In _ _ _ _ E H) as (n & Hin & <- & _). eauto.
  - intros k. apply (dict_has_proj node_id).
    apply erase_proj; [reflexivity|exact E].
Qed.

Lemma linked_remember (hash nodeId : string) (conf : float)
    (i : ConversationIndex) :
  dict_has nodeId i.(nodes) = true -> linked i ->
  linked (remember hash nodeId conf i).
Proof.
  intros Hn (Hid & Hemb & Hcache). split; [exact Hid|]. split; [exact Hemb|].
  intros h e G. cbn [remember cache set_cache nodes] in *.
  destruct (String.eqb h hash) eqn:E.
  - apply String.eqb_eq in E. subst h. rewrite dict_get_set_eq in G.
    injection G as <-. exact Hn.
  - apply String.eqb_neq in E. rewrite dict_get_set_neq in G by exact E.
    eauto.
Qed.

Lemma linked_spawnInto (id lbl parentId : string) (rk : NodeRank)
    (c u : Z) (v : Vector) (i : ConversationIndex) :
  linked i ->
  linked (spawnInto (mkNode id lbl rk [] [] 0 c u) parentId (Some v) i)
  /\ dict_has id
       (spawnInto (mkNode id lbl rk [] [] 0 c u) parentId (Some v) i).(nodes)
     = true.
Proof.
  intros (Hid & Hemb & Hcache).
  set (node := mkNode id lbl rk [] [] 0 c u).
  set (i1 := spawnInto node parentId (Some v) i).
  assert (Has : forall k, dict_has k i1.(nodes)
                          = (String.eqb k id || dict_has k i.(nodes))).
  { intros k. unfold dict_has, i1. rewrite spawnInto_get.
    cbn [node_id node].
    destruct (String.eqb k id); simpl; [reflexivity|].
    destruct (dict_get k i.(nodes)); reflexivity. }
  split; [|rewrite Has, String.eqb_refl; reflexivity].
  split; [|split].
  - assert (K1 : forall x n, In (x, n) (dict_set id node i.(nodes)) ->
                   n.(node_id) = x).
    { intros x n H. apply dict_In_set in H.
      destruct H as [[-> ->]|H]; [reflexivity|eauto]. }
    unfold i1. destruct (spawnInto_nodes node parentId (Some v) i) as [-> _].
    cbn [node_id node].
    destruct (dict_has parentId (dict_set id node i.(nodes)));
      [|exact K1].
    apply keyed_update; [reflexivity|exact K1].
  - intros k w G. rewrite Has.
    destruct (String.eqb k id) eqn:E; [reflexivity|]. simpl.
    apply String.eqb_neq in E.
    destruct (spawnInto_nodes node parentId (Some v) i) as [_ Ee].
    unfold i1 in G. rewrite Ee in G. cbn [node_id node] in G.
    rewrite dict_get_set_neq in G by exact E. eauto.
  - intros h e G. rewrite Has.
    destruct (spawnInto_cache node parentId (Some v) i) as [Ec _].
    unfold i1 in G. rewrite Ec in G.
    rewrite (Hcache h e G). apply orb_true_r.
Qed.

Lemma Placement_linked (p : PromptInput) (s : Settings) (v : Vector)
    (i : ConversationIndex) (tr : list Obs) (i1 : ConversationIndex)
    (nodeId : string) (conf : float) (isNew : bool) :
  linked i -> Placement p s v i tr i1 nodeId conf isNew ->
  linked i1 /\ dict_has nodeId i1.(nodes) = true.
Proof.
  intros L H.
  destruct H as [hit1 hit2 B1 B2|hit1 lr now suffix c u B1 B2
                 |fv fullHit hitNode lr now suffix c u B1 Hlen B3 G Hr
                 |fv fullHit B1 Hlen B3 Hn|pre lr now suffix c u B1 Hm];
    try (apply linked_spawnInto; exact L).
  - split; [exact L|].
    destruct (bestMatch_candidate_own _ _ _ _ _ _ B2) as (n & Gn & _).
    apply dict_has_true. eauto.
  - split; [exact L|].
    destruct (bestMatch_winner _ _ _ _ B3) as (emb & Hin & _).
    unfold getAllEmbeddedCandidates in Hin.
    destruct (dict_In_get _ _ _ Hin) as (w & Gw).
    destruct L as (_ & Hemb & _). eauto.
Qed.

Lemma commit_post_linked (stack : nat) (hash nodeId : string) (conf : float)
    (isNew : bool) (promptIndex : Z) (i : ConversationIndex)
    (trc : list Obs) (o : Outcome ClassifyResult) (i' : ConversationIndex) :
  linked i -> dict_has nodeId i.(nodes) = true ->
  commit_post stack hash nodeId conf isNew promptIndex i trc o i' ->
  linked i'
  /\ (forall r, o = Returned r ->
        r = mkResult nodeId conf isNew
        /\ (exists n, dict_get nodeId i'.(nodes) = Some n
                      /\ In promptIndex n.(promptIndices))
        /\ dict_get hash i'.(cache) = Some (mkCacheEntry nodeId conf)).
Proof.
  intros L Hn (i2 & Hins & HC).
  pose proof (linked_insert _ _ _ _ _ Hins L) as L2.
  apply dict_has_true in Hn. destruct Hn as (n & Gn).
  destruct (insert_post_facts _ _ _ _ _ Hins) as (_ & Hsome & _).
  destruct (Hsome n Gn) as (t & n2 & _ & G2 & Hin & _).
  pose proof (recountSubtree_erase stack i2.(nodes) "root") as E.
  destruct (erase_get _ _ nodeId n2 (eq_sym E) G2) as (n' & G' & _ & Hp & _).
  assert (Has : dict_has nodeId (recounted stack i2).(nodes) = true)
    by (apply dict_has_true; exists n'; exact G').
  destruct (snd (recountSubtree stack i2.(nodes) "root")) as [tot|e].
  - destruct HC as [-> ->]. split.
    + apply linked_remember; [exact Has|]. apply linked_recounted. exact L2.
    + intros r [= <-]. split; [reflexivity|]. split.
      * exists n'. split; [exact G'|]. rewrite Hp. exact Hin.
      * cbn [remember cache set_cache]. apply dict_get_set_eq.
  - destruct HC as [-> ->]. split.
    + apply linked_recounted. exact L2.
    + intros r [=].
Qed.

Lemma classifyPrompt_linked (stack : nat) (p : PromptInput) (s : Settings)
    (i : ConversationIndex) (tr : list Obs) (o : Outcome ClassifyResult)
    (i' : ConversationIndex) :
  linked i ->
  Runs (classifyPrompt stack p s i) tr (o, i') ->
  linked i'
  /\ (forall r, o = Returned r ->
        (exists n, dict_get r.(nodeId) i'.(nodes) = Some n
                   /\ In p.(prompt_index) n.(promptIndices))
        /\ dict_get (hashPrompt p.(fullText)) i'.(cache)
           = Some (mkCacheEntry r.(nodeId) r.(confidence))).
Proof.
  intros L H. apply classifyPrompt_runs in H.
  destruct H as [H|(-> & -> & _)]; [|split; [exact L|intros r [=]]].
  unfold classify_post in H.
  destruct (dict_get (hashPrompt p.(fullText)) i.(cache)) as [cached|] eqn:Hc.
  - destruct H as (i1 & Hins & -> & ->).
    pose proof (linked_insert _ _ _ _ _ Hins L) as L1.
    split; [apply linked_recounted; exact L1|].
    intros r Hr.
    destruct (snd (recountSubtree stack i1.(nodes) "root")) as [tot|e];
      [|discriminate].
    injection Hr as <-. cbn [nodeId confidence].
    destruct L as (_ & _ & Hcache).
    pose proof (Hcache _ _ Hc) as Hn. apply dict_has_true in Hn.
    destruct Hn as (n & Gn).
    destruct (insert_post_facts _ _ _ _ _ Hins)
      as (_ & Hsome & _ & _ & _ & _ & Ecache & _).
    destruct (Hsome n Gn) as (t & n1 & _ & G1 & Hin & _).
    pose proof (recountSubtree_erase stack i1.(nodes) "root") as E.
    destruct (erase_get _ _ _ n1 (eq_sym E) G1) as (n' & G' & _ & Hp & _).
    split.
    + exists n'. split; [exact G'|]. rewrite Hp. exact Hin.
    + cbn [recounted cache set_nodes]. rewrite Ecache, Hc.
      destruct cached; reflexivity.
  - destruct H as [(e & _ & -> & ->)|H]; [split; [exact L|intros r [=]]|].
    destruct H as (v & trp & i1 & nid & conf & isNew & trc & HP & HC & _).
    destruct (Placement_linked _ _ _ _ _ _ _ _ _ L HP) as (L1 & Hn).
    destruct (commit_post_linked _ _ _ _ _ _ _ _ _ _ L1 Hn HC) as (L' & Hr).
    split; [exact L'|]. intros r Er.
    destruct (Hr r Er) as (-> & Hnode & Hcache). auto.
Qed.

Lemma initializeEmbeddings_linked (s : Settings) (i : ConversationIndex)
    (tr : list Obs) (o : Outcome unit) (i' : ConversationIndex) :
  linked i -> Runs (initializeEmbeddings s i) tr (o, i') -> linked i'.
Proof.
  intros (Hid & Hemb & Hcache) H.
  destruct (initializeEmbeddings_runs _ _ _ _ _ H) as (En & Ec & _ & Hnew).
  split; [|split].
  - rewrite En. exact Hid.
  - intros id v G. rewrite En.
    destruct (dict_get id i.(embeddings)) as [w|] eqn:G0; [eauto|].
    destruct (Hnew id) as (n & Hin & E & _); [congruence|].
    unfold dict_values in Hin. apply in_map_iff in Hin.
    destruct Hin as ([k n0] & E0 & Hin). simpl in E0. subst n0.
    rewrite (Hid k n Hin) in E. subst k.
    apply dict_has_true. eapply dict_In_get. exact Hin.
  - rewrite En, Ec. exact Hcache.
Qed.

Lemma createIndex_linked (cid : string) (tr : list Obs)
    (i : ConversationIndex) :
  Runs (createIndex cid) tr i -> linked i.
Proof.
  intros H. simpl in H.
  destruct H as (c & tr1 & _ & u & tr2 & _ & _ & ->).
  split; [|split].
  - intros k n [[= <- <-]|[]]. reflexivity.
  - intros id v G. discriminate.
  - intros h e G. discriminate.
Qed.

Lemma built_linked (i : ConversationIndex) : built i -> linked i.
Proof.
  intros B.
  induction B as [cid tr i H|stack p s i tr o i' B IH Hf H|s i tr o i' B IH H].
  - eapply createIndex_linked; eauto.
  - eapply classifyPrompt_linked; eauto.
  - eapply initializeEmbeddings_linked; eauto.
Qed.

(** X11. On a store that the engine has built, with room for three frames
    on the call stack, the recount never overflows: [classifyPrompt]
    returns, unless the embedding of the first sentence fails, and then it
    throws the error of step 2 after that one call and leaves the store
    untouched. *)
Theorem classifyPrompt_fails_only_on_embedding :
  forall (stack : nat) (p : PromptInput) (s : Settings)
         (i : ConversationIndex) (tr : list Obs)
         (o : Outcome ClassifyResult) (i' : ConversationIndex),
    built i -> fresh_ids tr i.(nodes) -> 3 <= stack ->
    Runs (classifyPrompt stack p s i) tr (o, i') ->
    (exists r, o = Returned r)
    \/ (exists e,
          dict_get (hashPrompt p.(fullText)) i.(cache) = None
          /\ tr = [ObsEmbed p.(firstSentence) (EmbedErr e)]
          /\ o = Thrown (Error ("[pipeline] Embed failed: " ++ e)%string)
          /\ i' = i).
Proof.
  intros stack p s i tr o i' B Hf Hstack H.
  pose proof (built_linked i B) as (_ & Lemb & Lcache).
  pose proof (built_ranked i B) as Hok.
  assert (Fits : forall j, ranked j.(nodes) ->
                   exists t, snd (recountSubtree stack j.(nodes) "root")
                             = Returned t).
  { intros j Hj. apply recount_returns_iff.
    apply terminates_mono with (stack := 3); [|exact Hstack].
    apply ranked_terminates. exact Hj. }
  apply classifyPrompt_runs in H.
  destruct H as [H|(_ & _ & F)].
  2:{ exfalso.
      destruct (dict_get (hashPrompt p.(fullText)) i.(cache))
        as [cached|] eqn:Hc.
      - destruct F as [F _]. apply Lcache, dict_has_true in Hc.
        destruct Hc as (n & Gn).
        exact (own_not_inherited _ _ _ Gn F).
      - destruct F as (v & fv & fullHit & _ & _ & B3 & F & _).
        destruct (bestMatch_winner _ _ _ _ B3) as (emb & Hin & _).
        unfold getAllEmbeddedCandidates in Hin.
        destruct (dict_In_get _ _ _ Hin) as (w & Gw).
        apply Lemb, dict_has_true in Gw. destruct Gw as (n & Gn).
        exact (own_not_inherited _ _ _ Gn F). }
  unfold classify_post in H.
  destruct (dict_get (hashPrompt p.(fullText)) i.(cache)) as [cached|].
  - destruct H as (i1 & Hins & _ & ->).
    destruct (Fits i1 (ranked_insert _ _ _ _ _ Hins Hok)) as [t ->]. eauto.
  - destruct H as [(e & -> & -> & ->)|H]; [right; eauto|].
    destruct H as (v & trp & i1 & nid & conf & isNew & trc & HP & HC & ->).
    assert (Hok1 : ranked i1.(nodes)).
    { eapply Placement_ranked; [exact Hok| |exact HP].
      apply (fresh_ids_suffix [ObsEmbed p.(firstSentence) (EmbedOk v)]) in Hf.
      eapply fresh_ids_prefix; eauto. }
    destruct HC as (i2 & Hins & HC).
    destruct (Fits i2 (ranked_insert _ _ _ _ _ Hins Hok1)) as [t Ht].
    rewrite Ht in HC. destruct HC as [-> _]. eauto.
Qed.

(** X17. On a store whose references resolve, a classification that
    returns has attached the passage to a node that exists: the node named
    in the result is in the store and lists the prompt index, and the cache
    maps the hash of the text to that node and confidence. The references
    of the store still resolve afterwards, whatever the outcome. *)
Theorem classifyPrompt_lands_on_a_node :
  forall (stack : nat) (p : PromptInput) (s : Settings)
         (i : ConversationIndex) (tr : list Obs)
         (o : Outcome ClassifyResult) (i' : ConversationIndex),
    linked i ->
    Runs (classifyPrompt stack p s i) tr (o, i') ->
    linked i'
    /\ (forall r, o = Returned r ->
          (exists n, dict_get r.(nodeId) i'.(nodes) = Some n
                     /\ n.(node_id) = r.(nodeId)
                     /\ In p.(prompt_index) n.(promptIndices))
          /\ dict_get (hashPrompt p.(fullText)) i'.(cache)
             = Some (mkCacheEntry r.(nodeId) r.(confidence))).
Proof.
  intros stack p s i tr o i' L H.
  destruct (classifyPrompt_linked stack p s i tr o i' L H) as (L' & Hr).
  split; [exact L'|]. intros r Er.
  destruct (Hr r Er) as ((n & G & Hin) & Hc). split; [|exact Hc].
  exists n. split; [exact G|]. split; [|exact Hin].
  destruct L' as (Hid & _). apply Hid. apply dict_get_In. exact G.
Qed.

(** X18. In every store that the engine builds, the references resolve:
    every node is stored under its own identifier, every vector belongs to
    a node of the store, and every cache entry points to a node of the
    store. *)
Theorem built_references_resolve :
  forall i : ConversationIndex,
    built i ->
    (forall k n, In (k, n) i.(nodes) -> n.(node_id) = k)
    /\ (forall id v, dict_get id i.(embeddings) = Some v ->
          exists n, dict_get id i.(nodes) = Some n)
    /\ (forall h e, dict_get h i.(cache) = Some e ->
          exists n, dict_get e.(cache_nodeId) i.(nodes) = Some n).
Proof.
  intros i B. destruct (built_linked i B) as (Hid & Hemb & Hcache).
  split; [exact Hid|]. split.
  - intros id v G. apply dict_has_true. eauto.
  - intros h e G. apply dict_has_true. eauto.
Qed.

(** ** Nothing is lost *)

Lemma node_extends_refl (n : OutlineNode) : node_extends n n.
Proof.
  repeat split; try reflexivity; exists []; rewrite app_nil_r; reflexivity.
Qed.

Lemma node_extends_trans (a b c : OutlineNode) :
  node_extends a b -> node_extends b c -> node_extends a c.
Proof.
  intros (A1 & A2 & A3 & A4 & (cs & A5) & (ps & A6))
         (B1 & B2 & B3 & B4 & (cs' & B5) & (ps' & B6)).
  repeat split; try congruence.
  - exists (cs ++ cs'). rewrite B5, A5, app_assoc. reflexivity.
  - exists (ps ++ ps'). rewrite B6, A6, app_assoc. reflexivity.
Qed.

Lemma grows_refl (i : ConversationIndex) : grows i i.
Proof.
  split; [|split; [|repeat split; auto]].
  - intros k n G. exists n. split; [exact G|apply node_extends_refl].
  - exists []. rewrite app_nil_r. reflexivity.
Qed.

Lemma grows_trans (a b c : ConversationIndex) :
  grows a b -> grows b c -> grows a c.
Proof.
  intros (A1 & (ks & A2) & A3 & A4 & A5 & A6)
         (B1 & (ks' & B2) & B3 & B4 & B5 & B6).
  split; [|split; [|repeat split; auto; congruence]].
  - intros k n G. destruct (A1 k n G) as (n1 & G1 & E1).
    destruct (B1 k n1 G1) as (n2 & G2 & E2).
    exists n2. split; [exact G2|]. eapply node_extends_trans; eauto.
  - exists (ks ++ ks'). rewrite B2, A2, app_assoc. reflexivity.
Qed.

Lemma grows_update (k : string) (f : OutlineNode -> OutlineNode)
    (i : ConversationIndex) :
  (forall n, node_extends n (f n)) ->
  grows i (set_nodes (dict_update k f i.(nodes)) i).
Proof.
  intros Hf. split; [|split; [|repeat split; auto]].
  - intros x n G. cbn [nodes set_nodes]. rewrite dict_get_update.
    destruct (String.eqb x k) eqn:E.
    + apply String.eqb_eq in E. subst x. rewrite G. simpl. eauto.
    + exists n. split; [exact G|apply node_extends_refl].
  - exists []. cbn [nodes set_nodes].
    rewrite dict_keys_update, app_nil_r. reflexivity.
Qed.

Lemma grows_insert (nodeId : string) (promptIndex : Z)
    (i : ConversationIndex) (tr : list Obs) (i' : ConversationIndex) :
  insert_post nodeId promptIndex i tr i' -> grows i i'.
Proof.
  unfold insert_post. destruct (lookup nodeId i.(nodes)); [|intros []|].
  - intros (now & _ & ->). unfold touchNode.
    eapply grows_trans; [|apply grows_update].
    + unfold attachPrompt. apply grows_update. intros n.
      destruct (existsb (Z.eqb promptIndex) n.(promptIndices)).
      * apply node_extends_refl.
      * repeat split; try reflexivity.
        -- exists []. rewrite app_nil_r. reflexivity.
        -- exists [promptIndex]. reflexivity.
    + intros n. repeat split; try reflexivity;
        exists []; rewrite app_nil_r; reflexivity.
  - intros [_ ->]. apply grows_refl.
Qed.

Lemma grows_recounted (stack : nat) (i : ConversationIndex) :
  grows i (recounted stack i).
Proof.
  pose proof (recountSubtree_erase stack i.(nodes) "root") as E.
  split; [|split; [|repeat split; auto]].
  - intros k n G.
    destruct (erase_get _ _ k n (eq_sym E) G) as (n' & G' & Hc & Hp & En).
    exists n'. split; [exact G'|].
    rewrite En. repeat split; try reflexivity;
      exists []; rewrite app_nil_r; reflexivity.
  - exists []. rewrite app_nil_r. apply dict_keys_erase. exact E.
Qed.

Lemma grows_remember (hash nodeId : string) (conf : float)
    (i : ConversationIndex) :
  dict_get hash i.(cache) = None -> grows i (remember hash nodeId conf i).
Proof.
  intros Hmiss. destruct (grows_refl i) as (A1 & A2 & A3 & _).
  split; [exact A1|]. split; [exact A2|]. split; [exact A3|].
  split; [|split; reflexivity].
  intros h e G. cbn [remember cache set_cache].
  rewrite dict_get_set_neq; [exact G|]. congruence.
Qed.

Lemma grows_spawnInto (id lbl parentId : string) (rk : NodeRank)
    (c u : Z) (v : Vector) (i : ConversationIndex) :
  dict_get id i.(nodes) = None -> dict_get id i.(embeddings) = None ->
  grows i (spawnInto (mkNode id lbl rk [] [] 0 c u) parentId (Some v) i).
Proof.
  intros Hnew Hemb.
  set (node := mkNode id lbl rk [] [] 0 c u).
  destruct (spawnInto_nodes node parentId (Some v) i) as [En Ee].
  destruct (spawnInto_cache node parentId (Some v) i) as [Ec Ep].
  split; [|split; [|split; [|split; [|split]]]].
  - intros k n G. rewrite spawnInto_get. cbn [node_id node].
    assert (Hk : String.eqb k id = false).
    { apply String.eqb_neq. congruence. }
    rewrite Hk, G. simpl. eexists. split; [reflexivity|].
    destruct (String.eqb k parentId); [|apply node_extends_refl].
    repeat split; try reflexivity.
    + exists [id]. reflexivity.
    + exists []. rewrite app_nil_r. reflexivity.
  - rewrite En. cbn [node_id node].
    assert (K : dict_keys (dict_set id node i.(nodes))
                = dict_keys i.(nodes) ++ [id]).
    { rewrite dict_keys_set. unfold dict_has. rewrite Hnew. reflexivity. }
    exists [id].
    destruct (dict_has parentId (dict_set id node i.(nodes)));
      [rewrite dict_keys_update|]; exact K.
  - intros x w G. rewrite Ee. cbn [node_id node].
    rewrite dict_get_set_neq; [exact G|]. congruence.
  - rewrite Ec. auto.
  - exact Ep.
  - unfold spawnInto. cbn [node_id node nodes set_nodes].
    destruct (dict_has parentId (dict_set id node i.(nodes))); reflexivity.
Qed.

Lemma linked_fresh_embedding (i : ConversationIndex) (id : string) :
  linked i -> dict_get id i.(nodes) = None ->
  dict_get id i.(embeddings) = None.
Proof.
  intros (_ & Hemb & _) Hnew.
  destruct (dict_get id i.(embeddings)) as [w|] eqn:G; [|reflexivity].
  pose proof (Hemb id w G) as H. unfold dict_has in H.
  rewrite Hnew in H. discriminate.
Qed.

Lemma Placement_grows (p : PromptInput) (s : Settings) (v : Vector)
    (i : ConversationIndex) (tr : list Obs) (i1 : ConversationIndex)
    (nodeId : string) (conf : float) (isNew : bool) :
  linked i -> fresh_ids tr i.(nodes) ->
  Placement p s v i tr i1 nodeId conf isNew -> grows i i1.
Proof.
  intros L Hfresh H.
  destruct H as [hit1 hit2 B1 B2|hit1 lr now suffix c u B1 B2
                 |fv fullHit hitNode lr now suffix c u B1 Hlen B3 G Hr
                 |fv fullHit B1 Hlen B3 Hn|pre lr now suffix c u B1 Hm];
    try apply grows_refl.
  - pose proof (fresh_ids_at
                  [ObsLabel p.(firstSentence) (existingLabelsOf i) lr]
                  [ObsNow c; ObsNow u] now suffix _ Hfresh) as Hnew.
    apply grows_spawnInto; [exact Hnew|].
    apply linked_fresh_embedding; assumption.
  - pose proof (fresh_ids_at
                  [ObsEmbed p.(fullText) (EmbedOk fv);
                   ObsLabel p.(firstSentence) (existingLabelsOf i) lr]
                  [ObsNow c; ObsNow u] now suffix _ Hfresh) as Hnew.
    apply grows_spawnInto; [exact Hnew|].
    apply linked_fresh_embedding; assumption.
  - apply fresh_ids_suffix in Hfresh.
    pose proof (fresh_ids_at
                  [ObsLabel p.(firstSentence) (existingLabelsOf i) lr]
                  [ObsNow c; ObsNow u] now suffix _ Hfresh) as Hnew.
    apply grows_spawnInto; [exact Hnew|].
    apply linked_fresh_embedding; assumption.
Qed.

Lemma classifyPrompt_grows (stack : nat) (p : PromptInput) (s : Settings)
    (i : ConversationIndex) (tr : list Obs) (o : Outcome ClassifyResult)
    (i' : ConversationIndex) :
  linked i -> fresh_ids tr i.(nodes) ->
  Runs (classifyPrompt stack p s i) tr (o, i') -> grows i i'.
Proof.
  intros L Hfresh H. apply classifyPrompt_runs in H.
  destruct H as [H|(_ & -> & _)]; [|apply grows_refl].
  unfold classify_post in H.
  destruct (dict_get (hashPrompt p.(fullText)) i.(cache)) as [cached|] eqn:Hc.
  - destruct H as (i1 & Hins & -> & _).
    eapply grows_trans; [eapply grows_insert; eauto|apply grows_recounted].
  - destruct H as [(e & _ & _ & ->)|H]; [apply grows_refl|].
    destruct H as (v & trp & i1 & nid & conf & isNew & trc & HP & HC & ->).
    assert (G1 : grows i i1).
    { eapply Placement_grows; [exact L| |exact HP].
      apply (fresh_ids_suffix [ObsEmbed p.(firstSentence) (EmbedOk v)]) in Hfresh.
      eapply fresh_ids_prefix; eauto. }
    destruct (Placement_cache _ _ _ _ _ _ _ _ _ HP) as (Ec1 & _).
    destruct HC as (i2 & Hins & HC).
    pose proof (grows_insert _ _ _ _ _ Hins) as G2.
    destruct (insert_post_cache _ _ _ _ _ Hins) as (Ec2 & _).
    eapply grows_trans; [exact G1|]. eapply grows_trans; [exact G2|].
    destruct (snd (recountSubtree stack i2.(nodes) "root"));
      destruct HC as [_ ->]; [|apply grows_recounted].
    eapply grows_trans; [apply grows_recounted|].
    apply grows_remember. cbn [recounted cache set_nodes].
    rewrite Ec2, Ec1. exact Hc.
Qed.

Lemma spawnInto_keys (node : OutlineNode) (parentId : string)
    (emb : option Vector) (i : ConversationIndex) :
  dict_keys (spawnInto node parentId emb i).(nodes)
  = if dict_has node.(node_id) i.(nodes) then dict_keys i.(nodes)
    else dict_keys i.(nodes) ++ [node.(node_id)].
Proof.
  destruct (spawnInto_nodes node parentId emb i) as [-> _].
  destruct (dict_has parentId (dict_set node.(node_id) node i.(nodes)));
    [rewrite dict_keys_update|]; apply dict_keys_set.
Qed.

Lemma insert_post_keys (nodeId : string) (promptIndex : Z)
    (i : ConversationIndex) (tr : list Obs) (i' : ConversationIndex) :
  insert_post nodeId promptIndex i tr i' ->
  dict_keys i'.(nodes) = dict_keys i.(nodes).
Proof. intros H. apply (insert_post_facts _ _ _ _ _ H). Qed.

Lemma recounted_keys (stack : nat) (i : ConversationIndex) :
  dict_keys (recounted stack i).(nodes) = dict_keys i.(nodes).
Proof. apply dict_keys_erase. apply recountSubtree_erase. Qed.

(** One more key per spawn. *)
Lemma classifyPrompt_key_count (stack : nat) (p : PromptInput) (s : Settings)
    (i : ConversationIndex) (tr : list Obs) (o : Outcome ClassifyResult)
    (i' : ConversationIndex) :
  fresh_ids tr i.(nodes) ->
  Runs (classifyPrompt stack p s i) tr (o, i') ->
  List.length (dict_keys i'.(nodes))
  = List.length (dict_keys i.(nodes)) + countObs isSpawn tr.
Proof.
  intros Hfresh H. apply classifyPrompt_runs in H.
  destruct H as [H|(_ & -> & F)].
  2:{ destruct (dict_get (hashPrompt p.(fullText)) i.(cache)) as [cached|].
      - destruct F as [_ ->]. cbv [countObs filter List.length]. lia.
      - destruct F as (v & fv & fullHit & _ & _ & _ & _ & ->).
        cbv [countObs filter isSpawn List.length]. lia. }
  unfold classify_post in H.
  destruct (dict_get (hashPrompt p.(fullText)) i.(cache)) as [cached|].
  - destruct H as (i1 & Hins & -> & _).
    rewrite recounted_keys, (insert_post_keys _ _ _ _ _ Hins).
    destruct (insert_post_counts _ _ _ _ _ Hins) as (_ & _ & _ & ->). lia.
  - destruct H as [(e & -> & _ & ->)|H]; [cbv [countObs filter isSpawn]; simpl; lia|].
    destruct H as (v & trp & i1 & nid & conf & isNew & trc & HP & HC & ->).
    apply (fresh_ids_suffix [ObsEmbed p.(firstSentence) (EmbedOk v)]) in Hfresh.
    apply fresh_ids_prefix in Hfresh.
    destruct HC as (i2 & Hins & HC).
    assert (K : dict_keys i'.(nodes) = dict_keys i1.(nodes)).
    { rewrite <- (insert_post_keys _ _ _ _ _ Hins).
      destruct (snd (recountSubtree stack i2.(nodes) "root"));
        destruct HC as [_ ->]; [|apply recounted_keys].
      cbn [remember nodes set_cache]. apply recounted_keys. }
    rewrite K.
    change (ObsEmbed p.(firstSentence) (EmbedOk v) :: trp ++ trc)
      with ([ObsEmbed p.(firstSentence) (EmbedOk v)] ++ trp ++ trc).
    rewrite !countObs_app.
    destruct (insert_post_counts _ _ _ _ _ Hins) as (_ & _ & _ & ->).
    change (countObs isSpawn [ObsEmbed p.(firstSentence) (EmbedOk v)]) with 0.
    assert (Spawned : forall parentId rk v0 lr now suffix c u,
              dict_get (makeId now suffix) i.(nodes) = None ->
              List.length
                (dict_keys
                   (spawnInto (mkNode (makeId now suffix)
                                 (labelOf lr p.(firstSentence)) rk [] [] 0 c u)
                              parentId (Some v0) i).(nodes))
              = List.length (dict_keys i.(nodes)) + 1).
    { intros parentId rk v0 lr now suffix c u Hnew.
      rewrite spawnInto_keys. cbn [node_id]. unfold dict_has. rewrite Hnew.
      rewrite length_app. reflexivity. }
    destruct HP as [hit1 hit2 B1 B2|hit1 lr now suffix c u B1 B2
                    |fv fullHit hitNode lr now suffix c u B1 Hlen B3 G Hr
                    |fv fullHit B1 Hlen B3 Hn|pre lr now suffix c u B1 Hm].
    + cbv [countObs filter isSpawn List.length]. lia.
    + rewrite Spawned.
      * cbv [countObs filter isSpawn List.length spawnTrace]. lia.
      * apply (fresh_ids_at
                 [ObsLabel p.(firstSentence) (existingLabelsOf i) lr]
                 [ObsNow c; ObsNow u] now suffix _ Hfresh).
    + rewrite Spawned.
      * cbv [countObs filter isSpawn List.length spawnTrace]. lia.
      * apply (fresh_ids_at
                 [ObsEmbed p.(fullText) (EmbedOk fv);
                  ObsLabel p.(firstSentence) (existingLabelsOf i) lr]
                 [ObsNow c; ObsNow u] now suffix _ Hfresh).
    + cbv [countObs filter isSpawn List.length]. lia.
    + rewrite Spawned.
      * rewrite countObs_app.
        assert (Epre : countObs isSpawn pre = 0).
        { destruct Hm as [[_ ->]|[(_ & e0 & ->)|(_ & fv & -> & _)]];
            reflexivity. }
        rewrite Epre.
        cbv [countObs filter isSpawn List.length spawnTrace]. lia.
      * apply fresh_ids_suffix in Hfresh.
        apply (fresh_ids_at
                 [ObsLabel p.(firstSentence) (existingLabelsOf i) lr]
                 [ObsNow c; ObsNow u] now suffix _ Hfresh).
Qed.

(** X19. A classification never takes anything away. On a store whose
    references resolve, and when the identifier it generates is a new one,
    every node keeps its identifier, label, rank and creation time, its
    children and its passages in their order (others may be pushed behind
    them); the keys of the store keep their order; every vector and every
    cache entry stays as it is; the list of prompts and the conversation
    identifier are not touched. This holds whether the call returns or
    throws. *)
Theorem classifyPrompt_only_grows :
  forall (stack : nat) (p : PromptInput) (s : Settings)
         (i : ConversationIndex) (tr : list Obs)
         (o : Outcome ClassifyResult) (i' : ConversationIndex),
    linked i -> fresh_ids tr i.(nodes) ->
    Runs (classifyPrompt stack p s i) tr (o, i') ->
    (forall k n, dict_get k i.(nodes) = Some n ->
       exists n', dict_get k i'.(nodes) = Some n'
                  /\ n'.(node_id) = n.(node_id) /\ n'.(label) = n.(label)
                  /\ n'.(rank) = n.(rank) /\ n'.(createdAt) = n.(createdAt)
                  /\ (exists cs, n'.(children) = n.(children) ++ cs)
                  /\ (exists ps, n'.(promptIndices) = n.(promptIndices) ++ ps))
    /\ (exists ks, dict_keys i'.(nodes) = dict_keys i.(nodes) ++ ks
                   /\ List.length ks = countObs isSpawn tr)
    /\ (forall id v, dict_get id i.(embeddings) = Some v ->
          dict_get id i'.(embeddings) = Some v)
    /\ (forall h e, dict_get h i.(cache) = Some e ->
          dict_get h i'.(cache) = Some e)
    /\ i'.(prompts) = i.(prompts)
    /\ i'.(conversationId) = i.(conversationId).
Proof.
  intros stack p s i tr o i' L Hfresh H.
  destruct (classifyPrompt_grows stack p s i tr o i' L Hfresh H)
    as (A1 & (ks & A2) & A3 & A4 & A5 & A6).
  split; [exact A1|]. split; [|auto].
  exists ks. split; [exact A2|].
  pose proof (classifyPrompt_key_count stack p s i tr o i' Hfresh H) as K.
  rewrite A2, length_app in K. lia.
Qed.

(** ** pipeline.ts: re-embedding the labels on page load *)

Lemma forEach_embed_runs (needs : list OutlineNode) :
  forall (j : ConversationIndex) (tr : list Obs) (o : Outcome unit)
         (j' : ConversationIndex),
    Runs (forEach needs
            (fun node =>
               res <- await (GEMINI_EMBED node.(label)) ;;
               match res with
               | EmbedOk e =>
                   modify (fun i =>
                             set_embeddings
                               (dict_set node.(node_id) e i.(embeddings)) i)
               | EmbedErr _ => ret tt
               end) j) tr (o, j') ->
    exists rs,
      List.length rs = List.length needs
      /\ tr = embedRequests (combine needs rs)
      /\ o = Returned tt
      /\ j' = set_embeddings
                (storeEmbeddings (combine needs rs) j.(embeddings)) j.
Proof.
  induction needs as [|n needs IH]; intros j tr o j' H.
  - simpl in H. destruct H as [-> [= -> ->]]. exists [].
    destruct j; repeat split; reflexivity.
  - cbn [forEach] in H. apply Runs_bind_inv in H.
    destruct H as (tr1 & tr2 & o1 & j1 & H1 & -> & H).
    cbn [bind await pbind Runs observe] in H1.
    destruct H1 as (res & tr0 & -> & H1).
    destruct res as [e|err]; cbn [modify ret Runs] in H1;
      destruct H1 as [-> [= -> ->]];
      destruct (IH _ _ _ _ H) as (rs & Hlen & -> & -> & ->).
    + exists (EmbedOk e :: rs). simpl. rewrite Hlen.
      repeat split; reflexivity.
    + exists (EmbedErr err :: rs). simpl. rewrite Hlen.
      repeat split; reflexivity.
Qed.

Lemma storeEmbeddings_other (answers : list (OutlineNode * EmbedResponse)) :
  forall (es : Dict Vector) (id : string),
    (forall a, In a answers -> (fst a).(node_id) <> id) ->
    dict_get id (storeEmbeddings answers es) = dict_get id es.
Proof.
  induction answers as [|[n r] answers IH]; intros es id Hid; simpl;
    [reflexivity|].
  assert (Hn : n.(node_id) <> id) by (apply (Hid (n, r)); simpl; auto).
  assert (Hrest : forall a, In a answers -> (fst a).(node_id) <> id)
    by (intros a Ha; apply Hid; simpl; auto).
  destruct r as [e|err].
  - rewrite IH by exact Hrest. apply dict_get_set_neq. congruence.
  - apply IH. exact Hrest.
Qed.

Lemma storeEmbeddings_has (answers : list (OutlineNode * EmbedResponse)) :
  forall (es : Dict Vector) (id : string),
    dict_has id es = true ->
    dict_has id (storeEmbeddings answers es) = true.
Proof.
  induction answers as [|[n r] answers IH]; intros es id H; simpl;
    [exact H|].
  destruct r as [e|err]; [|apply IH; exact H].
  apply IH. unfold dict_has in *.
  destruct (String.eqb_spec id n.(node_id)) as [->|N].
  - rewrite dict_get_set_eq. reflexivity.
  - rewrite dict_get_set_neq by exact N. exact H.
Qed.

Lemma storeEmbeddings_all_ok (answers : list (OutlineNode * EmbedResponse)) :
  forall (es : Dict Vector),
    (forall a, In a answers -> isEmbedFailure (ObsEmbed "" (snd a)) = false) ->
    forall a, In a answers ->
      dict_has (fst a).(node_id) (storeEmbeddings answers es) = true.
Proof.
  induction answers as [|[n r] answers IH]; intros es Hok a Ha;
    [destruct Ha|].
  simpl in Ha. destruct Ha as [<-|Ha].
  - pose proof (Hok (n, r) ltac:(simpl; auto)) as Hr. simpl in *.
    destruct r as [e|err]; [|discriminate].
    apply storeEmbeddings_has. unfold dict_has.
    rewrite dict_get_set_eq. reflexivity.
  - simpl. destruct r as [e|err]; apply IH; auto;
      intros b Hb; apply Hok; simpl; auto.
Qed.

Lemma In_combine_fst {A B : Type} (l : list A) (l' : list B) (a : A * B) :
  In a (combine l l') -> In (fst a) l.
Proof. destruct a as [x y]. apply in_combine_l. Qed.

Lemma combine_cover {A B : Type} (l : list A) :
  forall (l' : list B) (x : A),
    List.length l' = List.length l -> In x l ->
    exists y, In (x, y) (combine l l').
Proof.
  induction l as [|a l IH]; intros [|b l'] x Hlen Hin; simpl in *;
    try discriminate; [destruct Hin|].
  destruct Hin as [->|Hin]; [eauto|].
  destruct (IH l' x) as (y & Hy); [congruence|exact Hin|]. eauto.
Qed.

Lemma needsEmbed_In (i : ConversationIndex) (n : OutlineNode) :
  In n (needsEmbed i)
  <-> In n (dict_values i.(nodes)) /\ n.(rank) <> Rank0
      /\ dict_get n.(node_id) i.(embeddings) = None.
Proof.
  unfold needsEmbed. rewrite filter_In, andb_true_iff, Nat.ltb_lt,
    negb_true_iff.
  unfold dict_has.
  split.
  - intros (Hin & Hr & He). split; [exact Hin|]. split.
    + intros E. rewrite E in Hr. simpl in Hr. lia.
    + destruct (dict_get n.(node_id) i.(embeddings)); congruence.
  - intros (Hin & Hr & He). split; [exact Hin|]. split.
    + destruct n.(rank); simpl; try lia. congruence.
    + rewrite He. reflexivity.
Qed.

(** Every run of [initializeEmbeddings] with a key. *)
Lemma initializeEmbeddings_with_key (s : Settings) (i : ConversationIndex)
    (tr : list Obs) (o : Outcome unit) (i' : ConversationIndex) :
  s.(geminiApiKey) <> "" ->
  Runs (initializeEmbeddings s i) tr (o, i') ->
  exists rs,
    List.length rs = List.length (needsEmbed i)
    /\ tr = embedRequests (combine (needsEmbed i) rs)
    /\ o = Returned tt
    /\ i' = set_embeddings
              (storeEmbeddings (combine (needsEmbed i) rs) i.(embeddings)) i.
Proof.
  intros Hkey H. unfold initializeEmbeddings in H.
  apply String.eqb_neq in Hkey. rewrite Hkey in H.
  cbn [bind get pbind] in H.
  apply forEach_embed_runs in H. exact H.
Qed.

(** X20. [initializeEmbeddings] never throws and writes to the vector
    association only. Without an API key it makes no call and changes
    nothing. With a key it sends one embedding request for each node of a
    rank above zero that has no vector, in the order of the store, with the
    label of the node as the text; it stores the vector of each request
    that succeeds under the identifier of the node, skips the ones that
    fail, and leaves every vector that was there as it was. *)
Theorem initializeEmbeddings_requests_missing_vectors :
  forall (s : Settings) (i : ConversationIndex) (tr : list Obs)
         (o : Outcome unit) (i' : ConversationIndex),
    Runs (initializeEmbeddings s i) tr (o, i') ->
    o = Returned tt
    /\ i'.(nodes) = i.(nodes) /\ i'.(cache) = i.(cache)
    /\ i'.(prompts) = i.(prompts)
    /\ i'.(conversationId) = i.(conversationId)
    /\ (s.(geminiApiKey) = "" -> tr = [] /\ i' = i)
    /\ (s.(geminiApiKey) <> "" ->
        exists rs,
          List.length rs = List.length (needsEmbed i)
          /\ tr = embedRequests (combine (needsEmbed i) rs)
          /\ i'.(embeddings)
             = storeEmbeddings (combine (needsEmbed i) rs) i.(embeddings))
    /\ (forall n, In n (needsEmbed i)
                  <-> In n (dict_values i.(nodes)) /\ n.(rank) <> Rank0
                      /\ dict_get n.(node_id) i.(embeddings) = None)
    /\ (forall id v, dict_get id i.(embeddings) = Some v ->
          dict_get id i'.(embeddings) = Some v).
Proof.
  intros s i tr o i' H.
  destruct (String.eqb_spec s.(geminiApiKey) "") as [Hkey|Hkey].
  - unfold initializeEmbeddings in H. rewrite Hkey in H. simpl in H.
    destruct H as [-> [= -> ->]].
    repeat (split; [reflexivity|]).
    split; [auto|]. split; [congruence|].
    split; [apply needsEmbed_In|auto].
  - destruct (initializeEmbeddings_with_key s i tr o i' Hkey H)
      as (rs & Hlen & -> & -> & ->).
    repeat (split; [reflexivity|]).
    split; [congruence|]. split; [intros _; exists rs; auto|].
    split; [apply needsEmbed_In|].
    intros id v G. cbn [embeddings set_embeddings].
    rewrite storeEmbeddings_other; [exact G|].
    intros a Ha E. apply In_combine_fst in Ha.
    apply needsEmbed_In in Ha. destruct Ha as (_ & _ & Hn).
    rewrite E in Hn. congruence.
Qed.

(** X21. When it has a key and every request succeeds,
    [initializeEmbeddings] leaves a store in which every node of a rank
    above zero has a vector under its identifier; running it again then
    makes no call and changes nothing. *)
Theorem initializeEmbeddings_completes :
  forall (s : Settings) (i : ConversationIndex) (tr : list Obs)
         (o : Outcome unit) (i' : ConversationIndex),
    s.(geminiApiKey) <> "" ->
    Runs (initializeEmbeddings s i) tr (o, i') ->
    countObs isEmbedFailure tr = 0 ->
    (forall n, In n (dict_values i'.(nodes)) -> n.(rank) <> Rank0 ->
               dict_has n.(node_id) i'.(embeddings) = true)
    /\ needsEmbed i' = []
    /\ (forall s2 tr2 o2 i2,
          Runs (initializeEmbeddings s2 i') tr2 (o2, i2) ->
          tr2 = [] /\ o2 = Returned tt /\ i2 = i').
Proof.
  intros s i tr o i' Hkey H Hok.
  destruct (initializeEmbeddings_with_key s i tr o i' Hkey H)
    as (rs & Hlen & -> & -> & ->).
  assert (Hall : forall a, In a (combine (needsEmbed i) rs) ->
                   isEmbedFailure (ObsEmbed "" (snd a)) = false).
  { intros a Ha.
    destruct (isEmbedFailure (ObsEmbed "" (snd a))) eqn:E; [|reflexivity].
    exfalso. unfold countObs in Hok. apply length_zero_iff_nil in Hok.
    assert (Hin : In (ObsEmbed (fst a).(label) (snd a))
                     (filter isEmbedFailure
                        (embedRequests (combine (needsEmbed i) rs)))).
    { apply filter_In. split.
      - unfold embedRequests. apply in_map_iff. exists a. auto.
      - destruct (snd a); [discriminate|reflexivity]. }
    rewrite Hok in Hin. destruct Hin. }
  assert (Full : forall n, In n (dict_values i.(nodes)) -> n.(rank) <> Rank0 ->
                   dict_has n.(node_id)
                     (storeEmbeddings (combine (needsEmbed i) rs)
                        i.(embeddings)) = true).
  { intros n Hin Hr.
    destruct (dict_get n.(node_id) i.(embeddings)) as [w|] eqn:G.
    - apply storeEmbeddings_has. unfold dict_has. rewrite G. reflexivity.
    - assert (Hn : In n (needsEmbed i)) by (apply needsEmbed_In; auto).
      destruct (combine_cover (needsEmbed i) rs n Hlen Hn) as (r & Hr').
      apply (storeEmbeddings_all_ok _ _ Hall (n, r) Hr'). }
  assert (Empty : needsEmbed
                    (set_embeddings
                       (storeEmbeddings (combine (needsEmbed i) rs)
                          i.(embeddings)) i) = []).
  { unfold needsEmbed at 1. cbn [nodes embeddings set_embeddings].
    induction (dict_values i.(nodes)) as [|n l IH]; [reflexivity|].
    simpl.
    assert (Hn : (0 <? rank_nat n.(rank))
                 && negb (dict_has n.(node_id)
                            (storeEmbeddings (combine (needsEmbed i) rs)
                               i.(embeddings))) = false).
    { destruct (0 <? rank_nat n.(rank)) eqn:Hr; [|reflexivity]. simpl.
      rewrite Full; [reflexivity|simpl; auto|].
      intros E. rewrite E in Hr. discriminate. }
    rewrite Hn. apply IH. intros m Hm. apply Full. simpl. auto. }
  split; [exact Full|]. split; [exact Empty|].
  intros s2 tr2 o2 i2 H2.
  destruct (String.eqb_spec s2.(geminiApiKey) "") as [Hkey2|Hkey2].
  - unfold initializeEmbeddings in H2. rewrite Hkey2 in H2. simpl in H2.
    destruct H2 as [-> [= -> ->]]. auto.
  - destruct (initializeEmbeddings_with_key _ _ _ _ _ Hkey2 H2)
      as (rs2 & _ & -> & -> & ->).
    rewrite Empty. simpl. repeat split.
Qed.

(** ** content.ts: the bookkeeping of the queue processor *)

Lemma existsb_eqb_In (h : string) (l : list string) :
  existsb (String.eqb h) l = true <-> In h l.
Proof.
  rewrite existsb_exists. split.
  - intros (x & Hin & E). apply String.eqb_eq in E. subst. exact Hin.
  - intros H. exists h. split; [exact H|apply String.eqb_refl].
Qed.

Lemma set_add_In (x h : string) (s : list string) :
  In h (set_add x s) <-> h = x \/ In h s.
Proof.
  unfold set_add. destruct (existsb (String.eqb x) s) eqn:E.
  - apply existsb_eqb_In in E. split; [auto|]. intros [->|H]; auto.
  - rewrite in_app_iff. simpl. intuition.
Qed.

Lemma classifyPrompt_prompts (stack : nat) (p : PromptInput) (s : Settings)
    (i : ConversationIndex) (tr : list Obs) (o : Outcome ClassifyResult)
    (i' : ConversationIndex) :
  Runs (classifyPrompt stack p s i) tr (o, i') ->
  i'.(prompts) = i.(prompts) /\ i'.(conversationId) = i.(conversationId).
Proof.
  intros H. apply classifyPrompt_runs in H.
  destruct H as [H|(_ & -> & _)]; [|auto].
  unfold classify_post in H.
  assert (Ins : forall nid pidx j trj j',
             insert_post nid pidx j trj j' ->
             j'.(prompts) = j.(prompts)
             /\ j'.(conversationId) = j.(conversationId)).
  { intros nid pidx j trj j' Hins.
    destruct (insert_post_facts _ _ _ _ _ Hins)
      as (_ & _ & _ & _ & Hp & _ & _ & Hc). auto. }
  destruct (dict_get (hashPrompt p.(fullText)) i.(cache)) as [cached|].
  - destruct H as (i1 & Hins & -> & _). apply (Ins _ _ _ _ _ Hins).
  - destruct H as [(e & _ & _ & ->)|H]; [auto|].
    destruct H as (v & trp & i1 & nid & conf & isNew & trc & HP & HC & _).
    assert (P1 : i1.(prompts) = i.(prompts)
                 /\ i1.(conversationId) = i.(conversationId)).
    { destruct HP; try (split; reflexivity);
        (split; [apply spawnInto_cache|]);
        unfold spawnInto; cbn [node_id nodes set_nodes];
        match goal with
        | |- context [dict_has ?a ?b] => destruct (dict_has a b)
        end; reflexivity. }
    destruct HC as (i2 & Hins & HC).
    destruct (Ins _ _ _ _ _ Hins) as (P2 & C2).
    destruct P1 as (P1 & C1).
    destruct (snd (recountSubtree stack i2.(nodes) "root"));
      destruct HC as [_ ->]; simpl; split; congruence.
Qed.

(** The keys of the cache after a classification: the hash of the text is
    added when the call returns, and nothing changes when it throws. *)
Lemma classifyPrompt_cache_keys (stack : nat) (p : PromptInput)
    (s : Settings) (i : ConversationIndex) (tr : list Obs)
    (o : Outcome ClassifyResult) (i' : ConversationIndex) :
  Runs (classifyPrompt stack p s i) tr (o, i') ->
  forall h,
    dict_has h i'.(cache)
    = match o with
      | Returned _ =>
          String.eqb h (hashPrompt p.(fullText)) || dict_has h i.(cache)
      | Thrown _ => dict_has h i.(cache)
      end.
Proof.
  intros H h. apply classifyPrompt_runs in H.
  destruct H as [H|(-> & -> & _)]; [|reflexivity].
  unfold classify_post in H.
  destruct (dict_get (hashPrompt p.(fullText)) i.(cache)) as [cached|] eqn:Hc.
  - destruct H as (i1 & Hins & -> & ->).
    destruct (insert_post_cache _ _ _ _ _ Hins) as (Ec & _).
    cbn [recounted cache set_nodes]. rewrite Ec.
    destruct (snd (recountSubtree stack i1.(nodes) "root")); [|reflexivity].
    destruct (String.eqb_spec h (hashPrompt p.(fullText))) as [->|];
      [|reflexivity].
    unfold dict_has. rewrite Hc. reflexivity.
  - destruct H as [(e & _ & -> & ->)|H]; [reflexivity|].
    destruct H as (v & trp & i1 & nid & conf & isNew & trc & HP & HC & _).
    destruct (Placement_cache _ _ _ _ _ _ _ _ _ HP) as (Ec1 & _).
    destruct HC as (i2 & Hins & HC).
    destruct (insert_post_cache _ _ _ _ _ Hins) as (Ec2 & _).
    destruct (snd (recountSubtree stack i2.(nodes) "root"));
      destruct HC as [-> ->];
      cbn [remember recounted cache set_nodes set_cache];
      rewrite Ec2, Ec1; [|reflexivity].
    unfold dict_has.
    destruct (String.eqb_spec h (hashPrompt p.(fullText))) as [->|N].
    + rewrite dict_get_set_eq. reflexivity.
    + rewrite dict_get_set_neq by exact N. reflexivity.
Qed.

(** One turn of the loop of [drainQueue]. *)
Lemma drainLoop_cons_inv (stack : nat) (settings : Settings)
    (msg : ParsedMessage) (rest : list ParsedMessage)
    (index : ConversationIndex) (processed : list string) (tr : list Obs)
    (out : ConversationIndex * list string) :
  Runs (drainLoop stack settings (msg :: rest) index processed) tr out ->
  (In (hashPrompt msg.(msg_fullText)) processed
   /\ Runs (drainLoop stack settings rest index processed) tr out)
  \/ (~ In (hashPrompt msg.(msg_fullText)) processed
      /\ exists trc o i1 tr',
           Runs (classifyPrompt stack (promptOf msg) settings
                   (set_prompts (index.(prompts) ++ [recordOf msg]) index))
                trc (o, i1)
           /\ match o with
              | Returned _ =>
                  exists saved : bool,
                    tr = trc ++ ObsSave (snapshot i1) saved :: tr'
                    /\ Runs (drainLoop stack settings rest
                               (if saved then i1 else popPrompt i1)
                               (set_add (hashPrompt msg.(msg_fullText))
                                        processed))
                            tr' out
              | Thrown _ =>
                  tr = trc ++ tr'
                  /\ Runs (drainLoop stack settings rest (popPrompt i1)
                             processed) tr' out
              end).
Proof.
  cbn [drainLoop]. intros H.
  destruct (existsb (String.eqb (hashPrompt msg.(msg_fullText))) processed)
    eqn:E.
  - left. apply existsb_eqb_In in E. auto.
  - right. split.
    { intros Hin. apply existsb_eqb_In in Hin. congruence. }
    apply Runs_pbind_inv in H.
    destruct H as (trc & tr2 & [o i1] & H1 & H2 & ->).
    exists trc, o, i1.
    destruct o as [r|e]; cbn beta iota in H2.
    + cbn [Runs observe] in H2. destruct H2 as (saved & tr' & -> & H2).
      exists tr'. split; [exact H1|]. exists saved. split; [reflexivity|].
      destruct saved; exact H2.
    + exists tr2. split; [exact H1|]. auto.
Qed.

Lemma popPrompt_after_classify (stack : nat) (msg : ParsedMessage)
    (settings : Settings) (index : ConversationIndex) (trc : list Obs)
    (o : Outcome ClassifyResult) (i1 : ConversationIndex) :
  Runs (classifyPrompt stack (promptOf msg) settings
          (set_prompts (index.(prompts) ++ [recordOf msg]) index))
       trc (o, i1) ->
  i1.(prompts) = index.(prompts) ++ [recordOf msg]
  /\ (popPrompt i1).(prompts) = index.(prompts)
  /\ (popPrompt i1).(cache) = i1.(cache)
  /\ (popPrompt i1).(nodes) = i1.(nodes)
  /\ (popPrompt i1).(embeddings) = i1.(embeddings).
Proof.
  intros H. destruct (classifyPrompt_prompts _ _ _ _ _ _ _ H) as (Hp & _).
  cbn [prompts set_prompts] in Hp. split; [exact Hp|].
  unfold popPrompt. cbn [prompts set_prompts cache nodes embeddings].
  rewrite Hp, removelast_last. auto.
Qed.

Lemma capabilityCalls_app (a b : list Obs) :
  capabilityCalls (a ++ b) = capabilityCalls a + capabilityCalls b.
Proof.
  unfold capabilityCalls. rewrite filter_app, length_app. reflexivity.
Qed.

Lemma drainLoop_invariant (stack : nat) (settings : Settings)
    (queue : list ParsedMessage) :
  forall (index : ConversationIndex) (processed : list string)
         (tr : list Obs) (index' : ConversationIndex)
         (processed' : list string),
    processed_is_cached index processed ->
    Runs (drainLoop stack settings queue index processed) tr
         (index', processed') ->
    processed_is_cached index' processed'
    /\ (forall h, In h processed -> In h processed')
    /\ (forall h, In h processed' ->
          In h processed
          \/ exists m, In m queue /\ h = hashPrompt m.(msg_fullText))
    /\ (capabilityCalls tr = 0 ->
        tr = [] /\ index' = index /\ processed' = processed).
Proof.
  induction queue as [|msg rest IH];
    intros index processed tr index' processed' Inv H.
  - simpl in H. destruct H as [-> [= -> ->]].
    split; [exact Inv|]. split; [auto|]. split; [auto|]. auto.
  - apply drainLoop_cons_inv in H.
    destruct H as [[Hin H]|(Hnew & trc & o & i1 & tr' & H1 & H)].
    + destruct (IH _ _ _ _ _ Inv H) as (I1 & I2 & I3 & I4).
      split; [exact I1|]. split; [exact I2|]. split; [|exact I4].
      intros h Hh. destruct (I3 h Hh) as [|(m & Hm & ->)]; [auto|].
      right. exists m. simpl. auto.
    + set (hash := hashPrompt msg.(msg_fullText)) in *.
      pose proof (classifyPrompt_cache_keys _ _ _ _ _ _ _ H1) as Keys.
      cbn [promptOf fullText cache set_prompts] in Keys.
      fold hash in Keys.
      destruct (popPrompt_after_classify _ _ _ _ _ _ _ H1)
        as (_ & _ & Pc & _).
      assert (Miss : dict_has hash index.(cache) = false).
      { destruct (dict_has hash index.(cache)) eqn:E; [|reflexivity].
        exfalso. apply Hnew. apply Inv. exact E. }
      assert (Paid : 1 <= capabilityCalls trc).
      { destruct (classifyPrompt_call_budget_first _ _ _ _ _ _ _ H1 Miss)
          as (r & rest0 & ->).
        unfold capabilityCalls. simpl. lia. }
      destruct o as [r|e].
      * destruct H as (saved & -> & H).
        assert (Inv1 : processed_is_cached
                         (if saved then i1 else popPrompt i1)
                         (set_add hash processed)).
        { intros h. rewrite set_add_In.
          replace (dict_has h (if saved then i1 else popPrompt i1).(cache))
            with (dict_has h i1.(cache))
            by (destruct saved; [reflexivity|rewrite Pc; reflexivity]).
          rewrite Keys, orb_true_iff, String.eqb_eq.
          rewrite (Inv h). reflexivity. }
        destruct (IH _ _ _ _ _ Inv1 H) as (I1 & I2 & I3 & I4).
        split; [exact I1|]. split; [|split].
        -- intros h Hh. apply I2. apply set_add_In. auto.
        -- intros h Hh. destruct (I3 h Hh) as [Hs|(m & Hm & ->)].
           ++ apply set_add_In in Hs. destruct Hs as [->|Hs]; [|auto].
              right. exists msg. simpl. auto.
           ++ right. exists m. simpl. auto.
        -- intros Hz. rewrite capabilityCalls_app in Hz. lia.
      * destruct H as (-> & H).
        assert (Inv1 : processed_is_cached (popPrompt i1) processed).
        { intros h. rewrite Pc, Keys. apply Inv. }
        destruct (IH _ _ _ _ _ Inv1 H) as (I1 & I2 & I3 & I4).
        split; [exact I1|]. split; [exact I2|]. split.
        -- intros h Hh. destruct (I3 h Hh) as [|(m & Hm & ->)]; [auto|].
           right. exists m. simpl. auto.
        -- intros Hz. rewrite capabilityCalls_app in Hz. lia.
Qed.

(** A classification saves nothing. *)
Lemma classifyPrompt_no_save (stack : nat) (p : PromptInput) (s : Settings)
    (i : ConversationIndex) (tr : list Obs) (o : Outcome ClassifyResult)
    (i' : ConversationIndex) :
  Runs (classifyPrompt stack p s i) tr (o, i') ->
  forall x, In x tr -> isSave x = false.
Proof.
  intros H. apply classifyPrompt_runs in H.
  destruct H as [H|(_ & _ & F)].
  2:{ destruct (dict_get (hashPrompt p.(fullText)) i.(cache)) as [cached|].
      - destruct F as [_ ->]. intros x [].
      - destruct F as (v & fv & fullHit & _ & _ & _ & _ & ->).
        intros x [<-|[<-|[]]]; reflexivity. }
  unfold classify_post in H.
  assert (Ins : forall nid pidx j trj j',
             insert_post nid pidx j trj j' ->
             forall x, In x trj -> isSave x = false).
  { intros nid pidx j trj j' Hins x Hx. apply insert_post_trace in Hins.
    destruct Hins as [->|[now ->]]; [destruct Hx|].
    destruct Hx as [<-|[]]. reflexivity. }
  destruct (dict_get (hashPrompt p.(fullText)) i.(cache)) as [cached|].
  - destruct H as (i1 & Hins & _). eapply Ins; eauto.
  - destruct H as [(e & -> & _)|H].
    { intros x [<-|[]]. reflexivity. }
    destruct H as (v & trp & i1 & nid & conf & isNew & trc & HP & HC & ->).
    destruct HC as (i2 & Hins & _).
    intros x [<-|Hx]; [reflexivity|].
    apply in_app_or in Hx. destruct Hx as [Hx|Hx]; [|eapply Ins; eauto].
    destruct HP as [hit1 hit2 B1 B2|hit1 lr now suffix c u B1 B2
                    |fv fullHit hitNode lr now suffix c u B1 Hlen B3 G Hr
                    |fv fullHit B1 Hlen B3 Hn|pre lr now suffix c u B1 Hm];
      simpl in Hx;
      try (apply in_app_or in Hx; destruct Hx as [Hx|Hx];
           [destruct Hm as [[_ ->]|[(_ & e0 & ->)|(_ & fv & -> & _)]];
            simpl in Hx|simpl in Hx]);
      repeat match goal with
             | H : _ \/ _ |- _ => destruct H
             | H : False |- _ => destruct H
             | H : _ = x |- _ => rewrite <- H; reflexivity
             end.
Qed.

Lemma countObs_none (f : Obs -> bool) (tr : list Obs) :
  (forall x, In x tr -> f x = false) -> countObs f tr = 0.
Proof.
  unfold countObs. induction tr as [|x tr IH]; intros H; [reflexivity|].
  simpl. rewrite (H x) by (simpl; auto). apply IH.
  intros y Hy. apply H. simpl. auto.
Qed.

Lemma classifyPrompt_no_saved_ok (stack : nat) (p : PromptInput)
    (s : Settings) (i : ConversationIndex) (tr : list Obs)
    (o : Outcome ClassifyResult) (i' : ConversationIndex) :
  Runs (classifyPrompt stack p s i) tr (o, i') -> countObs isSavedOk tr = 0.
Proof.
  intros H. apply countObs_none. intros x Hx.
  pose proof (classifyPrompt_no_save _ _ _ _ _ _ _ H x Hx) as E.
  destruct x; try reflexivity. discriminate.
Qed.

Lemma prompts_recorded_weaken (index index' : ConversationIndex)
    (processed processed' : list string) :
  index'.(prompts) = index.(prompts) ->
  (forall h, In h processed -> In h processed') ->
  prompts_recorded index processed -> prompts_recorded index' processed'.
Proof.
  intros Ep Hsub (Hnd & Hrec). unfold prompts_recorded. rewrite Ep.
  split; [exact Hnd|]. intros r Hr. destruct (Hrec r Hr). auto.
Qed.

Lemma drainLoop_prompts (stack : nat) (settings : Settings)
    (queue : list ParsedMessage) :
  forall (index : ConversationIndex) (processed : list string)
         (tr : list Obs) (index' : ConversationIndex)
         (processed' : list string),
    prompts_recorded index processed ->
    Runs (drainLoop stack settings queue index processed) tr
         (index', processed') ->
    prompts_recorded index' processed'
    /\ exists new,
         index'.(prompts) = index.(prompts) ++ new
         /\ (forall r, In r new -> exists m, In m queue /\ r = recordOf m)
         /\ List.length new = countObs isSavedOk tr.
Proof.
  induction queue as [|msg rest IH];
    intros index processed tr index' processed' Inv H.
  - simpl in H. destruct H as [-> [= -> ->]]. split; [exact Inv|].
    exists []. rewrite app_nil_r. split; [reflexivity|].
    split; [intros r []|reflexivity].
  - apply drainLoop_cons_inv in H.
    destruct H as [[Hin H]|(Hnew & trc & o & i1 & tr' & H1 & H)].
    + destruct (IH _ _ _ _ _ Inv H) as (I1 & new & I2 & I3 & I4).
      split; [exact I1|]. exists new. split; [exact I2|]. split; [|exact I4].
      intros r Hr. destruct (I3 r Hr) as (m & Hm & ->).
      exists m. simpl. auto.
    + set (hash := hashPrompt msg.(msg_fullText)) in *.
      destruct (popPrompt_after_classify _ _ _ _ _ _ _ H1)
        as (Hp1 & Hpop & _).
      pose proof (classifyPrompt_no_saved_ok _ _ _ _ _ _ _ H1) as Hquiet.
      assert (Popped : forall processed1,
                (forall h, In h processed -> In h processed1) ->
                prompts_recorded (popPrompt i1) processed1).
      { intros processed1 Hsub.
        apply (prompts_recorded_weaken index _ processed); auto. }
      destruct o as [r|e].
      * destruct H as (saved & -> & H).
        assert (Hsub : forall h, In h processed ->
                         In h (set_add hash processed))
          by (intros h Hh; apply set_add_In; auto).
        rewrite countObs_app, Hquiet.
        destruct saved.
        -- assert (Inv1 : prompts_recorded i1 (set_add hash processed)).
           { destruct Inv as (Hnd & Hrec). unfold prompts_recorded.
             rewrite Hp1. split.
             - rewrite map_app. apply NoDup_app; [exact Hnd| |].
               + simpl. repeat constructor. intros [].
               + intros h Hh [<-|[]]. apply Hnew.
                 apply in_map_iff in Hh. destruct Hh as (r0 & E0 & Hr0).
                 destruct (Hrec r0 Hr0) as (_ & Hin).
                 simpl in E0. unfold hash. rewrite <- E0. exact Hin.
             - intros r0 Hr0. apply in_app_or in Hr0.
               destruct Hr0 as [Hr0|[<-|[]]].
               + destruct (Hrec r0 Hr0). auto.
               + simpl. split; [reflexivity|]. apply set_add_In. auto. }
           destruct (IH _ _ _ _ _ Inv1 H) as (I1 & new & I2 & I3 & I4).
           split; [exact I1|]. exists (recordOf msg :: new).
           split; [rewrite I2, Hp1, <- app_assoc; reflexivity|]. split.
           ++ intros r0 [<-|Hr0]; [exists msg; simpl; auto|].
              destruct (I3 r0 Hr0) as (m & Hm & ->). exists m. simpl. auto.
           ++ change (ObsSave (snapshot i1) true :: tr')
                with ([ObsSave (snapshot i1) true] ++ tr').
              rewrite countObs_app. simpl. rewrite I4. reflexivity.
        -- destruct (IH _ _ _ _ _ (Popped _ Hsub) H)
             as (I1 & new & I2 & I3 & I4).
           split; [exact I1|]. exists new.
           split; [rewrite I2, Hpop; reflexivity|]. split.
           ++ intros r0 Hr0. destruct (I3 r0 Hr0) as (m & Hm & ->).
              exists m. simpl. auto.
           ++ change (ObsSave (snapshot i1) false :: tr')
                with ([ObsSave (snapshot i1) false] ++ tr').
              rewrite countObs_app. simpl. exact I4.
      * destruct H as (-> & H).
        destruct (IH _ _ _ _ _ (Popped processed (fun h Hh => Hh)) H)
          as (I1 & new & I2 & I3 & I4).
        split; [exact I1|]. exists new.
        split; [rewrite I2, Hpop; reflexivity|]. split.
        -- intros r0 Hr0. destruct (I3 r0 Hr0) as (m & Hm & ->).
           exists m. simpl. auto.
        -- rewrite countObs_app, Hquiet. exact I4.
Qed.

(** Every run of [drainQueue]: nothing when a drain is in progress or the
    queue is empty, the loop otherwise. *)
Lemma drainQueue_runs (stack : nat) (settings : Settings)
    (st : ContentState) (tr : list Obs) (st' : ContentState) :
  Runs (drainQueue stack settings st) tr st' ->
  (st.(isProcessing) = true /\ tr = [] /\ st' = st)
  \/ (st.(isProcessing) = false /\ st.(processingQueue) = []
      /\ tr = [] /\ st' = st)
  \/ (st.(isProcessing) = false
      /\ exists index' processed',
           Runs (drainLoop stack settings st.(processingQueue)
                   st.(st_index) st.(processedHashes)) tr
                (index', processed')
           /\ st' = mkContent index' processed' [] false).
Proof.
  unfold drainQueue. intros H.
  destruct st.(isProcessing) eqn:Ep; simpl in H.
  - destruct H as [-> ->]. auto.
  - destruct st.(processingQueue) as [|m q] eqn:Eq; simpl in H.
    + destruct H as [-> ->]. right. left. auto.
    + right. right. split; [reflexivity|].
      apply Runs_pbind_inv in H.
      destruct H as (tr1 & tr2 & [i' pr'] & H1 & [-> ->] & ->).
      rewrite app_nil_r. exists i', pr'. auto.
Qed.

(** X22. The set of processed hashes and the keys of the cache stay in
    step. When they agree before a [drainQueue], they agree after it, in
    every run; a hash is never removed, and one is added only for a message
    of the queue; and a run that makes no capability call has skipped every
    message and changed nothing, since a message that is not skipped is
    never a cache hit. A drain that finds another one in progress does
    nothing; otherwise it ends with an empty queue and the flag down. *)
Theorem drainQueue_processed_is_cached :
  forall (stack : nat) (settings : Settings) (st : ContentState)
         (tr : list Obs) (st' : ContentState),
    processed_is_cached st.(st_index) st.(processedHashes) ->
    Runs (drainQueue stack settings st) tr st' ->
    processed_is_cached st'.(st_index) st'.(processedHashes)
    /\ (forall h, In h st.(processedHashes) -> In h st'.(processedHashes))
    /\ (forall h, In h st'.(processedHashes) ->
          In h st.(processedHashes)
          \/ exists m, In m st.(processingQueue)
                       /\ h = hashPrompt m.(msg_fullText))
    /\ (capabilityCalls tr = 0 ->
        tr = [] /\ st'.(st_index) = st.(st_index)
        /\ st'.(processedHashes) = st.(processedHashes))
    /\ (st.(isProcessing) = true -> tr = [] /\ st' = st)
    /\ (st.(isProcessing) = false ->
        st'.(processingQueue) = [] /\ st'.(isProcessing) = false).
Proof.
  intros stack settings st tr st' Inv H.
  apply drainQueue_runs in H.
  destruct H as [(Ep & -> & ->)|[(Ep & Eq & -> & ->)|(Ep & i' & pr' & H & ->)]].
  - split; [exact Inv|]. split; [auto|]. split; [auto|].
    split; [auto|]. split; [auto|]. congruence.
  - split; [exact Inv|]. split; [auto|]. split; [auto|].
    split; [auto|]. split; [auto|]. auto.
  - destruct (drainLoop_invariant _ _ _ _ _ _ _ _ Inv H)
      as (I1 & I2 & I3 & I4).
    cbn [st_index processedHashes processingQueue isProcessing].
    split; [exact I1|]. split; [exact I2|]. split; [exact I3|].
    split; [exact I4|]. split; [congruence|auto].
Qed.

(** X23. The list of prompts holds each passage once. When no two of its
    records share a hash, each record carries the hash of its text and
    that hash is marked as processed, the same holds after a [drainQueue],
    in every run; the list is the old one with records of queued messages
    pushed behind it, one for each save that succeeded: the record of a
    message whose classification threw, or whose save failed, is popped
    again. *)
Theorem drainQueue_prompts_recorded :
  forall (stack : nat) (settings : Settings) (st : ContentState)
         (tr : list Obs) (st' : ContentState),
    prompts_recorded st.(st_index) st.(processedHashes) ->
    Runs (drainQueue stack settings st) tr st' ->
    prompts_recorded st'.(st_index) st'.(processedHashes)
    /\ exists new,
         st'.(st_index).(prompts) = st.(st_index).(prompts) ++ new
         /\ (forall r, In r new ->
               exists m, In m st.(processingQueue) /\ r = recordOf m)
         /\ List.length new = countObs isSavedOk tr.
Proof.
  intros stack settings st tr st' Inv H.
  apply drainQueue_runs in H.
  destruct H as [(Ep & -> & ->)|[(Ep & Eq & -> & ->)|(Ep & i' & pr' & H & ->)]].
  - split; [exact Inv|]. exists []. rewrite app_nil_r.
    split; [reflexivity|]. split; [intros r []|reflexivity].
  - split; [exact Inv|]. exists []. rewrite app_nil_r.
    split; [reflexivity|]. split; [intros r []|reflexivity].
  - exact (drainLoop_prompts _ _ _ _ _ _ _ _ Inv H).
Qed.

Lemma linked_set_prompts (ps : list PromptRecord) (i : ConversationIndex) :
  linked i -> linked (set_prompts ps i).
Proof. intros L. exact L. Qed.

(** X24. A save that fails after a classification that returned: the
    record of the passage is popped from the list of prompts, while the
    passage stays attached to its node, its placement stays in the cache
    and its hash stays marked as processed. The passage is therefore not
    retried: a later [drainQueue] on the same message skips it without a
    call, and the list of prompts does not get its record back. *)
Theorem drainQueue_save_failure_drops_record :
  forall (stack : nat) (settings : Settings) (msg : ParsedMessage)
         (index : ConversationIndex) (processed : list string)
         (tr : list Obs) (st' : ContentState) (stored : StoredConversation),
    linked index ->
    ~ In (hashPrompt msg.(msg_fullText)) processed ->
    Runs (drainQueue stack settings (mkContent index processed [msg] false))
         tr st' ->
    In (ObsSave stored false) tr ->
    stored.(stored_prompts) = index.(prompts) ++ [recordOf msg]
    /\ st'.(st_index).(prompts) = index.(prompts)
    /\ In (hashPrompt msg.(msg_fullText)) st'.(processedHashes)
    /\ (exists e n,
          dict_get (hashPrompt msg.(msg_fullText)) st'.(st_index).(cache)
          = Some e
          /\ dict_get e.(cache_nodeId) st'.(st_index).(nodes) = Some n
          /\ In msg.(msg_index) n.(promptIndices))
    /\ (forall tr2 st2,
          Runs (drainQueue stack settings
                  (mkContent st'.(st_index) st'.(processedHashes) [msg] false))
               tr2 st2 ->
          tr2 = [] /\ st2.(st_index) = st'.(st_index)
          /\ st2.(processedHashes) = st'.(processedHashes)).
Proof.
  intros stack settings msg index processed tr st' stored L Hnew H Hsave.
  apply drainQueue_runs in H. cbn [isProcessing processingQueue st_index
                                   processedHashes] in H.
  destruct H as [(Ep & _)|[(_ & Eq & _)|(_ & i' & pr' & H & ->)]];
    [discriminate|discriminate|].
  apply drainLoop_cons_inv in H.
  destruct H as [[Hin _]|(_ & trc & o & i1 & tr' & H1 & H)];
    [contradiction|].
  pose proof (classifyPrompt_no_save _ _ _ _ _ _ _ H1) as Hquiet.
  destruct (popPrompt_after_classify _ _ _ _ _ _ _ H1)
    as (Hp1 & Hpop & Pc & Pn & _).
  destruct o as [r|e].
  - destruct H as (saved & -> & H). simpl in H.
    destruct H as [-> [= -> ->]].
    apply in_app_or in Hsave. destruct Hsave as [Hsave|Hsave].
    { apply Hquiet in Hsave. discriminate. }
    destruct Hsave as [Hsave|[]]. injection Hsave as <- ->.
    cbn [st_index processedHashes snapshot stored_prompts].
    split; [exact Hp1|]. split; [exact Hpop|].
    assert (Hproc : In (hashPrompt msg.(msg_fullText))
                       (set_add (hashPrompt msg.(msg_fullText)) processed))
      by (apply set_add_In; auto).
    split; [exact Hproc|]. split.
    + destruct (classifyPrompt_linked _ _ _ _ _ _ _
                  (linked_set_prompts _ _ L) H1) as (_ & Hr).
      destruct (Hr r eq_refl) as ((n & Gn & Hn) & Hc).
      cbn [promptOf fullText prompt_index] in *.
      exists (mkCacheEntry r.(nodeId) r.(confidence)), n.
      rewrite Pc, Pn. auto.
    + intros tr2 st2 H2. apply drainQueue_runs in H2.
      cbn [isProcessing processingQueue st_index processedHashes] in H2.
      destruct H2 as [(Ep & _)|[(_ & Eq & _)|(_ & i2 & pr2 & H2 & ->)]];
        [discriminate|discriminate|].
      apply drainLoop_cons_inv in H2.
      destruct H2 as [[_ H2]|(Hnew2 & _)]; [|contradiction].
      simpl in H2. destruct H2 as [-> [= -> ->]]. auto.
  - destruct H as (-> & H). simpl in H. destruct H as [-> _].
    rewrite app_nil_r in Hsave. apply Hquiet in Hsave. discriminate.
Qed.

(** ** content.ts: the conversation identifier *)

Lemma allChars_takeIdChars (s : string) :
  allChars isIdChar (takeIdChars s) = true.
Proof.
  induction s as [|c s IH]; simpl; [reflexivity|].
  destruct (isIdChar c) eqn:E; simpl; [rewrite E; exact IH|reflexivity].
Qed.

Lemma matchChat_some (pathname id : string) :
  matchChat pathname = Some id ->
  id <> "" /\ allChars isIdChar id = true.
Proof.
  induction pathname as [|c r IH]; [discriminate|].
  cbn [matchChat].
  destruct (String.prefix "/chat/" (String c r)); [|exact IH].
  destruct (takeIdChars
              (substring 6 (String.length (String c r) - 6) (String c r)))
    as [|c0 s0] eqn:E; [exact IH|].
  intros [= <-]. split; [discriminate|].
  rewrite <- E. apply allChars_takeIdChars.
Qed.

Lemma substring_all (s : string) : substring 0 (String.length s) s = s.
Proof. induction s as [|c s IH]; simpl; [reflexivity|]. rewrite IH. reflexivity. Qed.

Lemma takeIdChars_app (id rest : string) :
  allChars isIdChar id = true ->
  (forall c, firstChar rest = Some c -> isIdChar c = false) ->
  takeIdChars (id ++ rest) = id.
Proof.
  intros Hid Hrest. induction id as [|c id IH]; simpl in *.
  - destruct rest as [|c r]; [reflexivity|]. simpl.
    rewrite (Hrest c eq_refl). reflexivity.
  - apply andb_prop in Hid. destruct Hid as [Hc Hid].
    rewrite Hc, (IH Hid). reflexivity.
Qed.

Lemma prefix_app (a b : string) : String.prefix a (a ++ b) = true.
Proof.
  induction a as [|c a IH]; simpl.
  - destruct b; reflexivity.
  - destruct (Ascii.ascii_dec c c); [exact IH|congruence].
Qed.

Lemma matchChat_head (x : string) :
  matchChat ("/chat/" ++ x)
  = match takeIdChars x with
    | EmptyString => matchChat ("chat/" ++ x)
    | id => Some id
    end.
Proof.
  change ("/chat/" ++ x)%string with (String "/" ("chat/" ++ x)) at 1.
  cbn [matchChat].
  change (String "/" ("chat/" ++ x)) with ("/chat/" ++ x)%string.
  rewrite prefix_app.
  replace (substring 6 (String.length ("/chat/" ++ x) - 6) ("/chat/" ++ x))
    with x; [reflexivity|].
  simpl. rewrite Nat.sub_0_r. symmetry. apply substring_all.
Qed.

Lemma matchChat_none (pathname : string) :
  (forall m, substring m 6 pathname <> "/chat/") ->
  matchChat pathname = None.
Proof.
  induction pathname as [|c r IH]; intros H; [reflexivity|].
  cbn [matchChat].
  destruct (String.prefix "/chat/" (String c r)) eqn:P.
  - apply prefix_correct in P. exfalso. exact (H 0 P).
  - apply IH. intros m. exact (H (S m)).
Qed.

(** X26. The conversation identifier is never empty and never holds a
    [/], a [?] or a [#]. On a path that starts with [/chat/] followed by a
    segment of one character or more, it is that segment, up to the next
    [/], [?] or [#] or the end of the path; on a path in which [/chat/]
    does not occur it is ["home"]. *)
Theorem extractConversationId_is_a_segment :
  forall pathname : string,
    extractConversationId pathname <> ""
    /\ allChars isIdChar (extractConversationId pathname) = true
    /\ (forall id rest : string,
          pathname = ("/chat/" ++ id ++ rest)%string ->
          id <> "" -> allChars isIdChar id = true ->
          (forall c, firstChar rest = Some c -> isIdChar c = false) ->
          extractConversationId pathname = id)
    /\ ((forall m, substring m 6 pathname <> "/chat/") ->
        extractConversationId pathname = "home").
Proof.
  intros pathname. unfold extractConversationId.
  split; [|split; [|split]].
  - destruct (matchChat pathname) as [id|] eqn:M; [|discriminate].
    apply (matchChat_some _ _ M).
  - destruct (matchChat pathname) as [id|] eqn:M; [|reflexivity].
    apply (matchChat_some _ _ M).
  - intros id rest -> Hne Hid Hrest.
    rewrite matchChat_head, (takeIdChars_app id rest Hid Hrest).
    destruct id; [contradiction|reflexivity].
  - intros H. rewrite (matchChat_none pathname H). reflexivity.
Qed.

(** ** content.ts: the target of a click on a node *)

(** The search of [findFirstPromptIndex] below the node under [k], against
    the number of passages there. *)
Lemma findFirstPromptIndex_spec (stack : nat) (ns : Dict OutlineNode) :
  forall (k : string) (node : OutlineNode) (t : nat),
    dict_get k ns = Some node ->
    terminates stack ns k = true ->
    Total ns k t ->
    (t = 0 /\ findFirstPromptIndex stack ns node = Returned None)
    \/ (0 < t
        /\ exists idx k' n',
             findFirstPromptIndex stack ns node = Returned (Some idx)
             /\ Reach ns k k'
             /\ dict_get k' ns = Some n'
             /\ hd_error n'.(promptIndices) = Some idx).
Proof.
  induction stack as [|stack IH]; intros k node t G T Ht; [discriminate|].
  cbn [terminates] in T. rewrite lookup_get, G in T.
  inversion Ht as [k0 G0|k0 n0 s G0 Hs]; subst; [congruence|].
  assert (n0 = node) by congruence. subst n0.
  cbn [findFirstPromptIndex].
  destruct node.(promptIndices) as [|idx ps] eqn:Ep.
  - simpl List.length. simpl Nat.add.
    assert (L : forall cs s0,
               (forall c, In c cs -> In c node.(children)) ->
               forallb (terminates stack ns) cs = true ->
               TotalList ns cs s0 ->
               (s0 = 0
                /\ firstInChildren (findFirstPromptIndex stack ns)
                                   (findOnInherited stack) ns cs
                   = Returned None)
               \/ (0 < s0
                   /\ exists idx k' n',
                        firstInChildren (findFirstPromptIndex stack ns)
                                        (findOnInherited stack) ns cs
                        = Returned (Some idx)
                        /\ Reach ns k k'
                        /\ dict_get k' ns = Some n'
                        /\ hd_error n'.(promptIndices) = Some idx)).
    { induction cs as [|c cs IHc]; intros s0 Hsub F Hs0.
      - inversion Hs0; subst. left. auto.
      - inversion Hs0 as [|c0 cs0 n1 s1 Hc Hcs]; subst.
        simpl in F. apply andb_prop in F. destruct F as [Fc Fcs].
        assert (Hsub' : forall c', In c' cs -> In c' node.(children))
          by (intros c' Hc'; apply Hsub; simpl; auto).
        cbn [firstInChildren].
        destruct (lookup c ns) as [child| |] eqn:Lc.
        + assert (Gc : dict_get c ns = Some child)
            by (apply lookup_own; exact Lc).
          destruct (IH c child n1 Gc Fc Hc)
            as [[-> R]|(Hpos & idx & k' & n' & R & Hreach & G' & Hhd)].
          * rewrite R. simpl. apply IHc; auto.
          * rewrite R. right. split; [lia|].
            exists idx, k', n'. split; [reflexivity|].
            split; [|auto].
            eapply Reach_child; eauto. apply Hsub. simpl. auto.
        + exfalso. destruct stack; simpl in Fc; [discriminate|].
          rewrite Lc in Fc. discriminate.
        + apply lookup_missing in Lc. destruct Lc as [Gc _].
          inversion Hc; subst; [|congruence]. simpl. apply IHc; auto. }
    apply (L node.(children) s); auto.
  - right. simpl. split; [lia|].
    exists idx, k, node. split; [reflexivity|].
    split; [eapply Reach_here; eauto|]. split; [exact G|].
    rewrite Ep. reflexivity.
Qed.

(** X27. After a recount, the badge of a node tells whether a click on it
    finds a target. For every node of the tree, [findFirstPromptIndex]
    returns [null] exactly when the [promptCount] of the node is 0, and
    otherwise returns the first prompt index of a node of its subtree; it
    needs no more stack than the recount did. *)
Theorem findFirstPromptIndex_finds_what_is_counted :
  forall (stack : nat) (index index' : ConversationIndex) (k : string)
         (node : OutlineNode),
    updatePromptCounts stack index = Ret (Returned tt, index') ->
    Reach index'.(nodes) "root" k ->
    dict_get k index'.(nodes) = Some node ->
    (node.(promptCount) = 0
     /\ findFirstPromptIndex stack index'.(nodes) node = Returned None)
    \/ (0 < node.(promptCount)
        /\ exists idx k' n',
             findFirstPromptIndex stack index'.(nodes) node
             = Returned (Some idx)
             /\ Reach index'.(nodes) k k'
             /\ dict_get k' index'.(nodes) = Some n'
             /\ hd_error n'.(promptIndices) = Some idx).
Proof.
  intros stack index index' k node H Hreach G.
  unfold updatePromptCounts in H. injection H as Ho Hi.
  destruct (recountSubtree stack index.(nodes) "root") as [ns1 [t|e]] eqn:R;
    simpl in Ho; [clear Ho|discriminate].
  pose proof (recountSubtree_spec stack _ _ _ _ R) as (E & _ & _ & Hcounted).
  pose proof (recountSubtree_terminates stack _ _ _ _ R) as T.
  assert (Nodes : index'.(nodes) = ns1).
  { rewrite <- Hi. unfold recounted. rewrite R. reflexivity. }
  rewrite Nodes in *.
  destruct (Hcounted k (Reach_erase _ _ E _ _ Hreach)) as (n & Gn & Hn).
  assert (n = node) by congruence. subst n.
  apply (Total_erase _ _ (eq_sym E)) in Hn.
  apply (findFirstPromptIndex_spec stack ns1 k node _ G); [|exact Hn].
  apply (terminates_reach stack ns1 "root" k Hreach).
  rewrite (terminates_erase stack ns1 index.(nodes) "root" E). exact T.
Qed.

(** ** The worked example, clause by clause *)

Lemma fresh_idsb_sound (tr : list Obs) (ns : Dict OutlineNode) :
  fresh_idsb tr ns = true -> fresh_ids tr ns.
Proof.
  induction tr as [|x tr IH]; intros H pre post now suffix E.
  - destruct pre; discriminate.
  - simpl in H. apply andb_prop in H. destruct H as [Hx Hrest].
    destruct pre as [|y pre]; simpl in E.
    + injection E as -> ->. simpl in Hx.
      unfold dict_has in Hx.
      destruct (dict_get (makeId now suffix) ns); [discriminate|reflexivity].
    + injection E as _ E. exact (IH Hrest pre post now suffix E).
Qed.

Lemma classifyPrompt_idempotent_witness :
  fst (snd demoRun3) = Returned (mkResult "node_17_abcde" 0%float false)
  /\ capabilityCalls (fst demoRun3) = 0.
Proof.
  apply (classifyPrompt_idempotent 3 demoIndex0 demoPrompt demoSettings
           (fst demoRun1) (mkResult "node_17_abcde" 0%float true)
           demoIndex1 demoIndex2 demoPrompt demoSettings
           (fst demoRun3) (fst (snd demoRun3)) (snd (snd demoRun3))).
  - exact (Runs_runWith demoOracle
             (classifyPrompt 3 demoPrompt demoSettings demoIndex0)).
  - apply later_classifyPrompt
      with (p := demoPrompt2) (s := demoSettings) (tr := fst demoRun2)
           (o := Returned (mkResult "node_18_fghij" 1%float true))
           (i' := demoIndex2).
    + exact (Runs_runWith demoOracle2
               (classifyPrompt 3 demoPrompt2 demoSettings demoIndex1)).
    + discriminate.
    + apply later_now.
  - reflexivity.
  - exact (Runs_runWith demoOracle2
             (classifyPrompt 3 demoPrompt demoSettings demoIndex2)).
Defined.

Lemma cold_start_spawns_header_witness :
  (exists e,
      fst demoRun1 = [ObsEmbed demoPrompt.(firstSentence) (EmbedErr e)]
      /\ fst (snd demoRun1)
         = Thrown (Error ("[pipeline] Embed failed: " ++ e)%string)
      /\ demoIndex1 = demoIndex0)
  \/ (exists v lr now suffix c u t,
         fst demoRun1
         = ObsEmbed demoPrompt.(firstSentence) (EmbedOk v)
           :: ObsLabel demoPrompt.(firstSentence)
                       (existingLabelsOf demoIndex0) lr
           :: spawnTrace now suffix c u ++ [ObsNow t]
         /\ fst (snd demoRun1)
            = Returned (mkResult (makeId now suffix) 0%float true)
         /\ (exists n, dict_get (makeId now suffix) demoIndex1.(nodes) = Some n
                       /\ n.(label) = labelOf lr demoPrompt.(firstSentence)
                       /\ n.(rank) = Rank1
                       /\ n.(promptIndices) = [demoPrompt.(prompt_index)]
                       /\ n.(children) = [])
         /\ (exists r', dict_get "root" demoIndex1.(nodes) = Some r'
                        /\ r'.(children) = [makeId now suffix])
         /\ dict_get (makeId now suffix) demoIndex1.(embeddings) = Some v
         /\ dict_get (hashPrompt demoPrompt.(fullText)) demoIndex1.(cache)
            = Some (mkCacheEntry (makeId now suffix) 0%float)).
Proof.
  apply (cold_start_spawns_header 1 demoPrompt demoSettings demoIndex0
           (mkNode "root" "root" Rank0 [] [] 0 17 17)
           (fst demoRun1) (fst (snd demoRun1)) demoIndex1).
  - reflexivity.
  - reflexivity.
  - reflexivity.
  - exact (Runs_runWith demoOracle
             (classifyPrompt 3 demoPrompt demoSettings demoIndex0)).
Defined.

Lemma rank1_hit_spawns_rank2_witness :
  exists lr now suffix c u t parent,
    tl (fst demoRun2)
    = ObsLabel demoPrompt2.(firstSentence) (existingLabelsOf demoIndex1) lr
      :: spawnTrace now suffix c u ++ [ObsNow t]
    /\ fst (snd demoRun2)
       = Returned (mkResult (makeId now suffix) 1%float true)
    /\ dict_get (makeId now suffix) demoIndex1.(nodes) = None
    /\ dict_get "node_17_abcde" demoIndex1.(nodes) = Some parent
    /\ parent.(rank) = Rank1
    /\ (exists n, dict_get (makeId now suffix) demoIndex2.(nodes) = Some n
                  /\ n.(label) = labelOf lr demoPrompt2.(firstSentence)
                  /\ n.(rank) = Rank2
                  /\ n.(promptIndices) = [demoPrompt2.(prompt_index)]
                  /\ n.(children) = [])
    /\ (exists parent', dict_get "node_17_abcde" demoIndex2.(nodes)
                        = Some parent'
                        /\ parent'.(children)
                           = parent.(children) ++ [makeId now suffix])
    /\ dict_get (makeId now suffix) demoIndex2.(embeddings)
       = Some [1; 0]%float
    /\ dict_get (hashPrompt demoPrompt2.(fullText)) demoIndex2.(cache)
       = Some (mkCacheEntry (makeId now suffix) 1%float).
Proof.
  apply (rank1_hit_spawns_rank2 2 demoPrompt2 demoSettings demoIndex1
           [1; 0]%float (mkMatch "node_17_abcde" 1%float)
           (tl (fst demoRun2)) (fst (snd demoRun2)) demoIndex2).
  - reflexivity.
  - reflexivity.
  - vm_compute. reflexivity.
  - vm_compute. reflexivity.
  - apply fresh_idsb_sound. vm_compute. reflexivity.
  - exact (Runs_runWith demoOracle2
             (classifyPrompt 3 demoPrompt2 demoSettings demoIndex1)).
Defined.

Lemma drainQueue_embed_failure_witness :
  (forall o i',
      Runs (classifyPrompt 3
              (mkPromptInput demoMessage.(msg_index) demoMessage.(msg_fullText)
                             demoMessage.(headingText))
              demoSettings demoIndex0)
           (ObsEmbed demoMessage.(headingText) (EmbedErr "503") :: []) (o, i')
      <-> [] = ([] : list Obs)
          /\ o = Thrown (Error ("[pipeline] Embed failed: " ++ "503")%string)
          /\ i' = demoIndex0)
  /\ (forall r,
         popPrompt (set_prompts (demoIndex0.(prompts) ++ [r]) demoIndex0)
         = demoIndex0)
  /\ (forall out,
         Runs (drainLoop 3 demoSettings (demoMessage :: []) demoIndex0 [])
              (ObsEmbed demoMessage.(headingText) (EmbedErr "503") :: []) out
         <-> Runs (drainLoop 3 demoSettings [] demoIndex0 []) [] out)
  /\ (forall st',
         Runs (drainQueue 3 demoSettings
                 (mkContent demoIndex0 [] (demoMessage :: []) false))
              (ObsEmbed demoMessage.(headingText) (EmbedErr "503") :: []) st'
         <-> exists index' processed',
               Runs (drainLoop 3 demoSettings [] demoIndex0 []) []
                    (index', processed')
               /\ st' = mkContent index' processed' [] false).
Proof.
  apply (drainQueue_embed_failure 3 demoSettings demoMessage [] demoIndex0 []
           "503" []).
  - reflexivity.
  - reflexivity.
Defined.

Lemma label_failure_not_fatal_witness :
  exists r n,
    fst (snd demoRun1) = Returned r
    /\ r.(isNewNode) = true
    /\ dict_get r.(nodeId) demoIndex1.(nodes) = Some n
    /\ n.(label) = trim (slice0 40 demoPrompt.(firstSentence))
    /\ String.length n.(label) <= 40
    /\ trimmed n.(label).
Proof.
  apply (label_failure_not_fatal 2 demoPrompt demoSettings demoIndex0
           (fst demoRun1) (fst (snd demoRun1)) demoIndex1
           demoPrompt.(firstSentence) [] "offline").
  - reflexivity.
  - apply fresh_idsb_sound. vm_compute. reflexivity.
  - exact (Runs_runWith demoOracle
             (classifyPrompt 3 demoPrompt demoSettings demoIndex0)).
  - vm_compute. right. left. reflexivity.
Defined.

Lemma root_never_candidate_witness :
  dict_get "root" demoIndex2.(embeddings) = None
  /\ (forall parentId rk candidates,
         getChildCandidates demoIndex2 parentId rk = Returned candidates ->
         ~ In "root" (map fst candidates))
  /\ ~ In "root" (map fst (getAllEmbeddedCandidates demoIndex2))
  /\ exists r, dict_get "root" demoIndex2.(nodes) = Some r
               /\ r.(promptIndices) = [].
Proof.
  apply (root_never_candidate demoIndex2).
  apply reach_classifyPrompt
    with (stack := 3) (p := demoPrompt2) (s := demoSettings) (i := demoIndex1)
         (tr := fst demoRun2) (o := fst (snd demoRun2)).
  - apply reach_classifyPrompt
      with (stack := 3) (p := demoPrompt) (s := demoSettings) (i := demoIndex0)
           (tr := fst demoRun1) (o := fst (snd demoRun1)).
    + apply reach_createIndex
        with (cid := "c") (tr := fst (runWith demoOracle (createIndex "c"))).
      exact (Runs_runWith demoOracle (createIndex "c")).
    + exact (Runs_runWith demoOracle
               (classifyPrompt 3 demoPrompt demoSettings demoIndex0)).
  - exact (Runs_runWith demoOracle2
             (classifyPrompt 3 demoPrompt2 demoSettings demoIndex1)).
Defined.

(** ** The further properties on the worked example *)

Lemma demoIndex0_built : built demoIndex0.
Proof.
  apply built_createIndex
    with (cid := "c") (tr := fst (runWith demoOracle (createIndex "c"))).
  exact (Runs_runWith demoOracle (createIndex "c")).
Qed.

Lemma demoIndex1_built : built demoIndex1.
Proof.
  apply built_classifyPrompt
    with (stack := 3) (p := demoPrompt) (s := demoSettings) (i := demoIndex0)
         (tr := fst demoRun1) (o := fst (snd demoRun1)).
  - exact demoIndex0_built.
  - apply fresh_idsb_sound. vm_compute. reflexivity.
  - exact (Runs_runWith demoOracle
             (classifyPrompt 3 demoPrompt demoSettings demoIndex0)).
Qed.

Lemma demoIndex2_built : built demoIndex2.
Proof.
  apply built_classifyPrompt
    with (stack := 3) (p := demoPrompt2) (s := demoSettings) (i := demoIndex1)
         (tr := fst demoRun2) (o := fst (snd demoRun2)).
  - exact demoIndex1_built.
  - apply fresh_idsb_sound. vm_compute. reflexivity.
  - exact (Runs_runWith demoOracle2
             (classifyPrompt 3 demoPrompt2 demoSettings demoIndex1)).
Qed.

Lemma bestMatch_zero_vector_never_matches_witness :
  let q := [0; 0]%float in
  let cands := [("a", [1; 0]%float)] in
  let t := 0.5%float in
  (all_zero q -> bestMatch q cands t = None)
  /\ (forall m, bestMatch q cands t = Some m ->
        exists i emb,
          nth_error cands i = Some (m.(match_id), emb)
          /\ m.(score) = cosineSimilarity q emb
          /\ ~ all_zero emb).
Proof.
  apply (bestMatch_zero_vector_never_matches
           [0; 0]%float [("a", [1; 0]%float)] 0.5%float).
  - reflexivity.
Defined.

Lemma classifyPrompt_cache_keyed_by_hash_witness :
  let p1 := collidingPrompt1 in
  let p2 := collidingPrompt2 in
  let r1 := mkResult "node_17_abcde" 0%float true in
  let tr2 := fst collidingRun2 in
  let o2 := fst (snd collidingRun2) in
  o2 = Returned (mkResult r1.(nodeId) r1.(confidence) false)
  /\ capabilityCalls tr2 = 0
  /\ (forall pre suf : string,
        hashPrompt (pre ++ "Aa" ++ suf) = hashPrompt (pre ++ "BB" ++ suf)).
Proof.
  apply (classifyPrompt_cache_keyed_by_hash
           3 demoIndex0 collidingPrompt1 demoSettings
           (fst collidingRun1) (mkResult "node_17_abcde" 0%float true)
           (snd (snd collidingRun1)) (snd (snd collidingRun1))
           collidingPrompt2 demoSettings (fst collidingRun2)
           (fst (snd collidingRun2)) (snd (snd collidingRun2))).
  - exact (Runs_runWith demoOracle
             (classifyPrompt 3 collidingPrompt1 demoSettings demoIndex0)).
  - apply later_now.
  - vm_compute. reflexivity.
  - exact (Runs_runWith demoOracle2
             (classifyPrompt 3 collidingPrompt2 demoSettings
                (snd (snd collidingRun1)))).
Defined.

Lemma insertPromptIntoNode_attaches_once_witness :
  let nodeId := "node_17_abcde" in
  let promptIndex := 5%Z in
  let i := demoIndex1 in
  let tr := fst demoInsertRun in
  let o := fst (snd demoInsertRun) in
  let i' := snd (snd demoInsertRun) in
  match lookup nodeId i.(nodes) with
  | Missing => o = Returned tt /\ tr = [] /\ i' = i
  | Inherited => o = Thrown TypeError /\ tr = [] /\ i' = i
  | Own n =>
      o = Returned tt
      /\ exists now n',
           tr = [ObsNow now]
           /\ dict_get nodeId i'.(nodes) = Some n'
           /\ In promptIndex n'.(promptIndices)
           /\ (In promptIndex n.(promptIndices) ->
               n'.(promptIndices) = n.(promptIndices))
           /\ (~ In promptIndex n.(promptIndices) ->
               n'.(promptIndices) = n.(promptIndices) ++ [promptIndex])
           /\ (NoDup n.(promptIndices) -> NoDup n'.(promptIndices))
           /\ n'.(updatedAt) = now
           /\ n'.(node_id) = n.(node_id) /\ n'.(label) = n.(label)
           /\ n'.(rank) = n.(rank) /\ n'.(children) = n.(children)
           /\ n'.(promptCount) = n.(promptCount)
           /\ n'.(createdAt) = n.(createdAt)
  end
  /\ (lookup nodeId i.(nodes) = Inherited
      <-> dict_get nodeId i.(nodes) = None /\ isInherited nodeId = true)
  /\ (forall k, k <> nodeId ->
        dict_get k i'.(nodes) = dict_get k i.(nodes))
  /\ dict_keys i'.(nodes) = dict_keys i.(nodes)
  /\ i'.(prompts) = i.(prompts)
  /\ i'.(embeddings) = i.(embeddings)
  /\ i'.(cache) = i.(cache)
  /\ i'.(conversationId) = i.(conversationId).
Proof.
  apply (insertPromptIntoNode_attaches_once
           "node_17_abcde" 5%Z demoIndex1 (fst demoInsertRun)
           (fst (snd demoInsertRun)) (snd (snd demoInsertRun))).
  - exact (Runs_runWith demoOracle2
             (insertPromptIntoNode "node_17_abcde" 5 demoIndex1)).
Defined.

Lemma spawnNode_registers_node_witness :
  let parentId := "root" in
  let lbl := "Topic" in
  let rk := Rank1 in
  let emb := Some [1; 0]%float in
  let i := demoIndex0 in
  let tr := fst demoSpawnRun in
  let o := fst (snd demoSpawnRun) in
  let i' := snd (snd demoSpawnRun) in
  exists now suffix c u,
    tr = [ObsNow now; ObsRandom suffix; ObsNow c; ObsNow u]
    /\ (lookup parentId i.(nodes) = Inherited ->
        o = Thrown TypeError
        /\ i' = storeNode (mkNode (makeId now suffix) lbl rk [] [] 0 c u) i)
    /\ (lookup parentId i.(nodes) <> Inherited ->
        (exists n, o = Returned n /\ n.(node_id) = makeId now suffix)
        /\ dict_get (makeId now suffix) i'.(nodes)
           = Some (mkNode (makeId now suffix) lbl rk
                     (if String.eqb parentId (makeId now suffix)
                      then [makeId now suffix] else [])
                     [] 0 c u)
        /\ (forall k, k <> makeId now suffix ->
              dict_get k i'.(nodes)
              = option_map
                  (fun n => if String.eqb k parentId
                            then set_children
                                   (n.(children) ++ [makeId now suffix]) n
                            else n)
                  (dict_get k i.(nodes)))
        /\ dict_get (makeId now suffix) i'.(embeddings)
           = match emb with
             | Some v => Some v
             | None => dict_get (makeId now suffix) i.(embeddings)
             end
        /\ (forall k, k <> makeId now suffix ->
              dict_get k i'.(embeddings) = dict_get k i.(embeddings)))
    /\ dict_keys i'.(nodes)
       = (if dict_has (makeId now suffix) i.(nodes)
          then dict_keys i.(nodes)
          else dict_keys i.(nodes) ++ [makeId now suffix])
    /\ i'.(cache) = i.(cache)
    /\ i'.(prompts) = i.(prompts)
    /\ i'.(conversationId) = i.(conversationId).
Proof.
  apply (spawnNode_registers_node
           "root" "Topic" Rank1 (Some [1; 0]%float) demoIndex0
           (fst demoSpawnRun) (fst (snd demoSpawnRun))
           (snd (snd demoSpawnRun))).
  - exact (Runs_runWith demoOracle
             (spawnNode "root" "Topic" Rank1 (Some [1; 0]%float) demoIndex0)).
Defined.

Lemma updatePromptCounts_idempotent_witness :
  let stack := 3 in
  let index' := demoRecounted in
  updatePromptCounts stack index' = Ret (Returned tt, index').
Proof.
  apply (updatePromptCounts_idempotent
           3 demoIndex2 demoRecounted).
  - vm_compute. reflexivity.
Defined.

Lemma built_three_layers_witness :
  let i := demoIndex2 in
  (exists r, dict_get "root" i.(nodes) = Some r /\ r.(rank) = Rank0)
  /\ (forall k n, dict_get k i.(nodes) = Some n ->
        Reach i.(nodes) "root" k
        /\ (n.(rank) = Rank0 -> k = "root")
        /\ n.(rank) <> Rank3
        /\ (n.(rank) = Rank2 -> n.(children) = [])
        /\ (forall c, In c n.(children) ->
              exists cn, dict_get c i.(nodes) = Some cn
                         /\ rank_nat cn.(rank) = S (rank_nat n.(rank)))).
Proof.
  apply (built_three_layers
           demoIndex2).
  - exact demoIndex2_built.
Defined.

Lemma classifyPrompt_fails_only_on_embedding_witness :
  let p := demoPrompt3 in
  let i := demoIndex2 in
  let tr := fst demoRun4 in
  let o := fst (snd demoRun4) in
  let i' := snd (snd demoRun4) in
  (exists r, o = Returned r)
  \/ (exists e,
        dict_get (hashPrompt p.(fullText)) i.(cache) = None
        /\ tr = [ObsEmbed p.(firstSentence) (EmbedErr e)]
        /\ o = Thrown (Error ("[pipeline] Embed failed: " ++ e)%string)
        /\ i' = i).
Proof.
  apply (classifyPrompt_fails_only_on_embedding
           3 demoPrompt3 demoSettings demoIndex2 (fst demoRun4)
           (fst (snd demoRun4)) (snd (snd demoRun4))).
  - exact demoIndex2_built.
  - apply fresh_idsb_sound. vm_compute. reflexivity.
  - lia.
  - exact (Runs_runWith demoOracle2
             (classifyPrompt 3 demoPrompt3 demoSettings demoIndex2)).
Defined.

Lemma classifyPrompt_call_budget_witness :
  let p := demoPrompt4 in
  let i := demoIndex1 in
  let tr := fst demoRun6 in
  capabilityCalls tr <= 3
  /\ countObs isEmbedCall tr <= 2
  /\ countObs isLabelCall tr <= 1
  /\ countObs isSpawn tr <= 1
  /\ (dict_has (hashPrompt p.(fullText)) i.(cache) = true ->
      capabilityCalls tr = 0)
  /\ (dict_has (hashPrompt p.(fullText)) i.(cache) = false ->
      exists r rest,
        tr = ObsEmbed p.(firstSentence) r :: rest
        /\ (forall text r', In (ObsEmbed text r') rest ->
              text = p.(fullText))
        /\ (forall context labels r', In (ObsLabel context labels r') rest ->
              context = p.(firstSentence)
              /\ labels = existingLabelsOf i)).
Proof.
  apply (classifyPrompt_call_budget
           3 demoPrompt4 demoSettings demoIndex1 (fst demoRun6)
           (fst (snd demoRun6)) (snd (snd demoRun6))).
  - exact (Runs_runWith demoOracle4
             (classifyPrompt 3 demoPrompt4 demoSettings demoIndex1)).
Defined.

Lemma rank2_hit_attaches_witness :
  let p := demoPrompt3 in
  let i := demoIndex2 in
  let hit1 := mkMatch "node_17_abcde" 1%float in
  let hit2 := mkMatch "node_18_fghij" 1%float in
  let tr := tl (fst demoRun4) in
  let o := fst (snd demoRun4) in
  let i' := snd (snd demoRun4) in
  o = Returned (mkResult hit2.(match_id) hit2.(score) false)
  /\ (exists t, tr = [ObsNow t])
  /\ (exists parent n n',
        dict_get hit1.(match_id) i.(nodes) = Some parent
        /\ In hit2.(match_id) parent.(children)
        /\ dict_get hit2.(match_id) i.(nodes) = Some n
        /\ n.(rank) = Rank2
        /\ dict_get hit2.(match_id) i'.(nodes) = Some n'
        /\ In p.(prompt_index) n'.(promptIndices)
        /\ n'.(label) = n.(label) /\ n'.(children) = n.(children))
  /\ dict_keys i'.(nodes) = dict_keys i.(nodes)
  /\ i'.(embeddings) = i.(embeddings)
  /\ dict_get (hashPrompt p.(fullText)) i'.(cache)
     = Some (mkCacheEntry hit2.(match_id) hit2.(score)).
Proof.
  apply (rank2_hit_attaches
           3 demoPrompt3 demoSettings demoIndex2 [1; 0]%float
           (mkMatch "node_17_abcde" 1%float) (mkMatch "node_18_fghij" 1%float)
           (tl (fst demoRun4)) (fst (snd demoRun4)) (snd (snd demoRun4))).
  - reflexivity.
  - vm_compute. reflexivity.
  - vm_compute. reflexivity.
  - exact (Runs_runWith demoOracle2
             (classifyPrompt 3 demoPrompt3 demoSettings demoIndex2)).
Defined.

Lemma no_match_spawns_header_witness :
  let p := demoPrompt4 in
  let i := demoIndex1 in
  let v := [0; 1]%float in
  let tr := skipn 2 (fst demoRun5) in
  let o := fst (snd demoRun5) in
  let i' := snd (snd demoRun5) in
  exists lr now suffix c u t,
    tr = ObsLabel p.(firstSentence) (existingLabelsOf i) lr
         :: [ObsNow now; ObsRandom suffix; ObsNow c; ObsNow u; ObsNow t]
    /\ o = Returned (mkResult (makeId now suffix) 0%float true)
    /\ (exists n, dict_get (makeId now suffix) i'.(nodes) = Some n
                  /\ n.(label) = labelOf lr p.(firstSentence)
                  /\ n.(rank) = Rank1
                  /\ n.(promptIndices) = [p.(prompt_index)]
                  /\ n.(children) = [])
    /\ (forall r, dict_get "root" i.(nodes) = Some r ->
          exists r', dict_get "root" i'.(nodes) = Some r'
                     /\ r'.(children) = r.(children) ++ [makeId now suffix])
    /\ dict_get (makeId now suffix) i'.(embeddings) = Some v
    /\ dict_get (hashPrompt p.(fullText)) i'.(cache)
       = Some (mkCacheEntry (makeId now suffix) 0%float).
Proof.
  apply (no_match_spawns_header
           2 demoPrompt4 demoSettings demoIndex1 [0; 1]%float
           [ObsEmbed demoPrompt4.(fullText) (EmbedErr "quota")]
           (skipn 2 (fst demoRun5)) (fst (snd demoRun5))
           (snd (snd demoRun5))).
  - reflexivity.
  - apply fresh_idsb_sound. vm_compute. reflexivity.
  - vm_compute. reflexivity.
  - right. left. split.
    + vm_compute. reflexivity.
    + exists "quota". reflexivity.
  - exact (Runs_runWith demoOracle3
             (classifyPrompt 3 demoPrompt4 demoSettings demoIndex1)).
Defined.

Lemma escalation_on_header_spawns_subheader_witness :
  let p := demoPrompt4 in
  let s := demoSettings in
  let i := demoIndex1 in
  let v := [0; 1]%float in
  let fv := [1; 0]%float in
  let fullHit := mkMatch "node_17_abcde" 1%float in
  let hitNode := demoHeader1 in
  let tr := skipn 2 (fst demoRun6) in
  let o := fst (snd demoRun6) in
  let i' := snd (snd demoRun6) in
  bestMatch v (childCandidates i "root" (Some Rank1)) s.(thresholdHigh)
    = None
  /\ exists lr now suffix c u t,
       tr = ObsLabel p.(firstSentence) (existingLabelsOf i) lr
            :: [ObsNow now; ObsRandom suffix; ObsNow c; ObsNow u; ObsNow t]
       /\ o = Returned (mkResult (makeId now suffix) fullHit.(score) true)
       /\ (exists n, dict_get (makeId now suffix) i'.(nodes) = Some n
                     /\ n.(label) = labelOf lr p.(firstSentence)
                     /\ n.(rank) = Rank2
                     /\ n.(promptIndices) = [p.(prompt_index)]
                     /\ n.(children) = [])
       /\ (exists hitNode',
             dict_get fullHit.(match_id) i'.(nodes) = Some hitNode'
             /\ hitNode'.(children)
                = hitNode.(children) ++ [makeId now suffix])
       /\ dict_get (makeId now suffix) i'.(embeddings) = Some fv
       /\ dict_get (hashPrompt p.(fullText)) i'.(cache)
          = Some (mkCacheEntry (makeId now suffix) fullHit.(score)).
Proof.
  apply (escalation_on_header_spawns_subheader
           2 demoPrompt4 demoSettings demoIndex1 [0; 1]%float [1; 0]%float
           (mkMatch "node_17_abcde" 1%float) demoHeader1
           (skipn 2 (fst demoRun6)) (fst (snd demoRun6))
           (snd (snd demoRun6))).
  - reflexivity.
  - apply fresh_idsb_sound. vm_compute. reflexivity.
  - vm_compute. reflexivity.
  - vm_compute. reflexivity.
  - reflexivity.
  - exact (Runs_runWith demoOracle4
             (classifyPrompt 3 demoPrompt4 demoSettings demoIndex1)).
Defined.

Lemma escalation_on_subheader_attaches_witness :
  let p := demoPrompt4 in
  let s := demoSettings in
  let i := demoIndex3 in
  let v := [0; 1]%float in
  let fullHit := demoFullHitMatch in
  let hitNode := demoSubheader3 in
  let tr := skipn 2 (fst demoRun8) in
  let o := fst (snd demoRun8) in
  let i' := snd (snd demoRun8) in
  bestMatch v (childCandidates i "root" (Some Rank1)) s.(thresholdHigh)
    = None
  /\ o = Returned (mkResult fullHit.(match_id) fullHit.(score) false)
  /\ (exists t, tr = [ObsNow t])
  /\ (exists hitNode',
        dict_get fullHit.(match_id) i'.(nodes) = Some hitNode'
        /\ In p.(prompt_index) hitNode'.(promptIndices)
        /\ hitNode'.(label) = hitNode.(label)
        /\ hitNode'.(children) = hitNode.(children))
  /\ dict_keys i'.(nodes) = dict_keys i.(nodes)
  /\ i'.(embeddings) = i.(embeddings)
  /\ dict_get (hashPrompt p.(fullText)) i'.(cache)
     = Some (mkCacheEntry fullHit.(match_id) fullHit.(score)).
Proof.
  apply (escalation_on_subheader_attaches
           3 demoPrompt4 demoSettings demoIndex3 [0; 1]%float [0.5; 0.75]%float
           demoFullHitMatch demoSubheader3
           (skipn 2 (fst demoRun8)) (fst (snd demoRun8))
           (snd (snd demoRun8))).
  - reflexivity.
  - vm_compute. reflexivity.
  - vm_compute. reflexivity.
  - discriminate.
  - exact (Runs_runWith demoOracle6
             (classifyPrompt 3 demoPrompt4 demoSettings demoIndex3)).
Defined.

Lemma classifyPrompt_lands_on_a_node_witness :
  let p := demoPrompt2 in
  let o := fst (snd demoRun2) in
  let i' := demoIndex2 in
  linked i'
  /\ (forall r, o = Returned r ->
        (exists n, dict_get r.(nodeId) i'.(nodes) = Some n
                   /\ n.(node_id) = r.(nodeId)
                   /\ In p.(prompt_index) n.(promptIndices))
        /\ dict_get (hashPrompt p.(fullText)) i'.(cache)
           = Some (mkCacheEntry r.(nodeId) r.(confidence))).
Proof.
  apply (classifyPrompt_lands_on_a_node
           3 demoPrompt2 demoSettings demoIndex1 (fst demoRun2)
           (fst (snd demoRun2)) demoIndex2).
  - exact (built_linked demoIndex1 demoIndex1_built).
  - exact (Runs_runWith demoOracle2
             (classifyPrompt 3 demoPrompt2 demoSettings demoIndex1)).
Defined.

Lemma built_references_resolve_witness :
  let i := demoIndex2 in
  (forall k n, In (k, n) i.(nodes) -> n.(node_id) = k)
  /\ (forall id v, dict_get id i.(embeddings) = Some v ->
        exists n, dict_get id i.(nodes) = Some n)
  /\ (forall h e, dict_get h i.(cache) = Some e ->
        exists n, dict_get e.(cache_nodeId) i.(nodes) = Some n).
Proof.
  apply (built_references_resolve
           demoIndex2).
  - exact demoIndex2_built.
Defined.

Lemma classifyPrompt_only_grows_witness :
  let i := demoIndex1 in
  let tr := fst demoRun2 in
  let i' := demoIndex2 in
  (forall k n, dict_get k i.(nodes) = Some n ->
     exists n', dict_get k i'.(nodes) = Some n'
                /\ n'.(node_id) = n.(node_id) /\ n'.(label) = n.(label)
                /\ n'.(rank) = n.(rank) /\ n'.(createdAt) = n.(createdAt)
                /\ (exists cs, n'.(children) = n.(children) ++ cs)
                /\ (exists ps, n'.(promptIndices) = n.(promptIndices) ++ ps))
  /\ (exists ks, dict_keys i'.(nodes) = dict_keys i.(nodes) ++ ks
                 /\ List.length ks = countObs isSpawn tr)
  /\ (forall id v, dict_get id i.(embeddings) = Some v ->
        dict_get id i'.(embeddings) = Some v)
  /\ (forall h e, dict_get h i.(cache) = Some e ->
        dict_get h i'.(cache) = Some e)
  /\ i'.(prompts) = i.(prompts)
  /\ i'.(conversationId) = i.(conversationId).
Proof.
  apply (classifyPrompt_only_grows
           3 demoPrompt2 demoSettings demoIndex1 (fst demoRun2)
           (fst (snd demoRun2)) demoIndex2).
  - exact (built_linked demoIndex1 demoIndex1_built).
  - apply fresh_idsb_sound. vm_compute. reflexivity.
  - exact (Runs_runWith demoOracle2
             (classifyPrompt 3 demoPrompt2 demoSettings demoIndex1)).
Defined.

Lemma initializeEmbeddings_requests_missing_vectors_witness :
  let s := demoSettings in
  let i := demoBare in
  let tr := fst demoInitRun in
  let o := fst (snd demoInitRun) in
  let i' := snd (snd demoInitRun) in
  o = Returned tt
  /\ i'.(nodes) = i.(nodes) /\ i'.(cache) = i.(cache)
  /\ i'.(prompts) = i.(prompts)
  /\ i'.(conversationId) = i.(conversationId)
  /\ (s.(geminiApiKey) = "" -> tr = [] /\ i' = i)
  /\ (s.(geminiApiKey) <> "" ->
      exists rs,
        List.length rs = List.length (needsEmbed i)
        /\ tr = embedRequests (combine (needsEmbed i) rs)
        /\ i'.(embeddings)
           = storeEmbeddings (combine (needsEmbed i) rs) i.(embeddings))
  /\ (forall n, In n (needsEmbed i)
                <-> In n (dict_values i.(nodes)) /\ n.(rank) <> Rank0
                    /\ dict_get n.(node_id) i.(embeddings) = None)
  /\ (forall id v, dict_get id i.(embeddings) = Some v ->
        dict_get id i'.(embeddings) = Some v).
Proof.
  apply (initializeEmbeddings_requests_missing_vectors
           demoSettings demoBare (fst demoInitRun)
           (fst (snd demoInitRun)) (snd (snd demoInitRun))).
  - exact (Runs_runWith demoOracle
             (initializeEmbeddings demoSettings demoBare)).
Defined.

Lemma initializeEmbeddings_completes_witness :
  let i' := snd (snd demoInitRun) in
  (forall n, In n (dict_values i'.(nodes)) -> n.(rank) <> Rank0 ->
             dict_has n.(node_id) i'.(embeddings) = true)
  /\ needsEmbed i' = []
  /\ (forall s2 tr2 o2 i2,
        Runs (initializeEmbeddings s2 i') tr2 (o2, i2) ->
        tr2 = [] /\ o2 = Returned tt /\ i2 = i').
Proof.
  apply (initializeEmbeddings_completes
           demoSettings demoBare (fst demoInitRun)
           (fst (snd demoInitRun)) (snd (snd demoInitRun))).
  - discriminate.
  - exact (Runs_runWith demoOracle
             (initializeEmbeddings demoSettings demoBare)).
  - vm_compute. reflexivity.
Defined.

Lemma drainQueue_processed_is_cached_witness :
  let st := demoState0 in
  let tr := fst demoDrainRun in
  let st' := snd demoDrainRun in
  processed_is_cached st'.(st_index) st'.(processedHashes)
  /\ (forall h, In h st.(processedHashes) -> In h st'.(processedHashes))
  /\ (forall h, In h st'.(processedHashes) ->
        In h st.(processedHashes)
        \/ exists m, In m st.(processingQueue)
                     /\ h = hashPrompt m.(msg_fullText))
  /\ (capabilityCalls tr = 0 ->
      tr = [] /\ st'.(st_index) = st.(st_index)
      /\ st'.(processedHashes) = st.(processedHashes))
  /\ (st.(isProcessing) = true -> tr = [] /\ st' = st)
  /\ (st.(isProcessing) = false ->
      st'.(processingQueue) = [] /\ st'.(isProcessing) = false).
Proof.
  apply (drainQueue_processed_is_cached
           3 demoSettings demoState0 (fst demoDrainRun) (snd demoDrainRun)).
  - intros h. split.
    + intros [].
    + intro H. vm_compute in H. discriminate H.
  - exact (Runs_runWith demoOracle
             (drainQueue 3 demoSettings demoState0)).
Defined.

Lemma drainQueue_prompts_recorded_witness :
  let st := demoState0 in
  let tr := fst demoDrainRun in
  let st' := snd demoDrainRun in
  prompts_recorded st'.(st_index) st'.(processedHashes)
  /\ exists new,
       st'.(st_index).(prompts) = st.(st_index).(prompts) ++ new
       /\ (forall r, In r new ->
             exists m, In m st.(processingQueue) /\ r = recordOf m)
       /\ List.length new = countObs isSavedOk tr.
Proof.
  apply (drainQueue_prompts_recorded
           3 demoSettings demoState0 (fst demoDrainRun) (snd demoDrainRun)).
  - split.
    + apply NoDup_nil.
    + intros r [].
  - exact (Runs_runWith demoOracle
             (drainQueue 3 demoSettings demoState0)).
Defined.

Lemma drainQueue_save_failure_drops_record_witness :
  let stack := 3 in
  let settings := demoSettings in
  let msg := demoMessage in
  let index := demoIndex0 in
  let st' := snd demoDrainRun2 in
  let stored := demoFailedSave in
  stored.(stored_prompts) = index.(prompts) ++ [recordOf msg]
  /\ st'.(st_index).(prompts) = index.(prompts)
  /\ In (hashPrompt msg.(msg_fullText)) st'.(processedHashes)
  /\ (exists e n,
        dict_get (hashPrompt msg.(msg_fullText)) st'.(st_index).(cache)
        = Some e
        /\ dict_get e.(cache_nodeId) st'.(st_index).(nodes) = Some n
        /\ In msg.(msg_index) n.(promptIndices))
  /\ (forall tr2 st2,
        Runs (drainQueue stack settings
                (mkContent st'.(st_index) st'.(processedHashes) [msg] false))
             tr2 st2 ->
        tr2 = [] /\ st2.(st_index) = st'.(st_index)
        /\ st2.(processedHashes) = st'.(processedHashes)).
Proof.
  apply (drainQueue_save_failure_drops_record
           3 demoSettings demoMessage demoIndex0 [] (fst demoDrainRun2)
           (snd demoDrainRun2) demoFailedSave).
  - exact (built_linked demoIndex0 demoIndex0_built).
  - intros [].
  - exact (Runs_runWith demoOracle7
             (drainQueue 3 demoSettings demoState0)).
  - vm_compute. repeat (first [left; reflexivity | right]).
Defined.

Lemma findFirstPromptIndex_finds_what_is_counted_witness :
  let stack := 3 in
  let index' := demoRecounted in
  let k := "node_17_abcde" in
  let node := demoHeader in
  (node.(promptCount) = 0
   /\ findFirstPromptIndex stack index'.(nodes) node = Returned None)
  \/ (0 < node.(promptCount)
      /\ exists idx k' n',
           findFirstPromptIndex stack index'.(nodes) node
           = Returned (Some idx)
           /\ Reach index'.(nodes) k k'
           /\ dict_get k' index'.(nodes) = Some n'
           /\ hd_error n'.(promptIndices) = Some idx).
Proof.
  apply (findFirstPromptIndex_finds_what_is_counted
           3 demoIndex2 demoRecounted "node_17_abcde" demoHeader).
  - vm_compute. reflexivity.
  - eapply Reach_child.
    + reflexivity.
    + left. reflexivity.
    + eapply Reach_here. reflexivity.
  - vm_compute. reflexivity.
Defined.
